(** * schedulai: the scheduling DSL validator and constraint compiler

    A shallow embedding of [execution/ortools-api/api.py] (the copy under
    [app/] is identical for every function modelled here) and the properties
    of it that the specification states.

    Conventions of the embedding.
    - A Python value of the spec is a [pyval]: the JSON tree that the HTTP
      layer hands over.  Numbers are integers ([Z]); strings are byte strings.
    - A raised exception is the [Raise] outcome of the [result] monad; only
      the exception class is kept, not its message.
    - The CP-SAT model is the list of rows given to [model.Add], over named
      decision variables; the solver itself is a parameter. *)

From Stdlib Require Import ZArith List String Ascii Bool Lia Arith.
From Stdlib Require Import Sorting.Sorted Sorting.Permutation.
From Stdlib Require Import Structures.OrderedTypeEx.
Import ListNotations.

Local Open Scope string_scope.
Local Open Scope list_scope.
Local Open Scope Z_scope.

(** ** Python values *)

(** Hashable atoms, as used for dictionary keys and set elements.  Python
    identifies [True] with [1] and [False] with [0] there, so booleans are
    stored as integers. *)
Inductive hkey : Type :=
| HNone
| HInt (z : Z)
| HStr (s : string).

#[warnings="-register-all"]
Inductive pyval : Type :=
| PNone
| PBool (b : bool)
| PInt (z : Z)
| PStr (s : string)
| PList (l : list pyval)
| PDict (kvs : list (hkey * pyval)).

Inductive exn : Type :=
| KeyError | ValueError | TypeError | AttributeError | IndexError.

Inductive result (A : Type) : Type :=
| Ok (a : A)
| Raise (e : exn).
Arguments Ok {A} a.
Arguments Raise {A} e.

Definition bind {A B} (m : result A) (k : A -> result B) : result B :=
  match m with
  | Ok a => k a
  | Raise e => Raise e
  end.

Notation "x <- m ;; k" := (bind m (fun x => k))
  (at level 61, m at next level, right associativity).
Notation "' p <- m ;; k" := (bind m (fun p => k))
  (at level 61, p pattern, m at next level, right associativity).
Notation "m ;;; k" := (bind m (fun _ => k))
  (at level 61, right associativity).

(** [for x in l: body], with an accumulator threaded through the body. *)
Fixpoint for_each {A S} (l : list A) (body : A -> S -> result S) (s : S)
  : result S :=
  match l with
  | [] => Ok s
  | x :: l' => s' <- body x s ;; for_each l' body s'
  end.

(** A comprehension [[f x for x in l]] whose element expression may raise. *)
Fixpoint map_r {A B} (f : A -> result B) (l : list A) : result (list B) :=
  match l with
  | [] => Ok []
  | x :: l' => y <- f x ;; ys <- map_r f l' ;; Ok (y :: ys)
  end.

(** A comprehension [[x for x in l if f x]] whose test may raise. *)
Fixpoint filter_r {A} (f : A -> result bool) (l : list A) : result (list A) :=
  match l with
  | [] => Ok []
  | x :: l' =>
      b <- f x ;; ys <- filter_r f l' ;; Ok (if b then x :: ys else ys)
  end.

Definition hkey_eqb (a b : hkey) : bool :=
  match a, b with
  | HNone, HNone => true
  | HInt x, HInt y => Z.eqb x y
  | HStr x, HStr y => String.eqb x y
  | _, _ => false
  end.

Definition mem (k : hkey) (l : list hkey) : bool := existsb (hkey_eqb k) l.

(** [hash(v)]: lists and dicts are unhashable. *)
Definition to_hkey (v : pyval) : result hkey :=
  match v with
  | PNone => Ok HNone
  | PBool b => Ok (HInt (if b then 1 else 0))
  | PInt z => Ok (HInt z)
  | PStr s => Ok (HStr s)
  | PList _ | PDict _ => Raise TypeError
  end.

Definition of_hkey (k : hkey) : pyval :=
  match k with
  | HNone => PNone
  | HInt z => PInt z
  | HStr s => PStr s
  end.

(** Truthiness, as tested by [if v], [not v] and [v or w]. *)
Definition truthy (v : pyval) : bool :=
  match v with
  | PNone => false
  | PBool b => b
  | PInt z => negb (Z.eqb z 0)
  | PStr s => negb (String.eqb s "")
  | PList l => match l with [] => false | _ => true end
  | PDict kvs => match kvs with [] => false | _ => true end
  end.

(** [v or w] *)
Definition py_or (v w : pyval) : pyval := if truthy v then v else w.

Definition is_list (v : pyval) : bool :=
  match v with PList _ => true | _ => false end.
Definition is_dict (v : pyval) : bool :=
  match v with PDict _ => true | _ => false end.
(** [isinstance(v, int)]: [bool] is a subclass of [int]. *)
Definition is_int (v : pyval) : bool :=
  match v with PInt _ | PBool _ => true | _ => false end.
(** [v == "lit"] for a string literal. *)
Definition is_str (v : pyval) (lit : string) : bool :=
  match v with PStr s => String.eqb s lit | _ => false end.

(** The integer behind a value that passed [isinstance(v, int)]. *)
Definition int_of (v : pyval) : Z :=
  match v with
  | PInt z => z
  | PBool b => if b then 1 else 0
  | _ => 0
  end.

(** *** Dictionaries: insertion-ordered association lists *)

Fixpoint dict_lookup {V} (k : hkey) (kvs : list (hkey * V)) : option V :=
  match kvs with
  | [] => None
  | (k', v) :: rest => if hkey_eqb k k' then Some v else dict_lookup k rest
  end.

(** [d[k] = v]: overwrite in place, or append a new entry. *)
Fixpoint dict_set {V} (k : hkey) (v : V) (kvs : list (hkey * V))
  : list (hkey * V) :=
  match kvs with
  | [] => [(k, v)]
  | (k', v') :: rest =>
      if hkey_eqb k k' then (k', v) :: rest else (k', v') :: dict_set k v rest
  end.

Fixpoint is_substring (p s : string) : bool :=
  String.prefix p s ||
  match s with
  | EmptyString => false
  | String _ s' => is_substring p s'
  end.

(** [k in c] for a string literal [k]. *)
Definition has_key (c : pyval) (k : string) : result bool :=
  match c with
  | PDict kvs =>
      Ok (match dict_lookup (HStr k) kvs with Some _ => true | None => false end)
  | PList l => Ok (existsb (fun v => is_str v k) l)
  | PStr s => Ok (is_substring k s)
  | PNone | PBool _ | PInt _ => Raise TypeError
  end.

(** [c.get(k)] and [c.get(k, dflt)] for a string literal [k]; only
    dictionaries have the method. *)
Definition py_get (c : pyval) (k : string) (dflt : pyval) : result pyval :=
  match c with
  | PDict kvs =>
      Ok (match dict_lookup (HStr k) kvs with Some v => v | None => dflt end)
  | _ => Raise AttributeError
  end.

(** [c.get(k, dflt)] for a computed key, which has to be hashable. *)
Definition py_get_v (c : pyval) (k : pyval) (dflt : pyval) : result pyval :=
  match c with
  | PDict kvs =>
      h <- to_hkey k ;;
      Ok (match dict_lookup h kvs with Some v => v | None => dflt end)
  | _ => Raise AttributeError
  end.

(** [c[k]] for a string literal [k]. *)
Definition py_item (c : pyval) (k : string) : result pyval :=
  match c with
  | PDict kvs =>
      match dict_lookup (HStr k) kvs with
      | Some v => Ok v
      | None => Raise KeyError
      end
  | _ => Raise TypeError
  end.

(** [c[k]] for a computed key on what is expected to be a dictionary. *)
Definition py_item_v (c : pyval) (k : pyval) : result pyval :=
  match c with
  | PDict kvs =>
      h <- to_hkey k ;;
      match dict_lookup h kvs with
      | Some v => Ok v
      | None => Raise KeyError
      end
  | PList l =>
      match k with
      | PInt _ | PBool _ =>
          let i := int_of k in
          let n := Z.of_nat (List.length l) in
          let j := if i <? 0 then i + n else i in
          if (0 <=? j) && (j <? n)
          then match nth_error l (Z.to_nat j) with
               | Some v => Ok v
               | None => Raise IndexError
               end
          else Raise IndexError
      | _ => Raise TypeError
      end
  | PStr s =>
      match k with
      | PInt _ | PBool _ =>
          let i := int_of k in
          let n := Z.of_nat (String.length s) in
          let j := if i <? 0 then i + n else i in
          if (0 <=? j) && (j <? n)
          then match String.get (Z.to_nat j) s with
               | Some c => Ok (PStr (String c EmptyString))
               | None => Raise IndexError
               end
          else Raise IndexError
      | _ => Raise TypeError
      end
  | PNone | PBool _ | PInt _ => Raise TypeError
  end.

(** [c[0]] *)
Definition py_first (c : pyval) : result pyval := py_item_v c (PInt 0).

Fixpoint chars (s : string) : list pyval :=
  match s with
  | EmptyString => []
  | String c s' => PStr (String c EmptyString) :: chars s'
  end.

(** [for x in v]: the elements of a list, the characters of a string, the
    keys of a dictionary. *)
Definition py_iter (v : pyval) : result (list pyval) :=
  match v with
  | PList l => Ok l
  | PStr s => Ok (chars s)
  | PDict kvs => Ok (map (fun kv => of_hkey (fst kv)) kvs)
  | PNone | PBool _ | PInt _ => Raise TypeError
  end.

Definition py_len (v : pyval) : result Z :=
  match v with
  | PList l => Ok (Z.of_nat (List.length l))
  | PStr s => Ok (Z.of_nat (String.length s))
  | PDict kvs => Ok (Z.of_nat (List.length kvs))
  | PNone | PBool _ | PInt _ => Raise TypeError
  end.

(** *** Strings and [int()] *)

Definition is_space (c : ascii) : bool :=
  let n := nat_of_ascii c in
  ((9 <=? n) && (n <=? 13) || (28 <=? n) && (n <=? 32))%nat.

Definition digit_val (c : ascii) : option Z :=
  let n := nat_of_ascii c in
  if ((48 <=? n) && (n <=? 57))%nat then Some (Z.of_nat (n - 48)) else None.

Fixpoint lstrip (s : string) : string :=
  match s with
  | EmptyString => EmptyString
  | String c s' => if is_space c then lstrip s' else s
  end.

Fixpoint rstrip (s : string) : string :=
  match s with
  | EmptyString => EmptyString
  | String c s' =>
      match rstrip s' with
      | EmptyString => if is_space c then EmptyString else String c EmptyString
      | r => String c r
      end
  end.

(** Decimal digits, where a single underscore may separate two digits. *)
Fixpoint parse_digits (acc : Z) (after_digit : bool) (s : string) : option Z :=
  match s with
  | EmptyString => if after_digit then Some acc else None
  | String c s' =>
      match digit_val c with
      | Some d => parse_digits (10 * acc + d) true s'
      | None =>
          if Ascii.eqb c "_" && after_digit then parse_digits acc false s'
          else None
      end
  end.

(** [int(s)] for a string: surrounding white space, an optional sign, digits. *)
Definition parse_int (s : string) : option Z :=
  match rstrip (lstrip s) with
  | String "+" s' => parse_digits 0 false s'
  | String "-" s' => option_map Z.opp (parse_digits 0 false s')
  | s' => parse_digits 0 false s'
  end.

(** [int(v)] *)
Definition py_int (v : pyval) : result Z :=
  match v with
  | PInt z => Ok z
  | PBool b => Ok (if b then 1 else 0)
  | PStr s => match parse_int s with Some z => Ok z | None => Raise ValueError end
  | PNone | PList _ | PDict _ => Raise TypeError
  end.

(** [s.isdigit()] *)
Fixpoint all_digits (s : string) : bool :=
  match s with
  | EmptyString => true
  | String c s' =>
      match digit_val c with Some _ => all_digits s' | None => false end
  end.

Definition isdigit (s : string) : bool :=
  match s with EmptyString => false | _ => all_digits s end.

(** [s.split(sep)] for a one-character separator. *)
Fixpoint split_on (sep : ascii) (s : string) : list string :=
  match s with
  | EmptyString => [EmptyString]
  | String c s' =>
      let r := split_on sep s' in
      if Ascii.eqb c sep then EmptyString :: r
      else match r with
           | h :: t => String c h :: t
           | [] => [String c EmptyString]
           end
  end.

(** [hh, mm = v.split(":")]: only a string has [split], and the unpacking
    needs exactly two parts. *)
Definition split_colon (v : pyval) : result (string * string) :=
  match v with
  | PStr s =>
      match split_on ":" s with
      | [hh; mm] => Ok (hh, mm)
      | _ => Raise ValueError
      end
  | _ => Raise AttributeError
  end.

(** *** Sets of hashable values

    A Python [set] is kept as a duplicate-free list.  The program never
    depends on the iteration order of a set: it only tests membership,
    intersects, and sorts. *)

Definition pyset := list hkey.

Definition set_add (k : hkey) (s : pyset) : pyset :=
  if mem k s then s else s ++ [k].

Definition set_of_keys (l : list hkey) : pyset :=
  fold_left (fun s k => set_add k s) l [].

(** [set(v)] *)
Definition py_set (v : pyval) : result pyset :=
  l <- py_iter v ;;
  ks <- map_r to_hkey l ;;
  Ok (set_of_keys ks).

(** [s & t] *)
Definition set_inter (s t : pyset) : pyset := filter (fun k => mem k t) s.

(** [x in s] for a set or the keys of a dict: [x] has to be hashable. *)
Definition in_set (x : pyval) (s : pyset) : result bool :=
  h <- to_hkey x ;; Ok (mem h s).

(** [a < b] as [sorted] applies it: integers with integers, strings with
    strings (by code point), and a [TypeError] otherwise. *)
Definition hkey_lt (a b : hkey) : result bool :=
  match a, b with
  | HInt x, HInt y => Ok (x <? y)
  | HStr x, HStr y => Ok (String.ltb x y)
  | _, _ => Raise TypeError
  end.

Fixpoint insert_sorted (x : hkey) (l : list hkey) : result (list hkey) :=
  match l with
  | [] => Ok [x]
  | y :: l' =>
      b <- hkey_lt y x ;;
      if b then (r <- insert_sorted x l' ;; Ok (y :: r)) else Ok (x :: l)
  end.

(** [sorted(s)] *)
Fixpoint py_sorted (l : list hkey) : result (list hkey) :=
  match l with
  | [] => Ok []
  | x :: l' => r <- py_sorted l' ;; insert_sorted x r
  end.

(** ** Time and shift helpers *)

Definition parse_hhmm (hhmm : pyval) : result Z :=
  '(hh, mm) <- split_colon hhmm ;;
  h <- py_int (PStr hh) ;;
  m <- py_int (PStr mm) ;;
  Ok (h * 60 + m).

Definition shift_interval_minutes (shift_def : pyval) : result (Z * Z * Z) :=
  sv <- py_item shift_def "start" ;;
  start <- parse_hhmm sv ;;
  ev <- py_item shift_def "end" ;;
  end_ <- parse_hhmm ev ;;
  mv <- py_get shift_def "minutes" (PInt 0) ;;
  dur <- py_int mv ;;
  iw <- (if dur =? 0 then py_get shift_def "is_work" (PBool true)
         else Ok (PBool false)) ;;
  let dur :=
    if (dur =? 0) && truthy iw then
      if end_ >=? start then end_ - start else (24 * 60 - start) + end_
    else dur in
  Ok (start, end_, dur).

Definition rest_minutes_between (shift_a shift_b : pyval) : result Z :=
  _ <- shift_interval_minutes shift_a ;;
  _ <- shift_interval_minutes shift_b ;;
  a_end <- (ev <- py_item shift_a "end" ;; parse_hhmm ev) ;;
  a_start <- (sv <- py_item shift_a "start" ;; parse_hhmm sv) ;;
  a_end_abs <-
    (if a_end >=? a_start
     then (ev <- py_item shift_a "end" ;; parse_hhmm ev)
     else (ev <- py_item shift_a "end" ;; e <- parse_hhmm ev ;; Ok (24 * 60 + e))) ;;
  b_start <- (sv <- py_item shift_b "start" ;; parse_hhmm sv) ;;
  let b_start_abs := 24 * 60 + b_start in
  Ok (b_start_abs - a_end_abs).

(** ** Scope selection *)

Definition get_employee (spec emp_id : pyval) : result pyval :=
  emps <- py_get spec "employees" (PDict []) ;;
  py_get_v emps emp_id (PDict []).

Definition get_groups (spec : pyval) : result pyval :=
  g <- py_get spec "groups" (PDict []) ;;
  Ok (py_or g (PDict [])).

Definition normalize_list (v : pyval) : list pyval :=
  match v with
  | PNone => []
  | PList l => l
  | _ => [v]
  end.

(** [set(normalize_list(scope.get(key)))] *)
Definition scope_filter (scope : pyval) (key : string) : result pyset :=
  v <- py_get scope key PNone ;;
  ks <- map_r to_hkey (normalize_list v) ;;
  Ok (set_of_keys ks).

Definition is_empty (s : pyset) : bool :=
  match s with [] => true | _ => false end.

(** The start set: every employee, or the explicit list of the scope. *)
Definition start_set (scope all_emps : pyval) : result pyset :=
  use_all <-
    (if negb (truthy scope) then Ok true
     else
       e <- py_get scope "employees" PNone ;;
       if is_str e "ALL" then Ok true
       else (h <- has_key scope "employees" ;; Ok (negb h))) ;;
  if use_all : bool then py_set all_emps
  else (e <- py_get scope "employees" (PList []) ;; py_set e).

(** [for g in normalize_list(scope.get("groups")): selected &= set(groups.get(g, []))] *)
Definition filter_groups (groups scope : pyval) (selected : pyset)
  : result pyset :=
  gv <- py_get scope "groups" PNone ;;
  for_each (normalize_list gv)
    (fun g sel =>
       members <- py_get_v groups g (PList []) ;;
       ms <- py_set members ;;
       Ok (set_inter sel ms))
    selected.

(** [set(get_employee(spec, e).get(attr, []))] *)
Definition employee_tags (spec : pyval) (attr : string) (e : hkey)
  : result pyset :=
  emp <- get_employee spec (of_hkey e) ;;
  v <- py_get emp attr (PList []) ;;
  py_set v.

(** [selected &= {e for e in selected if test e}], run only for a non-empty
    [wanted] set. *)
Definition filter_when (wanted : pyset) (test : hkey -> result bool)
  (selected : pyset) : result pyset :=
  if is_empty wanted then Ok selected
  else (kept <- filter_r test selected ;; Ok (set_inter selected kept)).

Definition filter_tags_any (spec : pyval) (attr : string) (wanted selected : pyset)
  : result pyset :=
  filter_when wanted
    (fun e => have <- employee_tags spec attr e ;;
              Ok (negb (is_empty (set_inter wanted have))))
    selected.

Definition filter_tags_all (spec : pyval) (attr : string) (wanted selected : pyset)
  : result pyset :=
  filter_when wanted
    (fun e => have <- employee_tags spec attr e ;;
              Ok (forallb (fun k => mem k have) wanted))
    selected.

Definition filter_sites_any (spec : pyval) (wanted selected : pyset)
  : result pyset :=
  filter_when wanted
    (fun e => emp <- get_employee spec (of_hkey e) ;;
              home <- py_get emp "site_home" PNone ;;
              in_set home wanted)
    selected.

Definition filter_contracts_any (spec : pyval) (wanted selected : pyset)
  : result pyset :=
  filter_when wanted
    (fun e => emp <- get_employee spec (of_hkey e) ;;
              c <- py_get emp "contract" PNone ;;
              t <- py_get (py_or c (PDict [])) "type" PNone ;;
              in_set t wanted)
    selected.

(** The body of [select_employees_by_scope] up to the final [sorted]. *)
Definition selected_set (spec scope : pyval) : result pyset :=
  sets <- py_item spec "sets" ;;
  all_emps <- py_item sets "employees" ;;
  groups <- get_groups spec ;;
  selected <- start_set scope all_emps ;;
  selected <- filter_groups groups scope selected ;;
  skills_any <- scope_filter scope "skills_any" ;;
  skills_all <- scope_filter scope "skills_all" ;;
  selected <- filter_tags_any spec "skills" skills_any selected ;;
  selected <- filter_tags_all spec "skills" skills_all selected ;;
  roles_any <- scope_filter scope "roles_any" ;;
  roles_all <- scope_filter scope "roles_all" ;;
  selected <- filter_tags_any spec "roles" roles_any selected ;;
  selected <- filter_tags_all spec "roles" roles_all selected ;;
  sites_any <- scope_filter scope "sites_any" ;;
  selected <- filter_sites_any spec sites_any selected ;;
  contracts_any <- scope_filter scope "contracts_any" ;;
  filter_contracts_any spec contracts_any selected.

Definition select_employees_by_scope (spec scope : pyval)
  : result (list hkey) :=
  selected <- selected_set spec scope ;;
  py_sorted selected.

(** Literal builders for examples. *)
Definition str_list (l : list string) : pyval := PList (map PStr l).
Definition obj (kvs : list (string * pyval)) : pyval :=
  PDict (map (fun kv => (HStr (fst kv), snd kv)) kvs).

(** ** The CP-SAT model

    [x] and [off] are dictionaries from key tuples to solver variables; a
    variable is named here by its key, and the set of declared variables
    stands for the key set of the dictionary.  Auxiliary variables are named
    by the position of the constraint that creates them, a tag, and the
    positions of the two loops around the creation. *)

Inductive var : Type :=
| VOff (e : hkey) (d : nat)
| VX (e : hkey) (d : nat) (s site : hkey)
| VAux (c : nat) (tag : string) (i j : nat).

Definition var_eqb (a b : var) : bool :=
  match a, b with
  | VOff e d, VOff e' d' => hkey_eqb e e' && Nat.eqb d d'
  | VX e d s t, VX e' d' s' t' =>
      hkey_eqb e e' && Nat.eqb d d' && hkey_eqb s s' && hkey_eqb t t'
  | VAux c g i j, VAux c' g' i' j' =>
      Nat.eqb c c' && String.eqb g g' && Nat.eqb i i' && Nat.eqb j j'
  | _, _ => false
  end.

(** Linear expressions, as the overloaded [+], [-], [*] and [sum] build them. *)
Inductive lin : Type :=
| LConst (z : Z)
| LVar (v : var)
| LAdd (a b : lin)
| LSub (a b : lin)
| LScale (k : Z) (a : lin).

(** [sum(terms)]: Python starts from [0] and adds from the left. *)
Definition lsum (terms : list lin) : lin := fold_left LAdd terms (LConst 0).

(** The rows given to [model.Add]; [RIf g r] is [model.Add(r).OnlyEnforceIf(g)]. *)
Inductive row : Type :=
| REq (a b : lin)
| RLe (a b : lin)
| RGe (a b : lin)
| RIf (guard : var) (r : row).

Definition assignment := var -> Z.

Fixpoint eval (a : assignment) (e : lin) : Z :=
  match e with
  | LConst z => z
  | LVar v => a v
  | LAdd x y => eval a x + eval a y
  | LSub x y => eval a x - eval a y
  | LScale k x => k * eval a x
  end.

Fixpoint holds (a : assignment) (r : row) : Prop :=
  match r with
  | REq x y => eval a x = eval a y
  | RLe x y => eval a x <= eval a y
  | RGe x y => eval a x >= eval a y
  | RIf g r' => a g = 1 -> holds a r'
  end.

Fixpoint holdsb (a : assignment) (r : row) : bool :=
  match r with
  | REq x y => eval a x =? eval a y
  | RLe x y => eval a x <=? eval a y
  | RGe x y => eval a x >=? eval a y
  | RIf g r' => negb (a g =? 1) || holdsb a r'
  end.

(** A declared variable with its domain [lo..hi]. *)
Record decl : Type := Decl { d_var : var; d_lo : Z; d_hi : Z }.

Record cp_model : Type := CpModel {
  m_vars : list decl;
  m_rows : list row;
  m_objective : lin
}.

Definition in_domain (a : assignment) (d : decl) : Prop :=
  d_lo d <= a (d_var d) <= d_hi d.

(** [a] is a solution of the model: it respects every domain and every row. *)
Definition satisfies (a : assignment) (m : cp_model) : Prop :=
  Forall (in_domain a) (m_vars m) /\ Forall (holds a) (m_rows m).

(** A 0/1 assignment of the decision variables [x] and [off]. *)
Definition zero_one (a : assignment) : Prop :=
  (forall e d, a (VOff e d) = 0 \/ a (VOff e d) = 1) /\
  (forall e d s site, a (VX e d s site) = 0 \/ a (VX e d s site) = 1).

Inductive solver_status : Type :=
| OPTIMAL | FEASIBLE | INFEASIBLE | UNKNOWN | MODEL_INVALID.

Record solver_outcome : Type := Outcome {
  o_status : solver_status;
  o_value : assignment;
  o_objective : Z
}.

(** What one compilation step adds to the model and to [penalty_terms]. *)
Record emit : Type := Emit {
  e_vars : list decl;
  e_rows : list row;
  e_penalties : list lin
}.

Definition no_emit : emit := Emit [] [] [].
Definition emit_row (r : row) (acc : emit) : emit :=
  Emit (e_vars acc) (e_rows acc ++ [r]) (e_penalties acc).
Definition emit_var (d : decl) (acc : emit) : emit :=
  Emit (e_vars acc ++ [d]) (e_rows acc) (e_penalties acc).
Definition emit_penalty (p : lin) (acc : emit) : emit :=
  Emit (e_vars acc) (e_rows acc) (e_penalties acc ++ [p]).
Definition emit_app (a b : emit) : emit :=
  Emit (e_vars a ++ e_vars b) (e_rows a ++ e_rows b)
       (e_penalties a ++ e_penalties b).

Definition ALLOWED_KINDS : list string :=
  [ "exactly_one_assignment_per_day"; "forbid_shift_sequences";
    "min_rest_minutes_between_shifts"; "max_shifts_in_window";
    "max_work_minutes_in_window"; "max_consecutive_work_days";
    "min_consecutive_days_off"; "penalize_work_on_days";
    "penalize_work_on_shifts"; "penalize_unmet_day_off_requests";
    "fair_distribution" ].

(** [kind in ALLOWED_KINDS]: a set membership, so [kind] has to be hashable. *)
Definition kind_allowed (kind : pyval) : result bool :=
  h <- to_hkey kind ;;
  Ok (match h with
      | HStr k => existsb (String.eqb k) ALLOWED_KINDS
      | _ => false
      end).

(** [c[k] = v] on an arbitrary value. *)
Definition py_setitem (c : pyval) (k : hkey) (v : pyval) : result pyval :=
  match c with
  | PDict kvs => Ok (PDict (dict_set k v kvs))
  | PList l =>
      match k with
      | HInt i =>
          let n := Z.of_nat (List.length l) in
          let j := if i <? 0 then i + n else i in
          if (0 <=? j) && (j <? n)
          then Ok (PList (firstn (Z.to_nat j) l ++ v :: skipn (S (Z.to_nat j)) l))
          else Raise IndexError
      | _ => Raise TypeError
      end
  | PNone | PBool _ | PInt _ | PStr _ => Raise TypeError
  end.

(** [x in l] for a list [l] of hashable values: [==] with a list or a dict
    is false, not an error. *)
Definition in_list (x : pyval) (l : list hkey) : bool :=
  match to_hkey x with
  | Ok h => mem h l
  | Raise _ => false
  end.

(** [range(a, b)] for [a >= 0]. *)
Definition range (a : nat) (b : Z) : list nat :=
  seq a (Z.to_nat (b - Z.of_nat a)).

(** [enumerate(l)] *)
Definition enumerate {A} (l : list A) : list (nat * A) :=
  combine (seq 0 (List.length l)) l.

(** [round(a / b)] for integers [a], [b > 0]: the quotient rounded to the
    nearest integer, a tie going to the even neighbour.  Python forms the
    quotient as a binary64 float, which rounds to the same integer as the
    exact quotient as long as [|a| < 2^52]. *)
Definition round_div (a b : Z) : Z :=
  let q := a / b in
  let r := a mod b in
  if 2 * r <? b then q
  else if b <? 2 * r then q + 1
  else if Z.even q then q else q + 1.

(** ** The compiler *)

(** What [compile_and_solve] has in scope once the variables are declared. *)
Record ctx : Type := Ctx {
  c_spec : pyval;
  c_employees : list pyval;
  c_days : list pyval;
  c_sites : pyval;
  c_shift_defs : pyval;
  c_work_shifts : list hkey;
  c_day_to_idx : list (hkey * nat);
  c_declared : list decl;
  c_demand : pyval
}.

Definition n_days (cx : ctx) : nat := List.length (c_days cx).

Definition declared (cx : ctx) (v : var) : bool :=
  existsb (fun d => var_eqb v (d_var d)) (c_declared cx).

(** [off[(e, d)]] *)
Definition off_var (cx : ctx) (e : pyval) (d : nat) : result lin :=
  he <- to_hkey e ;;
  if declared cx (VOff he d) then Ok (LVar (VOff he d)) else Raise KeyError.

(** [x[(e, d, s, site)]] *)
Definition x_var (cx : ctx) (e : pyval) (d : nat) (s site : pyval)
  : result lin :=
  he <- to_hkey e ;;
  hs <- to_hkey s ;;
  ht <- to_hkey site ;;
  if declared cx (VX he d hs ht) then Ok (LVar (VX he d hs ht))
  else Raise KeyError.

(** [works_shift(e, d, s) = sum(x[(e, d, s, site)] for site in sites)] *)
Definition works_shift (cx : ctx) (e : pyval) (d : nat) (s : pyval)
  : result lin :=
  sl <- py_iter (c_sites cx) ;;
  terms <- map_r (fun site => x_var cx e d s site) sl ;;
  Ok (lsum terms).

(** [works_day(e, d) = sum(works_shift(e, d, s) for s in work_shifts)] *)
Definition works_day (cx : ctx) (e : pyval) (d : nat) : result lin :=
  terms <- map_r (fun s => works_shift cx e d (of_hkey s)) (c_work_shifts cx) ;;
  Ok (lsum terms).

(** [sum(works_shift(e, d, s) for d in window for s in counted)] *)
Definition window_sum (cx : ctx) (e : pyval) (window : list nat)
  (counted : list pyval) : result lin :=
  terms <- map_r (fun ds => works_shift cx e (fst ds) (snd ds))
                 (list_prod window counted) ;;
  Ok (lsum terms).

(** [day_index_map(days)]: a later duplicate overwrites the index. *)
Definition day_index_map (days : list pyval) : result (list (hkey * nat)) :=
  for_each (enumerate days)
    (fun id m => h <- to_hkey (snd id) ;; Ok (dict_set h (fst id) m)) [].

(** [day_to_idx[name]] *)
Definition day_index (cx : ctx) (name : pyval) : result nat :=
  h <- to_hkey name ;;
  match dict_lookup h (c_day_to_idx cx) with
  | Some i => Ok i
  | None => Raise KeyError
  end.

(** [s != "OFF" and bool(shift_defs.get(s, {}).get("is_work", True))] *)
Definition is_work_shift (shift_defs s : pyval) : result bool :=
  if is_str s "OFF" then Ok false
  else
    sd <- py_get_v shift_defs s (PDict []) ;;
    w <- py_get sd "is_work" (PBool true) ;;
    Ok (truthy w).

(** The nested loops that create [off] and [x]. *)
Definition declare_vars (employees : list pyval) (n : nat)
  (work_shifts : list hkey) (sites : pyval) : result (list decl) :=
  for_each employees
    (fun e acc =>
       for_each (seq 0 n)
         (fun d acc =>
            he <- to_hkey e ;;
            for_each work_shifts
              (fun s acc =>
                 sl <- py_iter sites ;;
                 for_each sl
                   (fun site acc =>
                      ht <- to_hkey site ;;
                      Ok (acc ++ [Decl (VX he d s ht) 0 1]))
                   acc)
              (acc ++ [Decl (VOff he d) 0 1]))
         acc)
    [].

(** *** Demand *)

(** [sum(x[(e, d, s, site)] for e in employees if tag in set(get_employee(spec, e).get(attr, []))] *)
Definition tagged_sum (cx : ctx) (attr : string) (tag : pyval) (d : nat)
  (s site : pyval) : result lin :=
  terms <-
    for_each (c_employees cx)
      (fun e acc =>
         emp <- get_employee (c_spec cx) e ;;
         tv <- py_get emp attr (PList []) ;;
         tags <- py_set tv ;;
         has <- in_set tag tags ;;
         if has : bool then (t <- x_var cx e d s site ;; Ok (acc ++ [t]))
         else Ok acc)
      [] ;;
  Ok (lsum terms).

(** The floors of [requirements.skills_min] or [requirements.roles_min]. *)
Definition compile_floors (cx : ctx) (r : pyval) (list_key item_key attr : string)
  (d : nat) (s site : pyval) (acc : emit) : result emit :=
  fv <- py_get r list_key (PList []) ;;
  fl <- py_iter (py_or fv (PList [])) ;;
  for_each fl
    (fun sk acc =>
       tag <- py_item sk item_key ;;
       mv <- py_item sk "min" ;;
       mn <- py_int mv ;;
       lhs <- tagged_sum cx attr tag d s site ;;
       Ok (emit_row (RGe lhs (LConst mn)) acc))
    acc.

Definition compile_demand_entry (cx : ctx) (req : pyval) (acc : emit)
  : result emit :=
  dv <- py_item req "day" ;;
  d <- day_index cx dv ;;
  s <- py_item req "shift" ;;
  site0 <- py_first (c_sites cx) ;;
  site <- py_get req "site" site0 ;;
  if negb (in_list s (c_work_shifts cx)) then Raise ValueError
  else
    terms <- map_r (fun e => x_var cx e d s site) (c_employees cx) ;;
    let lhs := lsum terms in
    has_eq <- has_key req "eq" ;;
    acc <-
      (if has_eq : bool then
         v <- py_item req "eq" ;; n <- py_int v ;;
         Ok (emit_row (REq lhs (LConst n)) acc)
       else
         has_min <- has_key req "min" ;;
         acc <- (if has_min : bool then
                   v <- py_item req "min" ;; n <- py_int v ;;
                   Ok (emit_row (RGe lhs (LConst n)) acc)
                 else Ok acc) ;;
         has_max <- has_key req "max" ;;
         (if has_max : bool then
            v <- py_item req "max" ;; n <- py_int v ;;
            Ok (emit_row (RLe lhs (LConst n)) acc)
          else Ok acc)) ;;
    rv <- py_get req "requirements" (PDict []) ;;
    let r := py_or rv (PDict []) in
    acc <- compile_floors cx r "skills_min" "skill" "skills" d s site acc ;;
    compile_floors cx r "roles_min" "role" "roles" d s site acc.

Definition compile_demand (cx : ctx) : result emit :=
  dl <- py_iter (c_demand cx) ;;
  for_each dl (compile_demand_entry cx) no_emit.

(** *** Hard constraints *)

(** [counted_work] of [exactly_one_assignment_per_day]. *)
Definition counted_work (cx : ctx) (data : pyval) : result (list pyval) :=
  us <- py_get data "shifts" PNone ;;
  ul <- (match us with
         | PNone => Ok (map of_hkey (c_work_shifts cx) ++ [PStr "OFF"])
         | _ => py_iter us
         end) ;;
  Ok (filter (fun s => negb (is_str s "OFF")) ul).

(** [off[(e, d)] + sum(works_shift(e, d, s) for s in counted_work) == 1] *)
Definition exactly_one_row (cx : ctx) (counted : list pyval) (e : hkey) (d : nat)
  : result row :=
  o <- off_var cx (of_hkey e) d ;;
  terms <- map_r (fun s => works_shift cx (of_hkey e) d s) counted ;;
  Ok (REq (LAdd o (lsum terms)) (LConst 1)).

Definition compile_exactly_one (cx : ctx) (data : pyval) (emps : list hkey)
  : result emit :=
  counted <- counted_work cx data ;;
  for_each emps
    (fun e acc =>
       for_each (seq 0 (n_days cx))
         (fun d acc =>
            r <- exactly_one_row cx counted e d ;; Ok (emit_row r acc))
         acc)
    no_emit.

(** One forbidden pair for employee [e] and the days [d], [d + 1]. *)
Definition forbid_pair (cx : ctx) (e : hkey) (d : nat) (p : pyval) (acc : emit)
  : result emit :=
  prev_s <- py_item p "prev_shift" ;;
  next_s <- py_item p "next_shift" ;;
  if negb (in_list prev_s (c_work_shifts cx))
     || negb (in_list next_s (c_work_shifts cx))
  then Raise ValueError
  else
    a <- works_shift cx (of_hkey e) d prev_s ;;
    b <- works_shift cx (of_hkey e) (d + 1) next_s ;;
    Ok (emit_row (RLe (LAdd a b) (LConst 1)) acc).

Definition compile_forbid (cx : ctx) (data : pyval) (emps : list hkey)
  : result emit :=
  fp <- py_get data "forbidden_pairs" (PList []) ;;
  for_each emps
    (fun e acc =>
       for_each (seq 0 (n_days cx - 1))
         (fun d acc =>
            pl <- py_iter fp ;;
            for_each pl (forbid_pair cx e d) acc)
         acc)
    no_emit.

Definition compile_min_rest (cx : ctx) (data : pyval) (emps : list hkey)
  : result emit :=
  mv <- py_item data "min_rest_minutes" ;;
  min_rest <- py_int mv ;;
  for_each emps
    (fun e acc =>
       for_each (seq 0 (n_days cx - 1))
         (fun d acc =>
            for_each (list_prod (c_work_shifts cx) (c_work_shifts cx))
              (fun ss acc =>
                 let s1 := of_hkey (fst ss) in
                 let s2 := of_hkey (snd ss) in
                 d1 <- py_item_v (c_shift_defs cx) s1 ;;
                 d2 <- py_item_v (c_shift_defs cx) s2 ;;
                 rest <- rest_minutes_between d1 d2 ;;
                 if rest <? min_rest then
                   a <- works_shift cx (of_hkey e) d s1 ;;
                   b <- works_shift cx (of_hkey e) (d + 1) s2 ;;
                   Ok (emit_row (RLe (LAdd a b) (LConst 1)) acc)
                 else Ok acc)
              acc)
         acc)
    no_emit.

(** [[s for s in data.get(key, dflt) if s in work_shifts]] *)
Definition counted_shifts (cx : ctx) (data : pyval) (key : string)
  (dflt : pyval) : result (list pyval) :=
  cv <- py_get data key dflt ;;
  cl <- py_iter cv ;;
  Ok (filter (fun s => in_list s (c_work_shifts cx)) cl).

Definition work_shift_list (cx : ctx) : pyval :=
  PList (map of_hkey (c_work_shifts cx)).

(** [range(start, min(start + window_days, len(days)))] *)
Definition window_from (n : nat) (window_days : Z) (start : nat) : list nat :=
  range start (Z.min (Z.of_nat start + window_days) (Z.of_nat n)).

(** The rows that [max_shifts_in_window] adds for one employee. *)
Definition max_shifts_rows (cx : ctx) (window_days max_allowed : Z)
  (counted : list pyval) (e : hkey) : result (list row) :=
  map_r (fun start =>
           expr <- window_sum cx (of_hkey e)
                     (window_from (n_days cx) window_days start) counted ;;
           Ok (RLe expr (LConst max_allowed)))
        (seq 0 (n_days cx)).

Definition emit_rows (rs : list row) (acc : emit) : emit :=
  Emit (e_vars acc) (e_rows acc ++ rs) (e_penalties acc).

Definition compile_max_shifts (cx : ctx) (data : pyval) (emps : list hkey)
  : result emit :=
  wv <- py_item data "window_days" ;;
  window_days <- py_int wv ;;
  mv <- py_item data "max" ;;
  max_allowed <- py_int mv ;;
  counted <- counted_shifts cx data "shifts" (work_shift_list cx) ;;
  mode <- py_get data "mode" (PStr "rolling") ;;
  if negb (is_str mode "rolling") then Raise ValueError
  else
    for_each emps
      (fun e acc =>
         rs <- max_shifts_rows cx window_days max_allowed counted e ;;
         Ok (emit_rows rs acc))
      no_emit.

(** One entry of [shift_minutes]. *)
Definition shift_minutes_step (cx : ctx) (s : hkey) (acc : list (hkey * Z))
  : result (list (hkey * Z)) :=
  sd <- py_item_v (c_shift_defs cx) (of_hkey s) ;;
  m <- py_get sd "minutes" (PInt 0) ;;
  z <- py_int m ;;
  Ok (dict_set s z acc).

(** [{s: int(shift_defs[s].get("minutes", 0)) for s in work_shifts}] *)
Definition shift_minutes (cx : ctx) : result (list (hkey * Z)) :=
  for_each (c_work_shifts cx) (shift_minutes_step cx) [].

(** [shift_minutes[s]] *)
Definition minutes_of (m : list (hkey * Z)) (s : pyval) : result Z :=
  h <- to_hkey s ;;
  match dict_lookup h m with
  | Some z => Ok z
  | None => Raise KeyError
  end.

Definition compile_max_minutes (cx : ctx) (data : pyval) (emps : list hkey)
  : result emit :=
  wv <- py_item data "window_days" ;;
  window_days <- py_int wv ;;
  mv <- py_item data "max_minutes" ;;
  max_minutes <- py_int mv ;;
  counted <- counted_shifts cx data "shifts" (work_shift_list cx) ;;
  mode <- py_get data "mode" (PStr "rolling") ;;
  if negb (is_str mode "rolling") then Raise ValueError
  else
    sm <- shift_minutes cx ;;
    for_each emps
      (fun e acc =>
         for_each (seq 0 (n_days cx))
           (fun start acc =>
              terms <-
                map_r (fun ds =>
                         m <- minutes_of sm (snd ds) ;;
                         w <- works_shift cx (of_hkey e) (fst ds) (snd ds) ;;
                         Ok (LScale m w))
                      (list_prod (window_from (n_days cx) window_days start)
                                 counted) ;;
              Ok (emit_row (RLe (lsum terms) (LConst max_minutes)) acc))
           acc)
      no_emit.

Definition compile_max_consecutive (cx : ctx) (data : pyval) (emps : list hkey)
  : result emit :=
  mv <- py_item data "max" ;;
  max_consec <- py_int mv ;;
  let L := max_consec + 1 in
  for_each emps
    (fun e acc =>
       for_each (range 0 (Z.of_nat (n_days cx) - L + 1))
         (fun start acc =>
            terms <- map_r (fun d => works_day cx (of_hkey e) d)
                           (range start (Z.of_nat start + L)) ;;
            Ok (emit_row (RLe (lsum terms) (LConst max_consec)) acc))
         acc)
    no_emit.

Definition compile_min_days_off (cx : ctx) (ci : nat) (data : pyval)
  (emps : list hkey) : result emit :=
  mv <- py_item data "min" ;;
  k <- py_int mv ;;
  for_each (enumerate emps)
    (fun ie acc =>
       let e := of_hkey (snd ie) in
       for_each (seq 0 (n_days cx))
         (fun d acc =>
            let start_off := VAux ci "start_off" (fst ie) d in
            let acc := emit_var (Decl start_off 0 1) acc in
            acc <-
              (match d with
               | O =>
                   o <- off_var cx e d ;;
                   Ok (emit_row (REq (LVar start_off) o) acc)
               | S d' =>
                   o <- off_var cx e d ;;
                   let acc := emit_row (RLe (LVar start_off) o) acc in
                   p <- off_var cx e d' ;;
                   let acc :=
                     emit_row (RLe (LVar start_off) (LSub (LConst 1) p)) acc in
                   o <- off_var cx e d ;;
                   p <- off_var cx e d' ;;
                   Ok (emit_row (RGe (LVar start_off) (LSub o p)) acc)
               end) ;;
            for_each
              (range d (Z.min (Z.of_nat d + k) (Z.of_nat (n_days cx))))
              (fun j acc =>
                 o <- off_var cx e j ;;
                 Ok (emit_row (RIf start_off (REq o (LConst 1))) acc))
              acc)
         acc)
    no_emit.

(** *** Soft constraints *)

Definition compile_penalize_days (cx : ctx) (ci : nat) (ctype data : pyval)
  (weight : Z) (emps : list hkey) : result emit :=
  if negb (is_str ctype "soft") then Raise ValueError
  else
    dn <- py_item data "days" ;;
    dl <- py_iter dn ;;
    target_days <- map_r (day_index cx) dl ;;
    working <- counted_shifts cx data "working_shifts" (work_shift_list cx) ;;
    for_each (enumerate emps)
      (fun ie acc =>
         for_each (enumerate target_days)
           (fun jd acc =>
              let works := VAux ci "works" (fst ie) (fst jd) in
              let acc := emit_var (Decl works 0 1) acc in
              terms <- map_r (fun s => works_shift cx (of_hkey (snd ie)) (snd jd) s)
                             working ;;
              let acc := emit_row (REq (LVar works) (lsum terms)) acc in
              Ok (emit_penalty (LScale weight (LVar works)) acc))
           acc)
      no_emit.

Definition compile_penalize_shifts (cx : ctx) (ci : nat) (ctype data : pyval)
  (weight : Z) (emps : list hkey) : result emit :=
  if negb (is_str ctype "soft") then Raise ValueError
  else
    target_shifts <- counted_shifts cx data "shifts" (PList []) ;;
    for_each (enumerate emps)
      (fun ie acc =>
         for_each (seq 0 (n_days cx))
           (fun d acc =>
              let works := VAux ci "w" (fst ie) d in
              let acc := emit_var (Decl works 0 1) acc in
              terms <- map_r (fun s => works_shift cx (of_hkey (snd ie)) d s)
                             target_shifts ;;
              let acc := emit_row (REq (LVar works) (lsum terms)) acc in
              Ok (emit_penalty (LScale weight (LVar works)) acc))
           acc)
      no_emit.

Definition compile_unmet_day_off (cx : ctx) (ci : nat) (ctype data : pyval)
  (weight : Z) (emps : list hkey) : result emit :=
  if negb (is_str ctype "soft") then Raise ValueError
  else
    req_days <- py_get data "days" PNone ;;
    match req_days with
    | PNone => Raise ValueError
    | _ =>
        dl <- py_iter req_days ;;
        target_days <- map_r (day_index cx) dl ;;
        for_each (enumerate emps)
          (fun ie acc =>
             for_each (enumerate target_days)
               (fun jd acc =>
                  let unmet := VAux ci "unmet" (fst ie) (fst jd) in
                  let acc := emit_var (Decl unmet 0 1) acc in
                  o <- off_var cx (of_hkey (snd ie)) (snd jd) ;;
                  let acc :=
                    emit_row (REq (LVar unmet) (LSub (LConst 1) o)) acc in
                  Ok (emit_penalty (LScale weight (LVar unmet)) acc))
               acc)
          no_emit
    end.

(** What one demand entry adds to [total] in [fair_distribution]. *)
Definition demand_step (counted : list hkey) (req : pyval) (total : Z)
  : result Z :=
  sv <- py_item req "shift" ;;
  if in_list sv counted then
    has_eq <- has_key req "eq" ;;
    if has_eq : bool then
      v <- py_item req "eq" ;; n <- py_int v ;; Ok (total + n)
    else
      has_min <- has_key req "min" ;;
      has_max <- (if has_min : bool then has_key req "max" else Ok false) ;;
      if has_min && has_max then
        a <- (v <- py_item req "min" ;; py_int v) ;;
        b <- (v <- py_item req "max" ;; py_int v) ;;
        if a =? b then
          n <- (v <- py_item req "min" ;; py_int v) ;; Ok (total + n)
        else Ok total
      else Ok total
  else Ok total.

Definition demand_total (demand : list pyval) (counted : list hkey)
  : result Z :=
  for_each demand (demand_step counted) 0.

(** The windows of [fair_distribution]. *)
Definition fair_windows (n : nat) (window_days : Z) : list (list nat) :=
  if window_days >=? Z.of_nat n then [range 0 (Z.of_nat n)]
  else map (window_from n window_days) (seq 0 n).

(** The target of one window. *)
Definition fair_target (target_mode : pyval) (total : Z) (emps : list hkey)
  : result Z :=
  if is_str target_mode "auto_mean"
  then Ok (round_div total (Z.max 1 (Z.of_nat (List.length emps))))
  else py_int target_mode.

(** What [fair_distribution] adds for one window and one employee. *)
Definition fair_rows (cx : ctx) (ci : nat) (weight tgt : Z)
  (counted : list pyval) (w : nat) (window : list nat) (ie : nat * hkey)
  (acc : emit) : result emit :=
  let cnt := VAux ci "cnt" w (fst ie) in
  let acc := emit_var (Decl cnt 0 (Z.of_nat (n_days cx))) acc in
  expr <- window_sum cx (of_hkey (snd ie)) window counted ;;
  let acc := emit_row (REq (LVar cnt) expr) acc in
  let dev := VAux ci "dev" w (fst ie) in
  let acc := emit_var (Decl dev 0 (Z.of_nat (n_days cx))) acc in
  let acc := emit_row (RGe (LVar dev) (LSub (LVar cnt) (LConst tgt))) acc in
  let acc := emit_row (RGe (LVar dev) (LSub (LConst tgt) (LVar cnt))) acc in
  Ok (emit_penalty (LScale weight (LVar dev)) acc).

Definition keys_of (l : list pyval) : list hkey :=
  flat_map (fun v => match to_hkey v with Ok h => [h] | Raise _ => [] end) l.

Definition compile_fair (cx : ctx) (ci : nat) (ctype data : pyval)
  (weight : Z) (emps : list hkey) : result emit :=
  if negb (is_str ctype "soft") then Raise ValueError
  else
    measure <- py_get data "measure" (PStr "count") ;;
    penalize <- py_get data "penalize" (PStr "absolute_deviation") ;;
    counted <- counted_shifts cx data "shifts" (PList []) ;;
    wv <- py_get data "window_days" (PInt (Z.of_nat (n_days cx))) ;;
    window_days <- py_int wv ;;
    target_mode <- py_get data "target" (PStr "auto_mean") ;;
    if negb (is_str measure "count")
       || negb (is_str penalize "absolute_deviation")
    then Raise ValueError
    else if negb (truthy (PList counted)) then Raise ValueError
    else
      let windows := fair_windows (n_days cx) window_days in
      dl <- py_iter (c_demand cx) ;;
      total <- demand_total dl (keys_of counted) ;;
      for_each (enumerate windows)
        (fun ww acc =>
           tgt <- fair_target target_mode total emps ;;
           for_each (enumerate emps)
             (fair_rows cx ci weight tgt counted (fst ww) (snd ww))
             acc)
        no_emit.

(** *** One constraint *)

Definition compile_kind (cx : ctx) (ci : nat) (kind ctype data : pyval)
  (weight : Z) (emps : list hkey) : result emit :=
  if is_str kind "exactly_one_assignment_per_day" then
    compile_exactly_one cx data emps
  else if is_str kind "forbid_shift_sequences" then
    compile_forbid cx data emps
  else if is_str kind "min_rest_minutes_between_shifts" then
    compile_min_rest cx data emps
  else if is_str kind "max_shifts_in_window" then
    compile_max_shifts cx data emps
  else if is_str kind "max_work_minutes_in_window" then
    compile_max_minutes cx data emps
  else if is_str kind "max_consecutive_work_days" then
    compile_max_consecutive cx data emps
  else if is_str kind "min_consecutive_days_off" then
    compile_min_days_off cx ci data emps
  else if is_str kind "penalize_work_on_days" then
    compile_penalize_days cx ci ctype data weight emps
  else if is_str kind "penalize_work_on_shifts" then
    compile_penalize_shifts cx ci ctype data weight emps
  else if is_str kind "penalize_unmet_day_off_requests" then
    compile_unmet_day_off cx ci ctype data weight emps
  else if is_str kind "fair_distribution" then
    compile_fair cx ci ctype data weight emps
  else Raise ValueError.

(** The scope, payload and weight that the loop reads off a constraint. *)
Definition constraint_scope (c : pyval) : result pyval :=
  sv <- py_get c "scope" (PDict []) ;; Ok (py_or sv (PDict [])).
Definition constraint_data (c : pyval) : result pyval :=
  dv <- py_get c "data" (PDict []) ;; Ok (py_or dv (PDict [])).
Definition constraint_weight (c : pyval) : result Z :=
  pv <- py_get c "penalty" (PDict []) ;;
  wv <- py_get (py_or pv (PDict [])) "weight" (PInt 0) ;;
  py_int wv.

Definition compile_constraint (cx : ctx) (ci : nat) (c : pyval) : result emit :=
  _ <- py_item c "id" ;;
  ctype <- py_item c "type" ;;
  kind <- py_item c "kind" ;;
  scope <- constraint_scope c ;;
  data <- constraint_data c ;;
  weight <- constraint_weight c ;;
  emps <- select_employees_by_scope (c_spec cx) scope ;;
  compile_kind cx ci kind ctype data weight emps.

Definition compile_constraints (cx : ctx) (cl : list pyval) : result emit :=
  for_each (enumerate cl)
    (fun ic acc =>
       e <- compile_constraint cx (fst ic) (snd ic) ;; Ok (emit_app acc e))
    no_emit.

(** *** The whole compilation *)

Definition OFF_DEFAULT : pyval :=
  obj [("start", PStr "00:00"); ("end", PStr "00:00");
       ("minutes", PInt 0); ("is_work", PBool false)].

(** [if "OFF" not in shift_defs: shift_defs["OFF"] = {...}].  [shift_defs]
    is the object stored under [spec["shifts"]] when that key exists, and a
    fresh dictionary otherwise; the assignment therefore shows in the spec
    in the first case.  The result is the spec and [shift_defs] afterwards. *)
Definition default_off (spec shift_defs : pyval) : result (pyval * pyval) :=
  h <- has_key shift_defs "OFF" ;;
  if h : bool then Ok (spec, shift_defs)
  else
    sd <- py_setitem shift_defs (HStr "OFF") OFF_DEFAULT ;;
    aliased <- has_key spec "shifts" ;;
    if aliased : bool
    then (spec' <- py_setitem spec (HStr "shifts") sd ;; Ok (spec', sd))
    else Ok (spec, sd).

(** The first statements: read the sets and install the default [OFF]. *)
Definition prelude (spec : pyval)
  : result (pyval * (pyval * pyval * pyval * pyval * pyval)) :=
  sets <- py_item spec "sets" ;;
  employees <- py_item sets "employees" ;;
  days <- py_item sets "days" ;;
  shifts <- py_item sets "shifts" ;;
  sites <- py_get sets "sites" (str_list ["SITE_DEFAULT"]) ;;
  shift_defs <- py_get spec "shifts" (PDict []) ;;
  has_off <- has_key shifts "OFF" ;;
  if negb has_off then Raise ValueError
  else
    '(spec', shift_defs') <- default_off spec shift_defs ;;
    Ok (spec', (employees, days, shifts, sites, shift_defs')).

(** The loop that rejects an unknown [kind] before anything is built. *)
Definition check_kinds (cl : list pyval) : result unit :=
  for_each cl
    (fun c _ =>
       kind <- py_get c "kind" PNone ;;
       ok <- kind_allowed kind ;;
       if ok : bool then Ok tt else Raise ValueError)
    tt.

Definition objective_of (penalties : list lin) : lin :=
  match penalties with
  | [] => LConst 0
  | _ => lsum penalties
  end.

(** From the prelude to the declaration of the variables: the constraint
    list, checked for its kinds, and everything later statements refer to. *)
Definition build_context (spec employees days shifts sites shift_defs : pyval)
  : result (ctx * list pyval) :=
  cv <- py_get spec "constraints" (PList []) ;;
  cl <- py_iter cv ;;
  _ <- check_kinds cl ;;
  dl <- py_iter days ;;
  day_to_idx <- day_index_map dl ;;
  sl <- py_iter shifts ;;
  ws <- filter_r (is_work_shift shift_defs) sl ;;
  work_shifts <- map_r to_hkey ws ;;
  el <- py_iter employees ;;
  vars <- declare_vars el (List.length dl) work_shifts sites ;;
  demand <- py_get spec "demand" (PList []) ;;
  Ok (Ctx spec el dl sites shift_defs work_shifts day_to_idx vars demand, cl).

(** The model: the declared variables, the rows of the demand and of the
    constraints in their order, and the sum of the penalty terms. *)
Definition model_of (cx : ctx) (dem cons : emit) : cp_model :=
  let all := emit_app dem cons in
  CpModel (c_declared cx ++ e_vars all) (e_rows all)
          (objective_of (e_penalties all)).

(** Everything between the prelude and the call of the solver. *)
Definition build_model (spec employees days shifts sites shift_defs : pyval)
  : result (ctx * cp_model) :=
  '(cx, cl) <- build_context spec employees days shifts sites shift_defs ;;
  dem <- compile_demand cx ;;
  cons <- compile_constraints cx cl ;;
  Ok (cx, model_of cx dem cons).

(** The model that [compile_and_solve] hands to the solver, together with
    the spec as the prelude leaves it. *)
Definition compile_model (spec : pyval) : pyval * result (ctx * cp_model) :=
  match prelude spec with
  | Raise e => (spec, Raise e)
  | Ok (spec', (employees, days, shifts, sites, shift_defs)) =>
      (spec', build_model spec' employees days shifts sites shift_defs)
  end.

(** ** Solving and the result record *)

Inductive solve_result : Type :=
| NoSolution
| Solved (objective : Z) (schedule : pyval)
         (minutes_worked : list (hkey * Z))
         (shift_counts : list (hkey * list (hkey * Z))).

(** [c[k] = f(c[k])] *)
Definition py_update (c : pyval) (k : hkey) (f : pyval -> result pyval)
  : result pyval :=
  old <- py_item_v c (of_hkey k) ;;
  new <- f old ;;
  py_setitem c k new.

(** [l.append(v)] *)
Definition py_append (l v : pyval) : result pyval :=
  match l with
  | PList xs => Ok (PList (xs ++ [v]))
  | _ => Raise AttributeError
  end.

(** [{site: {s: [] for s in work_shifts} for site in sites} | {"OFF": []}] *)
Definition empty_day (cx : ctx) : result pyval :=
  sl <- py_iter (c_sites cx) ;;
  by_site <-
    for_each sl
      (fun site acc =>
         ht <- to_hkey site ;;
         let cells :=
           fold_left (fun m s => dict_set s (PList []) m) (c_work_shifts cx) [] in
         Ok (dict_set ht (PDict cells) acc))
      [] ;;
  Ok (PDict (dict_set (HStr "OFF") (PList []) by_site)).

Definition empty_schedule (cx : ctx) : result pyval :=
  kvs <-
    for_each (c_days cx)
      (fun day acc =>
         hd <- to_hkey day ;;
         v <- empty_day cx ;;
         Ok (dict_set hd v acc))
      [] ;;
  Ok (PDict kvs).

(** [[e for e in employees if solver.Value(var e) == 1]] *)
Definition assigned (value : assignment) (employees : list pyval)
  (var_of : pyval -> result lin) : result (list pyval) :=
  filter_r (fun e => v <- var_of e ;; Ok (eval value v =? 1)) employees.

Definition fill_schedule (cx : ctx) (value : assignment) (schedule : pyval)
  : result pyval :=
  for_each (enumerate (c_days cx))
    (fun dd schedule =>
       let d := fst dd in
       dayname <- to_hkey (snd dd) ;;
       schedule <-
         for_each (c_employees cx)
           (fun e schedule =>
              o <- off_var cx e d ;;
              if eval value o =? 1 then
                py_update schedule dayname
                  (fun day => py_update day (HStr "OFF")
                                (fun l => py_append l e))
              else Ok schedule)
           schedule ;;
       sl <- py_iter (c_sites cx) ;;
       for_each sl
         (fun site schedule =>
            for_each (c_work_shifts cx)
              (fun s schedule =>
                 who <- assigned value (c_employees cx)
                          (fun e => x_var cx e d (of_hkey s) site) ;;
                 ht <- to_hkey site ;;
                 py_update schedule dayname
                   (fun day => py_update day ht
                                 (fun cells => py_setitem cells s (PList who))))
              schedule)
         schedule)
    schedule.

(** One step of the inner loops of the metrics: the day [d] and the work
    shift [s] of employee [e], on the minutes and per-shift counts so far. *)
Definition metrics_cell (cx : ctx) (value : assignment) (sm : list (hkey * Z))
  (e : pyval) (ds : nat * hkey) (mc : Z * list (hkey * Z))
  : result (Z * list (hkey * Z)) :=
  w <- works_shift cx e (fst ds) (of_hkey (snd ds)) ;;
  let val := eval value w in
  if negb (val =? 0) then
    m <- minutes_of sm (of_hkey (snd ds)) ;;
    match dict_lookup (snd ds) (snd mc) with
    | Some n => Ok (fst mc + m, dict_set (snd ds) (n + 1) (snd mc))
    | None => Raise KeyError
    end
  else Ok mc.

(** The inner loops of the metrics for one employee: the minutes and the
    per-shift counts. *)
Definition employee_metrics (cx : ctx) (value : assignment)
  (sm : list (hkey * Z)) (e : pyval) : result (Z * list (hkey * Z)) :=
  let counts0 :=
    fold_left (fun m s => dict_set s 0 m) (c_work_shifts cx) [] in
  for_each (list_prod (seq 0 (n_days cx)) (c_work_shifts cx))
    (metrics_cell cx value sm e) (0, counts0).

(** The body of the loop over the employees. *)
Definition metrics_step (cx : ctx) (value : assignment) (sm : list (hkey * Z))
  (e : pyval) (acc : list (hkey * Z) * list (hkey * list (hkey * Z)))
  : result (list (hkey * Z) * list (hkey * list (hkey * Z))) :=
  '(mins, counts) <- employee_metrics cx value sm e ;;
  he <- to_hkey e ;;
  Ok (dict_set he mins (fst acc), dict_set he counts (snd acc)).

Definition metrics (cx : ctx) (value : assignment)
  : result (list (hkey * Z) * list (hkey * list (hkey * Z))) :=
  sm <- shift_minutes cx ;;
  for_each (c_employees cx) (metrics_step cx value sm) ([], []).

Definition materialize (cx : ctx) (o : solver_outcome) : result solve_result :=
  schedule <- empty_schedule cx ;;
  schedule <- fill_schedule cx (o_value o) schedule ;;
  '(minutes_worked, shift_counts) <- metrics cx (o_value o) ;;
  Ok (Solved (o_objective o) schedule minutes_worked shift_counts).

Section Solver.

(** The CP-SAT backend: given the model, the time limit and the number of
    workers it reports a status, and for [OPTIMAL] and [FEASIBLE] the
    values of the variables and of the objective. *)
Variable solver : cp_model -> Z -> Z -> solver_outcome.

(** [compile_and_solve(spec, max_time, workers)]: the spec object as the
    call leaves it, and what the call returns or raises. *)
Definition compile_and_solve (spec : pyval) (max_time workers : Z)
  : pyval * result solve_result :=
  let (spec', built) := compile_model spec in
  (spec',
   '(cx, model) <- built ;;
   let o := solver model max_time workers in
   match o_status o with
   | OPTIMAL | FEASIBLE => materialize cx o
   | _ => Ok NoSolution
   end).

End Solver.

(** ** The validator *)

(** [a == b] on arbitrary values: booleans compare as integers, lists
    element by element, dictionaries as finite maps. *)
Fixpoint py_eqb (a b : pyval) : bool :=
  match a, b with
  | PNone, PNone => true
  | (PBool _ | PInt _), (PBool _ | PInt _) => int_of a =? int_of b
  | PStr s, PStr t => String.eqb s t
  | PList l1, PList l2 =>
      (fix go (l1 l2 : list pyval) : bool :=
         match l1, l2 with
         | [], [] => true
         | x :: l1', y :: l2' => py_eqb x y && go l1' l2'
         | _, _ => false
         end) l1 l2
  | PDict d1, PDict d2 =>
      Nat.eqb (List.length d1) (List.length d2) &&
      (fix all (kvs : list (hkey * pyval)) : bool :=
         match kvs with
         | [] => true
         | (k, v) :: rest =>
             (fix find (d : list (hkey * pyval)) : bool :=
                match d with
                | [] => false
                | (k', v') :: d' =>
                    if hkey_eqb k k' then py_eqb v v' else find d'
                end) d2
             && all rest
         end) d1
  | _, _ => false
  end.

(** [x in c] for arbitrary [x] and [c]. *)
Definition py_in (x c : pyval) : result bool :=
  match c with
  | PDict kvs =>
      h <- to_hkey x ;;
      Ok (match dict_lookup h kvs with Some _ => true | None => false end)
  | PList l => Ok (existsb (py_eqb x) l)
  | PStr s =>
      match x with
      | PStr k => Ok (is_substring k s)
      | _ => Raise TypeError
      end
  | PNone | PBool _ | PInt _ => Raise TypeError
  end.

(** A formatted message: the text of the f-string with [{}] for each
    interpolated value, and the values. *)
Record msg : Type := Msg { m_text : string; m_args : list pyval }.

Record report : Type := Report { r_errors : list msg; r_warnings : list msg }.

Definition err (text : string) (args : list pyval) (r : report) : report :=
  Report (r_errors r ++ [Msg text args]) (r_warnings r).
Definition warn (text : string) (args : list pyval) (r : report) : report :=
  Report (r_errors r) (r_warnings r ++ [Msg text args]).
Definition err_if (b : bool) (text : string) (args : list pyval) (r : report)
  : report := if b then err text args r else r.
Definition warn_if (b : bool) (text : string) (args : list pyval) (r : report)
  : report := if b then warn text args r else r.

Record validation : Type := Validation {
  v_ok : bool;
  v_errors : list msg;
  v_warnings : list msg
}.

(** The local helper [dupes]: the values seen more than once, sorted. *)
Definition dupes (lst : list pyval) : result (list hkey) :=
  sd <- for_each lst
          (fun x (sd : pyset * pyset) =>
             h <- to_hkey x ;;
             Ok (set_add h (fst sd),
                 if mem h (fst sd) then set_add h (snd sd) else snd sd))
          ([], []) ;;
  py_sorted (snd sd).

Definition keys_val (l : list hkey) : pyval := PList (map of_hkey l).

(** [if lst: d = dupes(lst); if d: errors.append(...)] *)
Definition check_dupes (lst : list pyval) (text : string) (r : report)
  : result report :=
  match lst with
  | [] => Ok r
  | _ =>
      d <- dupes lst ;;
      Ok (err_if (negb (is_empty d)) text [keys_val d] r)
  end.

(** [if not isinstance(v, list) or not v: errors.append(...); v = []] *)
Definition nonempty_list (v : pyval) (text : string) (r : report)
  : list pyval * report :=
  match v with
  | PList (x :: l) => (x :: l, r)
  | _ => ([], err text [] r)
  end.

(** The local helper [_is_hhmm]. *)
Definition is_hhmm (v : pyval) : result bool :=
  match v with
  | PStr s =>
      if negb (Nat.eqb (String.length s) 5) then Ok false
      else
        match String.get 2 s with
        | Some ":"%char =>
            '(hh, mm) <- split_colon v ;;
            if isdigit hh && isdigit mm then
              h <- py_int (PStr hh) ;;
              if (0 <=? h) && (h <=? 23) then
                m <- py_int (PStr mm) ;;
                Ok ((0 <=? m) && (m <=? 59))
              else Ok false
            else Ok false
        | _ => Ok false
        end
  | _ => Ok false
  end.

(** [if key in sd and not _is_hhmm(sd[key]): errors.append(...)] *)
Definition check_hhmm (s : hkey) (sd : pyval) (key text : string) (r : report)
  : result report :=
  has <- has_key sd key ;;
  if has : bool then
    v <- py_item sd key ;;
    good <- is_hhmm v ;;
    Ok (err_if (negb good) text [of_hkey s] r)
  else Ok r.

Definition check_shift_def (kv : hkey * pyval) (r : report) : result report :=
  let (s, sd) := kv in
  if negb (is_dict sd) then Ok (err "shifts['{}'] must be an object." [of_hkey s] r)
  else
    r <- check_hhmm s sd "start" "shifts['{}'].start must be HH:MM" r ;;
    r <- check_hhmm s sd "end" "shifts['{}'].end must be HH:MM" r ;;
    has <- has_key sd "minutes" ;;
    if has : bool then
      m <- py_item sd "minutes" ;;
      Ok (err_if (negb (is_int m) || (int_of m <? 0))
            "shifts['{}'].minutes must be a non-negative integer" [of_hkey s] r)
    else Ok r.

(** [if key in c and (not isinstance(c[key], int) or bad c[key]): errors.append(...)] *)
Definition check_int_if_present (c : pyval) (key : string) (bad : Z -> bool)
  (text : string) (args : list pyval) (r : report) : result report :=
  has <- has_key c key ;;
  if has : bool then
    v <- py_item c key ;;
    Ok (err_if (negb (is_int v) || bad (int_of v)) text args r)
  else Ok r.

(** [if key not in c or not isinstance(c[key], int) or bad c[key]: errors.append(...)] *)
Definition check_int_required (c : pyval) (key : string) (bad : Z -> bool)
  (text : string) (args : list pyval) (r : report) : result report :=
  has <- has_key c key ;;
  if has : bool then
    v <- py_item c key ;;
    Ok (err_if (negb (is_int v) || bad (int_of v)) text args r)
  else Ok (err text args r).

(** The floors under [requirements.skills_min] or [requirements.roles_min]. *)
Definition check_floors (i : nat) (reqs emp_defs : pyval) (employees : list pyval)
  (list_key item_key attr : string) (r : report) : result report :=
  fv <- py_get reqs list_key (PList []) ;;
  fl <- py_iter (py_or fv (PList [])) ;;
  let iv := PInt (Z.of_nat i) in
  for_each (enumerate fl)
    (fun jsk r =>
       let jv := PInt (Z.of_nat (fst jsk)) in
       let sk := snd jsk in
       if negb (is_dict sk) then
         Ok (err "demand[{}].requirements.{}[{}] must be an object."
               [iv; PStr list_key; jv] r)
       else
         has_tag <- has_key sk item_key ;;
         has_min <- (if has_tag : bool then has_key sk "min" else Ok false) ;;
         if negb (has_tag && has_min) then
           Ok (err "demand[{}].requirements.{}[{}] must have '{}' and 'min'."
                 [iv; PStr list_key; jv; PStr item_key] r)
         else
           mn <- py_item sk "min" ;;
           let r := err_if (negb (is_int mn) || (int_of mn <? 0))
                      "demand[{}].requirements.{}[{}].min must be int >= 0"
                      [iv; PStr list_key; jv] r in
           tag <- py_item sk item_key ;;
           have <-
             filter_r
               (fun e =>
                  ed <- py_get_v emp_defs e (PDict []) ;;
                  tv <- py_get (py_or ed (PDict [])) attr (PList []) ;;
                  tags <- py_set tv ;;
                  in_set tag tags)
               employees ;;
           Ok (warn_if (match have with [] => true | _ => false end)
                 "demand[{}] requires {} '{}' but no employee declares it."
                 [iv; PStr item_key; tag] r))
    r.

Definition check_demand_entry (sites employees : list pyval)
  (days_set shifts_set sites_set : pyset) (emp_defs : pyval)
  (ireq : nat * pyval) (r : report) : result report :=
  let iv := PInt (Z.of_nat (fst ireq)) in
  let req := snd ireq in
  if negb (is_dict req) then Ok (err "demand[{}] must be an object." [iv] r)
  else
    day <- py_get req "day" PNone ;;
    shift <- py_get req "shift" PNone ;;
    site <- py_get req "site" (match sites with x :: _ => x | [] => PNone end) ;;
    known <- in_set day days_set ;;
    let r := err_if (negb known) "demand[{}].day '{}' not in sets.days" [iv; day] r in
    known <- in_set shift shifts_set ;;
    let r := err_if (negb known) "demand[{}].shift '{}' not in sets.shifts"
               [iv; shift] r in
    known <- in_set site sites_set ;;
    let r := err_if (negb known) "demand[{}].site '{}' not in sets.sites"
               [iv; site] r in
    has_eq <- has_key req "eq" ;;
    r <-
      (if has_eq : bool then
         v <- py_item req "eq" ;;
         Ok (err_if (negb (is_int v) || (int_of v <? 0))
               "demand[{}].eq must be an integer >= 0" [iv] r)
       else
         r <- check_int_if_present req "min" (fun z => z <? 0)
                "demand[{}].min must be an integer >= 0" [iv] r ;;
         r <- check_int_if_present req "max" (fun z => z <? 0)
                "demand[{}].max must be an integer >= 0" [iv] r ;;
         has_min <- has_key req "min" ;;
         has_max <- has_key req "max" ;;
         if has_min && has_max then
           mn <- py_item req "min" ;;
           mx <- py_item req "max" ;;
           Ok (err_if (is_int mn && is_int mx && (int_of mn >? int_of mx))
                 "demand[{}] has min > max" [iv] r)
         else Ok r) ;;
    rv <- py_get req "requirements" PNone ;;
    let reqs := py_or rv (PDict []) in
    if negb (is_dict reqs) then
      Ok (err "demand[{}].requirements must be an object if provided." [iv] r)
    else
      r <- check_floors (fst ireq) reqs emp_defs employees
             "skills_min" "skill" "skills" r ;;
      check_floors (fst ireq) reqs emp_defs employees
        "roles_min" "role" "roles" r.

(** [dd = data.get(key, []); if not isinstance(dd, list) or not dd: ... else:
    bad = [d for d in dd if d not in known]; if bad: ...] *)
Definition check_listed (data : pyval) (key : string) (known : pyset)
  (missing_text unknown_text : string) (cid : pyval) (r : report)
  : result report :=
  dd <- py_get data key (PList []) ;;
  match dd with
  | PList (x :: l) =>
      bad <- filter_r (fun d => b <- in_set d known ;; Ok (negb b)) (x :: l) ;;
      Ok (err_if (truthy (PList bad)) unknown_text [cid; PList bad] r)
  | _ => Ok (err missing_text [cid] r)
  end.

Definition check_payload (kind data cid : pyval) (days_set shifts_set : pyset)
  (r : report) : result report :=
  r <-
    (if is_str kind "forbid_shift_sequences" then
       pairs <- py_get data "forbidden_pairs" (PList []) ;;
       if negb (truthy pairs) then
         Ok (err "{}: forbid_shift_sequences requires data.forbidden_pairs." [cid] r)
       else
         pl <- py_iter pairs ;;
         for_each pl
           (fun p r =>
              a <- py_get p "prev_shift" PNone ;;
              known <- in_set a shifts_set ;;
              bad <- (if known : bool then
                        b <- py_get p "next_shift" PNone ;;
                        known <- in_set b shifts_set ;;
                        Ok (negb known)
                      else Ok true) ;;
              Ok (err_if bad "{}: forbidden pair uses shift not in sets.shifts: {}"
                    [cid; p] r))
           r
     else Ok r) ;;
  r <-
    (if is_str kind "max_shifts_in_window"
        || is_str kind "max_work_minutes_in_window"
        || is_str kind "fair_distribution"
     then check_int_if_present data "window_days" (fun z => z <=? 0)
            "{}: data.window_days must be integer > 0" [cid] r
     else Ok r) ;;
  r <-
    (if is_str kind "max_shifts_in_window" then
       check_int_required data "max" (fun z => z <? 0)
         "{}: max_shifts_in_window requires data.max as int >= 0" [cid] r
     else Ok r) ;;
  r <-
    (if is_str kind "max_work_minutes_in_window" then
       check_int_required data "max_minutes" (fun z => z <? 0)
         "{}: max_work_minutes_in_window requires data.max_minutes as int >= 0"
         [cid] r
     else Ok r) ;;
  r <-
    (if is_str kind "min_rest_minutes_between_shifts" then
       check_int_required data "min_rest_minutes" (fun z => z <? 0)
         "{}: min_rest_minutes_between_shifts requires data.min_rest_minutes as int >= 0"
         [cid] r
     else Ok r) ;;
  r <-
    (if is_str kind "max_consecutive_work_days" then
       check_int_required data "max" (fun z => z <? 0)
         "{}: max_consecutive_work_days requires data.max as int >= 0" [cid] r
     else Ok r) ;;
  r <-
    (if is_str kind "min_consecutive_days_off" then
       check_int_required data "min" (fun z => z <=? 0)
         "{}: min_consecutive_days_off requires data.min as int > 0" [cid] r
     else Ok r) ;;
  r <-
    (if is_str kind "penalize_work_on_days" then
       check_listed data "days" days_set
         "{}: penalize_work_on_days requires data.days list."
         "{}: penalize_work_on_days has unknown day(s): {}" cid r
     else Ok r) ;;
  r <-
    (if is_str kind "penalize_work_on_shifts" then
       check_listed data "shifts" shifts_set
         "{}: penalize_work_on_shifts requires data.shifts list."
         "{}: penalize_work_on_shifts has unknown shift(s): {}" cid r
     else Ok r) ;;
  if is_str kind "penalize_unmet_day_off_requests" then
    check_listed data "days" days_set
      "{}: penalize_unmet_day_off_requests requires data.days list."
      "{}: penalize_unmet_day_off_requests has unknown day(s): {}" cid r
  else Ok r.

Definition check_constraint (spec : pyval)
  (employees_set days_set shifts_set : pyset) (ic : nat * pyval)
  (st : report * list pyval) : result (report * list pyval) :=
  let iv := PInt (Z.of_nat (fst ic)) in
  let c := snd ic in
  let (r, ids) := st in
  if negb (is_dict c) then Ok (err "constraints[{}] must be an object." [iv] r, ids)
  else
    cid <- py_get c "id" PNone ;;
    ctype <- py_get c "type" PNone ;;
    kind <- py_get c "kind" PNone ;;
    scope <- constraint_scope c ;;
    data <- constraint_data c ;;
    pv <- py_get c "penalty" (PDict []) ;;
    let pen := py_or pv (PDict []) in
    let '(r, ids) :=
      match cid with
      | PStr (String _ _) => (r, ids ++ [cid])
      | _ => (err "constraints[{}].id must be a string." [iv] r, ids)
      end in
    let r := err_if (negb (is_str ctype "hard" || is_str ctype "soft"))
               "constraints[{}].type must be 'hard' or 'soft'." [iv] r in
    allowed <- kind_allowed kind ;;
    let r := err_if (negb allowed)
               "constraints[{}].kind '{}' not supported by this compiler."
               [iv; kind] r in
    r <-
      (if is_str ctype "soft" then
         has <- has_key pen "weight" ;;
         if negb has then
           Ok (warn "{}: soft constraint has no penalty.weight (will act like weight=0)."
                 [cid] r)
         else
           w <- py_get pen "weight" PNone ;;
           Ok (err_if (negb (is_int w) || (int_of w <? 0))
                 "{}: penalty.weight must be a non-negative number." [cid] r)
       else Ok r) ;;
    has <- has_key scope "employees" ;;
    r <-
      (if has : bool then
         ev <- py_item scope "employees" ;;
         if is_str ev "ALL" then Ok r
         else
           match ev with
           | PList l =>
               missing <- filter_r (fun e => b <- in_set e employees_set ;;
                                             Ok (negb b)) l ;;
               Ok (err_if (truthy (PList missing))
                     "{}: scope.employees contains unknown ids: {}"
                     [cid; PList missing] r)
           | _ => Ok (err "{}: scope.employees must be 'ALL' or a list." [cid] r)
           end
       else Ok r) ;;
    let r :=
      match select_employees_by_scope spec scope with
      | Ok sel =>
          warn_if (is_empty sel)
            "{}: scope selects 0 employees (constraint has no effect)." [cid] r
      | Raise _ => warn "{}: scope could not be evaluated (...)." [cid] r
      end in
    r <- check_payload kind data cid days_set shifts_set r ;;
    Ok (r, ids).

Definition check_objective (spec : pyval) (r : report) : result report :=
  o <- py_get spec "objective" PNone ;;
  match o with
  | PNone =>
      Ok (warn "Missing objective (solver will still run but only default objective)."
            [] r)
  | PDict _ =>
      mode <- py_get o "mode" PNone ;;
      let r := err_if (truthy mode
                       && negb (is_str mode "minimize" || is_str mode "maximize"))
                 "objective.mode must be 'minimize' or 'maximize'" [] r in
      terms <- py_get o "terms" PNone ;;
      Ok (match terms with
          | PNone | PList _ => r
          | _ => err "objective.terms must be an array" [] r
          end)
  | _ => Ok (err "objective must be an object." [] r)
  end.

(** [validate_spec(spec)] *)
Definition validate_spec (spec : pyval) : result validation :=
  has_sets <- has_key spec "sets" ;;
  if negb has_sets then Ok (Validation false [Msg "Missing 'sets'" []] [])
  else
    let r := Report [] [] in
    has <- has_key spec "demand" ;;
    let r := warn_if (negb has)
               "Missing 'demand' (no coverage constraints will be enforced)." [] r in
    has <- has_key spec "constraints" ;;
    let r := warn_if (negb has)
               "Missing 'constraints' (only demand constraints will be enforced)."
               [] r in
    sets <- py_get spec "sets" (PDict []) ;;
    employees <- py_get sets "employees" PNone ;;
    days <- py_get sets "days" PNone ;;
    shifts <- py_get sets "shifts" PNone ;;
    sites <- py_get sets "sites" (str_list ["SITE_DEFAULT"]) ;;
    let '(employees, r) :=
      nonempty_list employees "sets.employees must be a non-empty list." r in
    let '(days, r) := nonempty_list days "sets.days must be a non-empty list." r in
    let '(shifts, r) :=
      nonempty_list shifts "sets.shifts must be a non-empty list." r in
    let '(sites, r) :=
      nonempty_list sites
        "sets.sites must be a non-empty list (or omit to default)." r in
    r <- check_dupes employees "Duplicate employee ids in sets.employees: {}" r ;;
    r <- check_dupes days "Duplicate day values in sets.days: {}" r ;;
    r <- check_dupes shifts "Duplicate shift ids in sets.shifts: {}" r ;;
    r <- check_dupes sites "Duplicate site ids in sets.sites: {}" r ;;
    let r :=
      err_if (truthy (PList shifts) && negb (existsb (fun v => is_str v "OFF") shifts))
        "OFF shift must be present in sets.shifts for this compiler." [] r in
    shift_defs <- py_get spec "shifts" (PDict []) ;;
    let '(shift_defs, r) :=
      match shift_defs with
      | PDict kvs => (kvs, r)
      | _ => ([], err "Top-level 'shifts' must be an object/dict." [] r)
      end in
    r <-
      for_each shifts
        (fun s r =>
           defined <- py_in s (PDict shift_defs) ;;
           if defined : bool then Ok r
           else if is_str s "OFF" then
             Ok (warn "shifts.OFF missing: compiler will assume default OFF=0 minutes."
                   [] r)
           else
             Ok (warn "Missing shifts['{}'] definition (start/end/minutes)." [s] r))
        r ;;
    r <- for_each shift_defs check_shift_def r ;;
    emp_defs <- py_get spec "employees" (PDict []) ;;
    let '(emp_defs, r) :=
      if truthy emp_defs && negb (is_dict emp_defs)
      then (PDict [],
            err "Top-level 'employees' must be an object/dict if provided." [] r)
      else (emp_defs, r) in
    r <-
      for_each employees
        (fun e r =>
           known <- py_in e emp_defs ;;
           Ok (warn_if (negb known)
                 "employees['{}'] missing (skills/roles/contract/site_home may be used by scope/requirements)."
                 [e] r))
        r ;;
    employees_set <- py_set (PList employees) ;;
    days_set <- py_set (PList days) ;;
    shifts_set <- py_set (PList shifts) ;;
    sites_set <- py_set (PList sites) ;;
    dv <- py_get spec "demand" (PList []) ;;
    dl <- py_iter (py_or dv (PList [])) ;;
    r <-
      for_each (enumerate dl)
        (check_demand_entry sites employees days_set shifts_set sites_set emp_defs)
        r ;;
    cv <- py_get spec "constraints" (PList []) ;;
    let '(constraints, r) :=
      match py_or cv (PList []) with
      | PList l => (l, r)
      | _ => ([], err "constraints must be an array." [] r)
      end in
    '(r, ids) <-
      for_each (enumerate constraints)
        (check_constraint spec employees_set days_set shifts_set)
        (r, []) ;;
    r <- check_dupes ids "Duplicate constraint ids: {}" r ;;
    r <- check_objective spec r ;;
    Ok (Validation (match r_errors r with [] => true | _ => false end)
                   (r_errors r) (r_warnings r)).

(** ** The HTTP handlers and the job table

    A handler returns a body or raises [HTTPException(status_code, detail)];
    of [detail] only the fixed part of the text is kept.  The database is
    the table [solver_jobs]: a list of rows on which the SQL statements of
    the module act as they are written, every statement running to
    completion.  The clock ([utcnow]) and the job identifier ([uuid4]) are
    arguments of the functions that read them. *)

Inductive detail : Type :=
| MissingField
| ErrorText
| InternalError
| SpecInvalid (v : validation)
| JobNotFound.

Inductive response (A : Type) : Type :=
| Returns (body : A)
| HTTPException (status_code : Z) (d : detail).
Arguments Returns {A} body.
Arguments HTTPException {A} status_code d.

(** The [try ... except KeyError ... except ValueError ... except Exception]
    of [solve]: the details are [Missing field: ...], the text of the
    exception, and [Internal error: ...]. *)
Definition solve_response {A} (r : result A) : response A :=
  match r with
  | Ok body => Returns body
  | Raise KeyError => HTTPException 400 MissingField
  | Raise ValueError => HTTPException 400 ErrorText
  | Raise _ => HTTPException 500 InternalError
  end.

(** [validate(req)] *)
Definition validate (spec : pyval) : response validation :=
  match validate_spec spec with
  | Ok v => Returns v
  | Raise _ => HTTPException 500 InternalError
  end.

(** The text stored in the [error] column: [No feasible solution], or the
    text of an exception. *)
Inductive error_text : Type :=
| NoFeasibleSolution
| ExceptionText (e : exn).

(** A row of [solver_jobs]. *)
Record job : Type := Job {
  j_id : string;
  j_status : string;
  j_spec : pyval;
  j_params : Z * Z;
  j_created_at : option Z;
  j_started_at : option Z;
  j_finished_at : option Z;
  j_error : option error_text;
  j_result : option solve_result
}.

Definition table := list job.

(** [COALESCE(new, old)] *)
Definition coalesce {A} (new old : option A) : option A :=
  match new with Some _ => new | None => old end.

(** [INSERT INTO solver_jobs (job_id, status, spec_json, params_json)
    VALUES (:job_id, 'queued', :spec, :params)]: the other columns of the
    new row are those of [blank], the row of the table's defaults. *)
Definition db_insert_job (blank : job) (job_id : string) (spec : pyval)
  (params : Z * Z) (db : table) : table :=
  db ++ [Job job_id "queued" spec params (j_created_at blank)
             (j_started_at blank) (j_finished_at blank) (j_error blank)
             (j_result blank)].

(** [UPDATE solver_jobs SET status = :status, started_at =
    COALESCE(:started_at, started_at), ... WHERE job_id = :job_id] *)
Definition db_update_status (job_id status : string)
  (started_at finished_at : option Z) (error : option error_text)
  (result : option solve_result) (db : table) : table :=
  map (fun j =>
         if String.eqb (j_id j) job_id then
           Job (j_id j) status (j_spec j) (j_params j) (j_created_at j)
               (coalesce started_at (j_started_at j))
               (coalesce finished_at (j_finished_at j))
               (coalesce error (j_error j))
               (coalesce result (j_result j))
         else j)
      db.

(** [SELECT ... FROM solver_jobs WHERE job_id = :job_id], [.first()] *)
Definition db_select (job_id : string) (db : table) : option job :=
  find (fun j => String.eqb (j_id j) job_id) db.

(** The columns that [db_get_job] reads. *)
Record job_view : Type := JobView {
  jv_id : string;
  jv_status : string;
  jv_created_at : option Z;
  jv_started_at : option Z;
  jv_finished_at : option Z;
  jv_error : option error_text
}.

Definition db_get_job (job_id : string) (db : table) : option job_view :=
  option_map (fun j => JobView (j_id j) (j_status j) (j_created_at j)
                               (j_started_at j) (j_finished_at j) (j_error j))
             (db_select job_id db).

(** The columns that [db_get_result] reads. *)
Record result_view : Type := ResultView {
  rv_status : string;
  rv_result : option solve_result;
  rv_error : option error_text
}.

Definition db_get_result (job_id : string) (db : table) : option result_view :=
  option_map (fun j => ResultView (j_status j) (j_result j) (j_error j))
             (db_select job_id db).

(** What [get_job_result] returns: the status and the error of a job that
    is not done, or the result of one that is. *)
Inductive job_result : Type :=
| Pending (job_id status : string) (error : option error_text)
| Done (job_id : string) (result : option solve_result).

(** [get_job(job_id)] *)
Definition get_job (job_id : string) (db : table) : response job_view :=
  match db_get_job job_id db with
  | None => HTTPException 404 JobNotFound
  | Some j => Returns j
  end.

(** [get_job_result(job_id)] *)
Definition get_job_result (job_id : string) (db : table) : response job_result :=
  match db_get_result job_id db with
  | None => HTTPException 404 JobNotFound
  | Some r =>
      if negb (String.eqb (rv_status r) "done")
      then Returns (Pending job_id (rv_status r) (rv_error r))
      else Returns (Done job_id (rv_result r))
  end.

(** The arguments of the thread that [create_job] starts. *)
Record task : Type := Task {
  t_job_id : string;
  t_spec : pyval;
  t_max_time : Z;
  t_workers : Z
}.

(** [create_job(req)]: the table afterwards, the response, and the thread
    started, if any.  An exception of [validate_spec] is not caught. *)
Definition create_job (blank : job) (job_id : string) (spec : pyval)
  (max_time workers : Z) (db : table)
  : result (table * response (string * string) * option task) :=
  v <- validate_spec spec ;;
  if negb (v_ok v) then Ok (db, HTTPException 400 (SpecInvalid v), None)
  else
    let db := db_insert_job blank job_id spec (max_time, workers) db in
    Ok (db, Returns (job_id, "queued"),
        Some (Task job_id spec max_time workers)).

Section Handlers.

Variable solver : cp_model -> Z -> Z -> solver_outcome.

(** [solve(req)]: the spec object as the call leaves it, and the response. *)
Definition solve (spec : pyval) (max_time workers : Z)
  : pyval * response solve_result :=
  let (spec', r) := compile_and_solve solver spec max_time workers in
  (spec', solve_response r).

(** [run_job(job_id, spec, max_time_seconds, workers)], the clock reading
    [t_start] at the first [utcnow()] and [t_end] at the second: the spec
    object and the table afterwards. *)
Definition run_job (t_start t_end : Z) (job_id : string) (spec : pyval)
  (max_time workers : Z) (db : table) : pyval * table :=
  let db := db_update_status job_id "running" (Some t_start) None None None db in
  let (spec', r) := compile_and_solve solver spec max_time workers in
  (spec',
   match r with
   | Ok NoSolution =>
       db_update_status job_id "failed" None (Some t_end)
         (Some NoFeasibleSolution) None db
   | Ok result =>
       db_update_status job_id "done" None (Some t_end) None (Some result) db
   | Raise e =>
       db_update_status job_id "failed" None (Some t_end)
         (Some (ExceptionText e)) None db
   end).

End Handlers.

(** * Specification-side definitions and examples *)

Definition digit_char (d : Z) : ascii := ascii_of_nat (48 + Z.to_nat d).

Definition two_digits (n : Z) : string :=
  String (digit_char (n / 10)) (String (digit_char (n mod 10)) EmptyString).

(** The text [HH:MM] of an hour and a minute. *)
Definition hhmm (h m : Z) : string :=
  (two_digits h ++ ":" ++ two_digits m)%string.

Definition zrange (n : nat) : list Z := map Z.of_nat (seq 0 n).

Definition parses_as (h m : Z) : bool :=
  match parse_hhmm (PStr (hhmm h m)) with
  | Ok z => z =? h * 60 + m
  | Raise _ => false
  end.

(** A shift definition as the data model has it: [start] and [end] are
    valid [HH:MM] texts, at [s] and [e] minutes after midnight, and
    [minutes], when present, converts to an integer. *)
Definition is_time (v : pyval) (t : Z) : Prop :=
  exists h m, 0 <= h <= 23 /\ 0 <= m <= 59 /\ v = PStr (hhmm h m)
              /\ t = 60 * h + m.

Definition shift_def (sd : pyval) (s e : Z) : Prop :=
  (exists v, py_item sd "start" = Ok v /\ is_time v s) /\
  (exists v, py_item sd "end" = Ok v /\ is_time v e) /\
  (exists v z, py_get sd "minutes" (PInt 0) = Ok v /\ py_int v = Ok z).

Definition shift_22_06 : pyval :=
  obj [("start", PStr "22:00"); ("end", PStr "06:00"); ("minutes", PInt 480)].
Definition shift_14_22 : pyval :=
  obj [("start", PStr "14:00"); ("end", PStr "22:00"); ("minutes", PInt 480)].
Definition shift_23_22 : pyval :=
  obj [("start", PStr "23:00"); ("end", PStr "22:00"); ("minutes", PInt 1380)].
Definition shift_00_08 : pyval :=
  obj [("start", PStr "00:00"); ("end", PStr "08:00"); ("minutes", PInt 480)].

(** [a < b] and [a <= b] on keys that Python can compare. *)
Definition key_lt (a b : hkey) : Prop := hkey_lt a b = Ok true.
Definition key_le (a b : hkey) : Prop := hkey_lt b a = Ok false.

(** [sorted] succeeds exactly on lists whose elements it can compare:
    at most one element, or integers only, or strings only. *)
Definition comparable (l : list hkey) : Prop :=
  (List.length l <= 1)%nat
  \/ Forall (fun k => exists z, k = HInt z) l
  \/ Forall (fun k => exists s, k = HStr s) l.

(** [sel'] is [sel] with some elements removed. *)
Definition sub_of (sel' sel : pyset) : Prop := exists f, sel' = filter f sel.

(** [del d[k]] *)
Definition dict_del {V} (k : hkey) (kvs : list (hkey * V)) : list (hkey * V) :=
  filter (fun kv => negb (hkey_eqb k (fst kv))) kvs.

(** The names of the seven filters of a scope clause. *)
Definition FILTER_KEYS : list string :=
  ["groups"; "skills_any"; "skills_all"; "roles_any"; "roles_all";
   "sites_any"; "contracts_any"].

(** The filter [k] of the scope is absent, [None], or the empty list. *)
Definition no_filter (scope : list (hkey * pyval)) (k : string) : Prop :=
  match dict_lookup (HStr k) scope with
  | None | Some PNone | Some (PList []) => True
  | _ => False
  end.

Definition is_strs (v : pyval) : Prop := exists l, v = str_list l.

Definition strs_or_absent (kvs : list (hkey * pyval)) (key : string) : Prop :=
  match dict_lookup (HStr key) kvs with
  | None => True
  | Some v => is_strs v
  end.

(** The metadata of one employee: string tags, a home site, a contract. *)
Definition wf_employee (e : pyval) : Prop :=
  exists kvs,
    e = PDict kvs /\
    strs_or_absent kvs "skills" /\ strs_or_absent kvs "roles" /\
    match dict_lookup (HStr "site_home") kvs with
    | None | Some (PStr _) => True
    | _ => False
    end /\
    match dict_lookup (HStr "contract") kvs with
    | None => True
    | Some (PDict c) =>
        match dict_lookup (HStr "type") c with
        | None | Some (PStr _) => True
        | _ => False
        end
    | _ => False
    end.

Definition wf_dict_of (P : pyval -> Prop) (o : option pyval) : Prop :=
  match o with
  | None => True
  | Some (PDict kvs) => Forall (fun kv => P (snd kv)) kvs
  | Some _ => False
  end.

(** A spec as the data model describes it, as far as scope selection reads
    it: [sets.employees] is a list of ids, [groups] maps names to lists of
    ids, [employees] maps ids to metadata. *)
Definition wf_spec (spec : pyval) : Prop :=
  exists kvs sets emps,
    spec = PDict kvs /\
    dict_lookup (HStr "sets") kvs = Some (PDict sets) /\
    dict_lookup (HStr "employees") sets = Some (str_list emps) /\
    wf_dict_of is_strs (dict_lookup (HStr "groups") kvs) /\
    wf_dict_of wf_employee (dict_lookup (HStr "employees") kvs).

(** A scope clause: [employees] is absent, ["ALL"] or a list of ids, and
    every filter is absent or a list of strings. *)
Definition wf_scope (scope : pyval) : Prop :=
  exists kvs,
    scope = PDict kvs /\
    match dict_lookup (HStr "employees") kvs with
    | None => True
    | Some v => v = PStr "ALL" \/ is_strs v
    end /\
    forall k, In k FILTER_KEYS -> strs_or_absent kvs k.

Definition is_hstr (k : hkey) : Prop := exists s, k = HStr s.

Definition spec_team : pyval :=
  obj [("sets", obj [("employees", str_list ["P2"; "P1"; "P3"])]);
       ("employees",
        obj [("P1", obj [("skills", str_list ["nurse"]); ("site_home", PStr "A")]);
             ("P2", obj [("skills", str_list ["nurse"; "lead"])])]);
       ("groups", obj [("night", str_list ["P3"; "P2"])])].

Definition scope_nurses : pyval :=
  obj [("skills_any", str_list ["nurse"]); ("groups", PList [])].

Definition spec_one_employee : pyval :=
  obj [("sets", obj [("employees", str_list ["P1"])])].

Definition scope_with_stranger : pyval :=
  obj [("employees", str_list ["P1"; "ZZ"])].

(** [spec.get("constraints", [])] as a list *)
Definition constraints_of (spec : pyval) : result (list pyval) :=
  cv <- py_get spec "constraints" (PList []) ;; py_iter cv.

(** The rows of [acc'] are those of [acc] followed by more rows. *)
Definition grows (acc acc' : emit) : Prop :=
  exists rs, e_rows acc' = e_rows acc ++ rs.

Definition sum_vars (a : assignment) (vs : list var) : Z :=
  fold_right Z.add 0 (map a vs).

Definition is_decision (v : var) : Prop :=
  match v with
  | VOff _ _ | VX _ _ _ _ => True
  | VAux _ _ _ _ => False
  end.

Definition in_domainb (a : assignment) (d : decl) : bool :=
  (d_lo d <=? a (d_var d)) && (a (d_var d) <=? d_hi d).

Definition satisfiesb (a : assignment) (m : cp_model) : bool :=
  forallb (in_domainb a) (m_vars m) && forallb (holdsb a) (m_rows m).

(** The constraint [c] is an [exactly_one_assignment_per_day] constraint
    whose scope selects [e]; [counted] is its list of counted shifts:
    [data.shifts] without [OFF] when given, every work shift otherwise. *)
Definition exactly_one_over (cx : ctx) (c : pyval) (e : hkey)
  (counted : list pyval) : Prop :=
  py_item c "kind" = Ok (PStr "exactly_one_assignment_per_day") /\
  exists scope data emps,
    constraint_scope c = Ok scope /\ constraint_data c = Ok data /\
    select_employees_by_scope (c_spec cx) scope = Ok emps /\ In e emps /\
    counted_work cx data = Ok counted.

(** [v] is [off[e,d]] or one of the [x[e,d,s,site]] with [s] in [shifts]. *)
Definition day_var (cx : ctx) (shifts : list pyval) (e : hkey) (d : nat)
  (v : var) : Prop :=
  v = VOff e d \/
  exists s site sl hs ht,
    In s shifts /\ py_iter (c_sites cx) = Ok sl /\ In site sl /\
    to_hkey s = Ok hs /\ to_hkey site = Ok ht /\ v = VX e d hs ht.

Definition day_shift (start stop : string) (minutes : Z) : pyval :=
  obj [("start", PStr start); ("end", PStr stop); ("minutes", PInt minutes)].

Definition exactly_one_m_only : pyval :=
  obj [("id", PStr "c1"); ("type", PStr "hard");
       ("kind", PStr "exactly_one_assignment_per_day");
       ("data", obj [("shifts", str_list ["M"])])].

(** One employee, one day, two work shifts, and an exactly-one constraint
    restricted to shift [M]. *)
Definition spec_restricted : pyval :=
  obj [("sets", obj [("employees", str_list ["P1"]); ("days", str_list ["D1"]);
                     ("shifts", str_list ["OFF"; "M"; "N"])]);
       ("shifts", obj [("M", day_shift "08:00" "16:00" 480);
                       ("N", day_shift "22:00" "06:00" 480)]);
       ("constraints", PList [exactly_one_m_only])].

Definition off_P1 : var := VOff (HStr "P1") 0.
Definition x_P1 (s : string) : var :=
  VX (HStr "P1") 0 (HStr s) (HStr "SITE_DEFAULT").

(** [P1] is off and also works shift [N]. *)
Definition off_and_night : assignment :=
  fun v => if var_eqb v off_P1 || var_eqb v (x_P1 "N") then 1 else 0.

Definition zsum (l : list Z) : Z := fold_right Z.add 0 l.

(** The value of [x[e,d,s,site]] in an assignment. *)
Definition x_value (a : assignment) (e : hkey) (d : nat) (s site : pyval) : Z :=
  match to_hkey s, to_hkey site with
  | Ok hs, Ok ht => a (VX e d hs ht)
  | _, _ => 0
  end.

(** The value of [works_shift(e,d,s)]: the sum over the sites. *)
Definition works_value (a : assignment) (sites : list pyval) (e : hkey)
  (d : nat) (s : pyval) : Z :=
  zsum (map (x_value a e d s) sites).

(** The sum of [works_shift(e,d,s)] over the days of a window and a list
    of shifts. *)
Definition window_value (a : assignment) (sites : list pyval) (e : hkey)
  (window : list nat) (shifts : list pyval) : Z :=
  zsum (map (fun ds => works_value a sites e (fst ds) (snd ds))
            (list_prod window shifts)).

Definition max_one_shift : pyval :=
  obj [("id", PStr "w1"); ("type", PStr "hard");
       ("kind", PStr "max_shifts_in_window");
       ("data", obj [("window_days", PInt 7); ("max", PInt 1)])].

(** One employee, two days, one work shift, at most one shift per week. *)
Definition spec_week : pyval :=
  obj [("sets", obj [("employees", str_list ["P1"]);
                     ("days", str_list ["D1"; "D2"]);
                     ("shifts", str_list ["OFF"; "M"])]);
       ("shifts", obj [("M", day_shift "08:00" "16:00" 480)]);
       ("constraints", PList [max_one_shift])].

Definition no_ctx : ctx := Ctx PNone [] [] PNone PNone [] [] [] PNone.

Definition context_of (spec : pyval) : ctx :=
  match snd (compile_model spec) with
  | Ok (cx, _) => cx
  | Raise _ => no_ctx
  end.

Definition cx_week : ctx := Eval vm_compute in context_of spec_week.

Definition all_zero : assignment := fun _ => 0.

(** Compilation gets as far as constraint [c]: the statements before the
    constraint loop, the demand, and the constraints [pre] listed before [c]
    raise nothing. *)
Definition reaches_constraint (spec spec' : pyval) (cx : ctx)
  (pre : list pyval) (c : pyval) (post : list pyval) : Prop :=
  exists employees days shifts sites shift_defs dem acc,
    prelude spec = Ok (spec', (employees, days, shifts, sites, shift_defs)) /\
    build_context spec' employees days shifts sites shift_defs
    = Ok (cx, pre ++ c :: post) /\
    compile_demand cx = Ok dem /\
    compile_constraints cx pre = Ok acc.

(** [c] is a [forbid_shift_sequences] constraint whose scope selects at
    least one employee, on a horizon of at least two days, and whose list
    of pairs has, after pairs that compile, a pair [p] with a shift that is
    not a work shift. *)
Definition offending_forbid (cx : ctx) (c p : pyval) : Prop :=
  exists cid ctype scope data weight e emps fp good rest acc prev_s next_s,
    py_item c "id" = Ok cid /\ py_item c "type" = Ok ctype /\
    py_item c "kind" = Ok (PStr "forbid_shift_sequences") /\
    constraint_scope c = Ok scope /\ constraint_data c = Ok data /\
    constraint_weight c = Ok weight /\
    select_employees_by_scope (c_spec cx) scope = Ok (e :: emps) /\
    (2 <= n_days cx)%nat /\
    py_get data "forbidden_pairs" (PList []) = Ok fp /\
    py_iter fp = Ok (good ++ p :: rest) /\
    for_each good (forbid_pair cx e 0) no_emit = Ok acc /\
    py_item p "prev_shift" = Ok prev_s /\ py_item p "next_shift" = Ok next_s /\
    (in_list prev_s (c_work_shifts cx) = false
     \/ in_list next_s (c_work_shifts cx) = false).

Definition pair_off_m : pyval :=
  obj [("prev_shift", PStr "OFF"); ("next_shift", PStr "M")].

Definition forbid_off_m : pyval :=
  obj [("id", PStr "f1"); ("type", PStr "hard");
       ("kind", PStr "forbid_shift_sequences");
       ("data", obj [("forbidden_pairs", PList [pair_off_m])])].

(** One employee and the forbidden pair [OFF -> M], over the given days. *)
Definition spec_forbid (days : list string) : pyval :=
  obj [("sets", obj [("employees", str_list ["P1"]); ("days", str_list days);
                     ("shifts", str_list ["OFF"; "M"])]);
       ("shifts", obj [("M", day_shift "08:00" "16:00" 480)]);
       ("constraints", PList [forbid_off_m])].

(** A backend that reports everybody off. *)
Definition solver_all_off : cp_model -> Z -> Z -> solver_outcome :=
  fun _ _ _ =>
    Outcome OPTIMAL (fun v => match v with VOff _ _ => 1 | _ => 0 end) 0.

Definition int_value (v : pyval) : Z :=
  match py_int v with Ok z => z | Raise _ => 0 end.










(** The sites, as a list. *)
Definition site_list (cx : ctx) : list pyval :=
  match py_iter (c_sites cx) with Ok sl => sl | Raise _ => [] end.

(** [defs[s].minutes] *)
Definition def_minutes (cx : ctx) (s : hkey) : Z :=
  match py_item_v (c_shift_defs cx) (of_hkey s) with
  | Ok sd =>
      match py_get sd "minutes" (PInt 0) with
      | Ok m => int_value m
      | Raise _ => 0
      end
  | Raise _ => 0
  end.

(** All pairs of a day index and a work shift. *)
Definition day_shifts (cx : ctx) : list (nat * hkey) :=
  list_prod (seq 0 (n_days cx)) (c_work_shifts cx).

(** What the day [d] and the work shift [s] add to the minutes of [e]:
    the minutes of the shift when [works_shift(e,d,s)] is not zero. *)
Definition cell_minutes (a : assignment) (cx : ctx) (e : hkey)
  (ds : nat * hkey) : Z :=
  if works_value a (site_list cx) e (fst ds) (of_hkey (snd ds)) =? 0
  then 0 else def_minutes cx (snd ds).

(** The minutes of the shifts that the employee works, a shift counting
    once however many sites it is assigned at. *)
Definition worked_minutes (a : assignment) (cx : ctx) (e : hkey) : Z :=
  zsum (map (cell_minutes a cx e) (day_shifts cx)).

(** The sum of [defs[s].minutes * works_shift(e,d,s)]. *)
Definition weighted_minutes (a : assignment) (cx : ctx) (e : hkey) : Z :=
  zsum (map (fun ds =>
               def_minutes cx (snd ds)
               * works_value a (site_list cx) e (fst ds) (of_hkey (snd ds)))
            (day_shifts cx)).

(** One employee, one day, one work shift of 480 minutes, two sites, and
    neither demand nor constraints. *)
Definition spec_two_sites : pyval :=
  obj [("sets", obj [("employees", str_list ["P1"]); ("days", str_list ["D1"]);
                     ("shifts", str_list ["OFF"; "M"]);
                     ("sites", str_list ["A"; "B"])]);
       ("shifts", obj [("M", day_shift "08:00" "16:00" 480)])].

(** [P1] works shift [M] at both sites. *)
Definition both_sites : assignment :=
  fun v => match v with VX _ _ _ _ => 1 | _ => 0 end.

Definition solver_both_sites : cp_model -> Z -> Z -> solver_outcome :=
  fun _ _ _ => Outcome OPTIMAL both_sites 0.

Definition sets_p1 : pyval :=
  obj [("employees", str_list ["P1"]); ("days", str_list ["D1"]);
       ("shifts", str_list ["OFF"; "M"])].

(** [sets] is a number. *)
Definition spec_sets_not_object : pyval := obj [("sets", PInt 5)].

(** The start of a shift has two colons. *)
Definition spec_bad_time : pyval :=
  obj [("sets", sets_p1);
       ("shifts", obj [("M", obj [("start", PStr "1::00"); ("end", PStr "16:00")])])].

(** [employees] is [null]. *)
Definition spec_null_employees : pyval :=
  obj [("sets", sets_p1); ("employees", PNone)].

(** The day of a demand entry is a list. *)
Definition spec_demand_day_list : pyval :=
  obj [("sets", sets_p1);
       ("demand", PList [obj [("day", str_list ["D1"]); ("shift", PStr "M")]])].

(** The scope of a constraint is a number. *)
Definition spec_scope_number : pyval :=
  obj [("sets", sets_p1);
       ("constraints",
        PList [obj [("id", PStr "c1"); ("type", PStr "hard");
                    ("kind", PStr "exactly_one_assignment_per_day");
                    ("scope", PInt 5)]])].

Fixpoint count_char (c : ascii) (s : string) : nat :=
  match s with
  | EmptyString => 0
  | String a s' => ((if Ascii.eqb a c then 1 else 0) + count_char c s')%nat
  end.

(** The number that a string of decimal digits writes. *)
Fixpoint decimal_from (acc : Z) (s : string) : Z :=
  match s with
  | EmptyString => acc
  | String c s' => decimal_from (10 * acc + (Z.of_nat (nat_of_ascii c) - 48)) s'
  end.

Definition decimal (s : string) : Z := decimal_from 0 s.

(** Every character is a 7-bit one. *)
Fixpoint ascii_only (s : string) : bool :=
  match s with
  | EmptyString => true
  | String c s' => (nat_of_ascii c <? 128)%nat && ascii_only s'
  end.

Definition shift_night_no_minutes : pyval :=
  obj [("start", PStr "22:00"); ("end", PStr "06:00")].

Definition hhmm_digits (d0 d1 d3 d4 : Z) : string :=
  String (digit_char d0) (String (digit_char d1) (String ":"
    (String (digit_char d3) (String (digit_char d4) EmptyString)))).

Definition accepted_in_range (d0 d1 d3 d4 : Z) : bool :=
  match is_hhmm (PStr (hhmm_digits d0 d1 d3 d4)) with
  | Ok true =>
      (10 * d0 + d1 <=? 23) && (10 * d3 + d4 <=? 59)
      && String.eqb (hhmm_digits d0 d1 d3 d4)
                    (hhmm (10 * d0 + d1) (10 * d3 + d4))
  | _ => true
  end.

(** The start set holds [e]. *)
Definition in_start (spec scope : pyval) (e : hkey) : Prop :=
  exists all_emps start,
    (sets <- py_item spec "sets" ;; py_item sets "employees") = Ok all_emps /\
    start_set scope all_emps = Ok start /\ In e start.

(** [e] is a member of every group that the scope lists. *)
Definition in_groups (spec scope : pyval) (e : hkey) : Prop :=
  forall gv g,
    py_get scope "groups" PNone = Ok gv -> In g (normalize_list gv) ->
    exists groups members ms,
      get_groups spec = Ok groups /\
      py_get_v groups g (PList []) = Ok members /\
      py_set members = Ok ms /\ In e ms.

(** [k] is one of the values that the scope lists under [key]. *)
Definition wants (scope : pyval) (key : string) (k : hkey) : Prop :=
  exists w, scope_filter scope key = Ok w /\ In k w.

(** The scope lists nothing under [key]. *)
Definition no_wish (scope : pyval) (key : string) : Prop :=
  scope_filter scope key = Ok [].

(** The employee [e] declares [k] under [attr]. *)
Definition has_tag (spec : pyval) (attr : string) (e k : hkey) : Prop :=
  exists have, employee_tags spec attr e = Ok have /\ In k have.

Definition any_of (spec scope : pyval) (key attr : string) (e : hkey) : Prop :=
  no_wish scope key \/ exists k, wants scope key k /\ has_tag spec attr e k.

Definition all_of (spec scope : pyval) (key attr : string) (e : hkey) : Prop :=
  forall k, wants scope key k -> has_tag spec attr e k.

(** The home site of [e] is one of [scope.sites_any]. *)
Definition home_in (spec scope : pyval) (e : hkey) : Prop :=
  no_wish scope "sites_any" \/
  exists emp home h,
    get_employee spec (of_hkey e) = Ok emp /\
    py_get emp "site_home" PNone = Ok home /\
    to_hkey home = Ok h /\ wants scope "sites_any" h.

(** The contract type of [e] is one of [scope.contracts_any]. *)
Definition contract_in (spec scope : pyval) (e : hkey) : Prop :=
  no_wish scope "contracts_any" \/
  exists emp c t h,
    get_employee spec (of_hkey e) = Ok emp /\
    py_get emp "contract" PNone = Ok c /\
    py_get (py_or c (PDict [])) "type" PNone = Ok t /\
    to_hkey t = Ok h /\ wants scope "contracts_any" h.

Definition spec_ward : pyval :=
  obj [("sets", obj [("employees", str_list ["P3"; "P1"; "P2"])]);
       ("employees",
        obj [("P1", obj [("skills", str_list ["nurse"]); ("site_home", PStr "A")]);
             ("P2", obj [("skills", str_list ["nurse"; "lead"]);
                         ("contract", obj [("type", PStr "full")])]);
             ("P3", obj [("skills", str_list ["lead"])])]);
       ("groups", obj [("night", str_list ["P3"; "P2"])])].

Definition scope_night_leads : pyval :=
  obj [("groups", str_list ["night"]); ("skills_all", str_list ["lead"]);
       ("contracts_any", PStr "full")].

(** [acc'] holds the rows, variables and penalty terms of [acc], in their
    order, followed by more of each. *)
Definition extends (acc acc' : emit) : Prop :=
  (exists rs, e_rows acc' = e_rows acc ++ rs) /\
  (exists vs, e_vars acc' = e_vars acc ++ vs) /\
  (exists ps, e_penalties acc' = e_penalties acc ++ ps).

(** The number of employees that an assignment puts on shift [s] of day [d]
    at [site]. *)
Definition staffing (a : assignment) (cx : ctx) (d : nat) (s site : pyval) : Z :=
  zsum (map (fun e => match to_hkey e with
                      | Ok he => x_value a he d s site
                      | Raise _ => 0
                      end) (c_employees cx)).

(** The day index, the shift and the site that a demand entry is about; the
    site defaults to the first one of [sets.sites]. *)
Definition demand_cell (cx : ctx) (req : pyval) (d : nat) (s site : pyval)
  : Prop :=
  (dv <- py_item req "day" ;; day_index cx dv) = Ok d /\
  py_item req "shift" = Ok s /\
  (site0 <- py_first (c_sites cx) ;; py_get req "site" site0) = Ok site.

(** The demand list of the spec. *)
Definition demand_of (spec : pyval) : result (list pyval) :=
  dv <- py_get spec "demand" (PList []) ;; py_iter dv.

(** An assignment given by the variables that are not zero. *)
Definition assign (l : list (var * Z)) : assignment :=
  fun v => match find (fun p => var_eqb v (fst p)) l with
           | Some p => snd p
           | None => 0
           end.

Definition demand_one_morning : pyval :=
  obj [("day", PStr "D1"); ("shift", PStr "M"); ("eq", PInt 1)].

(** Two employees, one day, one work shift, and one employee wanted on it. *)
Definition spec_cover : pyval :=
  obj [("sets", obj [("employees", str_list ["P1"; "P2"]);
                     ("days", str_list ["D1"]);
                     ("shifts", str_list ["OFF"; "M"])]);
       ("shifts", obj [("M", day_shift "08:00" "16:00" 480)]);
       ("demand", PList [demand_one_morning])].

Definition cx_cover : ctx := Eval vm_compute in context_of spec_cover.

Definition p1_works_morning : assignment :=
  assign [(VX (HStr "P1") 0 (HStr "M") (HStr "SITE_DEFAULT"), 1)].

(** The constraint [c] is of the given kind, with payload [data], and its
    scope selects [emps]. *)
Definition constraint_selects (cx : ctx) (c : pyval) (kind : string)
  (data : pyval) (emps : list hkey) : Prop :=
  py_item c "kind" = Ok (PStr kind) /\
  exists scope,
    constraint_scope c = Ok scope /\ constraint_data c = Ok data /\
    select_employees_by_scope (c_spec cx) scope = Ok emps.

Definition pair_night_morning : pyval :=
  obj [("prev_shift", PStr "N"); ("next_shift", PStr "M")].

Definition no_night_then_morning : pyval :=
  obj [("id", PStr "seq"); ("type", PStr "hard");
       ("kind", PStr "forbid_shift_sequences");
       ("data", obj [("forbidden_pairs", PList [pair_night_morning])])].

Definition rest_ten_hours : pyval :=
  obj [("id", PStr "rest"); ("type", PStr "hard");
       ("kind", PStr "min_rest_minutes_between_shifts");
       ("data", obj [("min_rest_minutes", PInt 600)])].

Definition two_days_in_a_row : pyval :=
  obj [("id", PStr "run"); ("type", PStr "hard");
       ("kind", PStr "max_consecutive_work_days");
       ("data", obj [("max", PInt 2)])].

Definition two_days_off : pyval :=
  obj [("id", PStr "off2"); ("type", PStr "hard");
       ("kind", PStr "min_consecutive_days_off");
       ("data", obj [("min", PInt 2)])].

(** One employee, three days, a morning and a night shift, and one hard
    constraint of each sequencing kind. *)
Definition spec_rota : pyval :=
  obj [("sets", obj [("employees", str_list ["P1"]);
                     ("days", str_list ["D1"; "D2"; "D3"]);
                     ("shifts", str_list ["OFF"; "M"; "N"])]);
       ("shifts", obj [("M", day_shift "06:00" "14:00" 480);
                       ("N", day_shift "22:00" "06:00" 480)]);
       ("constraints",
        PList [no_night_then_morning; rest_ten_hours; two_days_in_a_row;
               two_days_off])].

Definition cx_rota : ctx := Eval vm_compute in context_of spec_rota.

(** Two nights, then a day off. *)
Definition two_nights : assignment :=
  assign [(VX (HStr "P1") 0 (HStr "N") (HStr "SITE_DEFAULT"), 1);
          (VX (HStr "P1") 1 (HStr "N") (HStr "SITE_DEFAULT"), 1);
          (VOff (HStr "P1") 2, 1);
          (VAux 3 "start_off" 0 2, 1)].

(** The value of [works_day(e, d)]: the employee's assignments on day [d],
    over all work shifts and sites. *)
Definition worked_day (a : assignment) (cx : ctx) (sl : list pyval) (e : hkey)
  (d : nat) : Z :=
  zsum (map (fun s => works_value a sl e d (of_hkey s)) (c_work_shifts cx)).

(** The rows that tie [start_off] to [off] on day [d]. *)
Definition start_off_rows (cx : ctx) (e : pyval) (start_off : var) (d : nat)
  (acc : emit) : result emit :=
  match d with
  | O =>
      o <- off_var cx e d ;;
      Ok (emit_row (REq (LVar start_off) o) acc)
  | S d' =>
      o <- off_var cx e d ;;
      let acc := emit_row (RLe (LVar start_off) o) acc in
      p <- off_var cx e d' ;;
      let acc :=
        emit_row (RLe (LVar start_off) (LSub (LConst 1) p)) acc in
      o <- off_var cx e d ;;
      p <- off_var cx e d' ;;
      Ok (emit_row (RGe (LVar start_off) (LSub o p)) acc)
  end.

(** One night, then two days off. *)
Definition night_then_rest : assignment :=
  assign [(VX (HStr "P1") 0 (HStr "N") (HStr "SITE_DEFAULT"), 1);
          (VOff (HStr "P1") 1, 1);
          (VOff (HStr "P1") 2, 1);
          (VAux 3 "start_off" 0 1, 1)].

(** The key of a hashable value. *)
Definition hk (v : pyval) : hkey :=
  match to_hkey v with Ok h => h | Raise _ => HNone end.

Definition iter_or_nil (v : pyval) : list pyval :=
  match py_iter v with Ok l => l | Raise _ => [] end.

(** The declarations that the loops over employees, days, work shifts and
    sites make, in their order. *)
Definition declared_list (el : list pyval) (n : nat) (ws : list hkey)
  (sl : list pyval) : list decl :=
  flat_map (fun e =>
    flat_map (fun d =>
      Decl (VOff (hk e) d) 0 1
      :: flat_map (fun s => map (fun site => Decl (VX (hk e) d s (hk site)) 0 1) sl)
           ws)
      (seq 0 n))
    el.

(** The variable [v] is one that the spec calls for: an [off] variable of
    an employee and a day, or an [x] variable of an employee, a day, a work
    shift and a site. *)
Definition called_for (cx : ctx) (v : var) : Prop :=
  match v with
  | VOff e d =>
      (exists pe, In pe (c_employees cx) /\ to_hkey pe = Ok e) /\
      (d < n_days cx)%nat
  | VX e d s site =>
      (exists pe, In pe (c_employees cx) /\ to_hkey pe = Ok e) /\
      (d < n_days cx)%nat /\ In s (c_work_shifts cx) /\
      exists sl ps, py_iter (c_sites cx) = Ok sl /\ In ps sl /\
                    to_hkey ps = Ok site
  | VAux _ _ _ _ => False
  end.

Definition weekly_rest : pyval :=
  obj [("id", PStr "w"); ("type", PStr "hard"); ("kind", PStr "weekly_rest")].

(** The days are not even a list here. *)
Definition spec_unknown_kind : pyval :=
  obj [("sets", obj [("employees", str_list ["P1"]); ("days", PInt 7);
                     ("shifts", str_list ["OFF"; "M"])]);
       ("constraints", PList [no_night_then_morning; weekly_rest])].

(** Compilation gets as far as the demand entry [req]: the statements
    before the demand loop and the entries [pre] listed before [req] raise
    nothing. *)
Definition reaches_demand (spec spec' : pyval) (cx : ctx)
  (pre : list pyval) (req : pyval) (post : list pyval) : Prop :=
  exists employees days shifts sites shift_defs cl acc,
    prelude spec = Ok (spec', (employees, days, shifts, sites, shift_defs)) /\
    build_context spec' employees days shifts sites shift_defs = Ok (cx, cl) /\
    py_iter (c_demand cx) = Ok (pre ++ req :: post) /\
    for_each pre (compile_demand_entry cx) no_emit = Ok acc.

Definition demand_on_off : pyval :=
  obj [("day", PStr "D1"); ("shift", PStr "OFF"); ("min", PInt 1)].

Definition spec_demand_off : pyval :=
  obj [("sets", obj [("employees", str_list ["P1"; "P2"]);
                     ("days", str_list ["D1"]);
                     ("shifts", str_list ["OFF"; "M"])]);
       ("shifts", obj [("M", day_shift "08:00" "16:00" 480);
                       ("OFF", OFF_DEFAULT)]);
       ("demand", PList [demand_one_morning; demand_on_off])].

Definition SOFT_KINDS : list string :=
  [ "penalize_work_on_days"; "penalize_work_on_shifts";
    "penalize_unmet_day_off_requests"; "fair_distribution" ].

Definition hard_penalty : pyval :=
  obj [("id", PStr "p"); ("type", PStr "hard");
       ("kind", PStr "penalize_work_on_shifts");
       ("data", obj [("shifts", str_list ["M"])]);
       ("penalty", obj [("weight", PInt 3)])].

Definition spec_hard_penalty : pyval :=
  obj [("sets", obj [("employees", str_list ["P1"]);
                     ("days", str_list ["D1"]);
                     ("shifts", str_list ["OFF"; "M"])]);
       ("shifts", obj [("M", day_shift "08:00" "16:00" 480);
                       ("OFF", OFF_DEFAULT)]);
       ("constraints", PList [hard_penalty])].

(** The rows of [exactly_one_assignment_per_day] for the employees [emps]. *)
Definition exactly_one_rows (cx : ctx) (counted : list pyval)
  (emps : list hkey) (acc : emit) : result emit :=
  for_each emps
    (fun e acc =>
       for_each (seq 0 (n_days cx))
         (fun d acc =>
            r <- exactly_one_row cx counted e d ;; Ok (emit_row r acc))
         acc)
    acc.

Definition one_per_day_with_stranger : pyval :=
  obj [("id", PStr "one"); ("type", PStr "hard");
       ("kind", PStr "exactly_one_assignment_per_day");
       ("scope", obj [("employees", str_list ["P1"; "ZZ"])])].

Definition spec_stranger : pyval :=
  obj [("sets", obj [("employees", str_list ["P1"]);
                     ("days", str_list ["D1"]);
                     ("shifts", str_list ["OFF"; "M"])]);
       ("shifts", obj [("M", day_shift "08:00" "16:00" 480);
                       ("OFF", OFF_DEFAULT)]);
       ("constraints", PList [one_per_day_with_stranger])].

Definition day_off_request : pyval :=
  obj [("id", PStr "wish"); ("type", PStr "soft");
       ("kind", PStr "penalize_unmet_day_off_requests");
       ("data", obj [("days", str_list ["D2"])]);
       ("penalty", obj [("weight", PInt 5)])].

Definition avoid_mornings : pyval :=
  obj [("id", PStr "late"); ("type", PStr "soft");
       ("kind", PStr "penalize_work_on_shifts");
       ("data", obj [("shifts", str_list ["M"])]);
       ("penalty", obj [("weight", PInt 2)])].

Definition avoid_first_day : pyval :=
  obj [("id", PStr "first"); ("type", PStr "soft");
       ("kind", PStr "penalize_work_on_days");
       ("data", obj [("days", str_list ["D1"])]);
       ("penalty", obj [("weight", PInt 4)])].

(** One employee, two days, one work shift, and the three penalties on
    single days and shifts. *)
Definition spec_wishes : pyval :=
  obj [("sets", obj [("employees", str_list ["P1"]);
                     ("days", str_list ["D1"; "D2"]);
                     ("shifts", str_list ["OFF"; "M"])]);
       ("shifts", obj [("M", day_shift "08:00" "16:00" 480)]);
       ("constraints", PList [day_off_request; avoid_mornings; avoid_first_day])].

Definition cx_wishes : ctx := Eval vm_compute in context_of spec_wishes.

(** The model of a spec that compiles. *)
Definition model_for (spec : pyval) : cp_model :=
  match snd (compile_model spec) with
  | Ok (_, m) => m
  | Raise _ => CpModel [] [] (LConst 0)
  end.

(** One when [ds] is a day and shift [s] on which the employee works, at
    any number of sites; zero otherwise. *)
Definition hit (a : assignment) (cx : ctx) (e : hkey) (s : hkey)
  (ds : nat * hkey) : Z :=
  if hkey_eqb s (snd ds)
     && negb (works_value a (site_list cx) e (fst ds) (of_hkey (snd ds)) =? 0)
  then 1 else 0.

(** The number of days on which the employee works shift [s]. *)
Definition count_days (a : assignment) (cx : ctx) (e s : hkey) : Z :=
  zsum (map (hit a cx e s) (day_shifts cx)).

(** The minutes that a table of per-shift counts stands for. *)
Definition priced (cx : ctx) (counts : list (hkey * Z)) : Z :=
  zsum (map (fun kv => snd kv * def_minutes cx (fst kv)) counts).

(** A backend that reports two nights and a day off. *)
Definition solver_two_nights : cp_model -> Z -> Z -> solver_outcome :=
  fun _ _ _ => Outcome OPTIMAL two_nights 0.

Definition minutes_table (r : result solve_result) : list (hkey * Z) :=
  match r with Ok (Solved _ _ mw _) => mw | _ => [] end.

Definition counts_table (r : result solve_result)
  : list (hkey * list (hkey * Z)) :=
  match r with Ok (Solved _ _ _ sc) => sc | _ => [] end.

Definition schedule_of (r : result solve_result) : pyval :=
  match r with Ok (Solved _ s _ _) => s | _ => PNone end.

Definition rota_result : result solve_result :=
  snd (compile_and_solve solver_two_nights spec_rota 15 8).

(** The statements of [fill_schedule], named: what one employee adds to the
    [OFF] list of a day, what one site and shift store, and the body of the
    loop over the days. *)
Definition off_step (cx : ctx) (value : assignment) (d : nat) (dk : hkey)
  (e : pyval) (sched : pyval) : result pyval :=
  o <- off_var cx e d ;;
  if eval value o =? 1 then
    py_update sched dk
      (fun day => py_update day (HStr "OFF") (fun l => py_append l e))
  else Ok sched.

Definition cell_step (cx : ctx) (value : assignment) (d : nat) (dk : hkey)
  (site : pyval) (s : hkey) (sched : pyval) : result pyval :=
  who <- assigned value (c_employees cx)
           (fun e => x_var cx e d (of_hkey s) site) ;;
  ht <- to_hkey site ;;
  py_update sched dk
    (fun day => py_update day ht
                  (fun cells => py_setitem cells s (PList who))).

Definition day_step (cx : ctx) (value : assignment) (dd : nat * pyval)
  (sched : pyval) : result pyval :=
  dayname <- to_hkey (snd dd) ;;
  sched <- for_each (c_employees cx) (off_step cx value (fst dd) dayname) sched ;;
  sl <- py_iter (c_sites cx) ;;
  for_each sl
    (fun site sched =>
       for_each (c_work_shifts cx)
         (fun s sched => cell_step cx value (fst dd) dayname site s sched)
         sched)
    sched.

(** The entry of a dictionary, and the dictionary stored under a key. *)
Definition get (c : pyval) (k : hkey) : option pyval :=
  match c with PDict kvs => dict_lookup k kvs | _ => None end.

Definition get_dict (c : pyval) (k : hkey) : option (list (hkey * pyval)) :=
  match get c k with Some (PDict d) => Some d | _ => None end.

(** The employees that the solution leaves off on day [d], and those that
    it puts on shift [s] at [site], in the order of [sets.employees]. *)
Definition off_on (a : assignment) (cx : ctx) (d : nat) : list pyval :=
  filter (fun e => a (VOff (hk e) d) =? 1) (c_employees cx).

Definition assigned_to (a : assignment) (cx : ctx) (d : nat) (s : hkey)
  (site : pyval) : list pyval :=
  filter (fun e => a (VX (hk e) d s (hk site)) =? 1) (c_employees cx).

(** The list stored for a site and a shift in the dictionary of a day. *)
Definition cell_of (dd : list (hkey * pyval)) (sk s : hkey) : option pyval :=
  match dict_lookup sk dd with
  | Some (PDict cells) => dict_lookup s cells
  | _ => None
  end.

(** Every entry of a day other than [OFF] is a dictionary. *)
Definition sites_are_dicts (dd : list (hkey * pyval)) : Prop :=
  forall k v, dict_lookup k dd = Some v -> k <> HStr "OFF" -> is_dict v = true.

(** The cell of [site] and [s] holds the employees assigned there. *)
Definition good_cell (a : assignment) (cx : ctx) (d : nat)
  (dd : list (hkey * pyval)) (site : pyval) (s : hkey) : Prop :=
  cell_of dd (hk site) s = Some (PList (assigned_to a cx d s site)).

(** A day of the schedule before anything is filled in. *)
Definition blank_day (dd : list (hkey * pyval)) : Prop :=
  dict_lookup (HStr "OFF") dd = Some (PList []) /\ sites_are_dicts dd.

(** How often the key [k] occurs among the values of a list. *)
Definition occurrences (k : hkey) (l : list pyval) : nat :=
  List.length (filter (fun v => hkey_eqb k (hk v)) l).

(** Sets without [shifts]; sets whose shifts lack [OFF]; and a spec whose
    [constraints] is [null]. *)
Definition spec_no_shifts : pyval :=
  obj [("sets", obj [("employees", str_list ["P1"]);
                     ("days", str_list ["D1"])])].

Definition spec_no_off : pyval :=
  obj [("sets", obj [("employees", str_list ["P1"]);
                     ("days", str_list ["D1"]);
                     ("shifts", str_list ["M"])])].

Definition spec_null_constraints : pyval :=
  obj [("sets", obj [("employees", str_list ["P1"]);
                     ("days", str_list ["D1"]);
                     ("shifts", str_list ["OFF"; "M"])]);
       ("constraints", PNone)].

(** The errors of [r'] are those of [r] followed by more. *)
Definition keeps_errors (r r' : report) : Prop :=
  exists es, r_errors r' = r_errors r ++ es.

(** The row that [db_update_status] writes over [j]. *)
Definition updated (status : string) (started_at finished_at : option Z)
  (error : option error_text) (result : option solve_result) (j : job) : job :=
  Job (j_id j) status (j_spec j) (j_params j) (j_created_at j)
      (coalesce started_at (j_started_at j))
      (coalesce finished_at (j_finished_at j))
      (coalesce error (j_error j))
      (coalesce result (j_result j)).

(** The row of a job that waits for its thread, and the defaults of the
    table's columns. *)
Definition blank_row : job :=
  Job "" "queued" PNone (0, 0) (Some 100) None None None None.

Definition queued_rota : job :=
  Job "job-1" "queued" spec_rota (15, 8) (Some 100) None None None None.

(** The minutes that [max_work_minutes_in_window] charges over the days of
    a window: [defs[s].minutes] (0 when the shift has none) times
    [works_shift(e,d,s)], for every day of the window and counted shift. *)
Definition window_minutes (a : assignment) (cx : ctx) (sites : list pyval)
  (e : hkey) (window : list nat) (shifts : list pyval) : Z :=
  zsum (map (fun ds => def_minutes cx (hk (snd ds))
                       * works_value a sites e (fst ds) (snd ds))
            (list_prod window shifts)).

(** One morning on the first day, the second day off. *)
Definition one_morning : assignment :=
  assign [(VX (HStr "P1") 0 (HStr "M") (HStr "SITE_DEFAULT"), 1);
          (VOff (HStr "P1") 1, 1)].

Definition eight_hours_in_two_days : pyval :=
  obj [("id", PStr "h1"); ("type", PStr "hard");
       ("kind", PStr "max_work_minutes_in_window");
       ("data", obj [("window_days", PInt 2); ("max_minutes", PInt 480)])].

(** One employee, three days, a morning of 480 minutes and an evening
    without a [minutes] field, and at most 480 minutes in two days. *)
Definition spec_hours : pyval :=
  obj [("sets", obj [("employees", str_list ["P1"]);
                     ("days", str_list ["D1"; "D2"; "D3"]);
                     ("shifts", str_list ["OFF"; "M"; "E"])]);
       ("shifts", obj [("M", day_shift "08:00" "16:00" 480);
                       ("E", obj [("start", PStr "16:00");
                                  ("end", PStr "22:00")])]);
       ("constraints", PList [eight_hours_in_two_days])].

Definition cx_hours : ctx := Eval vm_compute in context_of spec_hours.

(** A morning and an evening on the first day, an evening on the second,
    a morning on the third. *)
Definition long_days : assignment :=
  assign [(VX (HStr "P1") 0 (HStr "M") (HStr "SITE_DEFAULT"), 1);
          (VX (HStr "P1") 0 (HStr "E") (HStr "SITE_DEFAULT"), 1);
          (VX (HStr "P1") 1 (HStr "E") (HStr "SITE_DEFAULT"), 1);
          (VX (HStr "P1") 2 (HStr "M") (HStr "SITE_DEFAULT"), 1)].

(** * Properties *)

(** ** Keys and variables *)

Lemma hkey_eqb_eq a b : hkey_eqb a b = true <-> a = b.
Proof.
  destruct a, b; simpl; split; intro H; try discriminate; try reflexivity.
  - apply Z.eqb_eq in H. now subst.
  - injection H as ->. apply Z.eqb_refl.
  - apply String.eqb_eq in H. now subst.
  - injection H as ->. apply String.eqb_refl.
Qed.

Lemma hkey_eqb_refl a : hkey_eqb a a = true.
Proof. now apply hkey_eqb_eq. Qed.

Lemma mem_In k l : mem k l = true <-> In k l.
Proof.
  unfold mem. rewrite existsb_exists. split.
  - intros [x [Hin Heq]]. apply hkey_eqb_eq in Heq. now subst.
  - intro H. exists k. split; [assumption | apply hkey_eqb_refl].
Qed.

Lemma var_eqb_eq a b : var_eqb a b = true <-> a = b.
Proof.
  destruct a, b; simpl; split; intro H; try discriminate;
    repeat rewrite andb_true_iff in *;
    repeat match goal with
           | H : _ /\ _ |- _ => destruct H
           | H : hkey_eqb _ _ = true |- _ => apply hkey_eqb_eq in H
           | H : Nat.eqb _ _ = true |- _ => apply Nat.eqb_eq in H
           | H : String.eqb _ _ = true |- _ => apply String.eqb_eq in H
           end; subst; try reflexivity;
    injection H as -> -> ; subst;
    rewrite ?hkey_eqb_refl, ?Nat.eqb_refl, ?String.eqb_refl; auto.
Qed.

(** ** Generic facts about the [result] monad and the loops *)

Lemma bind_ok {A B} (m : result A) (k : A -> result B) (b : B) :
  bind m k = Ok b -> exists a, m = Ok a /\ k a = Ok b.
Proof. destruct m; simpl; intro H; [eauto | discriminate]. Qed.

Ltac inv_bind H :=
  let a := fresh "v" in
  let Ha := fresh "E" in
  apply bind_ok in H; destruct H as [a [Ha H]].

Lemma map_r_ok_length {A B} (f : A -> result B) l r :
  map_r f l = Ok r -> List.length r = List.length l.
Proof.
  revert r. induction l as [|x l IH]; simpl; intros r H.
  - injection H as <-. reflexivity.
  - inv_bind H. inv_bind H. injection H as <-. simpl. f_equal. eauto.
Qed.

Lemma map_r_ok_in {A B} (f : A -> result B) l r x :
  map_r f l = Ok r -> In x l -> exists y, f x = Ok y /\ In y r.
Proof.
  revert r. induction l as [|a l IH]; simpl; intros r H Hin; [contradiction|].
  inv_bind H. inv_bind H. injection H as <-.
  destruct Hin as [-> | Hin].
  - exists v. split; [assumption | now left].
  - destruct (IH _ E0 Hin) as [y [Hy Hiny]]. exists y. split; [assumption | now right].
Qed.

Lemma eval_fold_add a terms acc :
  eval a (fold_left LAdd terms acc)
  = eval a acc + fold_right Z.add 0 (map (eval a) terms).
Proof.
  revert acc. induction terms as [|t terms IH]; simpl; intro acc.
  - lia.
  - rewrite IH. simpl. lia.
Qed.

(** The value of [sum(terms)] is the sum of the values. *)
Lemma eval_lsum a terms :
  eval a (lsum terms) = fold_right Z.add 0 (map (eval a) terms).
Proof. unfold lsum. rewrite eval_fold_add. simpl. lia. Qed.

(** ** Time arithmetic *)

Lemma zrange_in n z : 0 <= z < Z.of_nat n -> In z (zrange n).
Proof.
  intro H. unfold zrange. apply in_map_iff. exists (Z.to_nat z). split.
  - lia.
  - apply in_seq. lia.
Qed.

Lemma parse_hhmm_table :
  forallb (fun h => forallb (parses_as h) (zrange 60)) (zrange 24) = true.
Proof. vm_compute. reflexivity. Qed.

(** [parse_hhmm] of a valid [HH:MM] text is [60 * HH + MM]. *)
Lemma parse_hhmm_valid h m :
  0 <= h <= 23 -> 0 <= m <= 59 ->
  parse_hhmm (PStr (hhmm h m)) = Ok (60 * h + m).
Proof.
  intros Hh Hm.
  pose proof parse_hhmm_table as T.
  rewrite forallb_forall in T.
  specialize (T h (zrange_in 24 h ltac:(lia))).
  rewrite forallb_forall in T.
  specialize (T m (zrange_in 60 m ltac:(lia))).
  unfold parses_as in T.
  destruct (parse_hhmm (PStr (hhmm h m))) as [z|]; [|discriminate].
  apply Z.eqb_eq in T. subst. f_equal. lia.
Qed.

(** The validator's [_is_hhmm] accepts exactly such texts. *)
Lemma is_hhmm_valid h m :
  0 <= h <= 23 -> 0 <= m <= 59 -> is_hhmm (PStr (hhmm h m)) = Ok true.
Proof.
  intros Hh Hm.
  assert (T : forallb (fun h => forallb (fun m =>
                match is_hhmm (PStr (hhmm h m)) with
                | Ok true => true | _ => false end) (zrange 60)) (zrange 24)
              = true) by (vm_compute; reflexivity).
  rewrite forallb_forall in T.
  specialize (T h (zrange_in 24 h ltac:(lia))).
  rewrite forallb_forall in T.
  specialize (T m (zrange_in 60 m ltac:(lia))).
  destruct (is_hhmm (PStr (hhmm h m))) as [[|]|]; congruence.
Qed.

Lemma is_time_parse v t : is_time v t -> parse_hhmm v = Ok t.
Proof.
  intros (h & m & Hh & Hm & -> & ->). now apply parse_hhmm_valid.
Qed.

Lemma shift_interval_minutes_ok sd s e :
  shift_def sd s e -> exists dur, shift_interval_minutes sd = Ok (s, e, dur).
Proof.
  intros [(vs & Hs & Ts) [(ve & He & Te) (vm & z & Hm & Hz)]].
  unfold shift_interval_minutes.
  rewrite Hs. simpl. rewrite (is_time_parse _ _ Ts). simpl.
  rewrite He. simpl. rewrite (is_time_parse _ _ Te). simpl.
  rewrite Hm. simpl. rewrite Hz. simpl.
  destruct (z =? 0) eqn:Ez.
  - destruct sd; simpl in Hm; try discriminate. simpl. eauto.
  - simpl. eauto.
Qed.

Lemma shift_def_intro sd hs ms he me vm z :
  0 <= hs <= 23 -> 0 <= ms <= 59 -> 0 <= he <= 23 -> 0 <= me <= 59 ->
  py_item sd "start" = Ok (PStr (hhmm hs ms)) ->
  py_item sd "end" = Ok (PStr (hhmm he me)) ->
  py_get sd "minutes" (PInt 0) = Ok vm -> py_int vm = Ok z ->
  shift_def sd (60 * hs + ms) (60 * he + me).
Proof.
  intros. repeat split.
  - eexists. split; [eassumption|]. exists hs, ms. auto.
  - eexists. split; [eassumption|]. exists he, me. auto.
  - eauto.
Qed.

(** C6: for shift definitions [a] and [b] with valid HH:MM start and end,
    [rest_minutes_between a b] is [(1440 + start_b)] minus [end_a] when
    [end_a >= start_a] and minus [1440 + end_a] otherwise, the times being
    [60 * HH + MM]; a 22:00-06:00 shift followed by a shift starting at 14:00
    gives exactly 480; and the result can be negative. *)
Theorem rest_minutes_between_spec :
  (forall a b sa ea sb eb,
      shift_def a sa ea -> shift_def b sb eb ->
      rest_minutes_between a b
      = Ok ((1440 + sb) - (if ea >=? sa then ea else 1440 + ea)))
  /\ rest_minutes_between shift_22_06 shift_14_22 = Ok 480
  /\ (exists a b sa ea sb eb r,
         shift_def a sa ea /\ shift_def b sb eb /\
         rest_minutes_between a b = Ok r /\ r < 0).
Proof.
  split; [|split].
  - intros a b sa ea sb eb Ha Hb.
    destruct (shift_interval_minutes_ok _ _ _ Ha) as [da Ia].
    destruct (shift_interval_minutes_ok _ _ _ Hb) as [db Ib].
    destruct Ha as [(vs & Hs & Ts) [(ve & He & Te) _]].
    destruct Hb as [(ws & Hws & Tws) _].
    unfold rest_minutes_between.
    rewrite Ia, Ib. cbn [bind].
    rewrite He. cbn [bind]. rewrite (is_time_parse _ _ Te). cbn [bind].
    rewrite Hs. cbn [bind]. rewrite (is_time_parse _ _ Ts). cbn [bind].
    rewrite Hws. cbn [bind]. rewrite (is_time_parse _ _ Tws).
    destruct (ea >=? sa); cbn [bind]; f_equal; lia.
  - vm_compute. reflexivity.
  - exists shift_23_22, shift_00_08, (60 * 23 + 0), (60 * 22 + 0),
      (60 * 0 + 0), (60 * 8 + 0), (-1320).
    split; [|split; [|split]].
    + eapply (shift_def_intro _ 23 0 22 0); try lia; reflexivity.
    + eapply (shift_def_intro _ 0 0 8 0); try lia; reflexivity.
    + vm_compute. reflexivity.
    + lia.
Qed.

Lemma rest_minutes_between_spec_witness :
  shift_def shift_22_06 (60 * 22 + 0) (60 * 6 + 0) /\
  shift_def shift_14_22 (60 * 14 + 0) (60 * 22 + 0) /\
  rest_minutes_between shift_22_06 shift_14_22
  = Ok ((1440 + (60 * 14 + 0))
        - (if 60 * 6 + 0 >=? 60 * 22 + 0 then 60 * 6 + 0 else 1440 + (60 * 6 + 0))).
Proof.
  assert (Ha : shift_def shift_22_06 (60 * 22 + 0) (60 * 6 + 0))
    by (eapply (shift_def_intro _ 22 0 6 0); try lia; reflexivity).
  assert (Hb : shift_def shift_14_22 (60 * 14 + 0) (60 * 22 + 0))
    by (eapply (shift_def_intro _ 14 0 22 0); try lia; reflexivity).
  split; [exact Ha | split; [exact Hb |]].
  exact (proj1 rest_minutes_between_spec _ _ _ _ _ _ Ha Hb).
Defined.

(** ** Sorting *)

Lemma string_ltb_lt s t : String.ltb s t = true <-> String_as_OT.lt s t.
Proof.
  unfold String.ltb. rewrite <- String_as_OT.cmp_lt. unfold String_as_OT.cmp.
  destruct (String.compare s t); split; congruence.
Qed.

Lemma string_lt_asym s t : String.ltb s t = true -> String.ltb t s = false.
Proof.
  unfold String.ltb. rewrite (String.compare_antisym t s).
  destruct (String.compare s t); simpl; congruence.
Qed.

Lemma string_lt_trans s t u :
  String.ltb s t = true -> String.ltb t u = true -> String.ltb s u = true.
Proof.
  rewrite !string_ltb_lt. apply String_as_OT.lt_trans.
Qed.

Lemma string_lt_total s t :
  String.ltb s t = false -> s <> t -> String.ltb t s = true.
Proof.
  unfold String.ltb. rewrite (String.compare_antisym t s).
  destruct (String.compare s t) eqn:E; simpl; try congruence.
  intros _ H. apply String.compare_eq_iff in E. contradiction.
Qed.

Lemma string_le_trans s t u :
  String.ltb t s = false -> String.ltb u t = false -> String.ltb u s = false.
Proof.
  intros H1 H2. destruct (String.ltb u s) eqn:E; [|reflexivity].
  destruct (string_dec s t) as [->|Hne]; [congruence|].
  pose proof (string_lt_total _ _ H1 (not_eq_sym Hne)) as Hst.
  pose proof (string_lt_trans _ _ _ E Hst). congruence.
Qed.

Lemma key_lt_le a b : key_lt a b -> key_le a b.
Proof.
  unfold key_lt, key_le. destruct a, b; simpl; try discriminate; intro H.
  - f_equal. injection H as H. lia.
  - f_equal. injection H as H. now apply string_lt_asym.
Qed.

Lemma key_le_trans a b c : key_le a b -> key_le b c -> key_le a c.
Proof.
  unfold key_le. destruct a, b, c; simpl; try discriminate; intros H1 H2.
  - f_equal. injection H1 as H1. injection H2 as H2. lia.
  - f_equal. injection H1 as H1. injection H2 as H2.
    eapply string_le_trans; eassumption.
Qed.

Lemma key_le_neq_lt a b : key_le a b -> a <> b -> key_lt a b.
Proof.
  unfold key_le, key_lt. destruct a, b; simpl; try discriminate; intros H Hne.
  - f_equal. injection H as H. apply Z.ltb_lt.
    assert (z <> z0) by congruence. lia.
  - f_equal. injection H as H. apply string_lt_total; congruence.
Qed.

Lemma key_lt_irrefl a : ~ key_lt a a.
Proof.
  unfold key_lt. destruct a; simpl; try discriminate.
  - rewrite Z.ltb_irrefl. discriminate.
  - unfold String.ltb.
    replace (String.compare s s) with Eq; [discriminate|].
    symmetry. now apply String_as_OT.cmp_eq.
Qed.

Lemma key_lt_trans a b c : key_lt a b -> key_lt b c -> key_lt a c.
Proof.
  unfold key_lt. destruct a, b, c; simpl; try discriminate; intros H1 H2.
  - f_equal. injection H1 as H1. injection H2 as H2. lia.
  - f_equal. injection H1 as H1. injection H2 as H2.
    eapply string_lt_trans; eassumption.
Qed.

Lemma insert_sorted_spec x l r :
  insert_sorted x l = Ok r -> StronglySorted key_le l ->
  StronglySorted key_le r /\ Permutation (x :: l) r.
Proof.
  revert r. induction l as [|y l IH]; simpl; intros r H Hs.
  - injection H as <-. split; [repeat constructor | reflexivity].
  - inv_bind H. destruct v.
    + inv_bind H. injection H as <-.
      inversion Hs as [|? ? Hs' Hall]; subst.
      destruct (IH _ E0 Hs') as [Hr Hp]. split.
      * constructor; [assumption|].
        eapply Permutation_Forall; [exact Hp|].
        constructor; [|assumption]. now apply key_lt_le.
      * rewrite perm_swap. now constructor.
    + injection H as <-. split; [|reflexivity].
      constructor; [assumption|].
      inversion Hs as [|? ? Hs' Hall]; subst.
      constructor; [exact E|].
      eapply Forall_impl; [|exact Hall].
      intros z Hz. eapply key_le_trans; eassumption.
Qed.

Lemma py_sorted_spec l r :
  py_sorted l = Ok r -> StronglySorted key_le r /\ Permutation l r.
Proof.
  revert r. induction l as [|x l IH]; simpl; intros r H.
  - injection H as <-. split; constructor.
  - inv_bind H. destruct (IH _ E) as [Hs Hp].
    destruct (insert_sorted_spec _ _ _ H Hs) as [Hr Hq].
    split; [assumption|]. rewrite <- Hq. now constructor.
Qed.

(** Sorting a duplicate-free list gives a strictly ascending list. *)
Lemma py_sorted_strict l r :
  py_sorted l = Ok r -> NoDup l -> StronglySorted key_lt r.
Proof.
  intros H Hnd. destruct (py_sorted_spec _ _ H) as [Hs Hp].
  assert (Hndr : NoDup r) by (eapply Permutation_NoDup; eassumption).
  clear H Hp Hnd. induction Hs as [|a r Hs IH Hall]; [constructor|].
  inversion Hndr as [|? ? Hnin Hndr']; subst.
  constructor; [auto|].
  rewrite Forall_forall in *. intros z Hz.
  apply key_le_neq_lt; [auto|]. intros ->. contradiction.
Qed.

(** Two strictly ascending lists with the same elements are equal. *)
Lemma strictly_sorted_unique l1 l2 :
  StronglySorted key_lt l1 -> StronglySorted key_lt l2 ->
  (forall x, In x l1 <-> In x l2) -> l1 = l2.
Proof.
  intros H1. revert l2. induction H1 as [|a l1 Hs1 IH Ha]; intros l2 H2 Hin.
  - destruct l2 as [|b l2]; [reflexivity|].
    exfalso. apply (Hin b). now left.
  - destruct H2 as [|b l2 Hs2 Hb].
    + exfalso. apply (Hin a). now left.
    + rewrite Forall_forall in Ha, Hb.
      assert (a = b) as ->.
      { destruct (proj1 (Hin a) (or_introl eq_refl)) as [->|Hab]; [reflexivity|].
        destruct (proj2 (Hin b) (or_introl eq_refl)) as [->|Hba]; [reflexivity|].
        exfalso. apply (key_lt_irrefl a).
        eapply key_lt_trans; [apply Ha | apply Hb]; assumption. }
      f_equal. apply IH; [assumption|].
      intro x. split; intro Hx.
      * destruct (proj1 (Hin x) (or_intror Hx)) as [<-|]; [|assumption].
        exfalso. apply (key_lt_irrefl b). now apply Ha.
      * destruct (proj2 (Hin x) (or_intror Hx)) as [<-|]; [|assumption].
        exfalso. apply (key_lt_irrefl b). now apply Hb.
Qed.

Lemma insert_sorted_total x l :
  comparable (x :: l) -> exists r, insert_sorted x l = Ok r.
Proof.
  intros Hc. induction l as [|y l IH]; simpl; [eauto|].
  assert (Hxy : exists b, hkey_lt y x = Ok b).
  { destruct Hc as [Hc | [Hc | Hc]].
    - simpl in Hc. lia.
    - inversion Hc as [|? ? [zx ->] Hc']; subst.
      inversion Hc' as [|? ? [zy ->] _]; subst. simpl. eauto.
    - inversion Hc as [|? ? [zx ->] Hc']; subst.
      inversion Hc' as [|? ? [zy ->] _]; subst. simpl. eauto. }
  destruct Hxy as [b ->]. cbn [bind]. destruct b; [|eauto].
  destruct IH as [r ->]; [|cbn [bind]; eauto].
  destruct Hc as [Hc | [Hc | Hc]].
  - simpl in Hc. lia.
  - right. left. inversion Hc as [|? ? ? Hc']; subst.
    inversion Hc'; subst. now constructor.
  - right. right. inversion Hc as [|? ? ? Hc']; subst.
    inversion Hc'; subst. now constructor.
Qed.

Lemma comparable_perm l l' :
  Permutation l l' -> comparable l -> comparable l'.
Proof.
  intros Hp [Hc | [Hc | Hc]].
  - left. now rewrite <- (Permutation_length Hp).
  - right. left. eapply Permutation_Forall; eassumption.
  - right. right. eapply Permutation_Forall; eassumption.
Qed.

Lemma comparable_tail x l : comparable (x :: l) -> comparable l.
Proof.
  intros [Hc | [Hc | Hc]].
  - left. simpl in Hc. lia.
  - right. left. now inversion Hc.
  - right. right. now inversion Hc.
Qed.

Lemma py_sorted_total l : comparable l -> exists r, py_sorted l = Ok r.
Proof.
  induction l as [|x l IH]; simpl; intro Hc; [eauto|].
  destruct (IH (comparable_tail _ _ Hc)) as [r Hr]. rewrite Hr. cbn [bind].
  apply insert_sorted_total.
  eapply comparable_perm; [|exact Hc].
  constructor. now apply py_sorted_spec.
Qed.

Lemma insert_sorted_comparable x l r :
  insert_sorted x l = Ok r -> comparable l -> comparable (x :: l).
Proof.
  destruct l as [|y l]; simpl; intros H Hc.
  - left. simpl. lia.
  - inv_bind H. clear H. destruct Hc as [Hc | [Hc | Hc]].
    + destruct l; [|simpl in Hc; lia].
      destruct x, y; simpl in E; try discriminate.
      * right. left. repeat constructor; eauto.
      * right. right. repeat constructor; eauto.
    + right. left. constructor; [|assumption].
      inversion Hc as [|? ? [zy ->] _]; subst.
      destruct x; simpl in E; try discriminate. eauto.
    + right. right. constructor; [|assumption].
      inversion Hc as [|? ? [zy ->] _]; subst.
      destruct x; simpl in E; try discriminate. eauto.
Qed.

Lemma py_sorted_comparable l r : py_sorted l = Ok r -> comparable l.
Proof.
  revert r. induction l as [|x l IH]; simpl; intros r H.
  - left. simpl. lia.
  - inv_bind H. pose proof (IH _ E) as Hc.
    destruct (py_sorted_spec _ _ E) as [_ Hp].
    eapply comparable_perm.
    + constructor. symmetry. exact Hp.
    + eapply insert_sorted_comparable; [exact H|].
      eapply comparable_perm; eassumption.
Qed.

(** The sorted list does not depend on the order in which the set is
    enumerated. *)
Lemma py_sorted_order_independent l l' r :
  NoDup l -> Permutation l' l -> py_sorted l = Ok r -> py_sorted l' = Ok r.
Proof.
  intros Hnd Hp H.
  pose proof (py_sorted_comparable _ _ H) as Hc.
  destruct (py_sorted_total l') as [r' H'].
  { eapply comparable_perm; [symmetry|]; eassumption. }
  rewrite H'. f_equal.
  apply strictly_sorted_unique.
  - eapply py_sorted_strict; [exact H'|].
    eapply Permutation_NoDup; [symmetry|]; eassumption.
  - eapply py_sorted_strict; eassumption.
  - intro x. destruct (py_sorted_spec _ _ H) as [_ P].
    destruct (py_sorted_spec _ _ H') as [_ P'].
    split; intro Hx.
    + eapply Permutation_in; [exact P|].
      eapply Permutation_in; [exact Hp|].
      eapply Permutation_in; [symmetry; exact P'|]. assumption.
    + eapply Permutation_in; [exact P'|].
      eapply Permutation_in; [symmetry; exact Hp|].
      eapply Permutation_in; [symmetry; exact P|]. assumption.
Qed.

(** ** Scope selection *)

Lemma set_add_nodup k s : NoDup s -> NoDup (set_add k s).
Proof.
  intro H. unfold set_add. destruct (mem k s) eqn:E; [assumption|].
  apply NoDup_app; [assumption | repeat constructor; auto |].
  intros x Hx [<-|[]]. apply mem_In in Hx. congruence.
Qed.

Lemma set_add_in k s x : In x (set_add k s) <-> x = k \/ In x s.
Proof.
  unfold set_add. destruct (mem k s) eqn:E.
  - apply mem_In in E. split; [auto|]. intros [->|]; assumption.
  - rewrite in_app_iff. simpl. intuition.
Qed.

Lemma fold_set_add_nodup l s :
  NoDup s -> NoDup (fold_left (fun s k => set_add k s) l s).
Proof.
  revert s. induction l as [|k l IH]; simpl; intros s H; [assumption|].
  apply IH. now apply set_add_nodup.
Qed.

Lemma fold_set_add_in l s x :
  In x (fold_left (fun s k => set_add k s) l s) <-> In x l \/ In x s.
Proof.
  revert s. induction l as [|k l IH]; simpl; intro s; [intuition|].
  rewrite IH, set_add_in. intuition.
Qed.

Lemma set_of_keys_nodup l : NoDup (set_of_keys l).
Proof. apply fold_set_add_nodup. constructor. Qed.

Lemma set_of_keys_in l x : In x (set_of_keys l) <-> In x l.
Proof. unfold set_of_keys. rewrite fold_set_add_in. simpl. intuition. Qed.

Lemma py_set_nodup v s : py_set v = Ok s -> NoDup s.
Proof.
  unfold py_set. intro H. inv_bind H. inv_bind H. injection H as <-.
  apply set_of_keys_nodup.
Qed.

Lemma sub_of_refl sel : sub_of sel sel.
Proof.
  exists (fun _ => true). induction sel; simpl; congruence.
Qed.

Lemma filter_filter {A} (f g : A -> bool) l :
  filter g (filter f l) = filter (fun x => f x && g x) l.
Proof.
  induction l as [|x l IH]; simpl; [reflexivity|].
  destruct (f x); simpl; [destruct (g x); simpl; congruence | assumption].
Qed.

Lemma sub_of_trans a b c : sub_of a b -> sub_of b c -> sub_of a c.
Proof.
  intros [f ->] [g ->]. eexists. apply filter_filter.
Qed.

Lemma sub_of_inter sel t : sub_of (set_inter sel t) sel.
Proof. eexists. reflexivity. Qed.

Lemma sub_of_nodup a b : sub_of a b -> NoDup b -> NoDup a.
Proof. intros [f ->]. apply NoDup_filter. Qed.

Lemma sub_of_incl a b : sub_of a b -> incl a b.
Proof. intros [f ->] x Hx. apply filter_In in Hx. tauto. Qed.

Lemma filter_when_sub wanted test sel sel' :
  filter_when wanted test sel = Ok sel' -> sub_of sel' sel.
Proof.
  unfold filter_when. destruct (is_empty wanted); intro H.
  - injection H as <-. apply sub_of_refl.
  - inv_bind H. injection H as <-. apply sub_of_inter.
Qed.

Lemma filter_groups_sub groups scope sel sel' :
  filter_groups groups scope sel = Ok sel' -> sub_of sel' sel.
Proof.
  unfold filter_groups. intro H. inv_bind H. clear E.
  revert sel H. induction (normalize_list v) as [|g gl IH]; simpl; intros sel H.
  - injection H as <-. apply sub_of_refl.
  - inv_bind H. inv_bind E. inv_bind E. injection E as <-.
    eapply sub_of_trans; [apply IH; exact H | apply sub_of_inter].
Qed.

Ltac inv_binds H := repeat (inv_bind H).

Lemma selected_set_start spec scope sel :
  selected_set spec scope = Ok sel ->
  exists all_emps start,
    (sets <- py_item spec "sets" ;; py_item sets "employees") = Ok all_emps /\
    start_set scope all_emps = Ok start /\ sub_of sel start.
Proof.
  unfold selected_set. intro H.
  apply bind_ok in H. destruct H as [sets [Es H]].
  apply bind_ok in H. destruct H as [all_emps [Ea H]].
  apply bind_ok in H. destruct H as [groups [Eg H]].
  apply bind_ok in H. destruct H as [s0 [E0 H]].
  apply bind_ok in H. destruct H as [s1 [E1 H]].
  apply bind_ok in H. destruct H as [w1 [_ H]].
  apply bind_ok in H. destruct H as [w2 [_ H]].
  apply bind_ok in H. destruct H as [s2 [E2 H]].
  apply bind_ok in H. destruct H as [s3 [E3 H]].
  apply bind_ok in H. destruct H as [w3 [_ H]].
  apply bind_ok in H. destruct H as [w4 [_ H]].
  apply bind_ok in H. destruct H as [s4 [E4 H]].
  apply bind_ok in H. destruct H as [s5 [E5 H]].
  apply bind_ok in H. destruct H as [w5 [_ H]].
  apply bind_ok in H. destruct H as [s6 [E6 H]].
  apply bind_ok in H. destruct H as [w6 [_ H]].
  exists all_emps, s0. split; [|split].
  - rewrite Es. cbn [bind]. exact Ea.
  - exact E0.
  - apply filter_groups_sub in E1.
    apply filter_when_sub in E2, E3, E4, E5, E6, H.
    repeat (eapply sub_of_trans; [eassumption|]). apply sub_of_refl.
Qed.

Lemma start_set_nodup scope all_emps s :
  start_set scope all_emps = Ok s -> NoDup s.
Proof.
  unfold start_set. intro H. inv_bind H.
  destruct v; [|inv_bind H]; eapply py_set_nodup; eassumption.
Qed.

Lemma selected_set_nodup spec scope sel :
  selected_set spec scope = Ok sel -> NoDup sel.
Proof.
  intro H. destruct (selected_set_start _ _ _ H) as (a & s & _ & Hs & Hsub).
  eapply sub_of_nodup; [eassumption|]. eapply start_set_nodup; eassumption.
Qed.

(** Whenever [select_employees_by_scope] returns, the list is strictly
    ascending. *)
Lemma select_sorted spec scope l :
  select_employees_by_scope spec scope = Ok l -> StronglySorted key_lt l.
Proof.
  unfold select_employees_by_scope. intro H. inv_bind H.
  eapply py_sorted_strict; [eassumption|].
  eapply selected_set_nodup; eassumption.
Qed.

Lemma hkey_eqb_sym a b : hkey_eqb a b = hkey_eqb b a.
Proof.
  destruct (hkey_eqb a b) eqn:E.
  - apply hkey_eqb_eq in E. subst. symmetry. apply hkey_eqb_refl.
  - destruct (hkey_eqb b a) eqn:E'; [|reflexivity].
    apply hkey_eqb_eq in E'. subst. rewrite hkey_eqb_refl in E. discriminate.
Qed.

Lemma dict_lookup_del {V} (k k' : hkey) (kvs : list (hkey * V)) :
  dict_lookup k' (dict_del k kvs)
  = if hkey_eqb k k' then None else dict_lookup k' kvs.
Proof.
  induction kvs as [|[k0 v0] kvs IH]; simpl.
  - now destruct (hkey_eqb k k').
  - destruct (hkey_eqb k k0) eqn:E0; simpl.
    + apply hkey_eqb_eq in E0. subst k0. rewrite IH.
      rewrite (hkey_eqb_sym k' k). now destruct (hkey_eqb k k').
    + destruct (hkey_eqb k' k0) eqn:E1; [|exact IH].
      apply hkey_eqb_eq in E1. subst k0. now rewrite E0.
Qed.

Lemma normalize_get_del scope k k' :
  no_filter scope k ->
  exists v v',
    py_get (PDict (dict_del (HStr k) scope)) k' PNone = Ok v' /\
    py_get (PDict scope) k' PNone = Ok v /\
    normalize_list v' = normalize_list v.
Proof.
  unfold no_filter. intro H. simpl. rewrite dict_lookup_del.
  do 2 eexists. split; [reflexivity | split; [reflexivity|]].
  destruct (hkey_eqb (HStr k) (HStr k')) eqn:E; [|reflexivity].
  apply hkey_eqb_eq in E. injection E as <-.
  destruct (dict_lookup (HStr k) scope) as [[| | | |[|]|]|]; simpl;
    try contradiction; reflexivity.
Qed.

Lemma scope_filter_del scope k k' :
  no_filter scope k ->
  scope_filter (PDict (dict_del (HStr k) scope)) k'
  = scope_filter (PDict scope) k'.
Proof.
  intro H. destruct (normalize_get_del scope k k' H) as (v & v' & E' & E & N).
  unfold scope_filter. rewrite E', E. cbn [bind]. now rewrite N.
Qed.

Lemma filter_groups_del groups scope k sel :
  no_filter scope k ->
  filter_groups groups (PDict (dict_del (HStr k) scope)) sel
  = filter_groups groups (PDict scope) sel.
Proof.
  intro H.
  destruct (normalize_get_del scope k "groups" H) as (v & v' & E' & E & N).
  unfold filter_groups. rewrite E', E. cbn [bind]. now rewrite N.
Qed.

Lemma start_set_del scope k all_emps :
  k <> "employees" ->
  start_set (PDict (dict_del (HStr k) scope)) all_emps
  = start_set (PDict scope) all_emps.
Proof.
  intro Hk.
  assert (L : dict_lookup (HStr "employees") (dict_del (HStr k) scope)
              = dict_lookup (HStr "employees") scope).
  { rewrite dict_lookup_del.
    destruct (hkey_eqb (HStr k) (HStr "employees")) eqn:E; [|reflexivity].
    apply hkey_eqb_eq in E. congruence. }
  unfold start_set. cbn [truthy py_get has_key].
  destruct scope as [|kv scope]; [reflexivity|].
  remember (kv :: scope) as sc eqn:Hsc.
  destruct (dict_del (HStr k) sc) as [|kv' del'] eqn:D; rewrite <- L.
  - subst sc. reflexivity.
  - subst sc. reflexivity.
Qed.

(** A filter that is absent or empty can be dropped from the scope without
    changing what [select_employees_by_scope] does. *)
Lemma select_without_empty_filter spec scope k :
  In k FILTER_KEYS -> no_filter scope k ->
  select_employees_by_scope spec (PDict (dict_del (HStr k) scope))
  = select_employees_by_scope spec (PDict scope).
Proof.
  intros Hin Hno.
  assert (Hk : k <> "employees").
  { intros ->. simpl in Hin. intuition discriminate. }
  unfold select_employees_by_scope. f_equal.
  unfold selected_set.
  destruct (py_item spec "sets") as [sets|]; [|reflexivity]. cbn [bind].
  destruct (py_item sets "employees") as [all_emps|]; [|reflexivity]. cbn [bind].
  destruct (get_groups spec) as [groups|]; [|reflexivity]. cbn [bind].
  rewrite (start_set_del _ _ _ Hk).
  destruct (start_set (PDict scope) all_emps) as [s0|]; [|reflexivity]. cbn [bind].
  rewrite (filter_groups_del _ _ _ _ Hno).
  destruct (filter_groups groups (PDict scope) s0) as [s1|]; [|reflexivity].
  cbn [bind].
  rewrite !(scope_filter_del _ _ _ Hno).
  reflexivity.
Qed.

(** *** Well-formed specs and scopes *)

Lemma map_r_to_hkey_strs l :
  map_r to_hkey (map PStr l) = Ok (map HStr l).
Proof.
  induction l as [|s l IH]; simpl; [reflexivity|]. now rewrite IH.
Qed.

Lemma py_set_strs v :
  is_strs v -> exists s, py_set v = Ok s /\ Forall is_hstr s.
Proof.
  intros [l ->]. unfold py_set, str_list. cbn [py_iter bind].
  rewrite map_r_to_hkey_strs. cbn [bind]. eexists. split; [reflexivity|].
  apply Forall_forall. intros x Hx. rewrite set_of_keys_in in Hx.
  apply in_map_iff in Hx. destruct Hx as [s [<- _]]. now exists s.
Qed.

Lemma is_strs_nil : is_strs (PList []).
Proof. now exists []. Qed.

Lemma filter_r_total {A} (f : A -> result bool) l :
  (forall x, In x l -> exists b, f x = Ok b) -> exists r, filter_r f l = Ok r.
Proof.
  induction l as [|x l IH]; simpl; intro H; [eauto|].
  destruct (H x (or_introl eq_refl)) as [b ->]. cbn [bind].
  destruct IH as [r ->]; [auto|]. cbn [bind]. eauto.
Qed.

Lemma filter_when_total wanted test sel :
  (forall x, In x sel -> exists b, test x = Ok b) ->
  exists sel', filter_when wanted test sel = Ok sel' /\ sub_of sel' sel.
Proof.
  intro H. unfold filter_when. destruct (is_empty wanted).
  - exists sel. split; [reflexivity | apply sub_of_refl].
  - destruct (filter_r_total test sel H) as [r ->]. cbn [bind].
    eexists. split; [reflexivity | apply sub_of_inter].
Qed.

Lemma dict_lookup_forall {V} (P : V -> Prop) k (kvs : list (hkey * V)) v :
  Forall (fun kv => P (snd kv)) kvs -> dict_lookup k kvs = Some v -> P v.
Proof.
  induction 1 as [|[k0 v0] kvs H0 _ IH]; simpl; [discriminate|].
  destruct (hkey_eqb k k0); [|exact IH]. intro E. injection E as <-. exact H0.
Qed.

Lemma wf_employee_empty : wf_employee (PDict []).
Proof. exists []. unfold strs_or_absent. simpl. tauto. Qed.

Lemma get_employee_wf spec s :
  wf_spec spec -> exists e, get_employee spec (PStr s) = Ok e /\ wf_employee e.
Proof.
  intros (kvs & sets & emps & -> & _ & _ & _ & He).
  unfold get_employee. cbn [py_get bind].
  destruct (dict_lookup (HStr "employees") kvs) as [[| | | | |ekvs]|];
    simpl in He; try contradiction; cbn [py_get_v to_hkey bind].
  - destruct (dict_lookup (HStr s) ekvs) eqn:E.
    + eexists. split; [reflexivity|]. eapply dict_lookup_forall; eassumption.
    + eexists. split; [reflexivity | apply wf_employee_empty].
  - simpl. eexists. split; [reflexivity | apply wf_employee_empty].
Qed.

Lemma employee_tags_total spec attr s :
  wf_spec spec -> attr = "skills" \/ attr = "roles" ->
  exists t, employee_tags spec attr (HStr s) = Ok t.
Proof.
  intros Hs Ha. unfold employee_tags. cbn [of_hkey].
  destruct (get_employee_wf spec s Hs) as (e & -> & kvs & -> & Hsk & Hro & _).
  cbn [bind py_get].
  assert (H : strs_or_absent kvs attr) by (destruct Ha as [-> | ->]; assumption).
  unfold strs_or_absent in H.
  destruct (dict_lookup (HStr attr) kvs).
  - destruct (py_set_strs _ H) as [t [-> _]]. eauto.
  - destruct (py_set_strs _ is_strs_nil) as [t [-> _]]. eauto.
Qed.

Lemma scope_filter_total kvs k :
  strs_or_absent kvs k ->
  exists w, scope_filter (PDict kvs) k = Ok w.
Proof.
  unfold strs_or_absent, scope_filter. cbn [py_get bind].
  destruct (dict_lookup (HStr k) kvs) as [v|].
  - intros [l ->]. unfold str_list. cbn [normalize_list].
    rewrite map_r_to_hkey_strs. cbn [bind]. eauto.
  - intros _. cbn. eauto.
Qed.

Lemma filter_groups_total spec groups kvs sel :
  wf_spec spec -> get_groups spec = Ok groups -> strs_or_absent kvs "groups" ->
  exists sel', filter_groups groups (PDict kvs) sel = Ok sel' /\ sub_of sel' sel.
Proof.
  intros (skvs & sets & emps & -> & _ & _ & Hg & _) Eg Hk.
  unfold get_groups in Eg. cbn [py_get bind] in Eg. injection Eg as <-.
  unfold filter_groups. cbn [py_get bind].
  assert (Hl : exists l, normalize_list
                 match dict_lookup (HStr "groups") kvs with
                 | Some v => v | None => PNone end = map PStr l).
  { unfold strs_or_absent in Hk.
    destruct (dict_lookup (HStr "groups") kvs) as [v|].
    - destruct Hk as [l ->]. now exists l.
    - now exists []. }
  destruct Hl as [l ->]. clear Hk. revert sel.
  induction l as [|g l IH]; intro sel; simpl.
  - exists sel. split; [reflexivity | apply sub_of_refl].
  - assert (Hm : exists m, py_get_v
                   (py_or match dict_lookup (HStr "groups") skvs with
                          | Some v => v | None => PDict [] end (PDict []))
                   (PStr g) (PList []) = Ok m /\ is_strs m).
    { destruct (dict_lookup (HStr "groups") skvs) as [[| | | | |gk]|];
        simpl in Hg; try contradiction.
      - assert (Hd : exists d, py_or (PDict gk) (PDict []) = PDict d /\
                               Forall (fun kv => is_strs (snd kv)) d).
        { unfold py_or. destruct (truthy (PDict gk)); eauto. }
        destruct Hd as (d & -> & Hd). cbn [py_get_v to_hkey bind].
        destruct (dict_lookup (HStr g) d) eqn:E.
        + eexists. split; [reflexivity|]. eapply dict_lookup_forall; eassumption.
        + eexists. split; [reflexivity | apply is_strs_nil].
      - cbn. eexists. split; [reflexivity | apply is_strs_nil]. }
    destruct Hm as (m & -> & Hm). cbn [bind].
    destruct (py_set_strs _ Hm) as (ms & -> & _). cbn [bind].
    destruct (IH (set_inter sel ms)) as (sel' & -> & Hsub).
    exists sel'. split; [reflexivity|].
    eapply sub_of_trans; [exact Hsub | apply sub_of_inter].
Qed.

Lemma start_set_total scope emps :
  wf_scope scope ->
  exists s, start_set scope (str_list emps) = Ok s /\ Forall is_hstr s.
Proof.
  intros (kvs & -> & He & _). unfold start_set. cbn [py_get has_key bind].
  destruct (truthy (PDict kvs)); cbn [negb bind].
  - destruct (dict_lookup (HStr "employees") kvs) as [v|].
    + destruct He as [-> | Hv].
      * cbn -[py_set]. apply py_set_strs. now exists emps.
      * destruct Hv as [l ->]. cbn -[py_set]. apply py_set_strs. now exists l.
    + cbn -[py_set]. apply py_set_strs. now exists emps.
  - apply py_set_strs. now exists emps.
Qed.

Lemma hstr_test_total (test : hkey -> result bool) sel :
  Forall is_hstr sel ->
  (forall s, exists b, test (HStr s) = Ok b) ->
  forall x, In x sel -> exists b, test x = Ok b.
Proof.
  intros Hs Ht x Hx. rewrite Forall_forall in Hs.
  destruct (Hs x Hx) as [s ->]. apply Ht.
Qed.

Lemma sub_of_hstr a b : sub_of a b -> Forall is_hstr b -> Forall is_hstr a.
Proof.
  intros Hs Hb. apply Forall_forall. intros x Hx.
  rewrite Forall_forall in Hb. apply Hb. eapply sub_of_incl; eassumption.
Qed.

Lemma tags_filter_total spec attr (g : pyset -> bool) wanted sel :
  wf_spec spec -> attr = "skills" \/ attr = "roles" -> Forall is_hstr sel ->
  exists sel',
    filter_when wanted
      (fun e => have <- employee_tags spec attr e ;; Ok (g have)) sel = Ok sel'
    /\ sub_of sel' sel.
Proof.
  intros Hs Ha Hsel. apply filter_when_total.
  apply hstr_test_total; [assumption|]. intro s.
  destruct (employee_tags_total spec attr s Hs Ha) as [t ->]. cbn [bind]. eauto.
Qed.

Lemma sites_filter_total spec wanted sel :
  wf_spec spec -> Forall is_hstr sel ->
  exists sel', filter_sites_any spec wanted sel = Ok sel' /\ sub_of sel' sel.
Proof.
  intros Hs Hsel. apply filter_when_total.
  apply hstr_test_total; [assumption|]. intro s. cbn [of_hkey].
  destruct (get_employee_wf spec s Hs) as (e & -> & kvs & -> & _ & _ & Hh & _).
  cbn [bind py_get].
  destruct (dict_lookup (HStr "site_home") kvs) as [[| | | | |]|];
    try contradiction; cbn; eauto.
Qed.

Lemma contracts_filter_total spec wanted sel :
  wf_spec spec -> Forall is_hstr sel ->
  exists sel', filter_contracts_any spec wanted sel = Ok sel' /\ sub_of sel' sel.
Proof.
  intros Hs Hsel. apply filter_when_total.
  apply hstr_test_total; [assumption|]. intro s. cbn [of_hkey].
  destruct (get_employee_wf spec s Hs) as (e & -> & kvs & -> & _ & _ & _ & Hc).
  cbn [bind py_get].
  destruct (dict_lookup (HStr "contract") kvs) as [[| | | | |c]|];
    try contradiction.
  - assert (Hd : exists d, py_or (PDict c) (PDict []) = PDict d /\
                   match dict_lookup (HStr "type") d with
                   | None | Some (PStr _) => True | _ => False end).
    { unfold py_or. destruct (truthy (PDict c)); eauto.
      exists []. split; [reflexivity | exact I]. }
    destruct Hd as (d & -> & Hd). cbn [py_get bind].
    destruct (dict_lookup (HStr "type") d) as [[| | | | |]|];
      try contradiction; cbn; eauto.
  - cbn. eauto.
Qed.

(** On a well-formed spec and scope, [select_employees_by_scope] returns. *)
Lemma select_total spec scope :
  wf_spec spec -> wf_scope scope ->
  exists l, select_employees_by_scope spec scope = Ok l.
Proof.
  intros Hs Hc.
  pose proof Hs as (skvs & sets & emps & Espec & Hsets & Hemps & _ & _).
  pose proof Hc as (kvs & Escope & _ & Hf).
  unfold select_employees_by_scope, selected_set.
  assert (E1 : py_item spec "sets" = Ok (PDict sets))
    by (subst spec; cbn; now rewrite Hsets).
  rewrite E1. cbn [bind].
  assert (E2 : py_item (PDict sets) "employees" = Ok (str_list emps))
    by (cbn; now rewrite Hemps).
  rewrite E2. cbn [bind].
  assert (E3 : exists groups, get_groups spec = Ok groups)
    by (subst spec; cbn; eauto).
  destruct E3 as [groups E3]. rewrite E3. cbn [bind].
  destruct (start_set_total scope emps Hc) as (s0 & -> & H0). cbn [bind].
  subst scope.
  destruct (filter_groups_total spec groups kvs s0 Hs E3) as (s1 & -> & S1).
  { apply Hf. simpl. tauto. }
  cbn [bind]. pose proof (sub_of_hstr _ _ S1 H0) as H1.
  destruct (scope_filter_total kvs "skills_any") as [w1 ->];
    [apply Hf; simpl; tauto|]. cbn [bind].
  destruct (scope_filter_total kvs "skills_all") as [w2 ->];
    [apply Hf; simpl; tauto|]. cbn [bind].
  unfold filter_tags_any, filter_tags_all.
  destruct (tags_filter_total spec "skills"
              (fun have => negb (is_empty (set_inter w1 have))) w1 s1 Hs
              (or_introl eq_refl) H1) as (s2 & -> & S2).
  cbn [bind]. pose proof (sub_of_hstr _ _ S2 H1) as H2.
  destruct (tags_filter_total spec "skills"
              (fun have => forallb (fun k => mem k have) w2) w2 s2 Hs
              (or_introl eq_refl) H2) as (s3 & -> & S3).
  cbn [bind]. pose proof (sub_of_hstr _ _ S3 H2) as H3.
  destruct (scope_filter_total kvs "roles_any") as [w3 ->];
    [apply Hf; simpl; tauto|]. cbn [bind].
  destruct (scope_filter_total kvs "roles_all") as [w4 ->];
    [apply Hf; simpl; tauto|]. cbn [bind].
  destruct (tags_filter_total spec "roles"
              (fun have => negb (is_empty (set_inter w3 have))) w3 s3 Hs
              (or_intror eq_refl) H3) as (s4 & -> & S4).
  cbn [bind]. pose proof (sub_of_hstr _ _ S4 H3) as H4.
  destruct (tags_filter_total spec "roles"
              (fun have => forallb (fun k => mem k have) w4) w4 s4 Hs
              (or_intror eq_refl) H4) as (s5 & -> & S5).
  cbn [bind]. pose proof (sub_of_hstr _ _ S5 H4) as H5.
  destruct (scope_filter_total kvs "sites_any") as [w5 ->];
    [apply Hf; simpl; tauto|]. cbn [bind].
  destruct (sites_filter_total spec w5 s5 Hs H5) as (s6 & -> & S6).
  cbn [bind]. pose proof (sub_of_hstr _ _ S6 H5) as H6.
  destruct (scope_filter_total kvs "contracts_any") as [w6 ->];
    [apply Hf; simpl; tauto|]. cbn [bind].
  destruct (contracts_filter_total spec w6 s6 Hs H6) as (s7 & -> & S7).
  cbn [bind]. pose proof (sub_of_hstr _ _ S7 H6) as H7.
  apply py_sorted_total. right. right. exact H7.
Qed.

(** C9: [select_employees_by_scope] returns a list in ascending order
    (lexical order on string ids); it is deterministic: equal inputs give
    equal results, and the result does not depend on the order in which the
    selected set is enumerated; and a filter that is absent or empty can be
    removed from the scope without changing the result. *)
Theorem select_employees_by_scope_spec :
  (forall spec scope,
      wf_spec spec -> wf_scope scope ->
      exists l, select_employees_by_scope spec scope = Ok l)
  /\ (forall spec scope l,
         select_employees_by_scope spec scope = Ok l -> StronglySorted key_lt l)
  /\ (forall a b, key_lt (HStr a) (HStr b) <-> String_as_OT.lt a b)
  /\ (forall spec1 scope1 spec2 scope2,
         spec1 = spec2 -> scope1 = scope2 ->
         select_employees_by_scope spec1 scope1
         = select_employees_by_scope spec2 scope2)
  /\ (forall spec scope sel order l,
         selected_set spec scope = Ok sel -> Permutation order sel ->
         select_employees_by_scope spec scope = Ok l -> py_sorted order = Ok l)
  /\ (forall spec scope k,
         In k FILTER_KEYS -> no_filter scope k ->
         select_employees_by_scope spec (PDict (dict_del (HStr k) scope))
         = select_employees_by_scope spec (PDict scope)).
Proof.
  split; [exact select_total|].
  split; [exact select_sorted|].
  split.
  { intros a b. unfold key_lt. simpl. rewrite <- string_ltb_lt.
    split; [intro H; now injection H | intros ->; reflexivity]. }
  split; [intros; subst; reflexivity|].
  split; [|exact select_without_empty_filter].
  intros spec scope sel order l Hsel Hp H.
  unfold select_employees_by_scope in H. rewrite Hsel in H. cbn [bind] in H.
  eapply py_sorted_order_independent; [|eassumption|eassumption].
  eapply selected_set_nodup; eassumption.
Qed.

Lemma select_employees_by_scope_spec_witness :
  select_employees_by_scope spec_team scope_nurses = Ok [HStr "P1"; HStr "P2"]
  /\ StronglySorted key_lt [HStr "P1"; HStr "P2"]
  /\ select_employees_by_scope spec_team
       (PDict (dict_del (HStr "groups")
                 [(HStr "skills_any", str_list ["nurse"]);
                  (HStr "groups", PList [])]))
     = select_employees_by_scope spec_team scope_nurses.
Proof.
  assert (E : select_employees_by_scope spec_team scope_nurses
              = Ok [HStr "P1"; HStr "P2"]) by (vm_compute; reflexivity).
  split; [exact E|]. split.
  - exact (proj1 (proj2 select_employees_by_scope_spec) _ _ _ E).
  - apply (proj2 (proj2 (proj2 (proj2 (proj2 select_employees_by_scope_spec))))).
    + simpl. tauto.
    + unfold no_filter. simpl. exact I.
Defined.

(** C10: when [scope.employees] is an explicit list and no filter is given,
    the result is that list as a sorted set, whatever [sets.employees]
    holds; so the result can contain ids that are not in [sets.employees]. *)
Theorem explicit_employees_not_intersected :
  (forall spec sets all_emps scope l,
      py_item (PDict spec) "sets" = Ok sets ->
      py_item sets "employees" = Ok all_emps ->
      dict_lookup (HStr "employees") scope = Some (PList l) ->
      (forall k, In k FILTER_KEYS -> dict_lookup (HStr k) scope = None) ->
      select_employees_by_scope (PDict spec) (PDict scope)
      = (s <- py_set (PList l) ;; py_sorted s))
  /\ select_employees_by_scope spec_one_employee scope_with_stranger
     = Ok [HStr "P1"; HStr "ZZ"]
  /\ (sets <- py_item spec_one_employee "sets" ;; py_item sets "employees")
     = Ok (str_list ["P1"])
  /\ ~ In "ZZ" ["P1"].
Proof.
  split; [|split; [vm_compute; reflexivity | split; [reflexivity|]]].
  - intros spec sets all_emps scope l Hsets Hall He Hf.
    unfold select_employees_by_scope, selected_set.
    rewrite Hsets. cbn [bind]. rewrite Hall. cbn [bind].
    unfold get_groups. cbn [py_get bind].
    assert (Hstart : start_set (PDict scope) all_emps = py_set (PList l)).
    { unfold start_set. cbn [py_get has_key bind]. rewrite He.
      destruct scope as [|kv scope]; [discriminate|]. reflexivity. }
    rewrite Hstart. destruct (py_set (PList l)) as [s|]; [|reflexivity].
    cbn [bind].
    unfold filter_groups, scope_filter. cbn [py_get bind].
    rewrite !Hf by (simpl; tauto).
    cbn [normalize_list for_each map_r bind set_of_keys fold_left].
    unfold filter_tags_any, filter_tags_all, filter_sites_any,
      filter_contracts_any, filter_when.
    cbn [is_empty bind]. reflexivity.
  - simpl. intuition discriminate.
Qed.

Lemma explicit_employees_not_intersected_witness :
  select_employees_by_scope spec_one_employee scope_with_stranger
  = (s <- py_set (str_list ["P1"; "ZZ"]) ;; py_sorted s).
Proof.
  apply (proj1 explicit_employees_not_intersected
           _ (obj [("employees", str_list ["P1"])]) (str_list ["P1"])
           [(HStr "employees", str_list ["P1"; "ZZ"])] (map PStr ["P1"; "ZZ"])).
  - reflexivity.
  - reflexivity.
  - reflexivity.
  - intros k Hk. simpl in Hk.
    repeat (destruct Hk as [<- | Hk]; [reflexivity|]). contradiction.
Defined.

(** ** The compiled model *)

Lemma grows_refl acc : grows acc acc.
Proof. exists []. now rewrite app_nil_r. Qed.

Lemma grows_trans a b c : grows a b -> grows b c -> grows a c.
Proof.
  intros [r1 H1] [r2 H2]. exists (r1 ++ r2). now rewrite H2, H1, app_assoc.
Qed.

Lemma grows_in a b r : grows a b -> In r (e_rows a) -> In r (e_rows b).
Proof. intros [rs ->] H. apply in_or_app. now left. Qed.

Lemma grows_emit_row r acc : grows acc (emit_row r acc).
Proof. now exists [r]. Qed.

Lemma grows_emit_rows rs acc : grows acc (emit_rows rs acc).
Proof. now exists rs. Qed.

Lemma grows_emit_var d acc : grows acc (emit_var d acc).
Proof. exists []. simpl. now rewrite app_nil_r. Qed.

Lemma grows_emit_penalty p acc : grows acc (emit_penalty p acc).
Proof. exists []. simpl. now rewrite app_nil_r. Qed.

Lemma grows_emit_app acc e : grows acc (emit_app acc e).
Proof. now exists (e_rows e). Qed.

Lemma for_each_grows {A} (body : A -> emit -> result emit) l :
  (forall x a a', body x a = Ok a' -> grows a a') ->
  forall acc acc', for_each l body acc = Ok acc' -> grows acc acc'.
Proof.
  intro Hb. induction l as [|x l IH]; simpl; intros acc acc' H.
  - injection H as <-. apply grows_refl.
  - inv_bind H. eapply grows_trans; [eapply Hb; eassumption | eauto].
Qed.

(** Every iteration of a loop runs, and what it adds stays in the result. *)
Lemma for_each_step {A} (body : A -> emit -> result emit) l x :
  (forall x a a', body x a = Ok a' -> grows a a') ->
  In x l ->
  forall acc acc', for_each l body acc = Ok acc' ->
  exists a1 a2, body x a1 = Ok a2 /\ grows a2 acc'.
Proof.
  intros Hb. induction l as [|y l IH]; simpl; intros Hin acc acc' H;
    [contradiction|].
  inv_bind H. destruct Hin as [-> | Hin].
  - exists acc, v. split; [assumption|].
    eapply for_each_grows; eassumption.
  - eapply IH; eassumption.
Qed.

Lemma in_enumerate {A} (l : list A) i x :
  nth_error l i = Some x -> In (i, x) (enumerate l).
Proof.
  unfold enumerate. intro H.
  assert (G : forall s, In (s + i, x)%nat (combine (seq s (List.length l)) l)).
  { revert i H. induction l as [|y l IH]; intros i H s.
    - destruct i; discriminate.
    - destruct i as [|i]; simpl in *.
      + injection H as ->. left. f_equal. lia.
      + right. replace (s + S i)%nat with (S s + i)%nat by lia. now apply IH. }
  exact (G 0%nat).
Qed.

Lemma compile_constraints_step cx cl cons ci c :
  compile_constraints cx cl = Ok cons -> nth_error cl ci = Some c ->
  exists em, compile_constraint cx ci c = Ok em /\
             incl (e_rows em) (e_rows cons).
Proof.
  unfold compile_constraints. intros H Hn.
  apply in_enumerate in Hn.
  eapply for_each_step in H; [| |exact Hn].
  2:{ intros x a a' Hx. inv_bind Hx. injection Hx as <-. apply grows_emit_app. }
  destruct H as (a1 & a2 & Hb & Hg).
  cbn [fst snd] in Hb. inv_bind Hb. injection Hb as <-.
  exists v. split; [assumption|].
  intros r Hr. eapply grows_in; [exact Hg|]. simpl.
  apply in_or_app. now right.
Qed.

(** What [compile_model] went through when it produced a model. *)
Lemma compile_model_ok spec spec' cx m :
  compile_model spec = (spec', Ok (cx, m)) ->
  exists employees days shifts sites shift_defs cl dem cons,
    prelude spec = Ok (spec', (employees, days, shifts, sites, shift_defs)) /\
    build_context spec' employees days shifts sites shift_defs = Ok (cx, cl) /\
    compile_demand cx = Ok dem /\
    compile_constraints cx cl = Ok cons /\
    m = model_of cx dem cons.
Proof.
  unfold compile_model. intro H.
  destruct (prelude spec) as [[s1 [[[[em dy] sh] st] sd]]|]; [|inversion H].
  injection H as -> H. unfold build_model in H.
  inv_bind H. destruct v as [cx0 cl]. inv_bind H. inv_bind H.
  injection H as -> <-.
  exists em, dy, sh, st, sd, cl, v, v0. auto.
Qed.

Lemma build_context_spec spec em dy sh st sd cx cl :
  build_context spec em dy sh st sd = Ok (cx, cl) ->
  c_spec cx = spec /\ constraints_of spec = Ok cl /\
  c_sites cx = st /\ c_shift_defs cx = sd /\
  py_iter dy = Ok (c_days cx) /\ py_iter em = Ok (c_employees cx).
Proof.
  unfold build_context, constraints_of. intro H.
  inv_bind H. inv_bind H. inv_bind H. inv_bind H. inv_bind H. inv_bind H.
  inv_bind H. inv_bind H. inv_bind H. inv_bind H. inv_bind H.
  injection H as <- <-. cbn [c_spec c_sites c_shift_defs c_days c_employees].
  rewrite E. cbn [bind]. repeat split; assumption.
Qed.

(** The rows of every constraint are rows of the model. *)
Lemma constraint_rows_in_model spec spec' cx m cl c :
  compile_model spec = (spec', Ok (cx, m)) ->
  constraints_of (c_spec cx) = Ok cl -> In c cl ->
  exists ci em, compile_constraint cx ci c = Ok em /\
                incl (e_rows em) (m_rows m).
Proof.
  intros H Hcl Hin.
  destruct (compile_model_ok _ _ _ _ H)
    as (em0 & dy & sh & st & sd & cl' & dem & cons & _ & Hb & _ & Hc & ->).
  destruct (build_context_spec _ _ _ _ _ _ _ _ Hb) as (Hs & Hcl' & _).
  rewrite Hs in Hcl. rewrite Hcl in Hcl'. injection Hcl' as <-.
  destruct (In_nth_error _ _ Hin) as [ci Hn].
  destruct (compile_constraints_step _ _ _ _ _ Hc Hn) as (em & He & Hi).
  exists ci, em. split; [assumption|].
  intros r Hr. simpl. apply in_or_app. right. now apply Hi.
Qed.

(** ** Rows as sums of decision variables *)

Lemma sum_vars_app a l1 l2 : sum_vars a (l1 ++ l2) = sum_vars a l1 + sum_vars a l2.
Proof.
  unfold sum_vars. induction l1 as [|x l1 IH]; simpl; [reflexivity|].
  rewrite IH. lia.
Qed.

Lemma zero_one_range a v : zero_one a -> is_decision v -> 0 <= a v <= 1.
Proof.
  intros [Ho Hx] Hv. destruct v; simpl in Hv; try contradiction.
  - destruct (Ho e d); lia.
  - destruct (Hx e d s site); lia.
Qed.

Lemma sum_vars_nonneg a vs :
  zero_one a -> Forall is_decision vs -> 0 <= sum_vars a vs.
Proof.
  intros Ha. induction 1 as [|v vs Hv _ IH]; unfold sum_vars in *; simpl; [lia|].
  pose proof (zero_one_range a v Ha Hv). lia.
Qed.

Lemma one_in_sum a vs v :
  zero_one a -> Forall is_decision vs -> In v vs -> a v <= sum_vars a vs.
Proof.
  intros Ha Hd. induction Hd as [|x vs Hx Hd IH]; intro Hin; [contradiction|].
  unfold sum_vars in *. simpl.
  pose proof (sum_vars_nonneg a vs Ha Hd) as Hn. unfold sum_vars in Hn.
  pose proof (zero_one_range a x Ha Hx).
  destruct Hin as [-> | Hin]; [lia | specialize (IH Hin); lia].
Qed.

(** Two different variables of a sum of 0/1 variables contribute at most
    the sum. *)
Lemma two_in_sum a vs v1 v2 :
  zero_one a -> Forall is_decision vs -> In v1 vs -> In v2 vs -> v1 <> v2 ->
  a v1 + a v2 <= sum_vars a vs.
Proof.
  intros Ha Hd. induction Hd as [|x vs Hx Hd IH]; intros H1 H2 Hne;
    [contradiction|].
  pose proof (zero_one_range a x Ha Hx) as Rx.
  change (sum_vars a (x :: vs)) with (a x + sum_vars a vs).
  destruct H1 as [-> | H1], H2 as [-> | H2].
  - congruence.
  - pose proof (one_in_sum a vs v2 Ha Hd H2). lia.
  - pose proof (one_in_sum a vs v1 Ha Hd H1). lia.
  - specialize (IH H1 H2 Hne). lia.
Qed.

Lemma to_hkey_of_hkey k : to_hkey (of_hkey k) = Ok k.
Proof. now destruct k. Qed.

Lemma x_var_ok cx e d s site t :
  x_var cx e d s site = Ok t ->
  exists he hs ht,
    to_hkey e = Ok he /\ to_hkey s = Ok hs /\ to_hkey site = Ok ht /\
    t = LVar (VX he d hs ht) /\ declared cx (VX he d hs ht) = true.
Proof.
  unfold x_var. intro H. inv_bind H. inv_bind H. inv_bind H.
  destruct (declared cx (VX v d v0 v1)) eqn:D; [|discriminate].
  injection H as <-. exists v, v0, v1. auto.
Qed.

Lemma off_var_ok cx e d t :
  off_var cx (of_hkey e) d = Ok t ->
  t = LVar (VOff e d) /\ declared cx (VOff e d) = true.
Proof.
  unfold off_var. rewrite to_hkey_of_hkey. cbn [bind].
  destruct (declared cx (VOff e d)); [|discriminate].
  intro H. injection H as <-. auto.
Qed.

Lemma x_vars_ok cx e d s sl terms :
  map_r (fun site => x_var cx e d s site) sl = Ok terms ->
  exists vs,
    terms = map LVar vs /\ Forall is_decision vs /\
    forall he hs site ht,
      to_hkey e = Ok he -> to_hkey s = Ok hs -> In site sl ->
      to_hkey site = Ok ht -> In (VX he d hs ht) vs.
Proof.
  revert terms. induction sl as [|site sl IH]; simpl; intros terms H.
  - injection H as <-. exists []. split; [reflexivity|]. split; [constructor|].
    intros; contradiction.
  - inv_bind H. inv_bind H. injection H as <-.
    destruct (x_var_ok _ _ _ _ _ _ E) as (he & hs & ht & He & Hs & Ht & -> & _).
    destruct (IH _ E0) as (vs & -> & Hd & Hm).
    exists (VX he d hs ht :: vs). split; [reflexivity|].
    split; [constructor; [exact I | assumption]|].
    intros he' hs' site' ht' He' Hs' [<- | Hin] Ht'.
    + left. congruence.
    + right. eapply Hm; eassumption.
Qed.

Lemma eval_lsum_vars a vs : eval a (lsum (map LVar vs)) = sum_vars a vs.
Proof.
  rewrite eval_lsum, map_map. reflexivity.
Qed.

(** [works_shift(e, d, s)] is the sum of the [x] variables of the sites. *)
Lemma works_shift_ok cx e d s w :
  works_shift cx e d s = Ok w ->
  exists sl vs,
    py_iter (c_sites cx) = Ok sl /\
    (forall a, eval a w = sum_vars a vs) /\ Forall is_decision vs /\
    forall he hs site ht,
      to_hkey e = Ok he -> to_hkey s = Ok hs -> In site sl ->
      to_hkey site = Ok ht -> In (VX he d hs ht) vs.
Proof.
  unfold works_shift. intro H. inv_bind H. inv_bind H. injection H as <-.
  destruct (x_vars_ok _ _ _ _ _ _ E0) as (vs & -> & Hd & Hm).
  exists v, vs. split; [assumption|]. split; [|split; assumption].
  intro a. apply eval_lsum_vars.
Qed.

(** The sum of [works_shift(e, d, s)] over a list of shifts. *)
Lemma works_shifts_ok cx e d counted terms :
  map_r (fun s => works_shift cx e d s) counted = Ok terms ->
  exists vs,
    (forall a, eval a (lsum terms) = sum_vars a vs) /\ Forall is_decision vs /\
    forall he hs s sl site ht,
      In s counted -> py_iter (c_sites cx) = Ok sl ->
      to_hkey e = Ok he -> to_hkey s = Ok hs -> In site sl ->
      to_hkey site = Ok ht -> In (VX he d hs ht) vs.
Proof.
  revert terms. induction counted as [|s counted IH]; simpl; intros terms H.
  - injection H as <-. exists []. split; [reflexivity|]. split; [constructor|].
    intros; contradiction.
  - inv_bind H. inv_bind H. injection H as <-.
    destruct (works_shift_ok _ _ _ _ _ E) as (sl & vs1 & Hsl & Hv1 & Hd1 & Hm1).
    destruct (IH _ E0) as (vs2 & Hv2 & Hd2 & Hm2).
    exists (vs1 ++ vs2). split; [|split].
    + intro a. rewrite eval_lsum. simpl. rewrite Hv1, <- eval_lsum, Hv2.
      now rewrite sum_vars_app.
    + apply Forall_app. auto.
    + intros he hs s' sl' site ht [<- | Hin] Hsl' He Hs Hsite Ht;
        apply in_or_app.
      * left. rewrite Hsl in Hsl'. injection Hsl' as <-.
        eapply Hm1; eassumption.
      * right. eapply Hm2; eassumption.
Qed.

(** ** Exactly one assignment per day *)

Lemma holdsb_holds a r : holdsb a r = true -> holds a r.
Proof.
  induction r as [x y|x y|x y|g r IH]; simpl; intro H.
  - now apply Z.eqb_eq.
  - now apply Z.leb_le.
  - apply Z.geb_le in H. lia.
  - intro Hg. apply orb_true_iff in H. destruct H as [H|H]; [|auto].
    apply negb_true_iff in H. apply Z.eqb_neq in H. contradiction.
Qed.

Lemma satisfiesb_satisfies a m : satisfiesb a m = true -> satisfies a m.
Proof.
  unfold satisfiesb, satisfies. intro H. apply andb_true_iff in H.
  destruct H as [Hv Hr]. rewrite forallb_forall in Hv, Hr. split.
  - apply Forall_forall. intros d Hd. specialize (Hv d Hd).
    unfold in_domainb in Hv. apply andb_true_iff in Hv. unfold in_domain.
    destruct Hv as [H1 H2]. apply Z.leb_le in H1, H2. lia.
  - apply Forall_forall. intros r Hin. apply holdsb_holds. auto.
Qed.

Lemma compile_exactly_one_row cx data emps em counted e d :
  compile_exactly_one cx data emps = Ok em ->
  counted_work cx data = Ok counted -> In e emps -> (d < n_days cx)%nat ->
  exists r, exactly_one_row cx counted e d = Ok r /\ In r (e_rows em).
Proof.
  unfold compile_exactly_one. intros H Hc He Hd. rewrite Hc in H. cbn [bind] in H.
  assert (Hinner : forall e x a a',
             (r <- exactly_one_row cx counted e x ;; Ok (emit_row r a)) = Ok a' ->
             grows a a').
  { intros e0 x a a' Hx. inv_bind Hx. injection Hx as <-. apply grows_emit_row. }
  eapply for_each_step in H; [| |exact He].
  2:{ intros x a a' Hx. eapply for_each_grows; [|exact Hx]. apply Hinner. }
  destruct H as (a1 & a2 & H & G2).
  eapply for_each_step in H; [|apply Hinner|apply in_seq; split; [lia|exact Hd]].
  destruct H as (b1 & b2 & H & G1).
  inv_bind H. injection H as <-. exists v. split; [assumption|].
  eapply grows_in; [exact G2|]. eapply grows_in; [exact G1|].
  simpl. apply in_or_app. right. now left.
Qed.

Lemma compile_kind_exactly_one cx ci ctype data w emps :
  compile_kind cx ci (PStr "exactly_one_assignment_per_day") ctype data w emps
  = compile_exactly_one cx data emps.
Proof. reflexivity. Qed.

(** C3 (amended): in every solution of the compiled model, for an employee
    selected by an [exactly_one_assignment_per_day] constraint and every
    day, at most one variable among [off[e,d]] and the [x[e,d,s,site]] with
    [s] a counted shift of the constraint and [site] any site equals one. *)
Theorem exactly_one_per_day spec spec' cx m cl c e counted d a v1 v2 :
  compile_model spec = (spec', Ok (cx, m)) ->
  constraints_of (c_spec cx) = Ok cl -> In c cl ->
  exactly_one_over cx c e counted ->
  (d < n_days cx)%nat ->
  zero_one a -> satisfies a m ->
  day_var cx counted e d v1 -> day_var cx counted e d v2 -> v1 <> v2 ->
  ~ (a v1 = 1 /\ a v2 = 1).
Proof.
  intros Hm Hcl Hin (Hk & scope & data & emps & Hs & Hd & Hsel & He & Hc)
         Hday Ha [_ Hrows] D1 D2 Hne [A1 A2].
  destruct (constraint_rows_in_model _ _ _ _ _ _ Hm Hcl Hin)
    as (ci & em & Hem & Hincl).
  unfold compile_constraint in Hem.
  inv_bind Hem. inv_bind Hem. inv_bind Hem. inv_bind Hem. inv_bind Hem.
  inv_bind Hem. inv_bind Hem.
  rewrite Hk in E1. injection E1 as <-.
  rewrite Hs in E2. injection E2 as <-.
  rewrite Hd in E3. injection E3 as <-.
  rewrite Hsel in E5. injection E5 as <-.
  rewrite compile_kind_exactly_one in Hem.
  destruct (compile_exactly_one_row _ _ _ _ _ _ _ Hem Hc He Hday) as (r & Hr & Hrin).
  assert (Hh : holds a r).
  { rewrite Forall_forall in Hrows. apply Hrows. now apply Hincl. }
  unfold exactly_one_row in Hr. inv_bind Hr. inv_bind Hr. injection Hr as <-.
  destruct (off_var_ok _ _ _ _ E1) as [-> _].
  destruct (works_shifts_ok _ _ _ _ _ E2) as (vs & Hv & Hdec & Hmem).
  simpl in Hh. rewrite Hv in Hh.
  assert (Hall : Forall is_decision (VOff e d :: vs))
    by (constructor; [exact I | assumption]).
  assert (Hin_all : forall u, day_var cx counted e d u -> In u (VOff e d :: vs)).
  { intros u [-> | (s & site & sl & hs & ht & Hs1 & Hsl & Hsite & Hhs & Hht & ->)].
    - now left.
    - right. eapply Hmem; try eassumption. apply to_hkey_of_hkey. }
  pose proof (two_in_sum a _ v1 v2 Ha Hall (Hin_all _ D1) (Hin_all _ D2) Hne) as T.
  change (sum_vars a (VOff e d :: vs)) with (a (VOff e d) + sum_vars a vs) in T.
  lia.
Qed.

Lemma off_and_night_zero_one : zero_one off_and_night.
Proof.
  split; intros; unfold off_and_night;
    match goal with |- context [if ?b then _ else _] => destruct b end; auto.
Qed.

(** C3, as stated, fails: with [data.shifts = ["M"]] the model has a 0/1
    solution in which [off] and the [x] variable of work shift [N] are
    both one. *)
Lemma exactly_one_whole_set_counterexample :
  exists spec' cx m,
    compile_model spec_restricted = (spec', Ok (cx, m)) /\
    constraints_of (c_spec cx) = Ok [exactly_one_m_only] /\
    exactly_one_over cx exactly_one_m_only (HStr "P1") [PStr "M"] /\
    In (HStr "N") (c_work_shifts cx) /\
    zero_one off_and_night /\ satisfies off_and_night m /\
    day_var cx (map of_hkey (c_work_shifts cx)) (HStr "P1") 0 off_P1 /\
    day_var cx (map of_hkey (c_work_shifts cx)) (HStr "P1") 0 (x_P1 "N") /\
    off_P1 <> x_P1 "N" /\
    off_and_night off_P1 = 1 /\ off_and_night (x_P1 "N") = 1.
Proof.
  eexists. eexists. eexists.
  split; [vm_compute; reflexivity|].
  split; [vm_compute; reflexivity|].
  split.
  { split; [reflexivity|].
    exists (PDict []), (obj [("shifts", str_list ["M"])]), [HStr "P1"].
    repeat split; try (vm_compute; reflexivity). now left. }
  split; [simpl; auto|].
  split; [exact off_and_night_zero_one|].
  split; [apply satisfiesb_satisfies; vm_compute; reflexivity|].
  split; [now left|].
  split.
  { right. exists (PStr "N"), (PStr "SITE_DEFAULT"), [PStr "SITE_DEFAULT"],
      (HStr "N"), (HStr "SITE_DEFAULT").
    repeat split; simpl; auto. }
  split; [discriminate|].
  split; reflexivity.
Qed.

Lemma exactly_one_per_day_witness :
  ~ (off_and_night off_P1 = 1 /\ off_and_night (x_P1 "M") = 1).
Proof.
  eapply (exactly_one_per_day spec_restricted _ _ _ _ exactly_one_m_only
            (HStr "P1") [PStr "M"] 0%nat off_and_night off_P1 (x_P1 "M")).
  - vm_compute. reflexivity.
  - vm_compute. reflexivity.
  - now left.
  - split; [reflexivity|].
    exists (PDict []), (obj [("shifts", str_list ["M"])]), [HStr "P1"].
    repeat split; try (vm_compute; reflexivity). now left.
  - vm_compute. lia.
  - exact off_and_night_zero_one.
  - apply satisfiesb_satisfies. vm_compute. reflexivity.
  - now left.
  - right. exists (PStr "M"), (PStr "SITE_DEFAULT"), [PStr "SITE_DEFAULT"],
      (HStr "M"), (HStr "SITE_DEFAULT").
    repeat split; simpl; auto.
  - discriminate.
Defined.

(** ** Values of [works_shift] *)

Lemma zsum_app l1 l2 : zsum (l1 ++ l2) = zsum l1 + zsum l2.
Proof. unfold zsum. induction l1; simpl; lia. Qed.

Lemma x_vars_value cx e he d s sl terms a :
  map_r (fun site => x_var cx e d s site) sl = Ok terms ->
  to_hkey e = Ok he ->
  zsum (map (eval a) terms) = works_value a sl he d s.
Proof.
  intros H He. unfold works_value. revert terms H.
  induction sl as [|site sl IH]; simpl; intros terms H.
  - injection H as <-. reflexivity.
  - inv_bind H. inv_bind H. injection H as <-.
    destruct (x_var_ok _ _ _ _ _ _ E) as (he' & hs & ht & He' & Hs & Ht & -> & _).
    rewrite He in He'. injection He' as <-.
    simpl. unfold zsum in *. simpl. rewrite (IH _ E0).
    unfold x_value. rewrite Hs, Ht. reflexivity.
Qed.

Lemma works_shift_value cx e he d s w sl a :
  works_shift cx e d s = Ok w -> to_hkey e = Ok he ->
  py_iter (c_sites cx) = Ok sl ->
  eval a w = works_value a sl he d s.
Proof.
  unfold works_shift. intros H He Hsl. rewrite Hsl in H. cbn [bind] in H.
  inv_bind H. injection H as <-. rewrite eval_lsum.
  eapply x_vars_value; eassumption.
Qed.

Lemma works_value_nonneg a sl e d s : zero_one a -> 0 <= works_value a sl e d s.
Proof.
  intros [_ Hx]. unfold works_value, zsum.
  induction sl as [|site sl IH]; simpl; [lia|].
  assert (0 <= x_value a e d s site).
  { unfold x_value. destruct (to_hkey s); [|lia]. destruct (to_hkey site); [|lia].
    destruct (Hx e d a0 a1); lia. }
  lia.
Qed.

Lemma window_value_nonneg a sl e window shifts :
  zero_one a -> 0 <= window_value a sl e window shifts.
Proof.
  intro Ha. unfold window_value, zsum.
  induction (list_prod window shifts) as [|ds l IH]; simpl; [lia|].
  pose proof (works_value_nonneg a sl e (fst ds) (snd ds) Ha). lia.
Qed.

Lemma list_prod_app {A B} (l1 l2 : list A) (l : list B) :
  list_prod (l1 ++ l2) l = list_prod l1 l ++ list_prod l2 l.
Proof.
  induction l1 as [|x l1 IH]; simpl; [reflexivity|].
  now rewrite IH, app_assoc.
Qed.

Lemma window_value_app a sl e w1 w2 shifts :
  window_value a sl e (w1 ++ w2) shifts
  = window_value a sl e w1 shifts + window_value a sl e w2 shifts.
Proof.
  unfold window_value. now rewrite list_prod_app, map_app, zsum_app.
Qed.

Lemma map_r_app {A B} (f : A -> result B) l1 l2 r :
  map_r f (l1 ++ l2) = Ok r ->
  exists r1 r2, map_r f l1 = Ok r1 /\ map_r f l2 = Ok r2 /\ r = r1 ++ r2.
Proof.
  revert r. induction l1 as [|x l1 IH]; simpl; intros r H.
  - exists [], r. auto.
  - inv_bind H. inv_bind H. injection H as <-.
    destruct (IH _ E0) as (r1 & r2 & H1 & H2 & ->).
    exists (v :: r1), r2. rewrite E, H1. cbn [bind]. auto.
Qed.

Lemma map_r_forall {A B} (f : A -> result B) (P : B -> Prop) l r :
  map_r f l = Ok r ->
  (forall x y, In x l -> f x = Ok y -> P y) -> Forall P r.
Proof.
  revert r. induction l as [|x l IH]; simpl; intros r H Hp.
  - injection H as <-. constructor.
  - inv_bind H. inv_bind H. injection H as <-. constructor.
    + eapply Hp; [left; reflexivity | assumption].
    + eapply IH; [eassumption|]. intros. eapply Hp; [right|]; eassumption.
Qed.

(** The value of [sum(works_shift(e, d, s) for d in window for s in counted)]. *)
Lemma window_sum_value cx e window counted expr sl a :
  window_sum cx (of_hkey e) window counted = Ok expr ->
  py_iter (c_sites cx) = Ok sl ->
  eval a expr = window_value a sl e window counted.
Proof.
  unfold window_sum, window_value. intros H Hsl. inv_bind H. injection H as <-.
  rewrite eval_lsum. fold (zsum (map (eval a) v)).
  revert v E. induction (list_prod window counted) as [|ds l IH]; simpl;
    intros terms H.
  - injection H as <-. reflexivity.
  - inv_bind H. inv_bind H. injection H as <-. simpl.
    unfold zsum in *. simpl. rewrite (IH _ E0). f_equal.
    eapply works_shift_value; [eassumption | apply to_hkey_of_hkey | assumption].
Qed.

(** A window sum over part of the days exists when the sum over more days
    does. *)
Lemma window_sum_suffix cx e w1 w2 counted expr :
  window_sum cx e (w1 ++ w2) counted = Ok expr ->
  exists expr2, window_sum cx e w2 counted = Ok expr2.
Proof.
  unfold window_sum. intro H. inv_bind H. rewrite list_prod_app in E.
  destruct (map_r_app _ _ _ _ E) as (r1 & r2 & _ & -> & _). cbn [bind]. eauto.
Qed.

Lemma works_shift_sites cx e d s w :
  works_shift cx e d s = Ok w -> exists sl, py_iter (c_sites cx) = Ok sl.
Proof. unfold works_shift. intro H. inv_bind H. eauto. Qed.

(** ** [max_shifts_in_window] over the whole horizon *)

Lemma works_shift_nonneg cx e d s w a :
  works_shift cx e d s = Ok w -> zero_one a -> 0 <= eval a w.
Proof.
  intros H Ha. destruct (works_shift_ok _ _ _ _ _ H) as (sl & vs & _ & Hv & Hd & _).
  rewrite Hv. now apply sum_vars_nonneg.
Qed.

Lemma zsum_nonneg l : Forall (fun z => 0 <= z) l -> 0 <= zsum l.
Proof. unfold zsum. induction 1; simpl; lia. Qed.

Lemma window_sum_nonneg cx e window counted expr a :
  window_sum cx e window counted = Ok expr -> zero_one a -> 0 <= eval a expr.
Proof.
  unfold window_sum. intros H Ha. inv_bind H. injection H as <-.
  rewrite eval_lsum. apply zsum_nonneg. rewrite Forall_map.
  eapply map_r_forall; [exact E|].
  intros ds w _ Hw. cbv beta in Hw. eapply works_shift_nonneg; eassumption.
Qed.

Lemma window_sum_split cx e w1 w2 counted expr :
  window_sum cx e (w1 ++ w2) counted = Ok expr ->
  exists e1 e2,
    window_sum cx e w1 counted = Ok e1 /\ window_sum cx e w2 counted = Ok e2 /\
    forall a, eval a expr = eval a e1 + eval a e2.
Proof.
  unfold window_sum. intro H. inv_bind H. injection H as <-.
  rewrite list_prod_app in E.
  destruct (map_r_app _ _ _ _ E) as (r1 & r2 & -> & -> & ->). cbn [bind].
  exists (lsum r1), (lsum r2). split; [reflexivity|]. split; [reflexivity|].
  intro a. rewrite !eval_lsum, map_app. apply zsum_app.
Qed.

Lemma window_from_full n window_days start :
  Z.of_nat n <= window_days -> (start <= n)%nat ->
  window_from n window_days start = seq start (n - start).
Proof.
  intros Hw Hs. unfold window_from, range. f_equal. lia.
Qed.

(** The rows of one employee against the bound over the whole horizon. *)
Lemma max_shifts_rows_collapse cx window_days max_allowed counted e rows a :
  Z.of_nat (n_days cx) <= window_days ->
  (0 < n_days cx)%nat \/ 0 <= max_allowed ->
  max_shifts_rows cx window_days max_allowed counted e = Ok rows ->
  zero_one a ->
  exists total,
    window_sum cx (of_hkey e) (seq 0 (n_days cx)) counted = Ok total /\
    (Forall (holds a) rows <-> eval a total <= max_allowed).
Proof.
  intros Hw Hn Hrows Ha. unfold max_shifts_rows in Hrows.
  destruct (n_days cx) as [|n] eqn:En.
  - simpl in Hrows. injection Hrows as <-.
    exists (lsum []). split; [reflexivity|].
    simpl. split; [intros _; destruct Hn; lia | constructor].
  - assert (H0 : exists total,
               window_sum cx (of_hkey e) (seq 0 (S n)) counted = Ok total /\
               In (RLe total (LConst max_allowed)) rows).
    { destruct (map_r_ok_in _ _ _ 0%nat Hrows) as (r0 & Hr0 & Hin);
        [apply in_seq; lia|].
      rewrite window_from_full in Hr0 by lia.
      rewrite Nat.sub_0_r in Hr0. inv_bind Hr0. injection Hr0 as <-. eauto. }
    destruct H0 as (total & Ht & Hin). exists total. split; [assumption|].
    split.
    + intro Hall. rewrite Forall_forall in Hall. exact (Hall _ Hin).
    + intro Hle. eapply map_r_forall; [exact Hrows|].
      intros start r Hs Hr. cbv beta in Hr. apply in_seq in Hs.
      rewrite window_from_full in Hr by lia.
      inv_bind Hr. injection Hr as <-.
      replace (seq 0 (S n)) with (seq 0 start ++ seq start (S n - start)) in Ht.
      2:{ rewrite <- seq_app. f_equal. lia. }
      destruct (window_sum_split _ _ _ _ _ _ Ht) as (e1 & e2 & H1 & H2 & Hev).
      rewrite E in H2. injection H2 as <-.
      pose proof (window_sum_nonneg _ _ _ _ _ a H1 Ha).
      simpl. rewrite Hev in Hle. lia.
Qed.

(** C8: for a [max_shifts_in_window] constraint with [window_days >= |days|]
    ([max >= 0], as the payload grammar has it, or a non-empty horizon) and
    a scoped employee [e], the rows emitted for [e] hold in a 0/1 assignment
    exactly when the sum of [works_shift(e,d,s)] over all days and counted
    shifts is at most [max]. *)
Theorem max_shifts_window_collapse
  cx data emps em e wv window_days mv max_allowed a :
  compile_max_shifts cx data emps = Ok em -> In e emps ->
  py_item data "window_days" = Ok wv -> py_int wv = Ok window_days ->
  py_item data "max" = Ok mv -> py_int mv = Ok max_allowed ->
  Z.of_nat (n_days cx) <= window_days ->
  (0 < n_days cx)%nat \/ 0 <= max_allowed ->
  zero_one a ->
  exists counted rows total,
    counted_shifts cx data "shifts" (work_shift_list cx) = Ok counted /\
    max_shifts_rows cx window_days max_allowed counted e = Ok rows /\
    incl rows (e_rows em) /\
    window_sum cx (of_hkey e) (seq 0 (n_days cx)) counted = Ok total /\
    (forall sl, py_iter (c_sites cx) = Ok sl ->
                eval a total
                = window_value a sl e (seq 0 (n_days cx)) counted) /\
    (Forall (holds a) rows <-> eval a total <= max_allowed).
Proof.
  intros H He Hwv Hw Hmv Hm Hge Hn Ha. unfold compile_max_shifts in H.
  rewrite Hwv in H. cbn [bind] in H. rewrite Hw in H. cbn [bind] in H.
  rewrite Hmv in H. cbn [bind] in H. rewrite Hm in H. cbn [bind] in H.
  inv_bind H. inv_bind H.
  destruct (negb (is_str v0 "rolling")); [discriminate|].
  eapply for_each_step in H; [| |exact He].
  2:{ intros x acc acc' Hx. inv_bind Hx. injection Hx as <-.
      apply grows_emit_rows. }
  destruct H as (a1 & a2 & H & G). inv_bind H. injection H as <-.
  destruct (max_shifts_rows_collapse _ _ _ _ _ _ a Hge Hn E1 Ha)
    as (total & Ht & Hiff).
  exists v, v1, total. repeat split; try assumption.
  - intros r Hr. eapply grows_in; [exact G|]. simpl. apply in_or_app. now right.
  - intros sl Hsl. eapply window_sum_value; eassumption.
  - apply Hiff.
  - apply Hiff.
Qed.

Lemma all_zero_zero_one : zero_one all_zero.
Proof. split; intros; now left. Qed.

Lemma max_shifts_window_collapse_witness :
  exists em,
    compile_max_shifts cx_week
      (obj [("window_days", PInt 7); ("max", PInt 1)]) [HStr "P1"] = Ok em /\
    exists counted rows total,
      counted_shifts cx_week (obj [("window_days", PInt 7); ("max", PInt 1)])
        "shifts" (work_shift_list cx_week) = Ok counted /\
      max_shifts_rows cx_week 7 1 counted (HStr "P1") = Ok rows /\
      incl rows (e_rows em) /\
      window_sum cx_week (PStr "P1") (seq 0 (n_days cx_week)) counted = Ok total /\
      (forall sl, py_iter (c_sites cx_week) = Ok sl ->
                  eval all_zero total
                  = window_value all_zero sl (HStr "P1")
                      (seq 0 (n_days cx_week)) counted) /\
      (Forall (holds all_zero) rows <-> eval all_zero total <= 1).
Proof.
  eexists. split; [vm_compute; reflexivity|].
  eapply (max_shifts_window_collapse cx_week _ [HStr "P1"] _ (HStr "P1")
            (PInt 7) 7 (PInt 1) 1 all_zero).
  - vm_compute. reflexivity.
  - now left.
  - reflexivity.
  - reflexivity.
  - reflexivity.
  - reflexivity.
  - vm_compute. discriminate.
  - right. lia.
  - exact all_zero_zero_one.
Defined.

(** ** Forbidden sequences *)

Lemma for_each_app {A S} (body : A -> S -> result S) l1 l2 s :
  for_each (l1 ++ l2) body s = (s' <- for_each l1 body s ;; for_each l2 body s').
Proof.
  revert s. induction l1 as [|x l1 IH]; simpl; intro s; [reflexivity|].
  destruct (body x s); cbn [bind]; [apply IH | reflexivity].
Qed.

Lemma combine_seq_app {A} (l1 l2 : list A) s :
  combine (seq s (List.length (l1 ++ l2))) (l1 ++ l2)
  = combine (seq s (List.length l1)) l1
    ++ combine (seq (s + List.length l1) (List.length l2)) l2.
Proof.
  revert s. induction l1 as [|x l1 IH]; simpl; intro s.
  - now rewrite Nat.add_0_r.
  - f_equal. rewrite IH. do 2 f_equal. f_equal. lia.
Qed.

Lemma enumerate_app {A} (l1 : list A) x l2 :
  enumerate (l1 ++ x :: l2)
  = enumerate l1
    ++ (List.length l1, x) :: combine (seq (S (List.length l1)) (List.length l2)) l2.
Proof.
  unfold enumerate. rewrite combine_seq_app. reflexivity.
Qed.

(** A constraint that raises makes the constraint loop raise, once the
    constraints before it compile. *)
Lemma compile_constraints_raise cx pre c post acc ex :
  compile_constraints cx pre = Ok acc ->
  compile_constraint cx (List.length pre) c = Raise ex ->
  compile_constraints cx (pre ++ c :: post) = Raise ex.
Proof.
  unfold compile_constraints. intros Hpre Hc.
  rewrite enumerate_app, for_each_app, Hpre. cbn [bind for_each fst snd].
  rewrite Hc. reflexivity.
Qed.

Lemma compile_forbid_raises cx c p ci :
  offending_forbid cx c p -> compile_constraint cx ci c = Raise ValueError.
Proof.
  intros (cid & ctype & scope & data & weight & e & emps & fp & good & rest
          & acc & prev_s & next_s & Hid & Hty & Hk & Hs & Hd & Hw & Hsel & Hn
          & Hfp & Hpl & Hgood & Hprev & Hnext & Hbad).
  unfold compile_constraint.
  rewrite Hid. cbn [bind]. rewrite Hty. cbn [bind]. rewrite Hk. cbn [bind].
  rewrite Hs. cbn [bind]. rewrite Hd. cbn [bind]. rewrite Hw. cbn [bind].
  rewrite Hsel. cbn [bind].
  change (compile_forbid cx data (e :: emps) = Raise ValueError).
  unfold compile_forbid. rewrite Hfp. cbn [bind for_each].
  destruct (n_days cx - 1)%nat as [|k] eqn:En; [lia|].
  cbn [seq for_each]. rewrite Hpl. cbn [bind].
  rewrite for_each_app, Hgood. cbn [bind for_each].
  unfold forbid_pair at 1. rewrite Hprev, Hnext. cbn [bind].
  destruct Hbad as [-> | ->]; [reflexivity|].
  now rewrite orb_true_r.
Qed.

(** C5 (amended): when compilation gets as far as a [forbid_shift_sequences]
    constraint whose scope selects an employee, on a horizon of at least two
    days, and one of its pairs names a shift that is not a work shift (the
    pairs before it compiling), [compile_and_solve] raises [ValueError]. *)
Theorem forbid_non_work_pair_raises
  solver spec spec' cx pre c post p max_time workers :
  reaches_constraint spec spec' cx pre c post ->
  offending_forbid cx c p ->
  compile_and_solve solver spec max_time workers = (spec', Raise ValueError).
Proof.
  intros (em & dy & sh & st & sd & dem & acc & Hp & Hb & Hd & Hpre) Hoff.
  unfold compile_and_solve, compile_model. rewrite Hp.
  unfold build_model. rewrite Hb. cbn [bind]. rewrite Hd. cbn [bind].
  rewrite (compile_constraints_raise _ _ _ _ _ ValueError Hpre
             (compile_forbid_raises _ _ _ _ Hoff)).
  reflexivity.
Qed.

(** C5, as stated, fails: on a single-day horizon the pair [OFF -> M] is
    never examined; the model is built and a result is returned. *)
Lemma forbid_single_day_counterexample :
  (data <- constraint_data forbid_off_m ;;
   fp <- py_get data "forbidden_pairs" (PList []) ;; py_iter fp)
  = Ok [pair_off_m]
  /\ py_item pair_off_m "prev_shift" = Ok (PStr "OFF")
  /\ in_list (PStr "OFF") (c_work_shifts (context_of (spec_forbid ["D1"]))) = false
  /\ constraints_of (spec_forbid ["D1"]) = Ok [forbid_off_m]
  /\ (exists cx m, snd (compile_model (spec_forbid ["D1"])) = Ok (cx, m))
  /\ (exists obj sched mw sc,
         snd (compile_and_solve solver_all_off (spec_forbid ["D1"]) 15 8)
         = Ok (Solved obj sched mw sc)).
Proof.
  split; [reflexivity|]. split; [reflexivity|].
  split; [vm_compute; reflexivity|]. split; [reflexivity|].
  split.
  - do 2 eexists. vm_compute. reflexivity.
  - do 4 eexists. vm_compute. reflexivity.
Qed.

Lemma forbid_non_work_pair_raises_witness :
  snd (compile_and_solve solver_all_off (spec_forbid ["D1"; "D2"]) 15 8)
  = Raise ValueError.
Proof.
  erewrite (forbid_non_work_pair_raises solver_all_off
              (spec_forbid ["D1"; "D2"]) _ _ [] forbid_off_m [] pair_off_m).
  - reflexivity.
  - unfold reaches_constraint. do 7 eexists.
    split; [vm_compute; reflexivity|].
    split; [vm_compute; reflexivity|].
    split; vm_compute; reflexivity.
  - exists (PStr "f1"), (PStr "hard"), (PDict []),
      (obj [("forbidden_pairs", PList [pair_off_m])]), 0, (HStr "P1"), [],
      (PList [pair_off_m]), [], [], no_emit, (PStr "OFF"), (PStr "M").
    repeat split; try (vm_compute; reflexivity).
    all: try (vm_compute; lia).
    all: left; vm_compute; reflexivity.
Defined.

(** ** The target of [fair_distribution] *)


(** On a tie, [round_div] picks the even neighbour. *)
Lemma round_div_tie_even a b :
  0 < b -> 2 * (a mod b) = b -> Z.even (round_div a b) = true.
Proof.
  intros Hb Ht. unfold round_div.
  rewrite (proj2 (Z.ltb_ge _ _)) by lia.
  rewrite (proj2 (Z.ltb_ge _ _)) by lia.
  destruct (Z.even (a / b)) eqn:E; [exact E|].
  rewrite Z.even_add, E. reflexivity.
Qed.



Lemma py_int_value v z : py_int v = Ok z -> int_value v = z.
Proof. unfold int_value. now intros ->. Qed.








(** ** Minutes worked *)

Lemma dict_lookup_set {V} (k k' : hkey) (v : V) m :
  dict_lookup k (dict_set k' v m)
  = if hkey_eqb k k' then Some v else dict_lookup k m.
Proof.
  induction m as [|[k0 v0] m IH]; simpl.
  - reflexivity.
  - destruct (hkey_eqb k' k0) eqn:E0; simpl.
    + apply hkey_eqb_eq in E0. subst k0. now destruct (hkey_eqb k k').
    + destruct (hkey_eqb k k0) eqn:E1.
      * apply hkey_eqb_eq in E1. subst k0.
        rewrite hkey_eqb_sym, E0. reflexivity.
      * exact IH.
Qed.

Lemma shift_minutes_spec cx sm :
  shift_minutes cx = Ok sm ->
  forall k z, dict_lookup k sm = Some z -> z = def_minutes cx k.
Proof.
  unfold shift_minutes.
  assert (G : forall l acc sm,
             (forall k z, dict_lookup k acc = Some z -> z = def_minutes cx k) ->
             for_each l (shift_minutes_step cx) acc = Ok sm ->
             forall k z, dict_lookup k sm = Some z -> z = def_minutes cx k).
  { induction l as [|s l IH]; simpl; intros acc sm0 Hacc H.
    - injection H as <-. exact Hacc.
    - inv_bind H. unfold shift_minutes_step in E.
      inv_bind E. inv_bind E. inv_bind E. injection E as <-.
      eapply IH; [|exact H].
      intros k z. rewrite dict_lookup_set.
      destruct (hkey_eqb k s) eqn:Ek; [|apply Hacc].
      apply hkey_eqb_eq in Ek. subst k. intro Hz. injection Hz as <-.
      unfold def_minutes. rewrite E0, E1. symmetry. now apply py_int_value. }
  intro H. eapply G; [|exact H]. intros k z Hk. discriminate.
Qed.

Lemma metrics_cell_minutes cx value sm e he ds m0 c0 m1 c1 :
  (forall k z, dict_lookup k sm = Some z -> z = def_minutes cx k) ->
  to_hkey e = Ok he ->
  metrics_cell cx value sm e ds (m0, c0) = Ok (m1, c1) ->
  m1 = m0 + cell_minutes value cx he ds.
Proof.
  intros Hsm He H. unfold metrics_cell in H. inv_bind H.
  destruct (works_shift_sites _ _ _ _ _ E) as [sl Hsl].
  assert (Hval : eval value v
                 = works_value value (site_list cx) he (fst ds)
                     (of_hkey (snd ds))).
  { unfold site_list. rewrite Hsl. eapply works_shift_value; eassumption. }
  cbv zeta in H. rewrite Hval in H. unfold cell_minutes.
  destruct (works_value value (site_list cx) he (fst ds) (of_hkey (snd ds)) =? 0).
  - cbn [negb] in H. injection H as <- <-. lia.
  - cbn [negb] in H. inv_bind H.
    unfold minutes_of in E0. rewrite to_hkey_of_hkey in E0. cbn [bind] in E0.
    destruct (dict_lookup (snd ds) sm) as [z|] eqn:Ez; [|discriminate].
    injection E0 as <-. apply Hsm in Ez. subst z. cbn [fst snd] in H.
    destruct (dict_lookup (snd ds) c0); [|discriminate].
    injection H as <- <-. reflexivity.
Qed.

Lemma employee_metrics_minutes cx value sm e he mins counts :
  (forall k z, dict_lookup k sm = Some z -> z = def_minutes cx k) ->
  employee_metrics cx value sm e = Ok (mins, counts) ->
  to_hkey e = Ok he ->
  mins = worked_minutes value cx he.
Proof.
  intros Hsm H He. unfold employee_metrics in H.
  unfold worked_minutes, day_shifts.
  assert (G : forall l m0 c0 m1 c1,
             for_each l (metrics_cell cx value sm e) (m0, c0) = Ok (m1, c1) ->
             m1 = m0 + zsum (map (cell_minutes value cx he) l)).
  { induction l as [|ds l IH]; intros m0 k0 m1 k1 Hl; simpl in Hl.
    - injection Hl as <- <-. unfold zsum. simpl. lia.
    - inv_bind Hl. destruct v as [m2 k2]. apply IH in Hl.
      apply (metrics_cell_minutes _ _ _ _ _ _ _ _ _ _ Hsm He) in E.
      subst. unfold zsum. simpl. lia. }
  apply G in H. exact H.
Qed.

(** [metrics.minutes_worked[e]] for every employee. *)
Lemma metrics_minutes cx value mw sc :
  metrics cx value = Ok (mw, sc) ->
  forall e, In e (c_employees cx) ->
  exists he, to_hkey e = Ok he /\
             dict_lookup he mw = Some (worked_minutes value cx he).
Proof.
  unfold metrics. intro H. inv_bind H.
  pose proof (shift_minutes_spec _ _ E) as Hsm.
  assert (G : forall l acc res,
             (forall k z, dict_lookup k (fst acc) = Some z ->
                          z = worked_minutes value cx k) ->
             for_each l (metrics_step cx value v) acc = Ok res ->
             (forall k z, dict_lookup k (fst res) = Some z ->
                          z = worked_minutes value cx k) /\
             (forall k, dict_lookup k (fst acc) <> None ->
                        dict_lookup k (fst res) <> None) /\
             forall e, In e l ->
               exists he, to_hkey e = Ok he /\ dict_lookup he (fst res) <> None).
  { induction l as [|e0 l IH]; simpl; intros acc res Hacc Hl.
    - injection Hl as <-. split; [exact Hacc|]. split; [auto | intros ? []].
    - inv_bind Hl. unfold metrics_step in E0.
      inv_bind E0. destruct v1 as [mins counts].
      inv_bind E0. injection E0 as <-.
      pose proof (employee_metrics_minutes _ _ _ _ _ _ _ Hsm E1 E2) as Hm.
      assert (Hacc' : forall k z,
                 dict_lookup k
                   (fst (dict_set v1 mins (fst acc), dict_set v1 counts (snd acc)))
                 = Some z -> z = worked_minutes value cx k).
      { cbn [fst]. intros k z. rewrite dict_lookup_set.
        destruct (hkey_eqb k v1) eqn:Ek; [|apply Hacc].
        apply hkey_eqb_eq in Ek. subst k. intro Hz. injection Hz as <-.
        exact Hm. }
      destruct (IH _ _ Hacc' Hl) as (Hres & Hkeep & Hin).
      cbn [fst] in Hkeep.
      split; [exact Hres|]. split.
      + intros k Hk. apply Hkeep. rewrite dict_lookup_set.
        destruct (hkey_eqb k v1); [discriminate | exact Hk].
      + intros e [<- | He]; [|auto].
        exists v1. split; [assumption|]. apply Hkeep.
        rewrite dict_lookup_set, hkey_eqb_refl. discriminate. }
  assert (H0 : forall k z,
             dict_lookup k (fst (@nil (hkey * Z),
                                 @nil (hkey * list (hkey * Z)))) = Some z ->
             z = worked_minutes value cx k)
    by (intros k z Hk; discriminate).
  destruct (G _ _ _ H0 H) as (Hres & _ & Hin).
  intros e He. destruct (Hin e He) as (he & Hhe & Hne). cbn [fst] in *.
  exists he. split; [assumption|].
  destruct (dict_lookup he mw) as [z|] eqn:Ez; [|congruence].
  f_equal. eapply Hres. exact Ez.
Qed.

Lemma worked_is_weighted a cx e :
  (forall d s, works_value a (site_list cx) e d s = 0
               \/ works_value a (site_list cx) e d s = 1) ->
  worked_minutes a cx e = weighted_minutes a cx e.
Proof.
  intro H. unfold worked_minutes, weighted_minutes. f_equal.
  apply map_ext. intros [d s]. unfold cell_minutes. cbn [fst snd].
  destruct (H d (of_hkey s)) as [-> | ->]; simpl; lia.
Qed.

Lemma materialize_metrics cx o objective sched mw sc :
  materialize cx o = Ok (Solved objective sched mw sc) ->
  metrics cx (o_value o) = Ok (mw, sc).
Proof.
  unfold materialize. intro H. inv_bind H. inv_bind H. inv_bind H.
  destruct v1 as [mw' sc']. injection H as _ _ <- <-. exact E1.
Qed.

(** C4 (amended): after a successful solve, [metrics.minutes_worked[e]] is
    the sum over all days [d] and work shifts [s] of [defs[s].minutes] when
    the solution value of [works_shift(e,d,s)] is not zero (a shift assigned
    at two sites counts once); this is the sum of
    [defs[s].minutes * works_shift(e,d,s)] whenever every [works_shift]
    value is 0 or 1. *)
Theorem minutes_worked_spec
  solver spec max_time workers spec' objective sched mw sc :
  compile_and_solve solver spec max_time workers
  = (spec', Ok (Solved objective sched mw sc)) ->
  exists cx m,
    compile_model spec = (spec', Ok (cx, m)) /\
    forall e, In e (c_employees cx) ->
    exists he,
      to_hkey e = Ok he /\
      dict_lookup he mw
      = Some (worked_minutes (o_value (solver m max_time workers)) cx he) /\
      ((forall d s,
           works_value (o_value (solver m max_time workers))
                       (site_list cx) he d s = 0
           \/ works_value (o_value (solver m max_time workers))
                          (site_list cx) he d s = 1) ->
       dict_lookup he mw
       = Some (weighted_minutes (o_value (solver m max_time workers)) cx he)).
Proof.
  unfold compile_and_solve. intro H.
  destruct (compile_model spec) as [s1 built] eqn:Ec.
  injection H as -> H. inv_bind H. destruct v as [cx m]. subst built.
  exists cx, m. split; [reflexivity|].
  assert (Hm : metrics cx (o_value (solver m max_time workers)) = Ok (mw, sc)).
  { destruct (o_status (solver m max_time workers));
      try discriminate; eapply materialize_metrics; eassumption. }
  intros e He. destruct (metrics_minutes _ _ _ _ Hm e He) as (he & Hhe & Hl).
  exists he. split; [assumption|]. split; [assumption|].
  intro H01. rewrite Hl. f_equal. now apply worked_is_weighted.
Qed.

Lemma both_sites_zero_one : zero_one both_sites.
Proof. split; intros; simpl; auto. Qed.

(** C4, as stated, fails: the same shift at two sites is a solution of the
    model, and its 480 minutes are counted once, not twice. *)
Lemma minutes_two_sites_counterexample :
  exists spec' cx m objective sched sc,
    compile_model spec_two_sites = (spec', Ok (cx, m)) /\
    zero_one both_sites /\ satisfies both_sites m /\
    compile_and_solve solver_both_sites spec_two_sites 15 8
    = (spec', Ok (Solved objective sched [(HStr "P1", 480)] sc)) /\
    works_value both_sites (site_list cx) (HStr "P1") 0 (PStr "M") = 2 /\
    weighted_minutes both_sites cx (HStr "P1") = 960.
Proof.
  do 6 eexists.
  split; [vm_compute; reflexivity|].
  split; [exact both_sites_zero_one|].
  split; [apply satisfiesb_satisfies; vm_compute; reflexivity|].
  split; [vm_compute; reflexivity|].
  split; vm_compute; reflexivity.
Qed.

Lemma minutes_worked_spec_witness :
  exists mw,
    (exists s objective sched sc,
        compile_and_solve solver_both_sites spec_two_sites 15 8
        = (s, Ok (Solved objective sched mw sc))) /\
    dict_lookup (HStr "P1") mw
    = Some (worked_minutes both_sites (context_of spec_two_sites) (HStr "P1")).
Proof.
  destruct (compile_and_solve solver_both_sites spec_two_sites 15 8)
    as [s1 [[|objective sched mw sc]|]] eqn:R; try (vm_compute in R; discriminate).
  destruct (minutes_worked_spec _ _ _ _ _ _ _ _ _ R) as (cx & m & Hc & Hall).
  assert (Hcx : cx = context_of spec_two_sites)
    by (unfold context_of; rewrite Hc; reflexivity).
  destruct (Hall (PStr "P1")) as (he & Hhe & Hl & _).
  { rewrite Hcx. vm_compute. now left. }
  injection Hhe as <-.
  exists mw. split.
  - do 4 eexists. reflexivity.
  - rewrite Hl, Hcx. reflexivity.
Defined.

(** ** The validator *)

(** C1: [validate_spec] raises on specs of the shapes the claim names: it
    calls [sets.get] on a [sets] entry that is not an object, unpacks
    [v.split(":")] of a five-character time with two colons, tests
    membership in an [employees] entry that is [None], hashes a demand day
    that is a list, and tests membership in a scope that is a number. *)
Theorem validate_spec_raises :
  validate_spec spec_sets_not_object = Raise AttributeError
  /\ validate_spec spec_bad_time = Raise ValueError
  /\ validate_spec spec_null_employees = Raise TypeError
  /\ validate_spec spec_demand_day_list = Raise TypeError
  /\ validate_spec spec_scope_number = Raise TypeError.
Proof. repeat split; vm_compute; reflexivity. Qed.

(** On every path that returns, [ok] is true exactly when [errors] is
    empty. *)
Lemma validate_spec_ok_iff_no_errors spec v :
  validate_spec spec = Ok v -> (v_ok v = true <-> v_errors v = []).
Proof.
  unfold validate_spec. intro H. inv_bind H.
  destruct (negb v0).
  - injection H as <-. simpl. split; discriminate.
  - repeat match type of H with
           | bind _ _ = Ok _ => inv_bind H
           | (let '(_, _) := ?p in _) = Ok _ => destruct p
           end.
    injection H as <-. simpl.
    destruct (r_errors _); split; congruence.
Qed.

(** ** The spec object across [compile_and_solve] *)

Lemma compile_and_solve_spec solver spec max_time workers :
  fst (compile_and_solve solver spec max_time workers) = fst (compile_model spec).
Proof.
  unfold compile_and_solve. now destruct (compile_model spec).
Qed.

(** C2: [compile_and_solve] changes its argument: a spec whose [shifts]
    mapping defines no [OFF] has the default [OFF] definition in that
    mapping after the call, whatever the solver answers. *)
Theorem compile_and_solve_mutates_spec solver max_time workers :
  let after := fst (compile_and_solve solver spec_week max_time workers) in
  (s <- py_item spec_week "shifts" ;; has_key s "OFF") = Ok false
  /\ (s <- py_item after "shifts" ;; py_item s "OFF") = Ok OFF_DEFAULT
  /\ after <> spec_week.
Proof.
  cbv zeta. rewrite compile_and_solve_spec.
  split; [reflexivity|]. split; [vm_compute; reflexivity|].
  intro H.
  assert (E : (s <- py_item (fst (compile_model spec_week)) "shifts" ;;
               has_key s "OFF") = Ok true) by (vm_compute; reflexivity).
  rewrite H in E. vm_compute in E. discriminate.
Qed.

(** The default [OFF] is the only change, and it is made only when the
    [shifts] mapping exists and lacks [OFF]: a spec without a [shifts] key,
    or whose [shifts] defines [OFF], is left as it was. *)
Lemma compile_and_solve_frame solver spec max_time workers :
  has_key spec "shifts" = Ok false
  \/ (exists sd, py_item spec "shifts" = Ok sd /\ has_key sd "OFF" = Ok true) ->
  fst (compile_and_solve solver spec max_time workers) = spec.
Proof.
  intro Hc. rewrite compile_and_solve_spec. unfold compile_model.
  destruct (prelude spec) as [[s1 [[[[em dy] sh] st] sd]]|] eqn:Ep;
    [|reflexivity].
  cbn [fst]. unfold prelude in Ep.
  apply bind_ok in Ep. destruct Ep as [sets [_ Ep]].
  apply bind_ok in Ep. destruct Ep as [x1 [_ Ep]].
  apply bind_ok in Ep. destruct Ep as [x2 [_ Ep]].
  apply bind_ok in Ep. destruct Ep as [x3 [_ Ep]].
  apply bind_ok in Ep. destruct Ep as [x4 [_ Ep]].
  apply bind_ok in Ep. destruct Ep as [defs [Edefs Ep]].
  apply bind_ok in Ep. destruct Ep as [has_off [_ Ep]].
  destruct (negb has_off); [discriminate|].
  apply bind_ok in Ep. destruct Ep as [[s2 sd2] [Eoff Ep]].
  injection Ep as <- _ _ _ _ _.
  unfold default_off in Eoff.
  apply bind_ok in Eoff. destruct Eoff as [h [Eh Eoff]].
  destruct h; [injection Eoff as <- _; reflexivity|].
  apply bind_ok in Eoff. destruct Eoff as [sd' [_ Eoff]].
  apply bind_ok in Eoff. destruct Eoff as [aliased [Ea Eoff]].
  destruct aliased; [|injection Eoff as <- _; reflexivity].
  exfalso. destruct Hc as [Hc | (sd0 & Hsd & Hoff)]; [congruence|].
  destruct spec; simpl in Hsd, Edefs; try discriminate.
  destruct (dict_lookup (HStr "shifts") kvs); [|discriminate].
  injection Hsd as ->. injection Edefs as ->. congruence.
Qed.

(** ** The counted shifts of [exactly_one_assignment_per_day] *)

Lemma filter_r_in {A} (f : A -> result bool) l r x :
  filter_r f l = Ok r -> In x r -> f x = Ok true.
Proof.
  revert r. induction l as [|y l IH]; simpl; intros r H Hin.
  - injection H as <-. contradiction.
  - inv_bind H. inv_bind H. injection H as <-.
    destruct v; [destruct Hin as [<- | Hin]|]; eauto.
Qed.

Lemma map_r_in_back {A B} (f : A -> result B) l r y :
  map_r f l = Ok r -> In y r -> exists x, In x l /\ f x = Ok y.
Proof.
  revert r. induction l as [|a l IH]; simpl; intros r H Hin.
  - injection H as <-. contradiction.
  - inv_bind H. inv_bind H. injection H as <-.
    destruct Hin as [<- | Hin]; [eauto|].
    destruct (IH _ E0 Hin) as (x & Hx & Hf). eauto.
Qed.

(** [OFF] is never a work shift. *)
Lemma work_shifts_not_off spec em dy sh st sd cx cl :
  build_context spec em dy sh st sd = Ok (cx, cl) ->
  ~ In (HStr "OFF") (c_work_shifts cx).
Proof.
  unfold build_context. intro H.
  apply bind_ok in H. destruct H as [cv [_ H]].
  apply bind_ok in H. destruct H as [cl0 [_ H]].
  apply bind_ok in H. destruct H as [u [_ H]].
  apply bind_ok in H. destruct H as [dl [_ H]].
  apply bind_ok in H. destruct H as [idx [_ H]].
  apply bind_ok in H. destruct H as [sl [_ H]].
  apply bind_ok in H. destruct H as [ws [Ews H]].
  apply bind_ok in H. destruct H as [keys [Ekeys H]].
  apply bind_ok in H. destruct H as [el [_ H]].
  apply bind_ok in H. destruct H as [vars [_ H]].
  apply bind_ok in H. destruct H as [demand [_ H]].
  injection H as <- _. cbn [c_work_shifts]. intro Hin.
  destruct (map_r_in_back _ _ _ _ Ekeys Hin) as (s & Hs & Hk).
  pose proof (filter_r_in _ _ _ _ Ews Hs) as Hw.
  destruct s as [|b|z|s|l|kv]; simpl in Hk; try discriminate.
  injection Hk as ->. unfold is_work_shift in Hw. simpl in Hw. discriminate.
Qed.

Lemma filter_not_off ws :
  ~ In (HStr "OFF") ws ->
  filter (fun s => negb (is_str s "OFF")) (map of_hkey ws) = map of_hkey ws.
Proof.
  induction ws as [|k ws IH]; simpl; intro H; [reflexivity|].
  assert (Hk : is_str (of_hkey k) "OFF" = false).
  { destruct k; simpl; try reflexivity.
    destruct (String.eqb s "OFF") eqn:E; [|reflexivity].
    apply String.eqb_eq in E. subst. exfalso. apply H. now left. }
  rewrite Hk. simpl. f_equal. apply IH. tauto.
Qed.

(** The counted shifts are every work shift when [data.shifts] is absent,
    and [data.shifts] without [OFF] when it is given. *)
Lemma counted_work_cases spec spec' cx m data :
  compile_model spec = (spec', Ok (cx, m)) ->
  (py_get data "shifts" PNone = Ok PNone ->
   counted_work cx data = Ok (map of_hkey (c_work_shifts cx)))
  /\ (forall v l,
         py_get data "shifts" PNone = Ok v -> v <> PNone -> py_iter v = Ok l ->
         counted_work cx data
         = Ok (filter (fun s => negb (is_str s "OFF")) l)).
Proof.
  intro H.
  destruct (compile_model_ok _ _ _ _ H)
    as (em & dy & sh & st & sd & cl & dem & cons & _ & Hb & _).
  pose proof (work_shifts_not_off _ _ _ _ _ _ _ _ Hb) as Hoff.
  unfold counted_work. split.
  - intros ->. cbn [bind]. rewrite filter_app, (filter_not_off _ Hoff).
    simpl. now rewrite app_nil_r.
  - intros v l -> Hv Hl. cbn [bind].
    destruct v; try congruence; rewrite Hl; reflexivity.
Qed.

(** * Further properties of the time helpers *)

Lemma split_on_nonempty sep s : split_on sep s <> [].
Proof.
  induction s as [|c s IH]; simpl; [discriminate|].
  destruct (Ascii.eqb c sep); [discriminate|].
  destruct (split_on sep s); [contradiction|discriminate].
Qed.

Lemma split_on_length sep s :
  List.length (split_on sep s) = S (count_char sep s).
Proof.
  induction s as [|c s IH]; simpl; [reflexivity|].
  destruct (Ascii.eqb c sep); simpl.
  - now rewrite IH.
  - pose proof (split_on_nonempty sep s) as Hn.
    destruct (split_on sep s) as [|h t]; [contradiction|].
    simpl in IH |- *. exact IH.
Qed.

(** [parse_hhmm] raises [ValueError] on every string that does not hold
    exactly one colon: the two-name unpacking of [split(":")] fails. *)
Theorem parse_hhmm_needs_one_colon s :
  count_char ":" s <> 1%nat -> parse_hhmm (PStr s) = Raise ValueError.
Proof.
  intro H. unfold parse_hhmm, split_colon.
  pose proof (split_on_length ":" s) as L.
  destruct (split_on ":" s) as [|a [|b [|c l]]]; simpl in L; try reflexivity.
  exfalso. apply H. lia.
Qed.

Lemma parse_hhmm_needs_one_colon_witness :
  count_char ":" "0800" <> 1%nat /\ parse_hhmm (PStr "0800") = Raise ValueError.
Proof.
  assert (H : count_char ":" "0800" <> 1%nat) by (simpl; lia).
  split; [exact H | exact (parse_hhmm_needs_one_colon "0800" H)].
Defined.

Lemma digit_val_some c d :
  digit_val c = Some d ->
  d = Z.of_nat (nat_of_ascii c) - 48 /\ 0 <= d <= 9
  /\ is_space c = false /\ Ascii.eqb c ":" = false
  /\ Ascii.eqb c "+" = false /\ Ascii.eqb c "-" = false.
Proof.
  unfold digit_val, is_space. intro H.
  destruct ((48 <=? nat_of_ascii c) && (nat_of_ascii c <=? 57))%nat eqn:E;
    [|discriminate].
  injection H as <-.
  apply andb_true_iff in E. destruct E as [E1 E2].
  apply Nat.leb_le in E1. apply Nat.leb_le in E2.
  assert (Hne : forall k : nat,
             (k < 48 \/ 57 < k)%nat -> (k < 256)%nat ->
             Ascii.eqb c (ascii_of_nat k) = false).
  { intros k Hk Hk'. apply Ascii.eqb_neq. intro Hc. subst c.
    rewrite nat_ascii_embedding in E1, E2 by lia. lia. }
  repeat split; try lia.
  - apply orb_false_iff. split; apply andb_false_iff.
    + right. apply Nat.leb_gt. lia.
    + right. apply Nat.leb_gt. lia.
  - apply (Hne 58%nat); lia.
  - apply (Hne 43%nat); lia.
  - apply (Hne 45%nat); lia.
Qed.

Lemma all_digits_split hh s :
  all_digits hh = true ->
  split_on ":" (hh ++ String ":" s)
  = match split_on ":" s with
    | h :: t => hh :: h :: t
    | [] => [hh]
    end.
Proof.
  induction hh as [|c hh IH]; simpl; intro H.
  - destruct (split_on ":" s) eqn:E; [|reflexivity].
    now apply split_on_nonempty in E.
  - destruct (digit_val c) as [d|] eqn:Ed; [|discriminate].
    destruct (digit_val_some _ _ Ed) as (_ & _ & _ & Hc & _).
    rewrite Hc, (IH H).
    destruct (split_on ":" s); reflexivity.
Qed.

Lemma all_digits_no_split mm :
  all_digits mm = true -> split_on ":" mm = [mm].
Proof.
  induction mm as [|c mm IH]; simpl; intro H; [reflexivity|].
  destruct (digit_val c) as [d|] eqn:Ed; [|discriminate].
  destruct (digit_val_some _ _ Ed) as (_ & _ & _ & Hc & _).
  now rewrite Hc, (IH H).
Qed.

Lemma all_digits_rstrip s :
  all_digits s = true -> rstrip s = s.
Proof.
  induction s as [|c s IH]; simpl; intro H; [reflexivity|].
  destruct (digit_val c) as [d|] eqn:Ed; [|discriminate].
  destruct (digit_val_some _ _ Ed) as (_ & _ & Hs & _).
  rewrite (IH H), Hs. destruct s; reflexivity.
Qed.

Lemma all_digits_parse acc b s :
  all_digits s = true -> s <> EmptyString \/ b = true ->
  parse_digits acc b s = Some (decimal_from acc s).
Proof.
  revert acc b. induction s as [|c s IH]; simpl; intros acc b H Hb.
  - destruct Hb as [Hb | ->]; [congruence | reflexivity].
  - destruct (digit_val c) as [d|] eqn:Ed; [|discriminate].
    destruct (digit_val_some _ _ Ed) as (-> & _).
    apply IH; auto.
Qed.

Lemma isdigit_int s : isdigit s = true -> py_int (PStr s) = Ok (decimal s).
Proof.
  intro H. destruct s as [|c s]; [discriminate|].
  unfold isdigit in H. unfold py_int, parse_int.
  assert (Hl : lstrip (String c s) = String c s).
  { simpl in H |- *. destruct (digit_val c) as [d|] eqn:Ed; [|discriminate].
    destruct (digit_val_some _ _ Ed) as (_ & _ & -> & _). reflexivity. }
  rewrite Hl, (all_digits_rstrip _ H).
  assert (Hp : parse_digits 0 false (String c s) = Some (decimal (String c s))).
  { apply all_digits_parse; [exact H | left; discriminate]. }
  simpl in H. destruct (digit_val c) as [d|] eqn:Ed; [|discriminate].
  destruct (digit_val_some _ _ Ed) as (_ & _ & _ & _ & Hplus & Hminus).
  assert (Hc1 : c <> "+"%char) by (now apply Ascii.eqb_neq).
  assert (Hc2 : c <> "-"%char) by (now apply Ascii.eqb_neq).
  destruct c as [[] [] [] [] [] [] [] []];
    try (exfalso; apply Hc1; reflexivity);
    try (exfalso; apply Hc2; reflexivity);
    rewrite Hp; reflexivity.
Qed.

(** [parse_hhmm] checks neither the width nor the range of the two fields:
    whenever both sides of the colon are non-empty runs of decimal digits
    the result is sixty times the first number plus the second. *)
Theorem parse_hhmm_no_range_check hh mm :
  isdigit hh = true -> isdigit mm = true ->
  parse_hhmm (PStr (hh ++ ":" ++ mm)) = Ok (decimal hh * 60 + decimal mm).
Proof.
  intros Hh Hm. unfold parse_hhmm, split_colon.
  assert (Ah : all_digits hh = true) by (destruct hh; [discriminate|exact Hh]).
  assert (Am : all_digits mm = true) by (destruct mm; [discriminate|exact Hm]).
  change (hh ++ ":" ++ mm)%string with (hh ++ String ":" mm)%string.
  rewrite (all_digits_split _ _ Ah), (all_digits_no_split _ Am).
  cbn [bind]. rewrite (isdigit_int _ Hh). cbn [bind].
  rewrite (isdigit_int _ Hm). reflexivity.
Qed.

Lemma parse_hhmm_no_range_check_witness :
  isdigit "25" = true /\ isdigit "99" = true /\
  parse_hhmm (PStr "25:99") = Ok (decimal "25" * 60 + decimal "99").
Proof.
  split; [reflexivity | split; [reflexivity |]].
  exact (parse_hhmm_no_range_check "25" "99" eq_refl eq_refl).
Defined.

(** The duration that [shift_interval_minutes] reports for a definition with
    valid [start] and [end]: a non-zero [minutes] as it stands, whatever the
    two times are; otherwise, for a work shift, the time from [start] to
    [end] going forward around the clock (zero when the two are equal); and
    zero for a shift that is not a work shift. *)
Theorem shift_duration_rule sd s e vm z w :
  (exists v, py_item sd "start" = Ok v /\ is_time v s) ->
  (exists v, py_item sd "end" = Ok v /\ is_time v e) ->
  py_get sd "minutes" (PInt 0) = Ok vm -> py_int vm = Ok z ->
  py_get sd "is_work" (PBool true) = Ok w ->
  shift_interval_minutes sd
  = Ok (s, e, if z =? 0 then (if truthy w then (e - s) mod 1440 else 0) else z).
Proof.
  intros (vs & Hs & Ts) (ve & He & Te) Hm Hz Hw.
  unfold shift_interval_minutes.
  rewrite Hs. cbn [bind]. rewrite (is_time_parse _ _ Ts). cbn [bind].
  rewrite He. cbn [bind]. rewrite (is_time_parse _ _ Te). cbn [bind].
  rewrite Hm. cbn [bind]. rewrite Hz. cbn [bind].
  destruct Ts as (h1 & m1 & ? & ? & _ & ->).
  destruct Te as (h2 & m2 & ? & ? & _ & ->).
  destruct (Z.eqb_spec z 0) as [-> | Ez].
  - rewrite Hw. cbn [bind andb]. destruct (truthy w); [|reflexivity].
    do 2 f_equal.
    destruct (60 * h2 + m2 >=? 60 * h1 + m1) eqn:E.
    + apply Z.geb_le in E. symmetry. apply Z.mod_small. lia.
    + rewrite Z.geb_leb in E. apply Z.leb_gt in E.
      replace (60 * h2 + m2 - (60 * h1 + m1))
        with ((24 * 60 - (60 * h1 + m1) + (60 * h2 + m2)) + (-1) * 1440) by lia.
      rewrite Z.mod_add by lia. symmetry. apply Z.mod_small. lia.
  - cbn [bind andb]. reflexivity.
Qed.

Lemma shift_duration_rule_witness :
  shift_interval_minutes shift_night_no_minutes
  = Ok (60 * 22 + 0, 60 * 6 + 0, 480).
Proof.
  refine (shift_duration_rule shift_night_no_minutes (60 * 22 + 0) (60 * 6 + 0)
            (PInt 0) 0 (PBool true) _ _ eq_refl eq_refl eq_refl).
  - exists (PStr "22:00"). split; [reflexivity|].
    exists 22, 0. repeat split; lia.
  - exists (PStr "06:00"). split; [reflexivity|].
    exists 6, 0. repeat split; lia.
Defined.

(** ** The validator's time format against the compiler's parser *)

Lemma is_hhmm_table :
  forallb (fun d0 => forallb (fun d1 => forallb (fun d3 =>
    forallb (accepted_in_range d0 d1 d3) (zrange 10))
    (zrange 10)) (zrange 10)) (zrange 10) = true.
Proof. vm_compute. reflexivity. Qed.

Lemma digit_val_char c d : digit_val c = Some d -> c = digit_char d /\ 0 <= d <= 9.
Proof.
  intro H. destruct (digit_val_some _ _ H) as (-> & Hr & _).
  split; [|exact Hr]. unfold digit_char.
  replace (48 + Z.to_nat (Z.of_nat (nat_of_ascii c) - 48))%nat
    with (nat_of_ascii c) by lia.
  now rewrite ascii_nat_embedding.
Qed.

Lemma is_hhmm_shape s :
  is_hhmm (PStr s) = Ok true ->
  exists d0 d1 d3 d4,
    0 <= d0 <= 9 /\ 0 <= d1 <= 9 /\ 0 <= d3 <= 9 /\ 0 <= d4 <= 9 /\
    s = hhmm_digits d0 d1 d3 d4.
Proof.
  intro H. unfold is_hhmm in H.
  destruct s as [|c0 [|c1 [|c2 [|c3 [|c4 [|c5 s]]]]]]; try discriminate H.
  cbn [String.length Nat.eqb negb String.get] in H.
  assert (Hc2 : c2 = ":"%char).
  { destruct c2 as [[] [] [] [] [] [] [] []]; try discriminate H; reflexivity. }
  subst c2.
  unfold split_colon in H. cbn [split_on] in H.
  change (Ascii.eqb ":" ":") with true in H. cbn iota in H.
  destruct (Ascii.eqb c0 ":"), (Ascii.eqb c1 ":"), (Ascii.eqb c3 ":"),
    (Ascii.eqb c4 ":"); cbn [bind] in H; try discriminate H.
  unfold isdigit in H. cbn [all_digits] in H.
  destruct (digit_val c0) as [d0|] eqn:D0; [|discriminate H].
  destruct (digit_val c1) as [d1|] eqn:D1; [|discriminate H].
  destruct (digit_val c3) as [d3|] eqn:D3; [|discriminate H].
  destruct (digit_val c4) as [d4|] eqn:D4; [|discriminate H].
  destruct (digit_val_char _ _ D0) as [-> ?].
  destruct (digit_val_char _ _ D1) as [-> ?].
  destruct (digit_val_char _ _ D3) as [-> ?].
  destruct (digit_val_char _ _ D4) as [-> ?].
  exists d0, d1, d3, d4. repeat split; try lia.
Qed.

(** What the validator's [_is_hhmm] accepts, the compiler can read: an
    ASCII text accepted by [_is_hhmm] is a zero-padded [HH:MM] with the hour
    in 0..23 and the minute in 0..59, and [parse_hhmm] returns
    [60 * HH + MM] for it, a number of minutes below 1440. *)
Theorem is_hhmm_accepted_parses s :
  ascii_only s = true ->
  is_hhmm (PStr s) = Ok true ->
  exists h m,
    0 <= h <= 23 /\ 0 <= m <= 59 /\ s = hhmm h m
    /\ parse_hhmm (PStr s) = Ok (60 * h + m) /\ 0 <= 60 * h + m < 1440.
Proof.
  intros _ H.
  destruct (is_hhmm_shape _ H) as (d0 & d1 & d3 & d4 & H0 & H1 & H3 & H4 & ->).
  pose proof is_hhmm_table as T.
  rewrite forallb_forall in T.
  specialize (T d0 (zrange_in 10 d0 ltac:(lia))).
  rewrite forallb_forall in T.
  specialize (T d1 (zrange_in 10 d1 ltac:(lia))).
  rewrite forallb_forall in T.
  specialize (T d3 (zrange_in 10 d3 ltac:(lia))).
  rewrite forallb_forall in T.
  specialize (T d4 (zrange_in 10 d4 ltac:(lia))).
  unfold accepted_in_range in T. rewrite H in T.
  apply andb_true_iff in T. destruct T as [T Hs].
  apply andb_true_iff in T. destruct T as [Th Tm].
  apply Z.leb_le in Th. apply Z.leb_le in Tm. apply String.eqb_eq in Hs.
  exists (10 * d0 + d1), (10 * d3 + d4).
  repeat split; try lia; try exact Hs.
  rewrite Hs. apply parse_hhmm_valid; lia.
Qed.

Lemma is_hhmm_accepted_parses_witness :
  exists h m,
    0 <= h <= 23 /\ 0 <= m <= 59 /\ "07:45" = hhmm h m
    /\ parse_hhmm (PStr "07:45") = Ok (60 * h + m) /\ 0 <= 60 * h + m < 1440.
Proof.
  exact (is_hhmm_accepted_parses "07:45" eq_refl eq_refl).
Defined.

(** * Further properties of scope selection *)

Lemma filter_r_iff {A} (f : A -> result bool) l r x :
  filter_r f l = Ok r -> (In x r <-> In x l /\ f x = Ok true).
Proof.
  revert r. induction l as [|y l IH]; simpl; intros r H.
  - injection H as <-. simpl. tauto.
  - inv_bind H. inv_bind H. injection H as <-.
    specialize (IH _ E0). destruct v; simpl; rewrite ?IH.
    + split.
      * intros [<- | [H1 H2]]; auto.
      * intros [[<- | H1] H2]; auto.
    + split.
      * intros [H1 H2]; auto.
      * intros [[<- | H1] H2]; [congruence | auto].
Qed.

Lemma set_inter_in s t x : In x (set_inter s t) <-> In x s /\ In x t.
Proof.
  unfold set_inter. rewrite filter_In, mem_In. tauto.
Qed.

Lemma filter_when_iff wanted test sel sel' e :
  filter_when wanted test sel = Ok sel' ->
  (In e sel' <-> In e sel /\ (wanted = [] \/ test e = Ok true)).
Proof.
  unfold filter_when. destruct wanted as [|k w]; simpl; intro H.
  - injection H as <-. tauto.
  - inv_bind H. injection H as <-.
    rewrite set_inter_in, (filter_r_iff _ _ _ e E).
    split; [tauto|]. intros [H1 [H2 | H2]]; [discriminate | tauto].
Qed.

Lemma filter_groups_iff groups scope gv sel sel' e :
  filter_groups groups scope sel = Ok sel' ->
  py_get scope "groups" PNone = Ok gv ->
  (In e sel' <->
   In e sel /\
   forall g, In g (normalize_list gv) ->
     exists members ms,
       py_get_v groups g (PList []) = Ok members /\
       py_set members = Ok ms /\ In e ms).
Proof.
  unfold filter_groups. intros H Hg. rewrite Hg in H. cbn [bind] in H.
  revert sel H. induction (normalize_list gv) as [|g gl IH]; simpl; intros sel H.
  - injection H as <-. split; [|tauto]. intro; split; [assumption|tauto].
  - inv_bind H. inv_bind E. inv_bind E. injection E as <-.
    rewrite (IH _ H), set_inter_in. split.
    + intros [[H1 H2] H3]. split; [assumption|].
      intros g' [<- | Hg']; [eauto | auto].
    + intros [H1 H2]. split; [split; [assumption|] | auto].
      destruct (H2 g (or_introl eq_refl)) as (m' & ms' & Hm & Hs & Hin).
      congruence.
Qed.

Lemma tags_any_iff spec attr wanted e :
  (have <- employee_tags spec attr e ;;
   Ok (negb (is_empty (set_inter wanted have)))) = Ok true
  <-> exists k, In k wanted /\ has_tag spec attr e k.
Proof.
  unfold has_tag. split.
  - intro H. inv_bind H. injection H as H.
    destruct (set_inter wanted v) as [|k r] eqn:Ei; [discriminate|].
    assert (Hk : In k (set_inter wanted v)) by (rewrite Ei; now left).
    apply set_inter_in in Hk. exists k. split; [tauto|]. exists v. tauto.
  - intros (k & Hk & have & -> & Hh). cbn [bind]. f_equal.
    assert (Hi : In k (set_inter wanted have)) by (apply set_inter_in; tauto).
    destruct (set_inter wanted have); [contradiction | reflexivity].
Qed.

Lemma tags_all_iff spec attr wanted e :
  wanted <> [] ->
  ((have <- employee_tags spec attr e ;;
    Ok (forallb (fun k => mem k have) wanted)) = Ok true
   <-> forall k, In k wanted -> has_tag spec attr e k).
Proof.
  unfold has_tag. intro Hne. split.
  - intros H k Hk. inv_bind H. injection H as H.
    rewrite forallb_forall in H. exists v. split; [assumption|].
    apply mem_In. auto.
  - intro H. destruct wanted as [|k0 w]; [congruence|].
    destruct (H k0 (or_introl eq_refl)) as (have & Eh & _).
    rewrite Eh. cbn [bind]. f_equal. apply forallb_forall.
    intros k Hk. apply mem_In.
    destruct (H k Hk) as (have' & Eh' & Hin). congruence.
Qed.

Lemma in_set_true x s : in_set x s = Ok true <-> exists h, to_hkey x = Ok h /\ In h s.
Proof.
  unfold in_set. split.
  - intro H. inv_bind H. injection H as H. apply mem_In in H. eauto.
  - intros (h & -> & Hin). cbn [bind]. f_equal. now apply mem_In.
Qed.

(** The filters of a scope are a conjunction: an employee is selected if and
    only if it is in the start set, belongs to every listed group, declares
    one of [skills_any] and all of [skills_all], one of [roles_any] and all of
    [roles_all], has its home site among [sites_any] and its contract type
    among [contracts_any], an empty or absent filter asking for nothing. *)
Theorem select_is_conjunction spec scope l e :
  select_employees_by_scope spec scope = Ok l ->
  (In e l <->
   in_start spec scope e /\ in_groups spec scope e /\
   any_of spec scope "skills_any" "skills" e /\
   all_of spec scope "skills_all" "skills" e /\
   any_of spec scope "roles_any" "roles" e /\
   all_of spec scope "roles_all" "roles" e /\
   home_in spec scope e /\ contract_in spec scope e).
Proof.
  unfold select_employees_by_scope. intro H.
  apply bind_ok in H. destruct H as [sel [Hsel Hsort]].
  destruct (py_sorted_spec _ _ Hsort) as [_ Hperm].
  assert (Hl : In e l <-> In e sel).
  { split; apply Permutation_in; [symmetry|]; exact Hperm. }
  rewrite Hl. clear Hl Hperm Hsort l.
  unfold selected_set in Hsel.
  apply bind_ok in Hsel. destruct Hsel as [sets [Es H]].
  apply bind_ok in H. destruct H as [all_emps [Ea H]].
  apply bind_ok in H. destruct H as [groups [Eg H]].
  apply bind_ok in H. destruct H as [s0 [E0 H]].
  apply bind_ok in H. destruct H as [s1 [E1 H]].
  apply bind_ok in H. destruct H as [w1 [W1 H]].
  apply bind_ok in H. destruct H as [w2 [W2 H]].
  apply bind_ok in H. destruct H as [s2 [E2 H]].
  apply bind_ok in H. destruct H as [s3 [E3 H]].
  apply bind_ok in H. destruct H as [w3 [W3 H]].
  apply bind_ok in H. destruct H as [w4 [W4 H]].
  apply bind_ok in H. destruct H as [s4 [E4 H]].
  apply bind_ok in H. destruct H as [s5 [E5 H]].
  apply bind_ok in H. destruct H as [w5 [W5 H]].
  apply bind_ok in H. destruct H as [s6 [E6 H]].
  apply bind_ok in H. destruct H as [w6 [W6 H]].
  assert (Egv : exists gv, py_get scope "groups" PNone = Ok gv).
  { unfold filter_groups in E1. apply bind_ok in E1.
    destruct E1 as [gv [Egv _]]. eauto. }
  destruct Egv as [gv Egv].
  unfold filter_contracts_any in H. unfold filter_sites_any in E6.
  unfold filter_tags_any in E2, E4. unfold filter_tags_all in E3, E5.
  rewrite (filter_when_iff _ _ _ _ e H), (filter_when_iff _ _ _ _ e E6),
    (filter_when_iff _ _ _ _ e E5), (filter_when_iff _ _ _ _ e E4),
    (filter_when_iff _ _ _ _ e E3), (filter_when_iff _ _ _ _ e E2),
    (filter_groups_iff _ _ _ _ _ e E1 Egv).
  assert (Hstart : In e s0 <-> in_start spec scope e).
  { unfold in_start. rewrite Es. cbn [bind]. split.
    - intro Hin. exists all_emps, s0. auto.
    - intros (a & s & Ha & Hs & Hin). congruence. }
  assert (Hgroups :
            (forall g, In g (normalize_list gv) ->
               exists members ms,
                 py_get_v groups g (PList []) = Ok members /\
                 py_set members = Ok ms /\ In e ms)
            <-> in_groups spec scope e).
  { unfold in_groups. split.
    - intros Hg gv' g Hgv' Hin.
      assert (gv' = gv) by congruence. subst gv'.
      destruct (Hg g Hin) as (m' & ms & ? & ? & ?).
      exists groups, m', ms. auto.
    - intros Hg g Hin.
      destruct (Hg gv g Egv Hin) as (gr & m' & ms & Hgr & ? & ? & ?).
      assert (gr = groups) by congruence. subst gr. eauto. }
  assert (Hwants : forall key w k,
             scope_filter scope key = Ok w -> (wants scope key k <-> In k w)).
  { intros key w k Hw. unfold wants. split.
    - intros (w' & Hw' & Hin). congruence.
    - intro Hin. eauto. }
  assert (Hnowish : forall key w,
             scope_filter scope key = Ok w -> (no_wish scope key <-> w = [])).
  { intros key w Hw. unfold no_wish. rewrite Hw.
    split; [intro Hn; now injection Hn | intros ->; reflexivity]. }
  assert (Hany : forall key attr w,
             scope_filter scope key = Ok w ->
             (w = [] \/
              (have <- employee_tags spec attr e ;;
               Ok (negb (is_empty (set_inter w have)))) = Ok true)
             <-> any_of spec scope key attr e).
  { intros key attr w Hw. unfold any_of.
    rewrite (Hnowish _ _ Hw), tags_any_iff.
    split; (intros [? | (k & Hk & Ht)]; [left; assumption | right]);
      exists k; split; try assumption; now apply (Hwants _ _ k Hw). }
  assert (Hall : forall key attr w,
             scope_filter scope key = Ok w ->
             (w = [] \/
              (have <- employee_tags spec attr e ;;
               Ok (forallb (fun k => mem k have) w)) = Ok true)
             <-> all_of spec scope key attr e).
  { intros key attr w Hw. unfold all_of.
    destruct w as [|k0 w].
    - split; [|auto]. intros _ k Hk. apply (Hwants _ _ k Hw) in Hk. contradiction.
    - rewrite tags_all_iff by discriminate. split.
      + intros [? | Ht]; [discriminate|].
        intros k Hk. apply Ht. now apply (Hwants _ _ k Hw).
      + intro Ht. right. intros k Hk. apply Ht. now apply (Hwants _ _ k Hw). }
  assert (Hhome :
            (w5 = [] \/
             (emp <- get_employee spec (of_hkey e) ;;
              home <- py_get emp "site_home" PNone ;;
              in_set home w5) = Ok true)
            <-> home_in spec scope e).
  { unfold home_in. rewrite (Hnowish _ _ W5). split.
    - intros [? | Ht]; [left; assumption | right].
      inv_bind Ht. inv_bind Ht. apply in_set_true in Ht.
      destruct Ht as (h & Hh & Hin).
      exists v, v0, h. repeat split; try assumption.
      now apply (Hwants _ _ h W5).
    - intros [? | (emp & home & h & He & Hho & Hh & Hw)];
        [left; assumption | right].
      rewrite He. cbn [bind]. rewrite Hho. cbn [bind].
      apply in_set_true. exists h. split; [assumption|].
      now apply (Hwants _ _ h W5). }
  assert (Hcontract :
            (w6 = [] \/
             (emp <- get_employee spec (of_hkey e) ;;
              c <- py_get emp "contract" PNone ;;
              t <- py_get (py_or c (PDict [])) "type" PNone ;;
              in_set t w6) = Ok true)
            <-> contract_in spec scope e).
  { unfold contract_in. rewrite (Hnowish _ _ W6). split.
    - intros [? | Ht]; [left; assumption | right].
      inv_bind Ht. inv_bind Ht. inv_bind Ht. apply in_set_true in Ht.
      destruct Ht as (h & Hh & Hin).
      exists v, v0, v1, h. repeat split; try assumption.
      now apply (Hwants _ _ h W6).
    - intros [? | (emp & c & t & h & He & Hc & Ht & Hh & Hw)];
        [left; assumption | right].
      rewrite He. cbn [bind]. rewrite Hc. cbn [bind]. rewrite Ht. cbn [bind].
      apply in_set_true. exists h. split; [assumption|].
      now apply (Hwants _ _ h W6). }
  rewrite Hstart, Hgroups, (Hany _ _ _ W1), (Hall _ _ _ W2),
    (Hany _ _ _ W3), (Hall _ _ _ W4), Hhome, Hcontract.
  tauto.
Qed.

Lemma select_is_conjunction_witness :
  select_employees_by_scope spec_ward scope_night_leads = Ok [HStr "P2"]
  /\ (In (HStr "P3") [HStr "P2"] <->
      in_start spec_ward scope_night_leads (HStr "P3") /\
      in_groups spec_ward scope_night_leads (HStr "P3") /\
      any_of spec_ward scope_night_leads "skills_any" "skills" (HStr "P3") /\
      all_of spec_ward scope_night_leads "skills_all" "skills" (HStr "P3") /\
      any_of spec_ward scope_night_leads "roles_any" "roles" (HStr "P3") /\
      all_of spec_ward scope_night_leads "roles_all" "roles" (HStr "P3") /\
      home_in spec_ward scope_night_leads (HStr "P3") /\
      contract_in spec_ward scope_night_leads (HStr "P3")).
Proof.
  assert (E : select_employees_by_scope spec_ward scope_night_leads
              = Ok [HStr "P2"]) by (vm_compute; reflexivity).
  split; [exact E|].
  exact (select_is_conjunction spec_ward scope_night_leads _ (HStr "P3") E).
Defined.

(** * Further properties of the compiled model *)

Lemma extends_refl acc : extends acc acc.
Proof. repeat split; exists []; now rewrite app_nil_r. Qed.

Lemma extends_trans a b c : extends a b -> extends b c -> extends a c.
Proof.
  intros ([r1 R1] & [v1 V1] & [p1 P1]) ([r2 R2] & [v2 V2] & [p2 P2]).
  repeat split.
  - exists (r1 ++ r2). now rewrite R2, R1, app_assoc.
  - exists (v1 ++ v2). now rewrite V2, V1, app_assoc.
  - exists (p1 ++ p2). now rewrite P2, P1, app_assoc.
Qed.

Lemma extends_emit_row r acc : extends acc (emit_row r acc).
Proof.
  repeat split; simpl; [now exists [r] | | ]; exists []; now rewrite app_nil_r.
Qed.

Lemma extends_emit_rows rs acc : extends acc (emit_rows rs acc).
Proof.
  repeat split; simpl; [now exists rs | | ]; exists []; now rewrite app_nil_r.
Qed.

Lemma extends_emit_var d acc : extends acc (emit_var d acc).
Proof.
  repeat split; simpl; [ | now exists [d] | ]; exists []; now rewrite app_nil_r.
Qed.

Lemma extends_emit_penalty p acc : extends acc (emit_penalty p acc).
Proof.
  repeat split; simpl; [ | | now exists [p]]; exists []; now rewrite app_nil_r.
Qed.

Lemma extends_emit_app acc e : extends acc (emit_app acc e).
Proof.
  repeat split; simpl; [now exists (e_rows e) | now exists (e_vars e)
                        | now exists (e_penalties e)].
Qed.

Lemma extends_rows a b r : extends a b -> In r (e_rows a) -> In r (e_rows b).
Proof. intros ([rs ->] & _) H. apply in_or_app. now left. Qed.

Lemma extends_vars a b d : extends a b -> In d (e_vars a) -> In d (e_vars b).
Proof. intros (_ & [vs ->] & _) H. apply in_or_app. now left. Qed.

Lemma extends_penalties a b p :
  extends a b -> In p (e_penalties a) -> In p (e_penalties b).
Proof. intros (_ & _ & [ps ->]) H. apply in_or_app. now left. Qed.

Create HintDb ext.

#[local] Hint Resolve extends_refl extends_emit_row extends_emit_rows
  extends_emit_var extends_emit_penalty extends_emit_app : ext.

Lemma for_each_extends {A} (body : A -> emit -> result emit) l :
  (forall x a a', In x l -> body x a = Ok a' -> extends a a') ->
  forall acc acc', for_each l body acc = Ok acc' -> extends acc acc'.
Proof.
  induction l as [|x l IH]; simpl; intros Hb acc acc' H.
  - injection H as <-. apply extends_refl.
  - inv_bind H. eapply extends_trans.
    + eapply Hb; [now left | eassumption].
    + eapply IH; [|eassumption]. intros. eapply Hb; [right|]; eassumption.
Qed.

(** Every iteration of a loop runs, and what it adds stays in the result. *)
Lemma for_each_iter {A} (body : A -> emit -> result emit) l x :
  (forall x a a', In x l -> body x a = Ok a' -> extends a a') ->
  In x l ->
  forall acc acc', for_each l body acc = Ok acc' ->
  exists a1 a2, body x a1 = Ok a2 /\ extends acc a1 /\ extends a2 acc'.
Proof.
  induction l as [|y l IH]; simpl; intros Hb Hin acc acc' H; [contradiction|].
  inv_bind H. destruct Hin as [-> | Hin].
  - exists acc, v. split; [assumption|]. split; [apply extends_refl|].
    eapply for_each_extends; [|eassumption].
    intros. eapply Hb; [right|]; eassumption.
  - destruct (IH (fun x a a' Hx => Hb x a a' (or_intror Hx)) Hin _ _ H)
      as (a1 & a2 & Hbody & H1 & H2).
    exists a1, a2. split; [assumption|]. split; [|assumption].
    eapply extends_trans; [|exact H1]. eapply Hb; [now left | eassumption].
Qed.

(** Peels the binds of a successful computation and closes a goal
    [extends acc acc']. *)
Ltac peel H :=
  cbv beta in H;
  repeat match type of H with
    | bind _ _ = Ok _ =>
        apply bind_ok in H;
        let a := fresh "v" in let E := fresh "E" in destruct H as [a [E H]]
    | (if ?b then _ else _) = Ok _ => destruct b eqn:?
    | Raise _ = Ok _ => discriminate H
    end.

Lemma compile_floors_extends cx r lk ik attr d s site acc acc' :
  compile_floors cx r lk ik attr d s site acc = Ok acc' -> extends acc acc'.
Proof.
  unfold compile_floors. intro H. peel H.
  eapply for_each_extends; [|exact H].
  intros x a a' _ Hx. peel Hx. injection Hx as <-. auto with ext.
Qed.

(** The coverage row of a demand entry: [None], [eq n], or a floor and a
    ceiling when [min] and [max] are given. *)
Lemma compile_demand_entry_extends cx req acc acc' :
  compile_demand_entry cx req acc = Ok acc' -> extends acc acc'.
Proof.
  unfold compile_demand_entry. intro H. peel H.
  apply compile_floors_extends in H.
  match goal with
  | E : compile_floors _ _ _ _ _ _ _ _ _ = Ok _ |- _ =>
      apply compile_floors_extends in E;
      eapply extends_trans; [|exact H]; eapply extends_trans; [|exact E]
  end.
  match goal with
  | E : (if _ then _ else _) = Ok _ |- _ => rename E into Hc
  end.
  peel Hc.
  - injection Hc as <-. auto with ext.
  - match goal with
    | E : (if _ then _ else _) = Ok _ |- _ => peel E; injection E as <-
    end; injection Hc as <-; eauto using extends_trans with ext.
  - match goal with
    | E : (if _ then _ else _) = Ok _ |- _ => peel E; injection E as <-
    end; injection Hc as <-; eauto using extends_trans with ext.
Qed.

(** ** Demand *)

Lemma build_context_demand spec em dy sh st sd cx cl :
  build_context spec em dy sh st sd = Ok (cx, cl) ->
  py_get spec "demand" (PList []) = Ok (c_demand cx).
Proof.
  unfold build_context. intro H. peel H. injection H as <- _. assumption.
Qed.

Lemma x_vars_staffing cx d s site l terms a :
  map_r (fun e => x_var cx e d s site) l = Ok terms ->
  zsum (map (eval a) terms)
  = zsum (map (fun e => match to_hkey e with
                        | Ok he => x_value a he d s site
                        | Raise _ => 0
                        end) l).
Proof.
  revert terms. induction l as [|e l IH]; simpl; intros terms H.
  - injection H as <-. reflexivity.
  - inv_bind H. inv_bind H. injection H as <-.
    destruct (x_var_ok _ _ _ _ _ _ E) as (he & hs & ht & He & Hs & Ht & -> & _).
    simpl. unfold zsum in *. simpl. rewrite (IH _ E0), He.
    unfold x_value. now rewrite Hs, Ht.
Qed.

(** What compiling a model went through for one demand entry. *)
Lemma demand_entry_compiled spec spec' cx m dl req :
  compile_model spec = (spec', Ok (cx, m)) ->
  demand_of (c_spec cx) = Ok dl -> In req dl ->
  exists a1 a2,
    compile_demand_entry cx req a1 = Ok a2 /\ incl (e_rows a2) (m_rows m).
Proof.
  intros H Hdl Hin.
  destruct (compile_model_ok _ _ _ _ H)
    as (em0 & dy & sh & st & sd & cl & dem & cons & _ & Hb & Hd & _ & ->).
  pose proof (build_context_demand _ _ _ _ _ _ _ _ Hb) as Hdem.
  destruct (build_context_spec _ _ _ _ _ _ _ _ Hb) as (Hs & _).
  unfold demand_of in Hdl. rewrite Hs, Hdem in Hdl. cbn [bind] in Hdl.
  unfold compile_demand in Hd. rewrite Hdl in Hd. cbn [bind] in Hd.
  eapply for_each_iter in Hd; [| |exact Hin].
  2:{ intros x a a' _ Hx. now apply compile_demand_entry_extends in Hx. }
  destruct Hd as (a1 & a2 & Hbody & _ & Hext).
  exists a1, a2. split; [assumption|].
  intros r Hr. simpl. apply in_or_app. left.
  eapply extends_rows; eassumption.
Qed.

(** The coverage rows: in every solution of the compiled model the number
    of employees on the shift, day and site of a demand entry equals its
    [eq]; without an [eq] it is at least its [min] and at most its [max],
    each when given. *)
Theorem demand_coverage spec spec' cx m dl req a :
  compile_model spec = (spec', Ok (cx, m)) ->
  demand_of (c_spec cx) = Ok dl -> In req dl ->
  satisfies a m ->
  exists d s site,
    demand_cell cx req d s site /\
    (forall v n, py_item req "eq" = Ok v -> py_int v = Ok n ->
                 staffing a cx d s site = n) /\
    (has_key req "eq" = Ok false ->
     forall v n, py_item req "min" = Ok v -> py_int v = Ok n ->
                 n <= staffing a cx d s site) /\
    (has_key req "eq" = Ok false ->
     forall v n, py_item req "max" = Ok v -> py_int v = Ok n ->
                 staffing a cx d s site <= n).
Proof.
  intros H Hdl Hin [_ Hrows].
  destruct (demand_entry_compiled _ _ _ _ _ _ H Hdl Hin)
    as (a1 & a2 & Hbody & Hincl).
  rewrite Forall_forall in Hrows.
  unfold compile_demand_entry in Hbody.
  apply bind_ok in Hbody. destruct Hbody as [dv [Edv Hb]].
  apply bind_ok in Hb. destruct Hb as [d [Ed Hb]].
  apply bind_ok in Hb. destruct Hb as [s [Es Hb]].
  apply bind_ok in Hb. destruct Hb as [site0 [Es0 Hb]].
  apply bind_ok in Hb. destruct Hb as [site [Esite Hb]].
  destruct (negb (in_list s (c_work_shifts cx))); [discriminate|].
  apply bind_ok in Hb. destruct Hb as [terms [Et Hb]].
  apply bind_ok in Hb. destruct Hb as [has_eq [Eeq Hb]].
  apply bind_ok in Hb. destruct Hb as [mid [Emid Hb]].
  apply bind_ok in Hb. destruct Hb as [rv [Erv Hb]].
  apply bind_ok in Hb. destruct Hb as [acc1 [Ef1 Ef2]].
  apply compile_floors_extends in Ef1, Ef2.
  assert (Hmid : forall r, In r (e_rows mid) -> holds a r).
  { intros r Hr. apply Hrows, Hincl.
    eapply extends_rows; [exact Ef2|]. eapply extends_rows; eassumption. }
  assert (Hval : eval a (lsum terms) = staffing a cx d s site).
  { rewrite eval_lsum. apply (x_vars_staffing _ _ _ _ _ _ _ Et). }
  exists d, s, site. split; [|split; [|split]].
  - unfold demand_cell. rewrite Edv. cbn [bind]. rewrite Ed, Es, Es0.
    cbn [bind]. auto.
  - intros v n Hv Hn.
    assert (has_eq = true).
    { destruct req; try discriminate. simpl in Hv, Eeq.
      destruct (dict_lookup (HStr "eq") kvs); [|discriminate]. congruence. }
    subst has_eq. rewrite Hv in Emid. cbn [bind] in Emid.
    rewrite Hn in Emid. cbn [bind] in Emid. injection Emid as <-.
    specialize (Hmid (REq (lsum terms) (LConst n))).
    simpl in Hmid. rewrite <- Hval. apply Hmid.
    apply in_or_app. right. now left.
  - intros Hno v n Hv Hn.
    rewrite Hno in Eeq. injection Eeq as <-.
    apply bind_ok in Emid. destruct Emid as [has_min [Emin Emid]].
    assert (has_min = true).
    { destruct req; try discriminate. simpl in Hv, Emin.
      destruct (dict_lookup (HStr "min") kvs); [|discriminate]. congruence. }
    subst has_min. rewrite Hv in Emid. cbn [bind] in Emid.
    rewrite Hn in Emid. cbn [bind] in Emid.
    apply bind_ok in Emid. destruct Emid as [has_max [_ Emid]].
    assert (Hrow : In (RGe (lsum terms) (LConst n)) (e_rows mid)).
    { destruct has_max; peel Emid; injection Emid as <-; simpl.
      - apply in_or_app. left. apply in_or_app. right. now left.
      - apply in_or_app. right. now left. }
    specialize (Hmid _ Hrow). simpl in Hmid. rewrite <- Hval. lia.
  - intros Hno v n Hv Hn.
    rewrite Hno in Eeq. injection Eeq as <-.
    apply bind_ok in Emid. destruct Emid as [has_min [Emin Emid]].
    apply bind_ok in Emid. destruct Emid as [acc0 [_ Emid]].
    apply bind_ok in Emid. destruct Emid as [has_max [Emax Emid]].
    assert (has_max = true).
    { destruct req; try discriminate. simpl in Hv, Emax.
      destruct (dict_lookup (HStr "max") kvs); [|discriminate]. congruence. }
    subst has_max. rewrite Hv in Emid. cbn [bind] in Emid.
    rewrite Hn in Emid. cbn [bind] in Emid. injection Emid as <-.
    specialize (Hmid (RLe (lsum terms) (LConst n))).
    simpl in Hmid. rewrite <- Hval. apply Hmid.
    apply in_or_app. right. now left.
Qed.

Lemma demand_coverage_witness :
  exists d s site,
    demand_cell cx_cover demand_one_morning d s site /\
    (forall v n, py_item demand_one_morning "eq" = Ok v -> py_int v = Ok n ->
                 staffing p1_works_morning cx_cover d s site = n) /\
    (has_key demand_one_morning "eq" = Ok false ->
     forall v n, py_item demand_one_morning "min" = Ok v -> py_int v = Ok n ->
                 n <= staffing p1_works_morning cx_cover d s site) /\
    (has_key demand_one_morning "eq" = Ok false ->
     forall v n, py_item demand_one_morning "max" = Ok v -> py_int v = Ok n ->
                 staffing p1_works_morning cx_cover d s site <= n).
Proof.
  eapply (demand_coverage spec_cover _ cx_cover _ [demand_one_morning]
            demand_one_morning p1_works_morning).
  - vm_compute. reflexivity.
  - vm_compute. reflexivity.
  - now left.
  - apply satisfiesb_satisfies. vm_compute. reflexivity.
Defined.

(** ** Constraints *)

(** What compiling a model went through for one constraint: its rows and
    its auxiliary variables are rows and variables of the model. *)
Lemma constraint_compiled spec spec' cx m cl c kind data emps :
  compile_model spec = (spec', Ok (cx, m)) ->
  constraints_of (c_spec cx) = Ok cl -> In c cl ->
  constraint_selects cx c kind data emps ->
  exists ci ctype weight em,
    py_item c "type" = Ok ctype /\ constraint_weight c = Ok weight /\
    compile_kind cx ci (PStr kind) ctype data weight emps = Ok em /\
    incl (e_rows em) (m_rows m) /\ incl (e_vars em) (m_vars m).
Proof.
  intros H Hcl Hin (Hk & scope & Hs & Hd & Hsel).
  destruct (compile_model_ok _ _ _ _ H)
    as (em0 & dy & sh & st & sd & cl' & dem & cons & _ & Hb & _ & Hc & ->).
  destruct (build_context_spec _ _ _ _ _ _ _ _ Hb) as (Hsp & Hcl' & _).
  rewrite Hsp in Hcl. rewrite Hcl in Hcl'. injection Hcl' as <-.
  destruct (In_nth_error _ _ Hin) as [ci Hn].
  apply in_enumerate in Hn.
  unfold compile_constraints in Hc.
  eapply for_each_iter in Hc; [| |exact Hn].
  2:{ intros x a a' _ Hx. peel Hx. injection Hx as <-. auto with ext. }
  destruct Hc as (a1 & a2 & Hbody & _ & Hext).
  cbn [fst snd] in Hbody. peel Hbody. injection Hbody as <-.
  rename v into em. unfold compile_constraint in E.
  apply bind_ok in E. destruct E as [cid [_ E]].
  apply bind_ok in E. destruct E as [ctype [Ety E]].
  apply bind_ok in E. destruct E as [kind' [Ek E]].
  apply bind_ok in E. destruct E as [scope' [Es E]].
  apply bind_ok in E. destruct E as [data' [Ed E]].
  apply bind_ok in E. destruct E as [weight [Ew E]].
  apply bind_ok in E. destruct E as [emps' [Ee E]].
  rewrite Hk in Ek. injection Ek as <-.
  rewrite Hs in Es. injection Es as <-.
  rewrite Hd in Ed. injection Ed as <-.
  rewrite Hsel in Ee. injection Ee as <-.
  exists ci, ctype, weight, em. repeat split; try assumption.
  - intros r Hr. simpl. apply in_or_app. right.
    eapply extends_rows; [exact Hext|]. simpl. apply in_or_app. now right.
  - intros d Hdv. simpl. apply in_or_app. right. apply in_or_app. right.
    eapply extends_vars; [exact Hext|]. simpl. apply in_or_app. now right.
Qed.

Lemma forbid_pair_extends cx e d p acc acc' :
  forbid_pair cx e d p acc = Ok acc' -> extends acc acc'.
Proof.
  unfold forbid_pair. intro H. peel H. injection H as <-. auto with ext.
Qed.

Lemma compile_kind_forbid cx ci ctype data w emps :
  compile_kind cx ci (PStr "forbid_shift_sequences") ctype data w emps
  = compile_forbid cx data emps.
Proof. reflexivity. Qed.

(** [forbid_shift_sequences]: in every solution of the compiled model, for
    an employee that the scope selects, two consecutive days and a listed
    pair, the employee's assignments to [prev_shift] on the first day and to
    [next_shift] on the second, counted over all sites, add up to at most
    one. *)
Theorem forbidden_sequence_excluded
  spec spec' cx m cl c data emps e d fp pl p prev next sl a :
  compile_model spec = (spec', Ok (cx, m)) ->
  constraints_of (c_spec cx) = Ok cl -> In c cl ->
  constraint_selects cx c "forbid_shift_sequences" data emps -> In e emps ->
  (d + 1 < n_days cx)%nat ->
  py_get data "forbidden_pairs" (PList []) = Ok fp ->
  py_iter fp = Ok pl -> In p pl ->
  py_item p "prev_shift" = Ok prev -> py_item p "next_shift" = Ok next ->
  py_iter (c_sites cx) = Ok sl ->
  satisfies a m ->
  works_value a sl e d prev + works_value a sl e (d + 1) next <= 1.
Proof.
  intros Hm Hcl Hin Hsel He Hd Hfp Hpl Hp Hprev Hnext Hsl [_ Hrows].
  destruct (constraint_compiled _ _ _ _ _ _ _ _ _ Hm Hcl Hin Hsel)
    as (ci & ctype & weight & em & _ & _ & Hem & Hincl & _).
  rewrite compile_kind_forbid in Hem. unfold compile_forbid in Hem.
  rewrite Hfp in Hem. cbn [bind] in Hem.
  assert (Hdays : forall e0 x a0 a',
             (pl0 <- py_iter fp ;; for_each pl0 (forbid_pair cx e0 x) a0) = Ok a' ->
             extends a0 a').
  { intros e0 x a0 a' Hx. peel Hx. eapply for_each_extends; [|exact Hx].
    intros y b b' _ Hy. now apply forbid_pair_extends in Hy. }
  eapply for_each_iter in Hem; [| |exact He].
  2:{ intros x a0 a' _ Hx. eapply for_each_extends; [|exact Hx].
      intros y b b' _ Hy. now apply Hdays in Hy. }
  destruct Hem as (a1 & a2 & Hbody & _ & X2).
  eapply (for_each_iter _ _ d) in Hbody; [| |apply in_seq; lia].
  2:{ intros y b b' _ Hy. now apply Hdays in Hy. }
  destruct Hbody as (b1 & b2 & Hbody & _ & X1).
  cbv beta in Hbody. rewrite Hpl in Hbody. cbn [bind] in Hbody.
  eapply for_each_iter in Hbody; [| |exact Hp].
  2:{ intros y b b' _ Hy. now apply forbid_pair_extends in Hy. }
  destruct Hbody as (c1 & c2 & Hbody & _ & X0).
  unfold forbid_pair in Hbody. rewrite Hprev, Hnext in Hbody.
  cbn [bind] in Hbody. peel Hbody. injection Hbody as <-.
  assert (Hrow : holds a (RLe (LAdd v v0) (LConst 1))).
  { rewrite Forall_forall in Hrows. apply Hrows, Hincl.
    eapply extends_rows; [exact X2|]. eapply extends_rows; [exact X1|].
    eapply extends_rows; [exact X0|]. simpl. apply in_or_app. right. now left. }
  simpl in Hrow.
  rewrite (works_shift_value _ _ _ _ _ _ _ a E (to_hkey_of_hkey e) Hsl) in Hrow.
  rewrite (works_shift_value _ _ _ _ _ _ _ a E0 (to_hkey_of_hkey e) Hsl) in Hrow.
  exact Hrow.
Qed.

Lemma forbidden_sequence_excluded_witness :
  works_value two_nights [PStr "SITE_DEFAULT"] (HStr "P1") 0 (PStr "N")
  + works_value two_nights [PStr "SITE_DEFAULT"] (HStr "P1") (0 + 1) (PStr "M")
  <= 1.
Proof.
  eapply (forbidden_sequence_excluded spec_rota _ cx_rota _ _
            no_night_then_morning
            (obj [("forbidden_pairs", PList [pair_night_morning])])
            [HStr "P1"] (HStr "P1") 0%nat (PList [pair_night_morning])
            [pair_night_morning] pair_night_morning).
  - vm_compute. reflexivity.
  - vm_compute. reflexivity.
  - now left.
  - split; [reflexivity|]. exists (PDict []).
    repeat split; vm_compute; reflexivity.
  - now left.
  - vm_compute. lia.
  - reflexivity.
  - reflexivity.
  - now left.
  - reflexivity.
  - reflexivity.
  - reflexivity.
  - apply satisfiesb_satisfies. vm_compute. reflexivity.
Defined.

Lemma compile_kind_min_rest cx ci ctype data w emps :
  compile_kind cx ci (PStr "min_rest_minutes_between_shifts") ctype data w emps
  = compile_min_rest cx data emps.
Proof. reflexivity. Qed.

(** [min_rest_minutes_between_shifts]: in every solution of the compiled
    model, for an employee that the scope selects, two consecutive days and
    two work shifts whose [rest_minutes_between] is below the minimum, the
    employee's assignments to the first shift on the first day and to the
    second shift on the next day, counted over all sites, add up to at most
    one. *)
Theorem short_rest_excluded
  spec spec' cx m cl c data emps e d mv min_rest s1 s2 d1 d2 rest sl a :
  compile_model spec = (spec', Ok (cx, m)) ->
  constraints_of (c_spec cx) = Ok cl -> In c cl ->
  constraint_selects cx c "min_rest_minutes_between_shifts" data emps ->
  In e emps -> (d + 1 < n_days cx)%nat ->
  py_item data "min_rest_minutes" = Ok mv -> py_int mv = Ok min_rest ->
  In s1 (c_work_shifts cx) -> In s2 (c_work_shifts cx) ->
  py_item_v (c_shift_defs cx) (of_hkey s1) = Ok d1 ->
  py_item_v (c_shift_defs cx) (of_hkey s2) = Ok d2 ->
  rest_minutes_between d1 d2 = Ok rest -> rest < min_rest ->
  py_iter (c_sites cx) = Ok sl ->
  satisfies a m ->
  works_value a sl e d (of_hkey s1) + works_value a sl e (d + 1) (of_hkey s2)
  <= 1.
Proof.
  intros Hm Hcl Hin Hsel He Hd Hmv Hmin Hs1 Hs2 Hd1 Hd2 Hrest Hlt Hsl [_ Hrows].
  destruct (constraint_compiled _ _ _ _ _ _ _ _ _ Hm Hcl Hin Hsel)
    as (ci & ctype & weight & em & _ & _ & Hem & Hincl & _).
  rewrite compile_kind_min_rest in Hem. unfold compile_min_rest in Hem.
  rewrite Hmv in Hem. cbn [bind] in Hem. rewrite Hmin in Hem. cbn [bind] in Hem.
  set (cell := fun (e : hkey) (d : nat) (ss : hkey * hkey) (acc : emit) =>
         let s1 := of_hkey (fst ss) in
         let s2 := of_hkey (snd ss) in
         d1 <- py_item_v (c_shift_defs cx) s1 ;;
         d2 <- py_item_v (c_shift_defs cx) s2 ;;
         rest <- rest_minutes_between d1 d2 ;;
         if rest <? min_rest then
           a <- works_shift cx (of_hkey e) d s1 ;;
           b <- works_shift cx (of_hkey e) (d + 1) s2 ;;
           Ok (emit_row (RLe (LAdd a b) (LConst 1)) acc)
         else Ok acc) in *.
  assert (Hcell : forall e0 x ss a0 a', cell e0 x ss a0 = Ok a' -> extends a0 a').
  { intros e0 x ss a0 a' Hx. unfold cell in Hx. cbv zeta in Hx. peel Hx.
    - injection Hx as <-. auto with ext.
    - injection Hx as <-. auto with ext. }
  assert (Hdays : forall e0 x a0 a',
             for_each (list_prod (c_work_shifts cx) (c_work_shifts cx))
               (cell e0 x) a0 = Ok a' -> extends a0 a').
  { intros e0 x a0 a' Hx. eapply for_each_extends; [|exact Hx].
    intros y b b' _ Hy. now apply Hcell in Hy. }
  eapply for_each_iter in Hem; [| |exact He].
  2:{ intros x a0 a' _ Hx. eapply for_each_extends; [|exact Hx].
      intros y b b' _ Hy. now apply Hdays in Hy. }
  destruct Hem as (a1 & a2 & Hbody & _ & X2).
  eapply (for_each_iter _ _ d) in Hbody; [| |apply in_seq; lia].
  2:{ intros y b b' _ Hy. now apply Hdays in Hy. }
  destruct Hbody as (b1 & b2 & Hbody & _ & X1).
  eapply (for_each_iter _ _ (s1, s2)) in Hbody;
    [| |apply in_prod; assumption].
  2:{ intros y b b' _ Hy. now apply Hcell in Hy. }
  destruct Hbody as (c1 & c2 & Hbody & _ & X0).
  unfold cell in Hbody. cbv zeta in Hbody. cbn [fst snd] in Hbody.
  rewrite Hd1, Hd2 in Hbody. cbn [bind] in Hbody.
  rewrite Hrest in Hbody. cbn [bind] in Hbody.
  apply Z.ltb_lt in Hlt. rewrite Hlt in Hbody.
  peel Hbody. injection Hbody as <-.
  assert (Hrow : holds a (RLe (LAdd v v0) (LConst 1))).
  { rewrite Forall_forall in Hrows. apply Hrows, Hincl.
    eapply extends_rows; [exact X2|]. eapply extends_rows; [exact X1|].
    eapply extends_rows; [exact X0|]. simpl. apply in_or_app. right. now left. }
  simpl in Hrow.
  rewrite (works_shift_value _ _ _ _ _ _ _ a E (to_hkey_of_hkey e) Hsl) in Hrow.
  rewrite (works_shift_value _ _ _ _ _ _ _ a E0 (to_hkey_of_hkey e) Hsl) in Hrow.
  exact Hrow.
Qed.

Lemma short_rest_excluded_witness :
  works_value two_nights [PStr "SITE_DEFAULT"] (HStr "P1") 0 (PStr "N")
  + works_value two_nights [PStr "SITE_DEFAULT"] (HStr "P1") (0 + 1) (PStr "M")
  <= 1.
Proof.
  eapply (short_rest_excluded spec_rota _ cx_rota _ _ rest_ten_hours
            (obj [("min_rest_minutes", PInt 600)])
            [HStr "P1"] (HStr "P1") 0%nat (PInt 600) 600
            (HStr "N") (HStr "M")
            (day_shift "22:00" "06:00" 480) (day_shift "06:00" "14:00" 480) 0).
  - vm_compute. reflexivity.
  - vm_compute. reflexivity.
  - right. now left.
  - split; [reflexivity|]. exists (PDict []).
    repeat split; vm_compute; reflexivity.
  - now left.
  - vm_compute. lia.
  - reflexivity.
  - reflexivity.
  - right. now left.
  - now left.
  - reflexivity.
  - reflexivity.
  - vm_compute. reflexivity.
  - lia.
  - reflexivity.
  - apply satisfiesb_satisfies. vm_compute. reflexivity.
Defined.

Lemma works_day_value cx e d w sl a :
  works_day cx (of_hkey e) d = Ok w -> py_iter (c_sites cx) = Ok sl ->
  eval a w = worked_day a cx sl e d.
Proof.
  unfold works_day, worked_day. intros H Hsl. peel H. injection H as <-.
  rewrite eval_lsum. fold (zsum (map (eval a) v)).
  revert v E. induction (c_work_shifts cx) as [|s ws IH]; simpl; intros terms H.
  - injection H as <-. reflexivity.
  - inv_bind H. inv_bind H. injection H as <-. simpl.
    unfold zsum in *. simpl. rewrite (IH _ E0). f_equal.
    eapply works_shift_value; [eassumption | apply to_hkey_of_hkey | assumption].
Qed.

Lemma worked_day_nonneg a cx sl e d : zero_one a -> 0 <= worked_day a cx sl e d.
Proof.
  intro Ha. unfold worked_day, zsum.
  induction (c_work_shifts cx) as [|s ws IH]; simpl; [lia|].
  pose proof (works_value_nonneg a sl e d (of_hkey s) Ha). lia.
Qed.

Lemma zsum_has_zero {A} (f : A -> Z) l :
  (forall x, In x l -> 0 <= f x) ->
  zsum (map f l) < Z.of_nat (List.length l) ->
  exists x, In x l /\ f x = 0.
Proof.
  induction l as [|x l IH]; intros Hpos Hlt.
  - simpl in Hlt. lia.
  - destruct (Z.eq_dec (f x) 0) as [Hz | Hz].
    + exists x. split; [now left | assumption].
    + destruct IH as (y & Hy & Hfy).
      * intros y Hy. apply Hpos. now right.
      * pose proof (Hpos x (or_introl eq_refl)).
        change (zsum (map f (x :: l))) with (f x + zsum (map f l)) in Hlt.
        change (List.length (x :: l)) with (S (List.length l)) in Hlt. lia.
      * exists y. split; [now right | assumption].
Qed.

Lemma compile_kind_max_consecutive cx ci ctype data w emps :
  compile_kind cx ci (PStr "max_consecutive_work_days") ctype data w emps
  = compile_max_consecutive cx data emps.
Proof. reflexivity. Qed.

(** [max_consecutive_work_days]: in every solution of the compiled model,
    for an employee that the scope selects and every run of [max + 1]
    consecutive days inside the horizon, the employee's assignments over the
    run add up to at most [max]; so in a 0/1 solution at least one day of
    the run carries no work at all. *)
Theorem consecutive_work_bounded
  spec spec' cx m cl c data emps e mv mx start sl a :
  compile_model spec = (spec', Ok (cx, m)) ->
  constraints_of (c_spec cx) = Ok cl -> In c cl ->
  constraint_selects cx c "max_consecutive_work_days" data emps ->
  In e emps ->
  py_item data "max" = Ok mv -> py_int mv = Ok mx ->
  Z.of_nat start + mx + 1 <= Z.of_nat (n_days cx) ->
  py_iter (c_sites cx) = Ok sl ->
  satisfies a m ->
  zsum (map (worked_day a cx sl e) (range start (Z.of_nat start + (mx + 1))))
  <= mx
  /\ (zero_one a ->
      exists d, Z.of_nat start <= Z.of_nat d <= Z.of_nat start + mx /\
                worked_day a cx sl e d = 0).
Proof.
  intros Hm Hcl Hin Hsel He Hmv Hmx Hstart Hsl [_ Hrows].
  destruct (constraint_compiled _ _ _ _ _ _ _ _ _ Hm Hcl Hin Hsel)
    as (ci & ctype & weight & em & _ & _ & Hem & Hincl & _).
  rewrite compile_kind_max_consecutive in Hem.
  unfold compile_max_consecutive in Hem.
  rewrite Hmv in Hem. cbn [bind] in Hem. rewrite Hmx in Hem.
  cbn [bind] in Hem. cbv zeta in Hem.
  assert (Hday : forall e0 x a0 a',
             (terms <- map_r (fun d => works_day cx (of_hkey e0) d)
                             (range x (Z.of_nat x + (mx + 1))) ;;
              Ok (emit_row (RLe (lsum terms) (LConst mx)) a0)) = Ok a' ->
             extends a0 a').
  { intros e0 x a0 a' Hx. peel Hx. injection Hx as <-. auto with ext. }
  eapply for_each_iter in Hem; [| |exact He].
  2:{ intros x a0 a' _ Hx. eapply for_each_extends; [|exact Hx].
      intros y b b' _ Hy. now apply Hday in Hy. }
  destruct Hem as (a1 & a2 & Hbody & _ & X2).
  eapply (for_each_iter _ _ start) in Hbody;
    [| |unfold range; apply in_seq; lia].
  2:{ intros y b b' _ Hy. now apply Hday in Hy. }
  destruct Hbody as (b1 & b2 & Hbody & _ & X1).
  peel Hbody. injection Hbody as <-. rename v into terms.
  assert (Hrow : holds a (RLe (lsum terms) (LConst mx))).
  { rewrite Forall_forall in Hrows. apply Hrows, Hincl.
    eapply extends_rows; [exact X2|]. eapply extends_rows; [exact X1|].
    simpl. apply in_or_app. right. now left. }
  simpl in Hrow. rewrite eval_lsum in Hrow.
  fold (zsum (map (eval a) terms)) in Hrow.
  assert (Hval : zsum (map (eval a) terms)
                 = zsum (map (worked_day a cx sl e)
                           (range start (Z.of_nat start + (mx + 1))))).
  { clear Hrow X1. revert terms E.
    induction (range start (Z.of_nat start + (mx + 1))) as [|d l IH];
      simpl; intros terms H.
    - injection H as <-. reflexivity.
    - inv_bind H. inv_bind H. injection H as <-. simpl.
      unfold zsum in *. simpl. rewrite (IH _ E0). f_equal.
      eapply works_day_value; eassumption. }
  rewrite Hval in Hrow. split; [exact Hrow|].
  intro Ha.
  destruct (zsum_has_zero (worked_day a cx sl e)
              (range start (Z.of_nat start + (mx + 1)))) as (d & Hd & Hz).
  - intros x _. now apply worked_day_nonneg.
  - unfold range in *. rewrite length_seq.
    assert (0 <= zsum (map (worked_day a cx sl e)
                         (seq start (Z.to_nat (Z.of_nat start + (mx + 1)
                                               - Z.of_nat start))))).
    { apply zsum_nonneg. apply Forall_forall. intros z Hz.
      apply in_map_iff in Hz. destruct Hz as (x & <- & _).
      now apply worked_day_nonneg. }
    lia.
  - exists d. split; [|exact Hz].
    unfold range in Hd. apply in_seq in Hd.
    assert (0 <= mx).
    { destruct (Z_lt_le_dec mx 0) as [Hneg|]; [|assumption].
      replace (Z.to_nat (Z.of_nat start + (mx + 1) - Z.of_nat start))
        with 0%nat in Hd by lia. lia. }
    lia.
Qed.

Lemma consecutive_work_bounded_witness :
  zsum (map (worked_day two_nights cx_rota [PStr "SITE_DEFAULT"] (HStr "P1"))
          (range 0 (Z.of_nat 0 + (2 + 1))))
  <= 2
  /\ (zero_one two_nights ->
      exists d, Z.of_nat 0 <= Z.of_nat d <= Z.of_nat 0 + 2 /\
                worked_day two_nights cx_rota [PStr "SITE_DEFAULT"]
                  (HStr "P1") d = 0).
Proof.
  eapply (consecutive_work_bounded spec_rota _ cx_rota _ _ two_days_in_a_row
            (obj [("max", PInt 2)]) [HStr "P1"] (HStr "P1") (PInt 2) 2 0%nat).
  - vm_compute. reflexivity.
  - vm_compute. reflexivity.
  - right. right. now left.
  - split; [reflexivity|]. exists (PDict []).
    repeat split; vm_compute; reflexivity.
  - now left.
  - reflexivity.
  - reflexivity.
  - vm_compute. discriminate.
  - reflexivity.
  - apply satisfiesb_satisfies. vm_compute. reflexivity.
Defined.

Lemma compile_kind_min_days_off cx ci ctype data w emps :
  compile_kind cx ci (PStr "min_consecutive_days_off") ctype data w emps
  = compile_min_days_off cx ci data emps.
Proof. reflexivity. Qed.

Lemma start_off_rows_extends cx e v d acc acc' :
  start_off_rows cx e v d acc = Ok acc' -> extends acc acc'.
Proof.
  unfold start_off_rows. intro H. destruct d; peel H; injection H as <-;
    eauto using extends_trans with ext.
Qed.

(** In a solution, [start_off] is one on a day off that follows a working
    day or opens the horizon. *)
Lemma start_off_rows_force cx e v d acc acc' a :
  start_off_rows cx (of_hkey e) v d acc = Ok acc' ->
  (forall r, In r (e_rows acc') -> holds a r) ->
  a v <= 1 ->
  a (VOff e d) = 1 ->
  (d = 0%nat \/ exists d', d = S d' /\ a (VOff e d') = 0) ->
  a v = 1.
Proof.
  unfold start_off_rows. intros H Hrows Hle Hoff Hprev.
  destruct d as [|d'].
  - peel H. injection H as <-.
    destruct (off_var_ok _ _ _ _ E) as [-> _].
    specialize (Hrows (REq (LVar v) (LVar (VOff e 0)))).
    simpl in Hrows. rewrite Hrows; [assumption|].
    apply in_or_app. right. now left.
  - destruct Hprev as [Hz | (d0 & Hd0 & Hp)]; [discriminate|].
    injection Hd0 as <-.
    peel H. injection H as <-.
    destruct (off_var_ok _ _ _ _ E1) as [-> _].
    destruct (off_var_ok _ _ _ _ E2) as [-> _].
    specialize (Hrows (RGe (LVar v) (LSub (LVar (VOff e (S d'))) (LVar (VOff e d'))))).
    simpl in Hrows.
    assert (a v >= a (VOff e (S d')) - a (VOff e d')).
    { apply Hrows. apply in_or_app. right. now left. }
    lia.
Qed.

(** [min_consecutive_days_off]: in every solution of the compiled model,
    for an employee that the scope selects, a day off that opens the horizon
    or follows a day that is not off is followed by days off until [min]
    days are reached or the horizon ends. *)
Theorem days_off_come_in_blocks
  spec spec' cx m cl c data emps e mv k d j a :
  compile_model spec = (spec', Ok (cx, m)) ->
  constraints_of (c_spec cx) = Ok cl -> In c cl ->
  constraint_selects cx c "min_consecutive_days_off" data emps ->
  In e emps ->
  py_item data "min" = Ok mv -> py_int mv = Ok k ->
  (d < n_days cx)%nat ->
  satisfies a m ->
  a (VOff e d) = 1 ->
  (d = 0%nat \/ exists d', d = S d' /\ a (VOff e d') = 0) ->
  (d <= j)%nat -> Z.of_nat j < Z.of_nat d + k -> (j < n_days cx)%nat ->
  a (VOff e j) = 1.
Proof.
  intros Hm Hcl Hin Hsel He Hmv Hk Hd [Hdom Hrows] Hoff Hprev Hj1 Hj2 Hj3.
  destruct (constraint_compiled _ _ _ _ _ _ _ _ _ Hm Hcl Hin Hsel)
    as (ci & ctype & weight & em & _ & _ & Hem & Hincl & Hinclv).
  rewrite compile_kind_min_days_off in Hem.
  unfold compile_min_days_off in Hem.
  rewrite Hmv in Hem. cbn [bind] in Hem. rewrite Hk in Hem. cbn [bind] in Hem.
  set (enforce := fun (e : pyval) (v : var) (j : nat) (acc : emit) =>
         o <- off_var cx e j ;;
         Ok (emit_row (RIf v (REq o (LConst 1))) acc)) in *.
  set (day := fun (ie : nat * hkey) (d : nat) (acc : emit) =>
         let start_off := VAux ci "start_off" (fst ie) d in
         acc <- start_off_rows cx (of_hkey (snd ie)) start_off d
                  (emit_var (Decl start_off 0 1) acc) ;;
         for_each (range d (Z.min (Z.of_nat d + k) (Z.of_nat (n_days cx))))
           (enforce (of_hkey (snd ie)) start_off) acc).
  assert (Hshape :
            for_each (enumerate emps)
              (fun ie acc => for_each (seq 0 (n_days cx)) (day ie) acc) no_emit
            = Ok em).
  { rewrite <- Hem. reflexivity. }
  clear Hem.
  assert (Henf : forall e0 v x a0 a', enforce e0 v x a0 = Ok a' -> extends a0 a').
  { intros e0 v x a0 a' Hx. unfold enforce in Hx. peel Hx.
    injection Hx as <-. auto with ext. }
  assert (Hday : forall ie x a0 a', day ie x a0 = Ok a' -> extends a0 a').
  { intros ie x a0 a' Hx. unfold day in Hx. cbv zeta in Hx. peel Hx.
    apply start_off_rows_extends in E.
    eapply extends_trans; [apply extends_emit_var|].
    eapply extends_trans; [exact E|].
    eapply for_each_extends; [|exact Hx].
    intros y b b' _ Hy. now apply Henf in Hy. }
  destruct (In_nth_error _ _ He) as [i Hi]. apply in_enumerate in Hi.
  eapply for_each_iter in Hshape; [| |exact Hi].
  2:{ intros x a0 a' _ Hx. eapply for_each_extends; [|exact Hx].
      intros y b b' _ Hy. now apply Hday in Hy. }
  destruct Hshape as (a1 & a2 & Hbody & _ & X2).
  eapply (for_each_iter _ _ d) in Hbody; [| |apply in_seq; lia].
  2:{ intros y b b' _ Hy. now apply Hday in Hy. }
  destruct Hbody as (b1 & b2 & Hbody & _ & X1).
  unfold day in Hbody. cbv zeta in Hbody. cbn [fst snd] in Hbody.
  apply bind_ok in Hbody. destruct Hbody as [mid [Emid Hloop]].
  set (start_off := VAux ci "start_off" i d) in *.
  assert (Hall : forall r, In r (e_rows b2) -> holds a r).
  { intros r Hr. rewrite Forall_forall in Hrows. apply Hrows, Hincl.
    eapply extends_rows; [exact X2|]. eapply extends_rows; eassumption. }
  assert (Hloop_ext : extends mid b2).
  { eapply for_each_extends; [|exact Hloop].
    intros y b b' _ Hy. now apply Henf in Hy. }
  assert (Hle : a start_off <= 1).
  { rewrite Forall_forall in Hdom.
    assert (Hv : In (Decl start_off 0 1) (m_vars m)).
    { apply Hinclv. eapply extends_vars; [exact X2|].
      eapply extends_vars; [exact X1|].
      eapply extends_vars; [exact Hloop_ext|].
      eapply extends_vars;
        [eapply start_off_rows_extends; exact Emid|].
      simpl. apply in_or_app. right. now left. }
    specialize (Hdom _ Hv). unfold in_domain in Hdom. simpl in Hdom. lia. }
  assert (Hone : a start_off = 1).
  { eapply start_off_rows_force; try eassumption.
    intros r Hr. apply Hall. eapply extends_rows; eassumption. }
  eapply (for_each_iter _ _ j) in Hloop; [| |unfold range; apply in_seq; lia].
  2:{ intros y b b' _ Hy. now apply Henf in Hy. }
  destruct Hloop as (c1 & c2 & Hbody & _ & X0).
  unfold enforce in Hbody. peel Hbody. injection Hbody as <-.
  destruct (off_var_ok _ _ _ _ E) as [-> _].
  specialize (Hall (RIf start_off (REq (LVar (VOff e j)) (LConst 1)))).
  simpl in Hall. apply Hall; [|exact Hone].
  eapply extends_rows; [exact X0|]. simpl. apply in_or_app. right. now left.
Qed.

Lemma days_off_come_in_blocks_witness :
  night_then_rest (VOff (HStr "P1") 2) = 1.
Proof.
  eapply (days_off_come_in_blocks spec_rota _ cx_rota _ _ two_days_off
            (obj [("min", PInt 2)]) [HStr "P1"] (HStr "P1") (PInt 2) 2
            1%nat 2%nat night_then_rest).
  - vm_compute. reflexivity.
  - vm_compute. reflexivity.
  - right. right. right. now left.
  - split; [reflexivity|]. exists (PDict []).
    repeat split; vm_compute; reflexivity.
  - now left.
  - reflexivity.
  - reflexivity.
  - vm_compute. lia.
  - apply satisfiesb_satisfies. vm_compute. reflexivity.
  - reflexivity.
  - right. exists 0%nat. split; reflexivity.
  - lia.
  - lia.
  - vm_compute. lia.
Defined.

(** ** The decision variables *)

Lemma for_each_flat {A B} (body : A -> list B -> result (list B))
  (g : A -> list B) l :
  (forall x acc acc', In x l -> body x acc = Ok acc' -> acc' = acc ++ g x) ->
  forall acc acc', for_each l body acc = Ok acc' -> acc' = acc ++ flat_map g l.
Proof.
  induction l as [|x l IH]; simpl; intros Hb acc acc' H.
  - injection H as <-. now rewrite app_nil_r.
  - inv_bind H. rewrite (IH (fun y a a' Hy => Hb y a a' (or_intror Hy)) _ _ H).
    rewrite (Hb x acc v (or_introl eq_refl) E). now rewrite app_assoc.
Qed.

Lemma for_each_ran {A S} (body : A -> S -> result S) l x s s' :
  for_each l body s = Ok s' -> In x l -> exists s1 s2, body x s1 = Ok s2.
Proof.
  revert s. induction l as [|y l IH]; simpl; intros s H Hin; [contradiction|].
  inv_bind H. destruct Hin as [-> | Hin]; eauto.
Qed.

Lemma hk_ok v h : to_hkey v = Ok h -> hk v = h.
Proof. unfold hk. now intros ->. Qed.

Lemma flat_map_singleton {A B} (f : A -> B) l :
  flat_map (fun x => [f x]) l = map f l.
Proof. induction l; simpl; congruence. Qed.

Lemma declare_vars_list el n ws sites vars :
  declare_vars el n ws sites = Ok vars ->
  vars = declared_list el n ws (iter_or_nil sites).
Proof.
  unfold declare_vars, declared_list. intro H.
  set (g_site := fun (he : hkey) (d : nat) (s : hkey) (site : pyval) =>
         [Decl (VX he d s (hk site)) 0 1]).
  set (g_shift := fun (he : hkey) (d : nat) (s : hkey) =>
         map (fun site => Decl (VX he d s (hk site)) 0 1) (iter_or_nil sites)).
  set (g_day := fun (e : pyval) (d : nat) =>
         Decl (VOff (hk e) d) 0 1 :: flat_map (g_shift (hk e) d) ws).
  set (g_emp := fun (e : pyval) => flat_map (g_day e) (seq 0 n)).
  change (vars = flat_map g_emp el).
  apply (for_each_flat _ g_emp) in H; [exact H|].
  intros e acc acc' _ He.
  apply (for_each_flat _ (g_day e)) in He; [exact He|].
  intros d acc1 acc1' _ Hd. peel Hd. unfold g_day. rewrite (hk_ok _ _ E).
  apply (for_each_flat _ (g_shift v d)) in Hd.
  - rewrite Hd, <- app_assoc. reflexivity.
  - intros s acc2 acc2' _ Hs. peel Hs. unfold g_shift, iter_or_nil. rewrite E0.
    rewrite <- flat_map_singleton.
    apply (for_each_flat _ (g_site v d s)) in Hs; [exact Hs|].
    intros site acc3 acc3' _ Hsite. peel Hsite. injection Hsite as <-.
    unfold g_site. now rewrite (hk_ok _ _ E1).
Qed.

Lemma build_context_vars spec em dy sh st sd cx cl :
  build_context spec em dy sh st sd = Ok (cx, cl) ->
  declare_vars (c_employees cx) (n_days cx) (c_work_shifts cx) (c_sites cx)
  = Ok (c_declared cx).
Proof.
  unfold build_context. intro H. peel H. injection H as <- _.
  unfold n_days. simpl. assumption.
Qed.

Lemma declared_in cx v :
  declared cx v = true <-> exists d, In d (c_declared cx) /\ d_var d = v.
Proof.
  unfold declared. rewrite existsb_exists. split.
  - intros (d & Hd & Hv). apply var_eqb_eq in Hv. eauto.
  - intros (d & Hd & Hv). exists d. split; [assumption|].
    apply var_eqb_eq. congruence.
Qed.

Lemma declared_called_for spec em dy sh st sd cx cl :
  build_context spec em dy sh st sd = Ok (cx, cl) ->
  forall v, declared cx v = true <-> called_for cx v.
Proof.
  intros Hb v.
  pose proof (build_context_vars _ _ _ _ _ _ _ _ Hb) as Hv.
  pose proof (declare_vars_list _ _ _ _ _ Hv) as Hl.
  rewrite declared_in. rewrite Hl. unfold declared_list. split.
  - intros (dcl & Hin & <-).
    apply in_flat_map in Hin. destruct Hin as (e & He & Hin).
    apply in_flat_map in Hin. destruct Hin as (d & Hd & Hin).
    apply in_seq in Hd.
    destruct (for_each_ran _ _ e _ _ Hv He) as (s1 & s2 & Hrun).
    destruct (for_each_ran _ _ d _ _ Hrun) as (t1 & t2 & Hrun2);
      [apply in_seq; lia|].
    cbv beta in Hrun2. apply bind_ok in Hrun2.
    destruct Hrun2 as [he [Ehe Hrun2]]. rewrite (hk_ok _ _ Ehe) in Hin.
    destruct Hin as [<- | Hin].
    + simpl. split; [eauto | lia].
    + apply in_flat_map in Hin. destruct Hin as (s & Hs & Hin).
      apply in_map_iff in Hin. destruct Hin as (site & <- & Hsite).
      destruct (for_each_ran _ _ s _ _ Hrun2 Hs) as (u1 & u2 & Hrun3).
      cbv beta in Hrun3. apply bind_ok in Hrun3.
      destruct Hrun3 as [sl [Esl Hrun3]].
      unfold iter_or_nil in Hsite. rewrite Esl in Hsite.
      destruct (for_each_ran _ _ site _ _ Hrun3 Hsite) as (w1 & w2 & Hrun4).
      cbv beta in Hrun4. apply bind_ok in Hrun4.
      destruct Hrun4 as [ht [Eht _]]. rewrite (hk_ok _ _ Eht).
      simpl. split; [eauto|]. split; [lia|]. split; [assumption|].
      exists sl, site. auto.
  - destruct v as [e d | e d s site | ? ? ? ?]; simpl; [| |contradiction].
    + intros [(pe & Hpe & Hk) Hd].
      exists (Decl (VOff e d) 0 1). split; [|reflexivity].
      apply in_flat_map. exists pe. split; [assumption|].
      apply in_flat_map. exists d. split; [apply in_seq; lia|].
      left. now rewrite (hk_ok _ _ Hk).
    + intros [(pe & Hpe & Hk) (Hd & Hs & sl & ps & Hsl & Hps & Hks)].
      exists (Decl (VX e d s site) 0 1). split; [|reflexivity].
      apply in_flat_map. exists pe. split; [assumption|].
      apply in_flat_map. exists d. split; [apply in_seq; lia|].
      right. apply in_flat_map. exists s. split; [assumption|].
      apply in_map_iff. exists ps. unfold iter_or_nil. rewrite Hsl.
      split; [|assumption].
      now rewrite (hk_ok _ _ Hk), (hk_ok _ _ Hks).
Qed.

(** The decision variables of a compiled model are exactly an [off]
    variable for every employee and day and an [x] variable for every
    employee, day, work shift and site; [OFF] is not a work shift, so no
    [x] variable stands for it; and every one of them is Boolean. *)
Theorem decision_variables spec spec' cx m :
  compile_model spec = (spec', Ok (cx, m)) ->
  (forall v, declared cx v = true <-> called_for cx v)
  /\ ~ In (HStr "OFF") (c_work_shifts cx)
  /\ Forall (fun d => d_lo d = 0 /\ d_hi d = 1) (c_declared cx)
  /\ incl (c_declared cx) (m_vars m).
Proof.
  intro H.
  destruct (compile_model_ok _ _ _ _ H)
    as (em0 & dy & sh & st & sd & cl & dem & cons & _ & Hb & _ & _ & ->).
  pose proof (build_context_vars _ _ _ _ _ _ _ _ Hb) as Hv.
  pose proof (declare_vars_list _ _ _ _ _ Hv) as Hl.
  split; [|split; [|split]].
  - eapply declared_called_for; eassumption.
  - eapply work_shifts_not_off; eassumption.
  - rewrite Hl. unfold declared_list. apply Forall_forall. intros dcl Hin.
    apply in_flat_map in Hin. destruct Hin as (e & _ & Hin).
    apply in_flat_map in Hin. destruct Hin as (d & _ & Hin).
    destruct Hin as [<- | Hin]; [auto|].
    apply in_flat_map in Hin. destruct Hin as (s & _ & Hin).
    apply in_map_iff in Hin. destruct Hin as (site & <- & _). auto.
  - intros d Hd. simpl. apply in_or_app. now left.
Qed.

Lemma decision_variables_witness :
  (forall v, declared cx_rota v = true <-> called_for cx_rota v)
  /\ ~ In (HStr "OFF") (c_work_shifts cx_rota)
  /\ Forall (fun d => d_lo d = 0 /\ d_hi d = 1) (c_declared cx_rota)
  /\ incl (c_declared cx_rota)
          (m_vars (match snd (compile_model spec_rota) with
                   | Ok (_, m) => m
                   | Raise _ => CpModel [] [] (LConst 0)
                   end)).
Proof.
  eapply (decision_variables spec_rota _ cx_rota).
  vm_compute. reflexivity.
Defined.

(** * Errors of the compiler, as [/solve] answers them *)

Lemma py_get_setitem_other spec spec' k v key dflt :
  py_setitem spec (HStr k) v = Ok spec' -> key <> k ->
  py_get spec' key dflt = py_get spec key dflt.
Proof.
  intros H Hne. destruct spec; simpl in H; try discriminate.
  injection H as <-. simpl. rewrite dict_lookup_set.
  simpl. destruct (String.eqb key k) eqn:E; [|reflexivity].
  apply String.eqb_eq in E. contradiction.
Qed.

(** The prelude changes nothing of the spec but [shifts]. *)
Lemma prelude_keeps spec spec' parts key dflt :
  prelude spec = Ok (spec', parts) -> key <> "shifts" ->
  py_get spec' key dflt = py_get spec key dflt.
Proof.
  unfold prelude. intros H Hne.
  apply bind_ok in H. destruct H as [sets [_ H]].
  apply bind_ok in H. destruct H as [x1 [_ H]].
  apply bind_ok in H. destruct H as [x2 [_ H]].
  apply bind_ok in H. destruct H as [x3 [_ H]].
  apply bind_ok in H. destruct H as [x4 [_ H]].
  apply bind_ok in H. destruct H as [defs [_ H]].
  apply bind_ok in H. destruct H as [has_off [_ H]].
  destruct (negb has_off); [discriminate|].
  apply bind_ok in H. destruct H as [[s2 sd2] [Eoff H]].
  injection H as <- _.
  unfold default_off in Eoff. peel Eoff.
  - injection Eoff as <- _. reflexivity.
  - injection Eoff as <- _. eapply py_get_setitem_other; eassumption.
  - injection Eoff as <- _. reflexivity.
Qed.

Lemma check_kinds_raises pre c post kind :
  check_kinds pre = Ok tt ->
  py_get c "kind" PNone = Ok kind -> kind_allowed kind = Ok false ->
  check_kinds (pre ++ c :: post) = Raise ValueError.
Proof.
  unfold check_kinds. intros Hpre Hk Ha.
  rewrite for_each_app, Hpre. cbn [bind for_each].
  rewrite Hk. cbn [bind]. rewrite Ha. reflexivity.
Qed.

(** A constraint whose [kind] is not one of the supported kinds is refused
    with [ValueError], answered by [/solve] with status 400, before the
    days, the shifts, the employees, the demand or any other constraint is
    looked at: it is enough that the sets are there with [OFF] among the
    shifts and that the constraints listed before it have supported
    kinds. *)
Theorem unsupported_kind_rejected
  solver spec spec' parts pre c post kind max_time workers :
  prelude spec = Ok (spec', parts) ->
  constraints_of spec = Ok (pre ++ c :: post) ->
  check_kinds pre = Ok tt ->
  py_get c "kind" PNone = Ok kind -> kind_allowed kind = Ok false ->
  compile_and_solve solver spec max_time workers = (spec', Raise ValueError)
  /\ solve solver spec max_time workers
     = (spec', HTTPException 400 ErrorText).
Proof.
  intros Hp Hcl Hpre Hk Ha.
  assert (H : compile_and_solve solver spec max_time workers
              = (spec', Raise ValueError)).
  { unfold compile_and_solve, compile_model. rewrite Hp.
    destruct parts as [[[[em dy] sh] st] sd].
    unfold build_model, build_context.
    unfold constraints_of in Hcl.
    rewrite (prelude_keeps _ _ _ "constraints" (PList []) Hp) by discriminate.
    apply bind_ok in Hcl. destruct Hcl as [cv [-> Hcl]]. cbn [bind].
    rewrite Hcl. cbn [bind].
    rewrite (check_kinds_raises _ _ _ _ Hpre Hk Ha). reflexivity. }
  split; [exact H|]. unfold solve. rewrite H. reflexivity.
Qed.

Lemma unsupported_kind_rejected_witness :
  snd (compile_and_solve solver_all_off spec_unknown_kind 15 8)
  = Raise ValueError
  /\ snd (solve solver_all_off spec_unknown_kind 15 8)
     = HTTPException 400 ErrorText.
Proof.
  destruct (unsupported_kind_rejected solver_all_off spec_unknown_kind
              spec_unknown_kind
              (str_list ["P1"], PInt 7, str_list ["OFF"; "M"],
               str_list ["SITE_DEFAULT"], obj [("OFF", OFF_DEFAULT)])
              [no_night_then_morning] weekly_rest [] (PStr "weekly_rest") 15 8)
    as [H1 H2]; try reflexivity.
  rewrite H1, H2. split; reflexivity.
Defined.

(** What [/solve] answers when the first statements of the compiler fail: a
    spec without [sets], or whose [sets] lacks [employees], [days] or
    [shifts], gets status 400 with [Missing field]; sets whose [shifts] do
    not hold [OFF] get status 400 with the text of the [ValueError]; and a
    spec whose [constraints] is [null] gets status 500, the loop over the
    constraints raising [TypeError].  The spec object is not changed in the
    first three cases. *)
Theorem solve_rejects_incomplete_spec solver max_time workers :
  (forall kvs,
      dict_lookup (HStr "sets") kvs = None ->
      solve solver (PDict kvs) max_time workers
      = (PDict kvs, HTTPException 400 MissingField))
  /\ (forall spec sets key,
         py_item spec "sets" = Ok (PDict sets) ->
         In key ["employees"; "days"; "shifts"] ->
         dict_lookup (HStr key) sets = None ->
         solve solver spec max_time workers
         = (spec, HTTPException 400 MissingField))
  /\ (forall spec sets e d sh,
         py_item spec "sets" = Ok sets ->
         py_item sets "employees" = Ok e -> py_item sets "days" = Ok d ->
         py_item sets "shifts" = Ok sh ->
         has_key sh "OFF" = Ok false ->
         solve solver spec max_time workers
         = (spec, HTTPException 400 ErrorText))
  /\ (forall spec spec' parts,
         prelude spec = Ok (spec', parts) ->
         py_get spec "constraints" (PList []) = Ok PNone ->
         solve solver spec max_time workers
         = (spec', HTTPException 500 InternalError)).
Proof.
  split; [|split; [|split]].
  - intros kvs H. unfold solve, compile_and_solve, compile_model, prelude.
    simpl. rewrite H. reflexivity.
  - intros spec sets key Hs Hk Hnone.
    unfold solve, compile_and_solve, compile_model, prelude.
    rewrite Hs. cbn [bind].
    assert (Hitem : forall k, py_item (PDict sets) k
                              = match dict_lookup (HStr k) sets with
                                | Some v => Ok v
                                | None => Raise KeyError
                                end) by reflexivity.
    rewrite !Hitem.
    destruct Hk as [<- | [<- | [<- | []]]]; rewrite Hnone.
    + reflexivity.
    + destruct (dict_lookup (HStr "employees") sets); reflexivity.
    + destruct (dict_lookup (HStr "employees") sets); [|reflexivity].
      destruct (dict_lookup (HStr "days") sets); reflexivity.
  - intros spec sets e d sh Hs He Hd Hsh Hoff.
    unfold solve, compile_and_solve, compile_model, prelude.
    rewrite Hs. cbn [bind]. rewrite He. cbn [bind]. rewrite Hd. cbn [bind].
    rewrite Hsh. cbn [bind].
    destruct sets; try discriminate He.
    destruct spec; try discriminate Hs.
    cbn [py_get bind]. rewrite Hoff. reflexivity.
  - intros spec spec' parts Hp Hc.
    unfold solve, compile_and_solve, compile_model. rewrite Hp.
    destruct parts as [[[[em dy] sh] st] sd].
    unfold build_model, build_context.
    rewrite (prelude_keeps _ _ _ "constraints" (PList []) Hp) by discriminate.
    rewrite Hc. reflexivity.
Qed.

Lemma in_list_off cx spec em dy sh st sd cl s :
  build_context spec em dy sh st sd = Ok (cx, cl) ->
  is_str s "OFF" = true -> in_list s (c_work_shifts cx) = false.
Proof.
  intros Hb Hs. destruct s; try discriminate. simpl in Hs.
  apply String.eqb_eq in Hs. subst.
  unfold in_list. simpl.
  destruct (mem (HStr "OFF") (c_work_shifts cx)) eqn:E; [|reflexivity].
  apply mem_In in E. exfalso.
  eapply work_shifts_not_off; eassumption.
Qed.

(** A demand entry for [OFF], or for any shift that is not a work shift, is
    refused with [ValueError], answered by [/solve] with status 400, once
    its day is a known day, the sites are not empty and the entries before
    it compile. *)
Theorem demand_for_non_work_shift_rejected
  solver spec spec' cx pre req post d s site0 max_time workers :
  reaches_demand spec spec' cx pre req post ->
  (dv <- py_item req "day" ;; day_index cx dv) = Ok d ->
  py_item req "shift" = Ok s ->
  py_first (c_sites cx) = Ok site0 ->
  is_str s "OFF" = true \/ in_list s (c_work_shifts cx) = false ->
  compile_and_solve solver spec max_time workers = (spec', Raise ValueError)
  /\ solve solver spec max_time workers
     = (spec', HTTPException 400 ErrorText).
Proof.
  intros (em & dy & sh & st & sd & cl & acc & Hp & Hb & Hdl & Hpre)
         Hd Hs Hsite Hbad.
  assert (Hnw : in_list s (c_work_shifts cx) = false).
  { destruct Hbad as [Hoff | Hnw]; [|exact Hnw].
    eapply in_list_off; eassumption. }
  assert (H : compile_and_solve solver spec max_time workers
              = (spec', Raise ValueError)).
  { unfold compile_and_solve, compile_model. rewrite Hp.
    unfold build_model. rewrite Hb. cbn [bind].
    unfold compile_demand. rewrite Hdl. cbn [bind].
    rewrite for_each_app, Hpre. cbn [bind for_each].
    unfold compile_demand_entry at 1.
    apply bind_ok in Hd. destruct Hd as [dv [Edv Hd]].
    rewrite Edv. cbn [bind]. rewrite Hd. cbn [bind].
    rewrite Hs. cbn [bind]. rewrite Hsite. cbn [bind].
    destruct req; try discriminate Hs. cbn [py_get bind].
    rewrite Hnw. reflexivity. }
  split; [exact H|]. unfold solve. rewrite H. reflexivity.
Qed.

Lemma demand_for_non_work_shift_rejected_witness :
  compile_and_solve solver_all_off spec_demand_off 15 8
  = (spec_demand_off, Raise ValueError)
  /\ solve solver_all_off spec_demand_off 15 8
     = (spec_demand_off, HTTPException 400 ErrorText).
Proof.
  eapply (demand_for_non_work_shift_rejected solver_all_off spec_demand_off
            spec_demand_off _ [demand_one_morning]
            demand_on_off [] 0%nat (PStr "OFF") (PStr "SITE_DEFAULT")).
  - unfold reaches_demand. do 7 eexists.
    split; [vm_compute; reflexivity|].
    split; [vm_compute; reflexivity|].
    split; vm_compute; reflexivity.
  - vm_compute. reflexivity.
  - reflexivity.
  - vm_compute. reflexivity.
  - left. reflexivity.
Defined.

(** A constraint of one of the four penalty kinds whose [type] is not
    [soft] is refused with [ValueError], answered by [/solve] with status
    400, whatever its payload is and whomever its scope selects, once
    compilation gets as far as the constraint, its weight converts to an
    integer and its scope can be evaluated. *)
Theorem soft_kind_must_be_soft
  solver spec spec' cx pre c post cid ctype kind weight scope emps
  max_time workers :
  reaches_constraint spec spec' cx pre c post ->
  py_item c "id" = Ok cid -> py_item c "type" = Ok ctype ->
  is_str ctype "soft" = false ->
  py_item c "kind" = Ok (PStr kind) -> In kind SOFT_KINDS ->
  constraint_weight c = Ok weight ->
  constraint_scope c = Ok scope ->
  select_employees_by_scope (c_spec cx) scope = Ok emps ->
  compile_and_solve solver spec max_time workers = (spec', Raise ValueError)
  /\ solve solver spec max_time workers
     = (spec', HTTPException 400 ErrorText).
Proof.
  intros (em & dy & sh & st & sd & dem & acc & Hp & Hb & Hd & Hpre)
         Hid Hty Hsoft Hk Hkind Hw Hs Hsel.
  assert (Hc : compile_constraint cx (List.length pre) c = Raise ValueError).
  { unfold compile_constraint.
    rewrite Hid. cbn [bind]. rewrite Hty. cbn [bind]. rewrite Hk. cbn [bind].
    rewrite Hs. cbn [bind].
    assert (Hdata : exists data, constraint_data c = Ok data).
    { unfold constraint_data. destruct c; try discriminate Hid.
      cbn [py_get bind]. eauto. }
    destruct Hdata as [data ->]. cbn [bind].
    rewrite Hw. cbn [bind]. rewrite Hsel. cbn [bind].
    destruct Hkind as [<- | [<- | [<- | [<- | []]]]].
    - change (compile_penalize_days cx (List.length pre) ctype data weight emps
              = Raise ValueError).
      unfold compile_penalize_days. now rewrite Hsoft.
    - change (compile_penalize_shifts cx (List.length pre) ctype data weight emps
              = Raise ValueError).
      unfold compile_penalize_shifts. now rewrite Hsoft.
    - change (compile_unmet_day_off cx (List.length pre) ctype data weight emps
              = Raise ValueError).
      unfold compile_unmet_day_off. now rewrite Hsoft.
    - change (compile_fair cx (List.length pre) ctype data weight emps
              = Raise ValueError).
      unfold compile_fair. now rewrite Hsoft. }
  assert (H : compile_and_solve solver spec max_time workers
              = (spec', Raise ValueError)).
  { unfold compile_and_solve, compile_model. rewrite Hp.
    unfold build_model. rewrite Hb. cbn [bind]. rewrite Hd. cbn [bind].
    rewrite (compile_constraints_raise _ _ _ _ _ ValueError Hpre Hc).
    reflexivity. }
  split; [exact H|]. unfold solve. rewrite H. reflexivity.
Qed.

Lemma soft_kind_must_be_soft_witness :
  compile_and_solve solver_all_off spec_hard_penalty 15 8
  = (spec_hard_penalty, Raise ValueError)
  /\ solve solver_all_off spec_hard_penalty 15 8
     = (spec_hard_penalty, HTTPException 400 ErrorText).
Proof.
  eapply (soft_kind_must_be_soft solver_all_off spec_hard_penalty
            spec_hard_penalty _ [] hard_penalty [] (PStr "p") (PStr "hard")
            "penalize_work_on_shifts" 3 (PDict []) [HStr "P1"]).
  - unfold reaches_constraint. do 7 eexists.
    split; [vm_compute; reflexivity|].
    split; [vm_compute; reflexivity|].
    split; vm_compute; reflexivity.
  - reflexivity.
  - reflexivity.
  - reflexivity.
  - reflexivity.
  - right. now left.
  - reflexivity.
  - reflexivity.
  - vm_compute. reflexivity.
Defined.

(** An [exactly_one_assignment_per_day] constraint whose scope selects an
    id that is not one of [sets.employees] is refused with [KeyError],
    answered by [/solve] with status 400 and [Missing field], once the
    horizon has a day and the rows of the employees selected before it can
    be built: the explicit list of a scope is not checked against the
    sets. *)
Theorem unknown_scope_employee_rejected
  solver spec spec' cx pre c post cid ctype weight scope data counted
  known e rest acc max_time workers :
  reaches_constraint spec spec' cx pre c post ->
  py_item c "id" = Ok cid -> py_item c "type" = Ok ctype ->
  py_item c "kind" = Ok (PStr "exactly_one_assignment_per_day") ->
  constraint_scope c = Ok scope -> constraint_data c = Ok data ->
  constraint_weight c = Ok weight ->
  select_employees_by_scope (c_spec cx) scope = Ok (known ++ e :: rest) ->
  counted_work cx data = Ok counted ->
  exactly_one_rows cx counted known no_emit = Ok acc ->
  (1 <= n_days cx)%nat ->
  (forall pe, In pe (c_employees cx) -> to_hkey pe <> Ok e) ->
  compile_and_solve solver spec max_time workers = (spec', Raise KeyError)
  /\ solve solver spec max_time workers
     = (spec', HTTPException 400 MissingField).
Proof.
  intros (em & dy & sh & st & sd & dem & acc0 & Hp & Hb & Hd & Hpre)
         Hid Hty Hk Hs Hdata Hw Hsel Hcount Hknown Hn Hnot.
  assert (Hoff : off_var cx (of_hkey e) 0 = Raise KeyError).
  { unfold off_var. rewrite to_hkey_of_hkey. cbn [bind].
    destruct (declared cx (VOff e 0)) eqn:E; [|reflexivity].
    apply (declared_called_for _ _ _ _ _ _ _ _ Hb) in E.
    destruct E as [(pe & Hpe & Hke) _]. exfalso. eapply Hnot; eassumption. }
  assert (Hc : compile_constraint cx (List.length pre) c = Raise KeyError).
  { unfold compile_constraint.
    rewrite Hid. cbn [bind]. rewrite Hty. cbn [bind]. rewrite Hk. cbn [bind].
    rewrite Hs. cbn [bind]. rewrite Hdata. cbn [bind].
    rewrite Hw. cbn [bind]. rewrite Hsel. cbn [bind].
    rewrite compile_kind_exactly_one. unfold compile_exactly_one.
    rewrite Hcount. cbn [bind].
    unfold exactly_one_rows in Hknown.
    rewrite for_each_app, Hknown. cbn [bind for_each].
    destruct (n_days cx) as [|n]; [lia|].
    cbn [seq for_each]. unfold exactly_one_row at 1.
    rewrite Hoff. reflexivity. }
  assert (H : compile_and_solve solver spec max_time workers
              = (spec', Raise KeyError)).
  { unfold compile_and_solve, compile_model. rewrite Hp.
    unfold build_model. rewrite Hb. cbn [bind]. rewrite Hd. cbn [bind].
    rewrite (compile_constraints_raise _ _ _ _ _ KeyError Hpre Hc).
    reflexivity. }
  split; [exact H|]. unfold solve. rewrite H. reflexivity.
Qed.

Lemma unknown_scope_employee_rejected_witness :
  compile_and_solve solver_all_off spec_stranger 15 8
  = (spec_stranger, Raise KeyError)
  /\ solve solver_all_off spec_stranger 15 8
     = (spec_stranger, HTTPException 400 MissingField).
Proof.
  eapply (unknown_scope_employee_rejected solver_all_off spec_stranger
            spec_stranger _ [] one_per_day_with_stranger [] (PStr "one")
            (PStr "hard") 0 (obj [("employees", str_list ["P1"; "ZZ"])])
            (PDict []) [PStr "M"] [HStr "P1"] (HStr "ZZ") []).
  - unfold reaches_constraint. do 7 eexists.
    split; [vm_compute; reflexivity|].
    split; [vm_compute; reflexivity|].
    split; vm_compute; reflexivity.
  - reflexivity.
  - reflexivity.
  - reflexivity.
  - reflexivity.
  - reflexivity.
  - reflexivity.
  - vm_compute. reflexivity.
  - vm_compute. reflexivity.
  - vm_compute. reflexivity.
  - vm_compute. lia.
  - intros pe [<- | []]. discriminate.
Defined.

(** * Penalties and the objective *)

Lemma eval_objective_of a ps :
  eval a (objective_of ps) = zsum (map (eval a) ps).
Proof.
  destruct ps as [|p ps]; [reflexivity|].
  unfold objective_of. apply eval_lsum.
Qed.

(** The penalty terms of a constraint are terms of the objective, which is
    the sum of all penalty terms. *)
Lemma constraint_penalties spec spec' cx m cl c kind data emps :
  compile_model spec = (spec', Ok (cx, m)) ->
  constraints_of (c_spec cx) = Ok cl -> In c cl ->
  constraint_selects cx c kind data emps ->
  exists ci ctype weight em ps,
    py_item c "type" = Ok ctype /\ constraint_weight c = Ok weight /\
    compile_kind cx ci (PStr kind) ctype data weight emps = Ok em /\
    incl (e_rows em) (m_rows m) /\ incl (e_vars em) (m_vars m) /\
    incl (e_penalties em) ps /\
    forall a, eval a (m_objective m) = zsum (map (eval a) ps).
Proof.
  intros H Hcl Hin (Hk & scope & Hs & Hd & Hsel).
  destruct (compile_model_ok _ _ _ _ H)
    as (em0 & dy & sh & st & sd & cl' & dem & cons & _ & Hb & _ & Hc & ->).
  destruct (build_context_spec _ _ _ _ _ _ _ _ Hb) as (Hsp & Hcl' & _).
  rewrite Hsp in Hcl. rewrite Hcl in Hcl'. injection Hcl' as <-.
  destruct (In_nth_error _ _ Hin) as [ci Hn].
  apply in_enumerate in Hn.
  unfold compile_constraints in Hc.
  eapply for_each_iter in Hc; [| |exact Hn].
  2:{ intros x a a' _ Hx. peel Hx. injection Hx as <-. auto with ext. }
  destruct Hc as (a1 & a2 & Hbody & _ & Hext).
  cbn [fst snd] in Hbody. peel Hbody. injection Hbody as <-.
  rename v into em. unfold compile_constraint in E.
  apply bind_ok in E. destruct E as [cid [_ E]].
  apply bind_ok in E. destruct E as [ctype [Ety E]].
  apply bind_ok in E. destruct E as [kind' [Ek E]].
  apply bind_ok in E. destruct E as [scope' [Es E]].
  apply bind_ok in E. destruct E as [data' [Ed E]].
  apply bind_ok in E. destruct E as [weight [Ew E]].
  apply bind_ok in E. destruct E as [emps' [Ee E]].
  rewrite Hk in Ek. injection Ek as <-.
  rewrite Hs in Es. injection Es as <-.
  rewrite Hd in Ed. injection Ed as <-.
  rewrite Hsel in Ee. injection Ee as <-.
  exists ci, ctype, weight, em, (e_penalties (emit_app dem cons)).
  repeat split; try assumption.
  - intros r Hr. simpl. apply in_or_app. right.
    eapply extends_rows; [exact Hext|]. simpl. apply in_or_app. now right.
  - intros d Hdv. simpl. apply in_or_app. right. apply in_or_app. right.
    eapply extends_vars; [exact Hext|]. simpl. apply in_or_app. now right.
  - intros p Hp. simpl. apply in_or_app. right.
    eapply extends_penalties; [exact Hext|]. simpl. apply in_or_app. now right.
  - intro a. apply eval_objective_of.
Qed.

Lemma map_r_nth {A B} (f : A -> result B) l r j x y :
  map_r f l = Ok r -> nth_error l j = Some x -> f x = Ok y ->
  nth_error r j = Some y.
Proof.
  revert r j. induction l as [|z l IH]; intros r j H Hj Hy;
    [destruct j; discriminate|].
  simpl in H. inv_bind H. inv_bind H. injection H as <-.
  destruct j as [|j]; simpl in Hj |- *.
  - injection Hj as ->. congruence.
  - eapply IH; eassumption.
Qed.

Lemma compile_kind_unmet cx ci ctype data w emps :
  compile_kind cx ci (PStr "penalize_unmet_day_off_requests") ctype data w emps
  = compile_unmet_day_off cx ci ctype data w emps.
Proof. reflexivity. Qed.

(** [penalize_unmet_day_off_requests]: the objective of the compiled model
    is a sum of penalty terms, and for every employee that the scope selects
    and every requested day one of them is, in every solution, the weight of
    the constraint when the employee is not off that day and zero when the
    employee is. *)
Theorem unmet_day_off_costs_weight
  spec spec' cx m cl c data emps e weight dv dl name d :
  compile_model spec = (spec', Ok (cx, m)) ->
  constraints_of (c_spec cx) = Ok cl -> In c cl ->
  constraint_selects cx c "penalize_unmet_day_off_requests" data emps ->
  constraint_weight c = Ok weight ->
  In e emps ->
  py_get data "days" PNone = Ok dv -> py_iter dv = Ok dl -> In name dl ->
  day_index cx name = Ok d ->
  exists ps t,
    (forall a, eval a (m_objective m) = zsum (map (eval a) ps)) /\
    In t ps /\
    forall a, satisfies a m -> eval a t = weight * (1 - a (VOff e d)).
Proof.
  intros Hm Hcl Hin Hsel Hw He Hdv Hdl Hname Hd.
  destruct (constraint_penalties _ _ _ _ _ _ _ _ _ Hm Hcl Hin Hsel)
    as (ci & ctype & weight' & em & ps & _ & Hw' & Hem & Hincl & _ & Hpen & Hobj).
  rewrite Hw in Hw'. injection Hw' as <-.
  rewrite compile_kind_unmet in Hem. unfold compile_unmet_day_off in Hem.
  destruct (negb (is_str ctype "soft")); [discriminate|].
  rewrite Hdv in Hem. cbn [bind] in Hem.
  assert (Hem' : exists target_days,
             map_r (day_index cx) dl = Ok target_days /\
             for_each (enumerate emps)
               (fun ie acc =>
                  for_each (enumerate target_days)
                    (fun jd acc =>
                       let unmet := VAux ci "unmet" (fst ie) (fst jd) in
                       let acc := emit_var (Decl unmet 0 1) acc in
                       o <- off_var cx (of_hkey (snd ie)) (snd jd) ;;
                       let acc :=
                         emit_row (REq (LVar unmet) (LSub (LConst 1) o)) acc in
                       Ok (emit_penalty (LScale weight (LVar unmet)) acc))
                    acc)
               no_emit = Ok em).
  { destruct dv; try discriminate Hem; rewrite Hdl in Hem; cbn [bind] in Hem;
      apply bind_ok in Hem; destruct Hem as [td [Etd Hem]]; eauto. }
  clear Hem. destruct Hem' as (target_days & Htd & Hem).
  assert (Hcell : forall ie jd a0 a',
             (let unmet := VAux ci "unmet" (fst ie) (fst jd) in
              let acc := emit_var (Decl unmet 0 1) a0 in
              o <- off_var cx (of_hkey (snd ie)) (snd jd) ;;
              let acc :=
                emit_row (REq (LVar unmet) (LSub (LConst 1) o)) acc in
              Ok (emit_penalty (LScale weight (LVar unmet)) acc)) = Ok a' ->
             extends a0 a').
  { intros ie jd a0 a' Hx. cbv zeta in Hx. peel Hx. injection Hx as <-.
    eauto using extends_trans with ext. }
  destruct (In_nth_error _ _ He) as [i Hi]. apply in_enumerate in Hi.
  destruct (In_nth_error _ _ Hname) as [j Hj].
  assert (Hjd : In (j, d) (enumerate target_days)).
  { apply in_enumerate. eapply map_r_nth; eassumption. }
  eapply for_each_iter in Hem; [| |exact Hi].
  2:{ intros x a0 a' _ Hx. eapply for_each_extends; [|exact Hx].
      intros y b b' _ Hy. now apply (Hcell x y) in Hy. }
  destruct Hem as (a1 & a2 & Hbody & _ & X2).
  eapply for_each_iter in Hbody; [| |exact Hjd].
  2:{ intros y b b' _ Hy. now apply (Hcell (i, e) y) in Hy. }
  destruct Hbody as (b1 & b2 & Hbody & _ & X1).
  cbv zeta in Hbody. cbn [fst snd] in Hbody. peel Hbody. injection Hbody as <-.
  destruct (off_var_ok _ _ _ _ E) as [-> _].
  exists ps, (LScale weight (LVar (VAux ci "unmet" i j))).
  split; [exact Hobj|]. split.
  - apply Hpen. eapply extends_penalties; [exact X2|].
    eapply extends_penalties; [exact X1|]. simpl. apply in_or_app. right.
    now left.
  - intros a [_ Hrows]. rewrite Forall_forall in Hrows.
    assert (Hrow : holds a (REq (LVar (VAux ci "unmet" i j))
                              (LSub (LConst 1) (LVar (VOff e d))))).
    { apply Hrows, Hincl. eapply extends_rows; [exact X2|].
      eapply extends_rows; [exact X1|]. simpl. apply in_or_app. right.
      now left. }
    simpl in Hrow |- *. now rewrite Hrow.
Qed.

Lemma unmet_day_off_costs_weight_witness :
  exists ps t,
    (forall a, eval a (m_objective (model_for spec_wishes))
               = zsum (map (eval a) ps)) /\
    In t ps /\
    forall a, satisfies a (model_for spec_wishes) ->
              eval a t = 5 * (1 - a (VOff (HStr "P1") 1)).
Proof.
  eapply (unmet_day_off_costs_weight spec_wishes _ cx_wishes _ _
            day_off_request (obj [("days", str_list ["D2"])]) [HStr "P1"]
            (HStr "P1") 5 (str_list ["D2"]) [PStr "D2"] (PStr "D2") 1%nat).
  - vm_compute. reflexivity.
  - vm_compute. reflexivity.
  - now left.
  - split; [reflexivity|]. exists (PDict []).
    repeat split; vm_compute; reflexivity.
  - reflexivity.
  - now left.
  - reflexivity.
  - reflexivity.
  - now left.
  - reflexivity.
Defined.

Lemma works_terms_value cx e d sl l terms a :
  map_r (fun s => works_shift cx (of_hkey e) d s) l = Ok terms ->
  py_iter (c_sites cx) = Ok sl ->
  zsum (map (eval a) terms) = zsum (map (works_value a sl e d) l).
Proof.
  intros H Hsl. revert terms H.
  induction l as [|s l IH]; simpl; intros terms H.
  - injection H as <-. reflexivity.
  - inv_bind H. inv_bind H. injection H as <-. simpl.
    unfold zsum in *. simpl. rewrite (IH _ E0). f_equal.
    eapply works_shift_value; [eassumption | apply to_hkey_of_hkey | assumption].
Qed.

(** What the inner statements of the two work penalties add for an
    employee and a day: a Boolean variable, the row that makes it equal to
    the employee's assignments to the listed shifts, and the penalty term. *)
Lemma work_penalty_cell cx v weight e d shifts acc acc' sl :
  (let acc := emit_var (Decl v 0 1) acc in
   terms <- map_r (fun s => works_shift cx (of_hkey e) d s) shifts ;;
   let acc := emit_row (REq (LVar v) (lsum terms)) acc in
   Ok (emit_penalty (LScale weight (LVar v)) acc)) = Ok acc' ->
  py_iter (c_sites cx) = Ok sl ->
  extends acc acc' /\
  In (Decl v 0 1) (e_vars acc') /\
  In (LScale weight (LVar v)) (e_penalties acc') /\
  exists r, In r (e_rows acc') /\
            forall a, holds a r ->
                      a v = zsum (map (works_value a sl e d) shifts).
Proof.
  cbv zeta. intros H Hsl. peel H. injection H as <-.
  split; [eauto using extends_trans with ext|].
  split; [simpl; apply in_or_app; right; now left|].
  split; [simpl; apply in_or_app; right; now left|].
  exists (REq (LVar v) (lsum v0)). split.
  - simpl. apply in_or_app. right. now left.
  - intros a Hr. simpl in Hr. rewrite Hr, eval_lsum.
    eapply works_terms_value; eassumption.
Qed.

Lemma compile_kind_penalize_shifts cx ci ctype data w emps :
  compile_kind cx ci (PStr "penalize_work_on_shifts") ctype data w emps
  = compile_penalize_shifts cx ci ctype data w emps.
Proof. reflexivity. Qed.

(** [penalize_work_on_shifts]: for every employee that the scope selects
    and every day, the objective has a term that is, in every solution, the
    weight times the employee's assignments to the listed work shifts on
    that day; and because that number is tied to a Boolean variable, it is
    at most one in every solution: the penalty also forbids two of the
    listed shifts, or one of them at two sites, on the same day. *)
Theorem shift_penalty_counts_once
  spec spec' cx m cl c data emps e weight d targets sl :
  compile_model spec = (spec', Ok (cx, m)) ->
  constraints_of (c_spec cx) = Ok cl -> In c cl ->
  constraint_selects cx c "penalize_work_on_shifts" data emps ->
  constraint_weight c = Ok weight ->
  In e emps -> (d < n_days cx)%nat ->
  counted_shifts cx data "shifts" (PList []) = Ok targets ->
  py_iter (c_sites cx) = Ok sl ->
  exists ps t,
    (forall a, eval a (m_objective m) = zsum (map (eval a) ps)) /\
    In t ps /\
    forall a, satisfies a m ->
      0 <= zsum (map (works_value a sl e d) targets) <= 1 /\
      eval a t = weight * zsum (map (works_value a sl e d) targets).
Proof.
  intros Hm Hcl Hin Hsel Hw He Hd Htargets Hsl.
  destruct (constraint_penalties _ _ _ _ _ _ _ _ _ Hm Hcl Hin Hsel)
    as (ci & ctype & weight' & em & ps & _ & Hw' & Hem & Hincl & Hinclv
        & Hpen & Hobj).
  rewrite Hw in Hw'. injection Hw' as <-.
  rewrite compile_kind_penalize_shifts in Hem.
  unfold compile_penalize_shifts in Hem.
  destruct (negb (is_str ctype "soft")); [discriminate|].
  rewrite Htargets in Hem. cbn [bind] in Hem.
  destruct (In_nth_error _ _ He) as [i Hi]. apply in_enumerate in Hi.
  eapply for_each_iter in Hem; [| |exact Hi].
  2:{ intros x a0 a' _ Hx. eapply for_each_extends; [|exact Hx].
      intros y b b' _ Hy.
      now destruct (work_penalty_cell _ _ _ _ _ _ _ _ _ Hy Hsl). }
  destruct Hem as (a1 & a2 & Hbody & _ & X2).
  eapply (for_each_iter _ _ d) in Hbody; [| |apply in_seq; lia].
  2:{ intros y b b' _ Hy.
      now destruct (work_penalty_cell _ _ _ _ _ _ _ _ _ Hy Hsl). }
  destruct Hbody as (b1 & b2 & Hbody & _ & X1).
  cbn [fst snd] in Hbody.
  destruct (work_penalty_cell _ _ _ _ _ _ _ _ _ Hbody Hsl)
    as (_ & Hvar & Hterm & r & Hr & Hval).
  exists ps, (LScale weight (LVar (VAux ci "w" i d))).
  split; [exact Hobj|]. split.
  - apply Hpen. eapply extends_penalties; [exact X2|].
    eapply extends_penalties; eassumption.
  - intros a [Hdom Hrows]. rewrite Forall_forall in Hdom, Hrows.
    assert (Hh : holds a r).
    { apply Hrows, Hincl. eapply extends_rows; [exact X2|].
      eapply extends_rows; eassumption. }
    assert (Hv : in_domain a (Decl (VAux ci "w" i d) 0 1)).
    { apply Hdom, Hinclv. eapply extends_vars; [exact X2|].
      eapply extends_vars; eassumption. }
    unfold in_domain in Hv. simpl in Hv.
    rewrite <- (Hval a Hh). simpl. split; [lia | reflexivity].
Qed.

Lemma shift_penalty_counts_once_witness :
  exists ps t,
    (forall a, eval a (m_objective (model_for spec_wishes))
               = zsum (map (eval a) ps)) /\
    In t ps /\
    forall a, satisfies a (model_for spec_wishes) ->
      0 <= zsum (map (works_value a [PStr "SITE_DEFAULT"] (HStr "P1") 0)
                   [PStr "M"]) <= 1 /\
      eval a t
      = 2 * zsum (map (works_value a [PStr "SITE_DEFAULT"] (HStr "P1") 0)
                    [PStr "M"]).
Proof.
  eapply (shift_penalty_counts_once spec_wishes _ cx_wishes _ _
            avoid_mornings (obj [("shifts", str_list ["M"])]) [HStr "P1"]
            (HStr "P1") 2 0%nat [PStr "M"] [PStr "SITE_DEFAULT"]).
  - vm_compute. reflexivity.
  - vm_compute. reflexivity.
  - right. now left.
  - split; [reflexivity|]. exists (PDict []).
    repeat split; vm_compute; reflexivity.
  - reflexivity.
  - now left.
  - vm_compute. lia.
  - vm_compute. reflexivity.
  - reflexivity.
Defined.

Lemma compile_kind_penalize_days cx ci ctype data w emps :
  compile_kind cx ci (PStr "penalize_work_on_days") ctype data w emps
  = compile_penalize_days cx ci ctype data w emps.
Proof. reflexivity. Qed.

(** [penalize_work_on_days]: for every employee that the scope selects and
    every listed day, the objective has a term that is, in every solution,
    the weight times the employee's assignments on that day to the shifts
    of [working_shifts] (every work shift when absent); that number is tied
    to a Boolean variable, so it is at most one in every solution. *)
Theorem day_penalty_counts_once
  spec spec' cx m cl c data emps e weight dv dl name d working sl :
  compile_model spec = (spec', Ok (cx, m)) ->
  constraints_of (c_spec cx) = Ok cl -> In c cl ->
  constraint_selects cx c "penalize_work_on_days" data emps ->
  constraint_weight c = Ok weight ->
  In e emps ->
  py_item data "days" = Ok dv -> py_iter dv = Ok dl -> In name dl ->
  day_index cx name = Ok d ->
  counted_shifts cx data "working_shifts" (work_shift_list cx) = Ok working ->
  py_iter (c_sites cx) = Ok sl ->
  exists ps t,
    (forall a, eval a (m_objective m) = zsum (map (eval a) ps)) /\
    In t ps /\
    forall a, satisfies a m ->
      0 <= zsum (map (works_value a sl e d) working) <= 1 /\
      eval a t = weight * zsum (map (works_value a sl e d) working).
Proof.
  intros Hm Hcl Hin Hsel Hw He Hdv Hdl Hname Hd Hworking Hsl.
  destruct (constraint_penalties _ _ _ _ _ _ _ _ _ Hm Hcl Hin Hsel)
    as (ci & ctype & weight' & em & ps & _ & Hw' & Hem & Hincl & Hinclv
        & Hpen & Hobj).
  rewrite Hw in Hw'. injection Hw' as <-.
  rewrite compile_kind_penalize_days in Hem.
  unfold compile_penalize_days in Hem.
  destruct (negb (is_str ctype "soft")); [discriminate|].
  rewrite Hdv in Hem. cbn [bind] in Hem. rewrite Hdl in Hem. cbn [bind] in Hem.
  apply bind_ok in Hem. destruct Hem as [target_days [Htd Hem]].
  rewrite Hworking in Hem. cbn [bind] in Hem.
  destruct (In_nth_error _ _ He) as [i Hi]. apply in_enumerate in Hi.
  destruct (In_nth_error _ _ Hname) as [j Hj].
  assert (Hjd : In (j, d) (enumerate target_days)).
  { apply in_enumerate. eapply map_r_nth; eassumption. }
  eapply for_each_iter in Hem; [| |exact Hi].
  2:{ intros x a0 a' _ Hx. eapply for_each_extends; [|exact Hx].
      intros y b b' _ Hy.
      now destruct (work_penalty_cell _ _ _ _ _ _ _ _ _ Hy Hsl). }
  destruct Hem as (a1 & a2 & Hbody & _ & X2).
  eapply for_each_iter in Hbody; [| |exact Hjd].
  2:{ intros y b b' _ Hy.
      now destruct (work_penalty_cell _ _ _ _ _ _ _ _ _ Hy Hsl). }
  destruct Hbody as (b1 & b2 & Hbody & _ & X1).
  cbn [fst snd] in Hbody.
  destruct (work_penalty_cell _ _ _ _ _ _ _ _ _ Hbody Hsl)
    as (_ & Hvar & Hterm & r & Hr & Hval).
  exists ps, (LScale weight (LVar (VAux ci "works" i j))).
  split; [exact Hobj|]. split.
  - apply Hpen. eapply extends_penalties; [exact X2|].
    eapply extends_penalties; eassumption.
  - intros a [Hdom Hrows]. rewrite Forall_forall in Hdom, Hrows.
    assert (Hh : holds a r).
    { apply Hrows, Hincl. eapply extends_rows; [exact X2|].
      eapply extends_rows; eassumption. }
    assert (Hv : in_domain a (Decl (VAux ci "works" i j) 0 1)).
    { apply Hdom, Hinclv. eapply extends_vars; [exact X2|].
      eapply extends_vars; eassumption. }
    unfold in_domain in Hv. simpl in Hv.
    rewrite <- (Hval a Hh). simpl. split; [lia | reflexivity].
Qed.

Lemma day_penalty_counts_once_witness :
  exists ps t,
    (forall a, eval a (m_objective (model_for spec_wishes))
               = zsum (map (eval a) ps)) /\
    In t ps /\
    forall a, satisfies a (model_for spec_wishes) ->
      0 <= zsum (map (works_value a [PStr "SITE_DEFAULT"] (HStr "P1") 0)
                   [PStr "M"]) <= 1 /\
      eval a t
      = 4 * zsum (map (works_value a [PStr "SITE_DEFAULT"] (HStr "P1") 0)
                    [PStr "M"]).
Proof.
  eapply (day_penalty_counts_once spec_wishes _ cx_wishes _ _
            avoid_first_day (obj [("days", str_list ["D1"])]) [HStr "P1"]
            (HStr "P1") 4 (str_list ["D1"]) [PStr "D1"] (PStr "D1") 0%nat
            [PStr "M"] [PStr "SITE_DEFAULT"]).
  - vm_compute. reflexivity.
  - vm_compute. reflexivity.
  - right. right. now left.
  - split; [reflexivity|]. exists (PDict []).
    repeat split; vm_compute; reflexivity.
  - reflexivity.
  - now left.
  - reflexivity.
  - reflexivity.
  - now left.
  - reflexivity.
  - vm_compute. reflexivity.
  - reflexivity.
Defined.

(** * The metrics of a solution *)

Lemma priced_set cx k n c :
  dict_lookup k c = Some n ->
  priced cx (dict_set k (n + 1) c) = priced cx c + def_minutes cx k.
Proof.
  unfold priced, zsum. induction c as [|[k0 v0] c IH]; simpl; [discriminate|].
  destruct (hkey_eqb k k0) eqn:E.
  - apply hkey_eqb_eq in E. subst k0. intro H. injection H as ->.
    simpl. lia.
  - intro H. simpl. rewrite (IH H). lia.
Qed.

Lemma metrics_cell_counts cx value sm e he ds m0 c0 m1 c1 :
  (forall k z, dict_lookup k sm = Some z -> z = def_minutes cx k) ->
  to_hkey e = Ok he ->
  metrics_cell cx value sm e ds (m0, c0) = Ok (m1, c1) ->
  m1 - priced cx c1 = m0 - priced cx c0 /\
  forall s, dict_lookup s c1
            = option_map (fun n => n + hit value cx he s ds) (dict_lookup s c0).
Proof.
  intros Hsm He H. unfold metrics_cell in H. inv_bind H.
  destruct (works_shift_sites _ _ _ _ _ E) as [sl Hsl].
  assert (Hval : eval value v
                 = works_value value (site_list cx) he (fst ds)
                     (of_hkey (snd ds))).
  { unfold site_list. rewrite Hsl. eapply works_shift_value; eassumption. }
  cbv zeta in H. rewrite Hval in H. unfold hit.
  destruct (works_value value (site_list cx) he (fst ds) (of_hkey (snd ds)) =? 0).
  - cbn [negb] in H. injection H as <- <-. split; [reflexivity|].
    intro s. rewrite andb_false_r.
    destruct (dict_lookup s c0); simpl; [f_equal; lia | reflexivity].
  - cbn [negb] in H. inv_bind H.
    unfold minutes_of in E0. rewrite to_hkey_of_hkey in E0. cbn [bind] in E0.
    destruct (dict_lookup (snd ds) sm) as [z|] eqn:Ez; [|discriminate].
    injection E0 as <-. apply Hsm in Ez. subst z. cbn [fst snd] in H.
    destruct (dict_lookup (snd ds) c0) as [n|] eqn:En; [|discriminate].
    injection H as <- <-. split.
    + rewrite (priced_set _ _ _ _ En). lia.
    + intro s. rewrite dict_lookup_set, andb_true_r.
      destruct (hkey_eqb s (snd ds)) eqn:Es.
      * apply hkey_eqb_eq in Es. subst s. rewrite En. reflexivity.
      * destruct (dict_lookup s c0); simpl; [f_equal; lia | reflexivity].
Qed.

Lemma metrics_cells_counts cx value sm e he l m0 c0 m1 c1 :
  (forall k z, dict_lookup k sm = Some z -> z = def_minutes cx k) ->
  to_hkey e = Ok he ->
  for_each l (metrics_cell cx value sm e) (m0, c0) = Ok (m1, c1) ->
  m1 - priced cx c1 = m0 - priced cx c0 /\
  forall s, dict_lookup s c1
            = option_map (fun n => n + zsum (map (hit value cx he s) l))
                         (dict_lookup s c0).
Proof.
  intros Hsm He. revert m0 c0.
  induction l as [|ds l IH]; intros m0 c0 H; simpl in H.
  - injection H as <- <-. split; [reflexivity|]. intro s.
    destruct (dict_lookup s c0); simpl; [f_equal; unfold zsum; simpl; lia
                                        | reflexivity].
  - inv_bind H. destruct v as [m2 c2].
    destruct (metrics_cell_counts _ _ _ _ _ _ _ _ _ _ Hsm He E) as [P1 L1].
    destruct (IH _ _ H) as [P2 L2]. split; [lia|].
    intro s. rewrite L2, L1.
    destruct (dict_lookup s c0); simpl; [|reflexivity].
    f_equal. unfold zsum. simpl. lia.
Qed.

Lemma zero_counts ws acc :
  let c := fold_left (fun m s => dict_set s 0 m) ws acc in
  (forall s, dict_lookup s c
             = if mem s ws then Some 0 else dict_lookup s acc) /\
  (Forall (fun kv => snd kv = 0) acc -> Forall (fun kv => snd kv = 0) c).
Proof.
  cbv zeta. revert acc. induction ws as [|w ws IH]; simpl; intro acc.
  - split; [reflexivity | auto].
  - destruct (IH (dict_set w 0 acc)) as [L Z]. split.
    + intro s. rewrite L, dict_lookup_set.
      destruct (mem s ws); [now rewrite orb_true_r|].
      rewrite orb_false_r. reflexivity.
    + intro Hz. apply Z. clear - Hz.
      induction acc as [|[k v] acc IH]; simpl.
      * repeat constructor.
      * inversion Hz; subst. destruct (hkey_eqb w k); constructor; auto.
Qed.

Lemma priced_zero cx c : Forall (fun kv => snd kv = 0) c -> priced cx c = 0.
Proof.
  unfold priced, zsum. induction 1 as [|[k v] c Hk _ IH]; simpl; [reflexivity|].
  simpl in Hk. subst v. rewrite IH. lia.
Qed.

Lemma employee_metrics_counts cx value sm e he mins counts :
  (forall k z, dict_lookup k sm = Some z -> z = def_minutes cx k) ->
  to_hkey e = Ok he ->
  employee_metrics cx value sm e = Ok (mins, counts) ->
  mins = priced cx counts /\
  forall s, dict_lookup s counts
            = if mem s (c_work_shifts cx)
              then Some (count_days value cx he s) else None.
Proof.
  intros Hsm He H. unfold employee_metrics in H. cbv zeta in H.
  destruct (zero_counts (c_work_shifts cx) []) as [L Z]. cbv zeta in L, Z.
  destruct (metrics_cells_counts _ _ _ _ _ _ _ _ _ _ Hsm He H) as [P C].
  rewrite (priced_zero cx _ (Z (Forall_nil _))) in P. split; [lia|].
  intro s. rewrite C, L. unfold count_days, day_shifts.
  destruct (mem s (c_work_shifts cx)); reflexivity.
Qed.

(** The tables of a successful solve agree with the solution and with each
    other: for every employee, [shift_counts] has exactly the work shifts as
    its keys, the count of a shift is the number of days on which the
    employee works it (at any number of sites), and [minutes_worked] is the
    sum over the shifts of the count times the minutes of the shift. *)
Theorem shift_counts_spec
  solver spec max_time workers spec' objective sched mw sc :
  compile_and_solve solver spec max_time workers
  = (spec', Ok (Solved objective sched mw sc)) ->
  exists cx m,
    compile_model spec = (spec', Ok (cx, m)) /\
    forall e, In e (c_employees cx) ->
    exists he counts,
      to_hkey e = Ok he /\ dict_lookup he sc = Some counts /\
      (forall s, dict_lookup s counts
                 = if mem s (c_work_shifts cx)
                   then Some (count_days (o_value (solver m max_time workers))
                                cx he s)
                   else None) /\
      dict_lookup he mw = Some (priced cx counts).
Proof.
  unfold compile_and_solve. intro H.
  destruct (compile_model spec) as [s1 built] eqn:Ec.
  injection H as -> H. inv_bind H. destruct v as [cx m]. subst built.
  exists cx, m. split; [reflexivity|].
  set (value := o_value (solver m max_time workers)) in *.
  assert (Hm : metrics cx value = Ok (mw, sc)).
  { destruct (o_status (solver m max_time workers));
      try discriminate; eapply materialize_metrics; eassumption. }
  clear H. unfold metrics in Hm. inv_bind Hm. rename v into sm.
  pose proof (shift_minutes_spec _ _ E) as Hsm.
  set (good := fun (k : hkey) (z : Z) (c : list (hkey * Z)) =>
         z = priced cx c /\
         forall s, dict_lookup s c
                   = if mem s (c_work_shifts cx)
                     then Some (count_days value cx k s) else None).
  set (inv := fun (acc : list (hkey * Z) * list (hkey * list (hkey * Z))) =>
         forall k, match dict_lookup k (fst acc), dict_lookup k (snd acc) with
                   | Some z, Some c => good k z c
                   | None, None => True
                   | _, _ => False
                   end).
  assert (G : forall l acc res,
             inv acc ->
             for_each l (metrics_step cx value sm) acc = Ok res ->
             inv res /\
             (forall k, dict_lookup k (fst acc) <> None ->
                        dict_lookup k (fst res) <> None) /\
             forall e, In e l ->
               exists he, to_hkey e = Ok he /\ dict_lookup he (fst res) <> None).
  { induction l as [|e0 l IH]; simpl; intros acc res Hacc Hl.
    - injection Hl as <-. split; [exact Hacc|]. split; [auto | intros ? []].
    - apply bind_ok in Hl. destruct Hl as [mid [Estep Hl]].
      unfold metrics_step in Estep.
      apply bind_ok in Estep. destruct Estep as [[mins counts] [Eem Estep]].
      apply bind_ok in Estep. destruct Estep as [he [Ehe Estep]].
      injection Estep as <-.
      pose proof (employee_metrics_counts _ _ _ _ _ _ _ Hsm Ehe Eem) as Hg.
      assert (Hacc' : inv (dict_set he mins (fst acc),
                           dict_set he counts (snd acc))).
      { intro k. cbn [fst snd]. rewrite !dict_lookup_set.
        destruct (hkey_eqb k he) eqn:Ek; [|apply Hacc].
        apply hkey_eqb_eq in Ek. subst k. exact Hg. }
      destruct (IH _ _ Hacc' Hl) as (Hres & Hkeep & Hin).
      cbn [fst] in Hkeep.
      split; [exact Hres|]. split.
      + intros k Hk. apply Hkeep. rewrite dict_lookup_set.
        destruct (hkey_eqb k he); [discriminate | exact Hk].
      + intros e [<- | He]; [|auto].
        exists he. split; [assumption|]. apply Hkeep.
        rewrite dict_lookup_set, hkey_eqb_refl. discriminate. }
  assert (H0 : inv ([], [])) by (intro k; exact I).
  destruct (G _ _ _ H0 Hm) as (Hres & _ & Hin).
  intros e He. destruct (Hin e He) as (he & Hhe & Hne). cbn [fst] in *.
  specialize (Hres he). cbn [fst snd] in Hres.
  destruct (dict_lookup he mw) as [z|] eqn:Ez; [|congruence].
  destruct (dict_lookup he sc) as [c|] eqn:Ec'; [|contradiction].
  destruct Hres as [Hz Hc]. exists he, c.
  split; [assumption|]. split; [exact Ec'|]. split; [exact Hc|].
  rewrite Ez. now rewrite Hz.
Qed.

Lemma shift_counts_spec_witness :
  exists cx m,
    compile_model spec_rota = (fst (compile_model spec_rota), Ok (cx, m)) /\
    forall e, In e (c_employees cx) ->
    exists he counts,
      to_hkey e = Ok he /\
      dict_lookup he (counts_table rota_result) = Some counts /\
      (forall s, dict_lookup s counts
                 = if mem s (c_work_shifts cx)
                   then Some (count_days
                                (o_value (solver_two_nights m 15 8)) cx he s)
                   else None) /\
      dict_lookup he (minutes_table rota_result) = Some (priced cx counts).
Proof.
  eapply (shift_counts_spec solver_two_nights spec_rota 15 8 _ 0
            (schedule_of rota_result)).
  vm_compute. reflexivity.
Defined.

(** * The schedule of a solution *)

Lemma fill_schedule_steps cx value sched :
  fill_schedule cx value sched
  = for_each (enumerate (c_days cx)) (day_step cx value) sched.
Proof. reflexivity. Qed.

Lemma py_update_dict kvs k f r :
  py_update (PDict kvs) k f = Ok r ->
  exists old new,
    dict_lookup k kvs = Some old /\ f old = Ok new /\
    r = PDict (dict_set k new kvs).
Proof.
  unfold py_update, py_item_v. rewrite to_hkey_of_hkey. cbn [bind].
  destruct (dict_lookup k kvs) as [old|]; [|discriminate].
  cbn [bind]. intro H. apply bind_ok in H. destruct H as [new [Hf H]].
  simpl in H. injection H as <-. eauto.
Qed.

Lemma assigned_filter cx value d s site who :
  assigned value (c_employees cx) (fun e => x_var cx e d (of_hkey s) site)
  = Ok who ->
  who = assigned_to value cx d s site.
Proof.
  unfold assigned, assigned_to.
  induction (c_employees cx) as [|e l IH] in who |- *; simpl; intro H.
  - now injection H as <-.
  - inv_bind H. inv_bind H. injection H as <-. inv_bind E.
    injection E as <-.
    destruct (x_var_ok _ _ _ _ _ _ E1) as (he & hs & ht & He & Hs & Ht & -> & _).
    rewrite to_hkey_of_hkey in Hs. injection Hs as <-.
    simpl. rewrite (IH _ E0), (hk_ok _ _ He), (hk_ok _ _ Ht). reflexivity.
Qed.

(** What one [OFF] step does to the schedule. *)
Lemma off_step_effect cx value d dk e sched sched' dd l :
  off_step cx value d dk e sched = Ok sched' ->
  get_dict sched dk = Some dd ->
  dict_lookup (HStr "OFF") dd = Some (PList l) ->
  exists dd',
    get_dict sched' dk = Some dd' /\
    dict_lookup (HStr "OFF") dd'
    = Some (PList (l ++ if value (VOff (hk e) d) =? 1 then [e] else [])) /\
    (forall k, k <> HStr "OFF" -> dict_lookup k dd' = dict_lookup k dd) /\
    (forall k, k <> dk -> get sched' k = get sched k).
Proof.
  unfold off_step. intros H Hd Hoff.
  apply bind_ok in H. destruct H as [o [Eo H]].
  unfold off_var in Eo. apply bind_ok in Eo. destruct Eo as [he [Ehe Eo]].
  destruct (declared cx (VOff he d)); [|discriminate]. injection Eo as <-.
  simpl in H. rewrite (hk_ok _ _ Ehe).
  destruct (value (VOff he d) =? 1).
  - unfold get_dict, get in Hd. destruct sched as [| | | | |kvs]; try discriminate.
    apply py_update_dict in H. destruct H as (old & new & Hold & Hf & ->).
    rewrite Hold in Hd. destruct old as [| | | | |dd0]; try discriminate.
    injection Hd as ->.
    apply py_update_dict in Hf. destruct Hf as (ol & nl & Hol & Hap & ->).
    rewrite Hoff in Hol. injection Hol as <-.
    simpl in Hap. injection Hap as <-.
    exists (dict_set (HStr "OFF") (PList (l ++ [e])) dd).
    split; [|split; [|split]].
    + unfold get_dict, get. rewrite dict_lookup_set, hkey_eqb_refl. reflexivity.
    + rewrite dict_lookup_set. reflexivity.
    + intros k Hk. rewrite dict_lookup_set.
      destruct (hkey_eqb k (HStr "OFF")) eqn:E; [|reflexivity].
      apply hkey_eqb_eq in E. contradiction.
    + intros k Hk. unfold get. rewrite dict_lookup_set.
      destruct (hkey_eqb k dk) eqn:E; [|reflexivity].
      apply hkey_eqb_eq in E. contradiction.
  - injection H as <-. exists dd. rewrite app_nil_r. auto.
Qed.

Lemma off_loop_effect cx value d dk el sched sched' dd l :
  for_each el (off_step cx value d dk) sched = Ok sched' ->
  get_dict sched dk = Some dd ->
  dict_lookup (HStr "OFF") dd = Some (PList l) ->
  exists dd',
    get_dict sched' dk = Some dd' /\
    dict_lookup (HStr "OFF") dd'
    = Some (PList (l ++ filter (fun e => value (VOff (hk e) d) =? 1) el)) /\
    (forall k, k <> HStr "OFF" -> dict_lookup k dd' = dict_lookup k dd) /\
    (forall k, k <> dk -> get sched' k = get sched k).
Proof.
  revert sched dd l. induction el as [|e el IH]; simpl; intros sched dd l H Hd Hoff.
  - injection H as <-. exists dd. rewrite app_nil_r. auto.
  - inv_bind H.
    destruct (off_step_effect _ _ _ _ _ _ _ _ _ E Hd Hoff)
      as (d1 & Hd1 & Hoff1 & Hk1 & Ho1).
    destruct (IH _ _ _ H Hd1 Hoff1) as (d2 & Hd2 & Hoff2 & Hk2 & Ho2).
    exists d2. split; [assumption|]. split; [|split].
    + rewrite Hoff2. do 2 f_equal. rewrite <- app_assoc. f_equal.
      destruct (value (VOff (hk e) d) =? 1); reflexivity.
    + intros k Hk. rewrite Hk2, Hk1; auto.
    + intros k Hk. rewrite Ho2, Ho1; auto.
Qed.

Lemma for_each_map {A B S} (g : A -> B) (body : B -> S -> result S) l s :
  for_each (map g l) body s = for_each l (fun x s => body (g x) s) s.
Proof.
  revert s. induction l as [|x l IH]; simpl; intro s; [reflexivity|].
  destruct (body (g x) s); cbn [bind]; [apply IH | reflexivity].
Qed.

Lemma for_each_prod {A B S} (f : A -> B -> S -> result S) l1 l2 s :
  for_each l1 (fun x s => for_each l2 (fun y s => f x y s) s) s
  = for_each (list_prod l1 l2) (fun xy s => f (fst xy) (snd xy) s) s.
Proof.
  revert s. induction l1 as [|x l1 IH]; simpl; intro s; [reflexivity|].
  rewrite for_each_app, for_each_map. cbn [fst snd].
  destruct (for_each l2 (fun y s0 => f x y s0) s); cbn [bind];
    [apply IH | reflexivity].
Qed.

Lemma cell_step_effect cx value d dk site s sched sched' dd :
  cell_step cx value d dk site s sched = Ok sched' ->
  get_dict sched dk = Some dd -> sites_are_dicts dd ->
  hk site <> HStr "OFF" ->
  exists dd',
    get_dict sched' dk = Some dd' /\ sites_are_dicts dd' /\
    dict_lookup (HStr "OFF") dd' = dict_lookup (HStr "OFF") dd /\
    (forall k, k <> dk -> get sched' k = get sched k) /\
    good_cell value cx d dd' site s /\
    (forall site' s', good_cell value cx d dd site' s' ->
                      good_cell value cx d dd' site' s').
Proof.
  unfold cell_step. intros H Hd Hshape Hoff.
  apply bind_ok in H. destruct H as [who [Ewho H]].
  apply assigned_filter in Ewho. subst who.
  apply bind_ok in H. destruct H as [sk [Esk H]].
  rewrite (hk_ok _ _ Esk) in Hoff.
  unfold get_dict, get in Hd. destruct sched as [| | | | |kvs]; try discriminate.
  apply py_update_dict in H. destruct H as (old & new & Hold & Hf & ->).
  rewrite Hold in Hd. destruct old as [| | | | |dd0]; try discriminate.
  injection Hd as ->.
  apply py_update_dict in Hf. destruct Hf as (oc & nc & Hoc & Hset & ->).
  pose proof (Hshape _ _ Hoc Hoff) as Hdict.
  destruct oc as [| | | | |cells]; try discriminate.
  simpl in Hset. injection Hset as <-.
  set (who := assigned_to value cx d s site) in *.
  exists (dict_set sk (PDict (dict_set s (PList who) cells)) dd).
  split; [|split; [|split; [|split; [|split]]]].
  - unfold get_dict, get. rewrite dict_lookup_set, hkey_eqb_refl. reflexivity.
  - intros k v. rewrite dict_lookup_set.
    destruct (hkey_eqb k sk); [|apply Hshape].
    intro Hv. injection Hv as <-. reflexivity.
  - rewrite dict_lookup_set.
    destruct (hkey_eqb (HStr "OFF") sk) eqn:E; [|reflexivity].
    apply hkey_eqb_eq in E. congruence.
  - intros k Hk. unfold get. rewrite dict_lookup_set.
    destruct (hkey_eqb k dk) eqn:E; [|reflexivity].
    apply hkey_eqb_eq in E. contradiction.
  - unfold good_cell, cell_of. rewrite (hk_ok _ _ Esk).
    rewrite dict_lookup_set, hkey_eqb_refl.
    rewrite dict_lookup_set, hkey_eqb_refl. reflexivity.
  - intros site' s'. unfold good_cell, cell_of.
    rewrite dict_lookup_set.
    destruct (hkey_eqb (hk site') sk) eqn:E; [|auto].
    apply hkey_eqb_eq in E. rewrite E, Hoc.
    rewrite dict_lookup_set.
    destruct (hkey_eqb s' s) eqn:E'; [|auto].
    apply hkey_eqb_eq in E'. subst s'. intros _.
    unfold who, assigned_to. rewrite E, (hk_ok _ _ Esk). reflexivity.
Qed.

Lemma cells_loop_effect cx value d dk pairs sched sched' dd :
  for_each pairs
    (fun p sched => cell_step cx value d dk (fst p) (snd p) sched) sched
  = Ok sched' ->
  get_dict sched dk = Some dd -> sites_are_dicts dd ->
  (forall p, In p pairs -> hk (fst p) <> HStr "OFF") ->
  exists dd',
    get_dict sched' dk = Some dd' /\ sites_are_dicts dd' /\
    dict_lookup (HStr "OFF") dd' = dict_lookup (HStr "OFF") dd /\
    (forall k, k <> dk -> get sched' k = get sched k) /\
    (forall site s, In (site, s) pairs \/ good_cell value cx d dd site s ->
                    good_cell value cx d dd' site s).
Proof.
  revert sched dd. induction pairs as [|[site0 s0] pairs IH]; simpl;
    intros sched dd H Hd Hshape Hoff.
  - injection H as <-. exists dd. repeat split; auto.
    intros site s [[] | Hg]. exact Hg.
  - inv_bind H. cbn [fst snd] in E.
    destruct (cell_step_effect _ _ _ _ _ _ _ _ _ E Hd Hshape
                (Hoff (site0, s0) (or_introl eq_refl)))
      as (d1 & Hd1 & Hs1 & Ho1 & Hk1 & Hg1 & Hkeep1).
    destruct (IH _ _ H Hd1 Hs1 (fun p Hp => Hoff p (or_intror Hp)))
      as (d2 & Hd2 & Hs2 & Ho2 & Hk2 & Hg2).
    exists d2. split; [assumption|]. split; [assumption|].
    split; [congruence|]. split.
    + intros k Hk. rewrite Hk2, Hk1; auto.
    + intros site s [[Heq | Hin] | Hg]; apply Hg2.
      * injection Heq as <- <-. now right.
      * now left.
      * right. now apply Hkeep1.
Qed.

(** What the iteration of a day does to the schedule. *)
Lemma day_step_effect cx value d day dk sched sched' dd sl :
  day_step cx value (d, day) sched = Ok sched' ->
  to_hkey day = Ok dk ->
  get_dict sched dk = Some dd ->
  dict_lookup (HStr "OFF") dd = Some (PList []) ->
  sites_are_dicts dd ->
  py_iter (c_sites cx) = Ok sl ->
  (forall site, In site sl -> hk site <> HStr "OFF") ->
  exists dd',
    get_dict sched' dk = Some dd' /\
    dict_lookup (HStr "OFF") dd' = Some (PList (off_on value cx d)) /\
    (forall site s, In site sl -> In s (c_work_shifts cx) ->
                    good_cell value cx d dd' site s) /\
    (forall k, k <> dk -> get sched' k = get sched k).
Proof.
  unfold day_step. cbn [fst snd]. intros H Hday Hd Hoff Hshape Hsl Hsites.
  rewrite Hday in H. cbn [bind] in H.
  apply bind_ok in H. destruct H as [s1 [Eoff H]].
  rewrite Hsl in H. cbn [bind] in H.
  rewrite (for_each_prod (fun site s sched => cell_step cx value d dk site s sched))
    in H.
  destruct (off_loop_effect _ _ _ _ _ _ _ _ _ Eoff Hd Hoff)
    as (d1 & Hd1 & Hoff1 & Hk1 & Ho1).
  assert (Hshape1 : sites_are_dicts d1).
  { intros k v Hv Hk. rewrite (Hk1 k Hk) in Hv. eapply Hshape; eassumption. }
  destruct (cells_loop_effect _ _ _ _ _ _ _ _ H Hd1 Hshape1)
    as (d2 & Hd2 & _ & Hoff2 & Ho2 & Hg2).
  { intros [site s] Hp. apply in_prod_iff in Hp. apply Hsites. tauto. }
  exists d2. split; [assumption|]. split; [|split].
  - rewrite Hoff2, Hoff1. reflexivity.
  - intros site s Hsite Hs. apply Hg2. left. now apply in_prod.
  - intros k Hk. rewrite Ho2, Ho1; auto.
Qed.

Lemma empty_day_blank cx v :
  empty_day cx = Ok v -> exists dd, v = PDict dd /\ blank_day dd.
Proof.
  unfold empty_day. intro H. peel H. injection H as <-.
  eexists. split; [reflexivity|]. split.
  - rewrite dict_lookup_set. reflexivity.
  - assert (G : forall l acc res,
               (forall k v, dict_lookup k acc = Some v -> is_dict v = true) ->
               for_each l
                 (fun site acc =>
                    ht <- to_hkey site ;;
                    let cells :=
                      fold_left (fun m s => dict_set s (PList []) m)
                                (c_work_shifts cx) [] in
                    Ok (dict_set ht (PDict cells) acc)) acc = Ok res ->
               forall k v, dict_lookup k res = Some v -> is_dict v = true).
    { induction l as [|site l IH]; simpl; intros acc res Hacc Hl.
      - injection Hl as <-. exact Hacc.
      - inv_bind Hl. inv_bind E1. cbv zeta in E1. injection E1 as <-.
        eapply IH; [|exact Hl]. intros k u. rewrite dict_lookup_set.
        destruct (hkey_eqb k v2); [|apply Hacc].
        intro Hu. injection Hu as <-. reflexivity. }
    intros k u Hu Hk. rewrite dict_lookup_set in Hu.
    destruct (hkey_eqb k (HStr "OFF")) eqn:E1.
    + apply hkey_eqb_eq in E1. contradiction.
    + eapply G; [|exact E0|exact Hu]. intros ? ? Hn. discriminate.
Qed.

Lemma empty_schedule_blank cx sched :
  empty_schedule cx = Ok sched ->
  forall day, In day (c_days cx) ->
    exists dd, get_dict sched (hk day) = Some dd /\ blank_day dd.
Proof.
  unfold empty_schedule. intro H. apply bind_ok in H.
  destruct H as [kvs [Hl H]]. injection H as <-.
  assert (G : forall l acc res,
             (forall k v, dict_lookup k acc = Some v ->
                          exists dd, v = PDict dd /\ blank_day dd) ->
             for_each l
               (fun day acc =>
                  hd <- to_hkey day ;; v <- empty_day cx ;;
                  Ok (dict_set hd v acc)) acc = Ok res ->
             (forall k v, dict_lookup k res = Some v ->
                          exists dd, v = PDict dd /\ blank_day dd) /\
             (forall k, dict_lookup k acc <> None -> dict_lookup k res <> None) /\
             forall day, In day l -> dict_lookup (hk day) res <> None).
  { induction l as [|day l IH]; simpl; intros acc res Hacc Hfor.
    - injection Hfor as <-. split; [exact Hacc|]. split; [auto | intros ? []].
    - apply bind_ok in Hfor. destruct Hfor as [mid [Estep Hfor]].
      apply bind_ok in Estep. destruct Estep as [hd [Ehd Estep]].
      apply bind_ok in Estep. destruct Estep as [v [Ev Estep]].
      injection Estep as <-.
      destruct (IH (dict_set hd v acc) res) as (Hres & Hkeep & Hin);
        [|exact Hfor|].
      { intros k u. rewrite dict_lookup_set.
        destruct (hkey_eqb k hd); [|apply Hacc].
        intro Hu. injection Hu as <-. eapply empty_day_blank. exact Ev. }
      split; [exact Hres|]. split.
      + intros k Hk. apply Hkeep. rewrite dict_lookup_set.
        destruct (hkey_eqb k hd); [discriminate | exact Hk].
      + intros day' [<- | Hd]; [|auto].
        apply Hkeep. rewrite (hk_ok _ _ Ehd), dict_lookup_set, hkey_eqb_refl.
        discriminate. }
  destruct (G _ _ _ (fun k v (Hn : dict_lookup k [] = Some v) =>
                       ltac:(discriminate Hn)) Hl)
    as (Hres & _ & Hin).
  intros day Hday. specialize (Hin day Hday).
  unfold get_dict, get.
  destruct (dict_lookup (hk day) kvs) as [v|] eqn:Ev; [|congruence].
  destruct (Hres _ _ Ev) as (dd & -> & Hb). eauto.
Qed.

(** The day at position [j] of the list has its final content after the
    loop over the days, when no two days have the same name. *)
Lemma days_loop_effect cx value sl days i sched sched' :
  for_each (combine (seq i (List.length days)) days) (day_step cx value) sched
  = Ok sched' ->
  NoDup (map hk days) ->
  py_iter (c_sites cx) = Ok sl ->
  (forall site, In site sl -> hk site <> HStr "OFF") ->
  (forall day, In day days ->
     exists dd, get_dict sched (hk day) = Some dd /\ blank_day dd) ->
  (forall k, ~ In k (map hk days) -> get sched' k = get sched k) /\
  forall j day, nth_error days j = Some day ->
    exists dd',
      get_dict sched' (hk day) = Some dd' /\
      dict_lookup (HStr "OFF") dd' = Some (PList (off_on value cx (i + j))) /\
      forall site s, In site sl -> In s (c_work_shifts cx) ->
                     good_cell value cx (i + j) dd' site s.
Proof.
  revert i sched. induction days as [|day0 days IH]; simpl;
    intros i sched H Hnd Hsl Hsites Hblank.
  - injection H as <-. split; [auto|]. intros [|j] day Hj; discriminate.
  - apply bind_ok in H. destruct H as [s1 [Estep H]].
    inversion Hnd as [|? ? Hnotin Hnd']; subst.
    assert (Hk0 : exists dk, to_hkey day0 = Ok dk).
    { unfold day_step in Estep. cbn [fst snd] in Estep.
      apply bind_ok in Estep. destruct Estep as [dk [Edk _]]. eauto. }
    destruct Hk0 as [dk Edk]. pose proof (hk_ok _ _ Edk) as Hhk.
    destruct (Hblank day0 (or_introl eq_refl)) as (dd0 & Hdd0 & Hoff0 & Hshape0).
    rewrite Hhk in Hdd0.
    destruct (day_step_effect _ _ _ _ _ _ _ _ _ Estep Edk Hdd0 Hoff0 Hshape0
                Hsl Hsites)
      as (dd1 & Hdd1 & Hoff1 & Hcells1 & Hother1).
    destruct (IH (S i) s1 H Hnd' Hsl Hsites) as (Hout & Hfinal).
    { intros day Hday. destruct (Hblank day (or_intror Hday)) as (dd & Hdd & Hb).
      exists dd. split; [|exact Hb].
      unfold get_dict in *. rewrite Hother1; [exact Hdd|].
      intro Heq. apply Hnotin. rewrite Hhk, <- Heq. now apply in_map. }
    split.
    + intros k Hk. rewrite Hout; [apply Hother1|]; intro; apply Hk; auto.
      left. congruence.
    + intros [|j] day Hj; simpl in Hj.
      * injection Hj as <-. rewrite Hhk, Nat.add_0_r.
        exists dd1. split; [|auto].
        unfold get_dict in *. rewrite Hout; [exact Hdd1|].
        now rewrite <- Hhk.
      * destruct (Hfinal j day Hj) as (dd' & H1 & H2 & H3).
        exists dd'. replace (i + S j)%nat with (S i + j)%nat by lia. auto.
Qed.

Lemma materialize_schedule cx o objective sched mw sc :
  materialize cx o = Ok (Solved objective sched mw sc) ->
  exists sched0,
    empty_schedule cx = Ok sched0 /\
    fill_schedule cx (o_value o) sched0 = Ok sched.
Proof.
  unfold materialize. intro H.
  apply bind_ok in H. destruct H as [s0 [E0 H]].
  apply bind_ok in H. destruct H as [s1 [E1 H]].
  apply bind_ok in H. destruct H as [[mw' sc'] [_ H]].
  injection H as _ <- _ _. eauto.
Qed.

Lemma py_item_v_dict kvs k h :
  to_hkey k = Ok h ->
  py_item_v (PDict kvs) k
  = match dict_lookup h kvs with Some v => Ok v | None => Raise KeyError end.
Proof. intro H. unfold py_item_v. now rewrite H. Qed.

(** The schedule of a successful solve shows the solution: when no two days
    have the same name and no site is called [OFF], [schedule[day]["OFF"]]
    lists the employees whose [off] variable is one on that day, and
    [schedule[day][site][s]] lists the employees whose [x] variable for the
    day, the work shift [s] and the site is one, both in the order of
    [sets.employees]. *)
Theorem schedule_shows_solution
  solver spec max_time workers spec' objective sched mw sc :
  compile_and_solve solver spec max_time workers
  = (spec', Ok (Solved objective sched mw sc)) ->
  exists cx m,
    compile_model spec = (spec', Ok (cx, m)) /\
    (NoDup (map hk (c_days cx)) ->
     (forall site, In site (site_list cx) -> hk site <> HStr "OFF") ->
     forall d day, nth_error (c_days cx) d = Some day ->
       (ds <- py_item_v sched day ;; py_item ds "OFF")
       = Ok (PList (off_on (o_value (solver m max_time workers)) cx d)) /\
       forall site s, In site (site_list cx) -> In s (c_work_shifts cx) ->
         (ds <- py_item_v sched day ;;
          cells <- py_item_v ds site ;; py_item_v cells (of_hkey s))
         = Ok (PList (assigned_to (o_value (solver m max_time workers))
                        cx d s site))).
Proof.
  unfold compile_and_solve. intro H.
  destruct (compile_model spec) as [s1 built] eqn:Ec.
  injection H as -> H. inv_bind H. destruct v as [cx m]. subst built.
  exists cx, m. split; [reflexivity|].
  set (value := o_value (solver m max_time workers)) in *.
  assert (Hmat : materialize cx (solver m max_time workers)
                 = Ok (Solved objective sched mw sc)).
  { destruct (o_status (solver m max_time workers)); try discriminate;
      assumption. }
  clear H. destruct (materialize_schedule _ _ _ _ _ _ Hmat) as (sched0 & He & Hf).
  fold value in Hf. rewrite fill_schedule_steps in Hf.
  intros Hnd Hsites d day Hday.
  assert (Hin : In (d, day) (enumerate (c_days cx))) by now apply in_enumerate.
  destruct (for_each_ran _ _ _ _ _ Hf Hin) as (t1 & t2 & Hrun).
  unfold day_step in Hrun. cbn [fst snd] in Hrun.
  apply bind_ok in Hrun. destruct Hrun as [dk [Edk Hrun]].
  apply bind_ok in Hrun. destruct Hrun as [t3 [_ Hrun]].
  apply bind_ok in Hrun. destruct Hrun as [sl [Esl _]].
  assert (Hsl : site_list cx = sl) by (unfold site_list; now rewrite Esl).
  rewrite Hsl in *.
  destruct (days_loop_effect _ _ _ _ _ _ _ Hf Hnd Esl Hsites
              (empty_schedule_blank _ _ He)) as (_ & Hfinal).
  destruct (Hfinal d day Hday) as (dd & Hdd & Hoff & Hcells).
  simpl in Hoff, Hcells. rewrite (hk_ok _ _ Edk) in Hdd.
  unfold get_dict, get in Hdd.
  destruct sched as [| | | | |kvs]; try discriminate.
  destruct (dict_lookup dk kvs) as [[| | | | |dd0]|] eqn:Ek; try discriminate.
  injection Hdd as ->.
  rewrite (py_item_v_dict _ _ _ Edk), Ek. cbn [bind]. split.
  - unfold py_item. now rewrite Hoff.
  - intros site s Hsite Hs. specialize (Hcells site s Hsite Hs).
    unfold good_cell, cell_of in Hcells.
    assert (Hsk : exists sk, to_hkey site = Ok sk).
    { destruct (for_each_ran _ _ _ _ _ Hf Hin) as (u1 & u2 & Hrun).
      unfold day_step in Hrun. cbn [fst snd] in Hrun.
      apply bind_ok in Hrun. destruct Hrun as [dk' [_ Hrun]].
      apply bind_ok in Hrun. destruct Hrun as [u3 [_ Hrun]].
      rewrite Esl in Hrun. cbn [bind] in Hrun.
      destruct (for_each_ran _ _ _ _ _ Hrun Hsite) as (w1 & w2 & Hrun2).
      destruct (for_each_ran _ _ _ _ _ Hrun2 Hs) as (y1 & y2 & Hrun3).
      unfold cell_step in Hrun3.
      apply bind_ok in Hrun3. destruct Hrun3 as [who [_ Hrun3]].
      apply bind_ok in Hrun3. destruct Hrun3 as [sk [Esk _]]. eauto. }
    destruct Hsk as [sk Esk]. rewrite (hk_ok _ _ Esk) in Hcells.
    rewrite (py_item_v_dict _ _ _ Esk).
    destruct (dict_lookup sk dd) as [[| | | | |cells]|]; try discriminate.
    cbn [bind]. rewrite (py_item_v_dict _ _ _ (to_hkey_of_hkey s)).
    now rewrite Hcells.
Qed.

Lemma schedule_shows_solution_witness :
  exists cx m,
    compile_model spec_rota = (fst (compile_model spec_rota), Ok (cx, m)) /\
    (NoDup (map hk (c_days cx)) ->
     (forall site, In site (site_list cx) -> hk site <> HStr "OFF") ->
     forall d day, nth_error (c_days cx) d = Some day ->
       (ds <- py_item_v (schedule_of rota_result) day ;; py_item ds "OFF")
       = Ok (PList (off_on (o_value (solver_two_nights m 15 8)) cx d)) /\
       forall site s, In site (site_list cx) -> In s (c_work_shifts cx) ->
         (ds <- py_item_v (schedule_of rota_result) day ;;
          cells <- py_item_v ds site ;; py_item_v cells (of_hkey s))
         = Ok (PList (assigned_to (o_value (solver_two_nights m 15 8))
                        cx d s site))).
Proof.
  eapply (schedule_shows_solution solver_two_nights spec_rota 15 8 _ 0
            (schedule_of rota_result) (minutes_table rota_result)
            (counts_table rota_result)).
  vm_compute. reflexivity.
Defined.

(** * Further properties of the validator *)

Lemma dupes_loop l :
  forall seen d seen' d' (c0 : hkey -> nat),
    for_each l
      (fun x (sd : pyset * pyset) =>
         h <- to_hkey x ;;
         Ok (set_add h (fst sd),
             if mem h (fst sd) then set_add h (snd sd) else snd sd))
      (seen, d) = Ok (seen', d') ->
    (forall k, In k seen <-> (1 <= c0 k)%nat) ->
    (forall k, In k d <-> (2 <= c0 k)%nat) -> NoDup d ->
    (forall k, In k d' <-> (2 <= c0 k + occurrences k l)%nat) /\ NoDup d'.
Proof.
  induction l as [|x l IH]; simpl; intros seen d seen' d' c0 H Hseen Hd Hnd.
  - injection H as <- <-. split; [|assumption].
    intro k. unfold occurrences. simpl. rewrite Nat.add_0_r. apply Hd.
  - apply bind_ok in H. destruct H as [[seen1 d1] [Estep H]].
    apply bind_ok in Estep. destruct Estep as [h [Eh Estep]].
    cbn [fst snd] in Estep. injection Estep as <- <-.
    destruct (IH _ _ _ _ (fun k => (c0 k + if hkey_eqb k h then 1 else 0)%nat) H)
      as [Hd' Hnd'].
    + intro k. rewrite set_add_in, Hseen.
      destruct (hkey_eqb k h) eqn:E.
      * apply hkey_eqb_eq in E. split; [lia | auto].
      * split; [|lia]. intros [-> | Hk]; [|lia].
        rewrite hkey_eqb_refl in E. discriminate.
    + intro k. destruct (mem h seen) eqn:Em.
      * apply mem_In in Em. apply Hseen in Em. rewrite set_add_in, Hd.
        destruct (hkey_eqb k h) eqn:E.
        -- apply hkey_eqb_eq in E. subst k. split; [lia | auto].
        -- split; [|lia]. intros [-> | Hk]; [|lia].
           rewrite hkey_eqb_refl in E. discriminate.
      * assert (Hz : c0 h = 0%nat).
        { destruct (c0 h) eqn:Ec; [reflexivity|].
          assert (Hin : In h seen) by (apply Hseen; lia).
          apply mem_In in Hin. congruence. }
        rewrite Hd. destruct (hkey_eqb k h) eqn:E; [|lia].
        apply hkey_eqb_eq in E. subst k. lia.
    + destruct (mem h seen); [now apply set_add_nodup | assumption].
    + split; [|assumption]. intro k. rewrite Hd'.
      unfold occurrences. simpl. rewrite (hk_ok _ _ Eh).
      destruct (hkey_eqb k h); simpl; lia.
Qed.

Lemma dupes_members lst d :
  dupes lst = Ok d -> forall k, In k d <-> (2 <= occurrences k lst)%nat.
Proof.
  unfold dupes. intro H. apply bind_ok in H. destruct H as [[seen d0] [Hl Hs]].
  cbn [snd] in Hs.
  destruct (dupes_loop _ _ _ _ _ (fun _ => 0%nat) Hl) as [Hd _].
  - intro k. simpl. split; [contradiction | lia].
  - intro k. simpl. split; [contradiction | lia].
  - constructor.
  - destruct (py_sorted_spec _ _ Hs) as [_ Hperm].
    intro k. specialize (Hd k). simpl in Hd. rewrite <- Hd.
    split; apply Permutation_in; [symmetry|]; exact Hperm.
Qed.

(** The validator's [dupes]: the values of the list that occur more than
    once, each listed once, in ascending order. *)
Theorem dupes_spec lst d :
  dupes lst = Ok d ->
  (forall k, In k d <-> (2 <= occurrences k lst)%nat)
  /\ StronglySorted key_lt d.
Proof.
  unfold dupes. intro H. apply bind_ok in H. destruct H as [[seen d0] [Hl Hs]].
  cbn [snd] in Hs.
  destruct (dupes_loop _ _ _ _ _ (fun _ => 0%nat) Hl) as [Hd Hnd].
  - intro k. simpl. split; [contradiction | lia].
  - intro k. simpl. split; [contradiction | lia].
  - constructor.
  - destruct (py_sorted_spec _ _ Hs) as [_ Hperm]. split.
    + intro k. specialize (Hd k). simpl in Hd. rewrite <- Hd.
      split; apply Permutation_in; [symmetry|]; exact Hperm.
    + eapply py_sorted_strict; eassumption.
Qed.

Lemma dupes_spec_witness :
  (forall k, In k [HStr "A"; HStr "B"]
             <-> (2 <= occurrences k (map PStr ["B"; "A"; "C"; "B"; "A"; "A"]))%nat)
  /\ StronglySorted key_lt [HStr "A"; HStr "B"].
Proof.
  exact (dupes_spec (map PStr ["B"; "A"; "C"; "B"; "A"; "A"])
           [HStr "A"; HStr "B"] eq_refl).
Defined.

Lemma solve_rejects_incomplete_spec_witness :
  solve solver_two_nights (PDict []) 15 8
  = (PDict [], HTTPException 400 MissingField)
  /\ solve solver_two_nights spec_no_shifts 15 8
     = (spec_no_shifts, HTTPException 400 MissingField)
  /\ solve solver_two_nights spec_no_off 15 8
     = (spec_no_off, HTTPException 400 ErrorText)
  /\ snd (solve solver_two_nights spec_null_constraints 15 8)
     = HTTPException 500 InternalError.
Proof.
  destruct (solve_rejects_incomplete_spec solver_two_nights 15 8)
    as (H1 & H2 & H3 & H4).
  split; [|split; [|split]].
  - apply H1. reflexivity.
  - eapply (H2 _ _ "shifts"); [reflexivity | simpl; tauto | reflexivity].
  - eapply H3; reflexivity.
  - erewrite H4; [reflexivity | vm_compute; reflexivity | reflexivity].
Defined.

Lemma ke_refl r : keeps_errors r r.
Proof. exists []. now rewrite app_nil_r. Qed.

Lemma ke_trans a b c : keeps_errors a b -> keeps_errors b c -> keeps_errors a c.
Proof.
  intros [x Hx] [y Hy]. exists (x ++ y). now rewrite Hy, Hx, app_assoc.
Qed.

Lemma ke_err t a r : keeps_errors r (err t a r).
Proof. now exists [Msg t a]. Qed.

Lemma ke_warn t a r : keeps_errors r (warn t a r).
Proof. exists []. simpl. now rewrite app_nil_r. Qed.

Lemma ke_err_if b t a r : keeps_errors r (err_if b t a r).
Proof. destruct b; [apply ke_err | apply ke_refl]. Qed.

Lemma ke_warn_if b t a r : keeps_errors r (warn_if b t a r).
Proof. destruct b; [apply ke_warn | apply ke_refl]. Qed.

Lemma ke_clean r r' : keeps_errors r r' -> r_errors r' = [] -> r_errors r = [].
Proof.
  intros [es H] Hc. rewrite Hc in H. symmetry in H.
  now apply app_eq_nil in H.
Qed.

Lemma err_if_clean b t a r : r_errors (err_if b t a r) = [] -> b = false.
Proof.
  destruct b; [|reflexivity]. simpl. intro H. apply app_eq_nil in H.
  destruct H. discriminate.
Qed.

Lemma err_clean t a r : r_errors (err t a r) <> [].
Proof. simpl. intro H. apply app_eq_nil in H. destruct H. discriminate. Qed.

Create HintDb ke.

#[local] Hint Resolve ke_refl ke_err ke_warn ke_err_if ke_warn_if : ke.

Lemma for_each_ke {A} (body : A -> report -> result report) l :
  (forall x r r', In x l -> body x r = Ok r' -> keeps_errors r r') ->
  forall r r', for_each l body r = Ok r' -> keeps_errors r r'.
Proof.
  induction l as [|x l IH]; simpl; intros Hb r r' H.
  - injection H as <-. apply ke_refl.
  - inv_bind H. eapply ke_trans.
    + eapply Hb; [now left | eassumption].
    + eapply IH; [|eassumption]. intros. eapply Hb; [right|]; eassumption.
Qed.

(** Every iteration of a loop of the validator runs on a report that the
    final report extends. *)
Lemma for_each_ke_iter {A} (body : A -> report -> result report) l x :
  (forall x r r', In x l -> body x r = Ok r' -> keeps_errors r r') ->
  In x l ->
  forall r r', for_each l body r = Ok r' ->
  exists r1 r2, body x r1 = Ok r2 /\ keeps_errors r2 r'.
Proof.
  induction l as [|y l IH]; simpl; intros Hb Hin r r' H; [contradiction|].
  inv_bind H. destruct Hin as [-> | Hin].
  - exists r, v. split; [assumption|].
    eapply for_each_ke; [|eassumption].
    intros. eapply Hb; [right|]; eassumption.
  - eapply (IH (fun x r r' Hx => Hb x r r' (or_intror Hx)) Hin); eassumption.
Qed.

(** Closes [keeps_errors a b] along a chain of hypotheses and single
    messages. *)
Ltac ke_chain :=
  first [ apply ke_refl
        | eassumption
        | eapply ke_trans; [| apply ke_err ]; ke_chain
        | eapply ke_trans; [| apply ke_warn ]; ke_chain
        | eapply ke_trans; [| apply ke_err_if ]; ke_chain
        | eapply ke_trans; [| apply ke_warn_if ]; ke_chain
        | eapply ke_trans; [| eassumption ]; ke_chain ].

Lemma check_dupes_ke l t r r' : check_dupes l t r = Ok r' -> keeps_errors r r'.
Proof.
  unfold check_dupes. destruct l; intro H.
  - injection H as <-. apply ke_refl.
  - peel H. injection H as <-. auto with ke.
Qed.

Lemma check_hhmm_ke s sd key t r r' :
  check_hhmm s sd key t r = Ok r' -> keeps_errors r r'.
Proof.
  unfold check_hhmm. intro H. peel H; injection H as <-; auto with ke.
Qed.

Lemma check_shift_def_ke kv r r' :
  check_shift_def kv r = Ok r' -> keeps_errors r r'.
Proof.
  unfold check_shift_def. destruct kv as [s sd]. intro H. peel H.
  - injection H as <-. auto with ke.
  - apply check_hhmm_ke in E, E0. injection H as <-.
    ke_chain.
  - apply check_hhmm_ke in E, E0. injection H as <-.
    ke_chain.
Qed.

Lemma check_int_if_present_ke c key bad t a r r' :
  check_int_if_present c key bad t a r = Ok r' -> keeps_errors r r'.
Proof.
  unfold check_int_if_present. intro H. peel H; injection H as <-; auto with ke.
Qed.

Lemma check_int_required_ke c key bad t a r r' :
  check_int_required c key bad t a r = Ok r' -> keeps_errors r r'.
Proof.
  unfold check_int_required. intro H. peel H; injection H as <-; auto with ke.
Qed.

Lemma check_floors_ke i reqs emp_defs employees lk ik attr r r' :
  check_floors i reqs emp_defs employees lk ik attr r = Ok r' ->
  keeps_errors r r'.
Proof.
  unfold check_floors. intro H. peel H. cbv zeta in H.
  eapply for_each_ke; [|exact H].
  intros x r0 r0' _ Hx. cbv zeta in Hx. peel Hx; injection Hx as <-;
    ke_chain.
Qed.

Lemma check_listed_ke data key known t1 t2 cid r r' :
  check_listed data key known t1 t2 cid r = Ok r' -> keeps_errors r r'.
Proof.
  unfold check_listed. intro H. peel H.
  destruct v as [| | | |[|x l]|]; peel H; injection H as <-; auto with ke.
Qed.

Lemma check_demand_entry_ke sites employees ds ss ts emp_defs ireq r r' :
  check_demand_entry sites employees ds ss ts emp_defs ireq r = Ok r' ->
  keeps_errors r r'.
Proof.
  unfold check_demand_entry. cbv zeta. intro H.
  destruct (negb (is_dict (snd ireq))).
  { injection H as <-. auto with ke. }
  apply bind_ok in H. destruct H as [day [_ H]].
  apply bind_ok in H. destruct H as [shift [_ H]].
  apply bind_ok in H. destruct H as [site [_ H]].
  apply bind_ok in H. destruct H as [k1 [_ H]].
  apply bind_ok in H. destruct H as [k2 [_ H]].
  apply bind_ok in H. destruct H as [k3 [_ H]].
  apply bind_ok in H. destruct H as [has_eq [_ H]].
  apply bind_ok in H. destruct H as [r1 [E1 H]].
  apply bind_ok in H. destruct H as [rv [_ H]].
  assert (K1 : keeps_errors r r1).
  { destruct has_eq.
    - peel E1. injection E1 as <-. ke_chain.
    - apply bind_ok in E1. destruct E1 as [ra [Ea E1]].
      apply bind_ok in E1. destruct E1 as [rb [Eb E1]].
      apply check_int_if_present_ke in Ea, Eb.
      assert (keeps_errors rb r1)
        by (peel E1; injection E1 as <-; auto with ke).
      ke_chain. }
  destruct (negb (is_dict (py_or rv (PDict [])))).
  { injection H as <-. ke_chain. }
  apply bind_ok in H. destruct H as [r2 [E2 H]].
  apply check_floors_ke in E2, H. ke_chain.
Qed.

Lemma check_payload_ke kind data cid ds ss r r' :
  check_payload kind data cid ds ss r = Ok r' -> keeps_errors r r'.
Proof.
  unfold check_payload. intro H.
  apply bind_ok in H. destruct H as [r1 [E1 H]].
  apply bind_ok in H. destruct H as [r2 [E2 H]].
  apply bind_ok in H. destruct H as [r3 [E3 H]].
  apply bind_ok in H. destruct H as [r4 [E4 H]].
  apply bind_ok in H. destruct H as [r5 [E5 H]].
  apply bind_ok in H. destruct H as [r6 [E6 H]].
  apply bind_ok in H. destruct H as [r7 [E7 H]].
  apply bind_ok in H. destruct H as [r8 [E8 H]].
  apply bind_ok in H. destruct H as [r9 [E9 H]].
  assert (K1 : keeps_errors r r1).
  { destruct (is_str kind "forbid_shift_sequences");
      [|injection E1 as <-; auto with ke].
    peel E1.
    - injection E1 as <-. auto with ke.
    - eapply for_each_ke; [|exact E1].
      intros p r0 r0' _ Hp. peel Hp; injection Hp as <-; auto with ke. }
  assert (K2 : keeps_errors r1 r2).
  { destruct (_ || _); [now apply check_int_if_present_ke in E2
                       | injection E2 as <-; auto with ke]. }
  assert (K3 : keeps_errors r2 r3).
  { destruct (is_str kind "max_shifts_in_window");
      [now apply check_int_required_ke in E3 | injection E3 as <-; auto with ke]. }
  assert (K4 : keeps_errors r3 r4).
  { destruct (is_str kind "max_work_minutes_in_window");
      [now apply check_int_required_ke in E4 | injection E4 as <-; auto with ke]. }
  assert (K5 : keeps_errors r4 r5).
  { destruct (is_str kind "min_rest_minutes_between_shifts");
      [now apply check_int_required_ke in E5 | injection E5 as <-; auto with ke]. }
  assert (K6 : keeps_errors r5 r6).
  { destruct (is_str kind "max_consecutive_work_days");
      [now apply check_int_required_ke in E6 | injection E6 as <-; auto with ke]. }
  assert (K7 : keeps_errors r6 r7).
  { destruct (is_str kind "min_consecutive_days_off");
      [now apply check_int_required_ke in E7 | injection E7 as <-; auto with ke]. }
  assert (K8 : keeps_errors r7 r8).
  { destruct (is_str kind "penalize_work_on_days");
      [now apply check_listed_ke in E8 | injection E8 as <-; auto with ke]. }
  assert (K9 : keeps_errors r8 r9).
  { destruct (is_str kind "penalize_work_on_shifts");
      [now apply check_listed_ke in E9 | injection E9 as <-; auto with ke]. }
  assert (K10 : keeps_errors r9 r').
  { destruct (is_str kind "penalize_unmet_day_off_requests");
      [now apply check_listed_ke in H | injection H as <-; auto with ke]. }
  ke_chain.
Qed.

(** What a constraint has gone through when the report it leaves has no
    error. *)
Lemma check_constraint_clean spec es ds ss ic r ids r' ids' :
  check_constraint spec es ds ss ic (r, ids) = Ok (r', ids') ->
  keeps_errors r r' /\
  (r_errors r' = [] ->
   exists kind, py_get (snd ic) "kind" PNone = Ok kind /\
                kind_allowed kind = Ok true).
Proof.
  unfold check_constraint. cbv zeta. intro H.
  destruct (negb (is_dict (snd ic))).
  { injection H as <- <-. split; [auto with ke|].
    intro Hc. exfalso. eapply err_clean. exact Hc. }
  apply bind_ok in H. destruct H as [cid [_ H]].
  apply bind_ok in H. destruct H as [ctype [_ H]].
  apply bind_ok in H. destruct H as [kind [Ekind H]].
  apply bind_ok in H. destruct H as [scope [_ H]].
  apply bind_ok in H. destruct H as [data [_ H]].
  apply bind_ok in H. destruct H as [pv [_ H]].
  set (r0 := match cid with
             | PStr (String _ _) => (r, ids ++ [cid])
             | _ => (err "constraints[{}].id must be a string."
                       [PInt (Z.of_nat (fst ic))] r, ids)
             end) in *.
  assert (K0 : keeps_errors r (fst r0)).
  { unfold r0. destruct cid as [| | |[|c s]| |]; simpl; auto with ke. }
  destruct r0 as [ra idsa]. cbn [fst] in K0.
  apply bind_ok in H. destruct H as [allowed [Eallowed H]].
  apply bind_ok in H. destruct H as [rb [Eb H]].
  apply bind_ok in H. destruct H as [has [_ H]].
  apply bind_ok in H. destruct H as [rc [Ec H]].
  apply bind_ok in H. destruct H as [rd [Ed H]].
  injection H as <- <-.
  set (r1 := err_if (negb (is_str ctype "hard" || is_str ctype "soft"))
               "constraints[{}].type must be 'hard' or 'soft'."
               [PInt (Z.of_nat (fst ic))] ra) in *.
  set (r2 := err_if (negb allowed)
               "constraints[{}].kind '{}' not supported by this compiler."
               [PInt (Z.of_nat (fst ic)); kind] r1) in *.
  assert (K1 : keeps_errors ra r1) by (unfold r1; auto with ke).
  assert (K2 : keeps_errors r1 r2) by (unfold r2; auto with ke).
  assert (K3 : keeps_errors r2 rb).
  { destruct (is_str ctype "soft"); [|injection Eb as <-; auto with ke].
    peel Eb; injection Eb as <-; auto with ke. }
  assert (K4 : keeps_errors rb rc).
  { destruct has; [|injection Ec as <-; auto with ke].
    peel Ec; [injection Ec as <-; auto with ke|].
    destruct v; peel Ec; injection Ec as <-; auto with ke. }
  assert (K5 : keeps_errors rc rd).
  { apply check_payload_ke in Ed. eapply ke_trans; [|exact Ed].
    destruct (select_employees_by_scope spec scope); auto with ke. }
  split; [ke_chain|].
  intro Hc. exists kind. split; [assumption|].
  assert (Hc2 : r_errors r2 = []).
  { eapply ke_clean; [|exact Hc]. ke_chain. }
  unfold r2 in Hc2. apply err_if_clean in Hc2.
  apply negb_false_iff in Hc2. now subst allowed.
Qed.

Lemma check_objective_ke spec r r' :
  check_objective spec r = Ok r' -> keeps_errors r r'.
Proof.
  unfold check_objective. intro H. peel H.
  destruct v; peel H; try (injection H as <-; auto with ke).
  destruct v0; ke_chain.
Qed.

Lemma constraints_loop_clean spec es ds ss l :
  forall r ids r' ids',
    for_each l (check_constraint spec es ds ss) (r, ids) = Ok (r', ids') ->
    keeps_errors r r' /\
    (r_errors r' = [] ->
     forall ic, In ic l ->
       exists kind, py_get (snd ic) "kind" PNone = Ok kind /\
                    kind_allowed kind = Ok true).
Proof.
  induction l as [|ic0 l IH]; simpl; intros r ids r' ids' H.
  - injection H as <- <-. split; [apply ke_refl | intros _ ? []].
  - apply bind_ok in H. destruct H as [[r1 ids1] [E H]].
    destruct (check_constraint_clean _ _ _ _ _ _ _ _ _ E) as [K1 C1].
    destruct (IH _ _ _ _ H) as [K2 C2].
    split; [ke_chain|].
    intros Hc ic [<- | Hin].
    + apply C1. eapply ke_clean; eassumption.
    + now apply C2.
Qed.

Lemma check_kinds_ok cl :
  (forall c, In c cl ->
     exists kind, py_get c "kind" PNone = Ok kind /\
                  kind_allowed kind = Ok true) ->
  check_kinds cl = Ok tt.
Proof.
  unfold check_kinds. induction cl as [|c cl IH]; simpl; intro H; [reflexivity|].
  destruct (H c (or_introl eq_refl)) as (kind & -> & Hk). cbn [bind].
  rewrite Hk. cbn [bind]. apply IH. intros c' Hc'. apply H. now right.
Qed.

Lemma nonempty_list_clean v t r l r' :
  nonempty_list v t r = (l, r') ->
  keeps_errors r r' /\
  (r_errors r' = [] -> v = PList l /\ l <> []).
Proof.
  unfold nonempty_list. intro H.
  destruct v as [| | | |[|x l0]|]; injection H as <- <-;
    (split; [auto with ke|]); intro Hc;
    try (exfalso; eapply err_clean; exact Hc).
  split; [reflexivity | discriminate].
Qed.

Lemma no_dupes_nodup l :
  (forall k, (occurrences k l <= 1)%nat) -> NoDup (map hk l).
Proof.
  induction l as [|x l IH]; simpl; intro H; constructor.
  - intro Hin. apply in_map_iff in Hin. destruct Hin as (y & Hy & Hin).
    specialize (H (hk x)). unfold occurrences in H. simpl in H.
    rewrite hkey_eqb_refl in H. simpl in H.
    assert (Hpos : (1 <= List.length
                           (filter (fun v => hkey_eqb (hk x) (hk v)) l))%nat).
    { clear -Hy Hin. induction l as [|z l IH]; [contradiction|].
      simpl. destruct Hin as [-> | Hin].
      - rewrite Hy, hkey_eqb_refl. simpl. lia.
      - destruct (hkey_eqb (hk x) (hk z)); simpl; [lia | auto]. }
    lia.
  - apply IH. intro k. specialize (H k). unfold occurrences in *. simpl in H.
    destruct (hkey_eqb k (hk x)); simpl in H; lia.
Qed.

Lemma check_dupes_clean l t r r' :
  check_dupes l t r = Ok r' -> r_errors r' = [] -> NoDup (map hk l).
Proof.
  unfold check_dupes. destruct l as [|x l]; intros H Hc; [constructor|].
  apply bind_ok in H. destruct H as [d [Ed H]]. injection H as <-.
  apply err_if_clean in Hc. apply negb_false_iff in Hc.
  destruct d; [|discriminate].
  pose proof (dupes_members _ _ Ed) as Hd.
  apply no_dupes_nodup. intro k. specialize (Hd k). simpl in Hd.
  destruct (le_lt_dec (occurrences k (x :: l)) 1) as [|Hgt]; [assumption|].
  exfalso. apply Hd. lia.
Qed.

Lemma warn_loops_ke {A} (l : list A) (body : A -> report -> result report) r r' :
  (forall x r0 r0', body x r0 = Ok r0' -> keeps_errors r0 r0') ->
  for_each l body r = Ok r' -> keeps_errors r r'.
Proof.
  intros Hb H. eapply for_each_ke; [|exact H]. intros x r0 r0' _. apply Hb.
Qed.

(** A spec that the validator accepts passes the first checks of the
    compiler: [sets.employees], [sets.days] and [sets.shifts] are non-empty
    lists without a repeated value, [OFF] is one of the shifts, the first
    statements of [compile_and_solve] raise nothing, and every constraint of
    a [constraints] list has one of the supported kinds. *)
Theorem accepted_spec_passes_first_checks spec v :
  validate_spec spec = Ok v -> v_ok v = true ->
  (exists sets e d s,
      py_item spec "sets" = Ok sets /\
      py_item sets "employees" = Ok (PList e) /\
      py_item sets "days" = Ok (PList d) /\
      py_item sets "shifts" = Ok (PList s) /\
      e <> [] /\ d <> [] /\ s <> [] /\
      NoDup (map hk e) /\ NoDup (map hk d) /\ NoDup (map hk s) /\
      In (PStr "OFF") s)
  /\ (exists spec' parts, prelude spec = Ok (spec', parts))
  /\ (forall cl, py_get spec "constraints" (PList []) = Ok (PList cl) ->
                 check_kinds cl = Ok tt).
Proof.
  intros H Hok. unfold validate_spec in H.
  apply bind_ok in H. destruct H as [has_sets [Ehs H]].
  destruct has_sets; cbn [negb] in H;
    [|injection H as <-; discriminate Hok].
  cbv zeta in H.
  apply bind_ok in H. destruct H as [has_d [_ H]].
  apply bind_ok in H. destruct H as [has_c [_ H]].
  apply bind_ok in H. destruct H as [sets [Esets H]].
  apply bind_ok in H. destruct H as [ev [Eev H]].
  apply bind_ok in H. destruct H as [dv [Edv H]].
  apply bind_ok in H. destruct H as [sv [Esv H]].
  apply bind_ok in H. destruct H as [tv [Etv H]].
  destruct (nonempty_list ev _ _) as [employees ra] eqn:Na.
  destruct (nonempty_list dv _ _) as [days rb] eqn:Nb.
  destruct (nonempty_list sv _ _) as [shifts rc] eqn:Nc.
  destruct (nonempty_list tv _ _) as [sites rd] eqn:Nd.
  apply bind_ok in H. destruct H as [r3 [D3 H]].
  apply bind_ok in H. destruct H as [r4 [D4 H]].
  apply bind_ok in H. destruct H as [r5 [D5 H]].
  apply bind_ok in H. destruct H as [r6 [D6 H]].
  apply bind_ok in H. destruct H as [shift_defs [Esd H]].
  match type of H with
  | (let '(_, _) := ?p in _) = _ => destruct p as [sd0 r7] eqn:E7
  end.
  apply bind_ok in H. destruct H as [r8 [L8 H]].
  apply bind_ok in H. destruct H as [r9 [L9 H]].
  apply bind_ok in H. destruct H as [emp_defs [Eed H]].
  match type of H with
  | (let '(_, _) := ?p in _) = _ => destruct p as [ed0 r10] eqn:E10
  end.
  apply bind_ok in H. destruct H as [r11 [L11 H]].
  apply bind_ok in H. destruct H as [es [_ H]].
  apply bind_ok in H. destruct H as [ds [_ H]].
  apply bind_ok in H. destruct H as [ss [_ H]].
  apply bind_ok in H. destruct H as [ts [_ H]].
  apply bind_ok in H. destruct H as [dmv [_ H]].
  apply bind_ok in H. destruct H as [dl [_ H]].
  apply bind_ok in H. destruct H as [r12 [L12 H]].
  apply bind_ok in H. destruct H as [cv [Ecv H]].
  match type of H with
  | (let '(_, _) := ?p in _) = _ => destruct p as [constraints r13] eqn:E13
  end.
  apply bind_ok in H. destruct H as [[r14 ids] [L14 H]].
  apply bind_ok in H. destruct H as [r15 [D15 H]].
  apply bind_ok in H. destruct H as [r16 [O16 H]].
  injection H as <-. cbn [v_ok] in Hok.
  assert (C16 : r_errors r16 = []) by (destruct (r_errors r16); congruence).
  clear Hok.
  assert (C15 : r_errors r15 = [])
    by (eapply ke_clean; [eapply check_objective_ke|]; eassumption).
  assert (C14 : r_errors r14 = [])
    by (eapply ke_clean; [eapply check_dupes_ke|]; eassumption).
  destruct (constraints_loop_clean _ _ _ _ _ _ _ _ _ L14) as [K14 Hkinds].
  specialize (Hkinds C14).
  assert (C13 : r_errors r13 = []) by (eapply ke_clean; eassumption).
  assert (C12 : r_errors r12 = [] /\
                (forall cl, cv = PList cl -> constraints = cl)).
  { destruct (py_or cv (PList [])) as [| | | |l|] eqn:Eor;
      injection E13 as <- <-;
      try (exfalso; eapply err_clean; exact C13).
    split; [assumption|]. intros cl ->. unfold py_or in Eor.
    destruct (truthy (PList cl)) eqn:Et; [congruence|].
    destruct cl; [congruence | discriminate]. }
  destruct C12 as [C12 Hcons].
  assert (C11 : r_errors r11 = []).
  { eapply ke_clean; [|exact C12]. eapply warn_loops_ke; [|exact L12].
    intros x r0 r0'. apply check_demand_entry_ke. }
  assert (C10 : r_errors r10 = []).
  { eapply ke_clean; [|exact C11]. eapply warn_loops_ke; [|exact L11].
    intros x r0 r0' Hx. peel Hx. injection Hx as <-. ke_chain. }
  assert (C9 : r_errors r9 = []).
  { destruct (truthy emp_defs && negb (is_dict emp_defs));
      injection E10 as <- <-; [|assumption].
    exfalso. eapply err_clean. exact C10. }
  assert (C8 : r_errors r8 = []).
  { eapply ke_clean; [|exact C9]. eapply warn_loops_ke; [|exact L9].
    intros x r0 r0'. apply check_shift_def_ke. }
  assert (C7 : r_errors r7 = []).
  { eapply ke_clean; [|exact C8]. eapply warn_loops_ke; [|exact L8].
    intros x r0 r0' Hx. peel Hx; injection Hx as <-; ke_chain. }
  assert (C6 : exists kvs,
             shift_defs = PDict kvs /\ r_errors r6 = [] /\
             (truthy (PList shifts)
              && negb (existsb (fun v => is_str v "OFF") shifts)) = false).
  { destruct shift_defs as [| | | | |kvs]; injection E7 as <- <-;
      try (exfalso; eapply err_clean; exact C7).
    exists kvs. split; [reflexivity|]. split.
    - eapply ke_clean; [apply ke_err_if | exact C7].
    - eapply err_if_clean. exact C7. }
  destruct C6 as (kvs & -> & C6 & Hoff).
  assert (C5 : r_errors r5 = [])
    by (eapply ke_clean; [eapply check_dupes_ke|]; eassumption).
  assert (C4 : r_errors r4 = [])
    by (eapply ke_clean; [eapply check_dupes_ke|]; eassumption).
  assert (C3 : r_errors r3 = [])
    by (eapply ke_clean; [eapply check_dupes_ke|]; eassumption).
  assert (Cd : r_errors rd = [])
    by (eapply ke_clean; [eapply check_dupes_ke|]; eassumption).
  destruct (nonempty_list_clean _ _ _ _ _ Nd) as [Kd _].
  assert (Cc : r_errors rc = []) by (eapply ke_clean; eassumption).
  destruct (nonempty_list_clean _ _ _ _ _ Nc) as [Kc Hc].
  assert (Cb : r_errors rb = []) by (eapply ke_clean; eassumption).
  destruct (nonempty_list_clean _ _ _ _ _ Nb) as [Kb Hb].
  assert (Ca : r_errors ra = []) by (eapply ke_clean; eassumption).
  destruct (nonempty_list_clean _ _ _ _ _ Na) as [_ Ha].
  destruct (Ha Ca) as [-> Hne]. destruct (Hb Cb) as [-> Hnd].
  destruct (Hc Cc) as [-> Hns].
  pose proof (check_dupes_clean _ _ _ _ D3 C3) as Ne.
  pose proof (check_dupes_clean _ _ _ _ D4 C4) as Nd'.
  pose proof (check_dupes_clean _ _ _ _ D5 C5) as Ns.
  assert (Hin_off : In (PStr "OFF") shifts).
  { destruct shifts as [|x l]; [congruence|]. cbn [truthy andb] in Hoff.
    apply negb_false_iff in Hoff. apply existsb_exists in Hoff.
    destruct Hoff as (y & Hy & Hs). destruct y; try discriminate.
    simpl in Hs. apply String.eqb_eq in Hs. now subst. }
  destruct spec as [| | | | |skv]; try discriminate Esets.
  destruct sets as [| | | | |setkv]; try discriminate Eev.
  simpl in Esets, Eev, Edv, Esv, Etv, Esd, Ehs.
  destruct (dict_lookup (HStr "sets") skv) as [sets0|] eqn:Ls;
    [|discriminate Ehs].
  injection Esets as ->.
  destruct (dict_lookup (HStr "employees") setkv) as [e0|] eqn:Le;
    [|discriminate Eev].
  injection Eev as ->.
  destruct (dict_lookup (HStr "days") setkv) as [d0|] eqn:Ld;
    [|discriminate Edv].
  injection Edv as ->.
  destruct (dict_lookup (HStr "shifts") setkv) as [s0|] eqn:Lsh;
    [|discriminate Esv].
  injection Esv as ->.
  split; [|split].
  - exists (PDict setkv), employees, days, shifts.
    simpl. rewrite Ls, Le, Ld, Lsh. repeat split; assumption.
  - unfold prelude. simpl. rewrite Ls. cbn [bind py_item].
    rewrite Le, Ld, Lsh. cbn [bind py_get].
    assert (Hhas : existsb (fun v => is_str v "OFF") shifts = true).
    { apply existsb_exists. exists (PStr "OFF"). split; [assumption|reflexivity]. }
    cbn [has_key]. rewrite Hhas. cbn [bind negb].
    injection Esd as Esd.
    unfold default_off.
    destruct (dict_lookup (HStr "shifts") skv) as [sdv|] eqn:Lsd.
    + subst sdv. cbn [has_key bind].
      destruct (dict_lookup (HStr "OFF") kvs); cbn [bind py_setitem];
        [eauto|].
      rewrite Lsd. cbn [bind]. eauto.
    + injection Esd as <-. cbn [has_key dict_lookup bind py_setitem].
      rewrite Lsd. cbn [bind]. eauto.
  - intros cl Hcl. simpl in Ecv, Hcl. rewrite Hcl in Ecv. injection Ecv as <-.
    rewrite (Hcons cl eq_refl) in Hkinds.
    apply check_kinds_ok. intros c Hc'.
    destruct (In_nth_error _ _ Hc') as [i Hi].
    apply in_enumerate in Hi. exact (Hkinds _ Hi).
Qed.

Lemma accepted_spec_passes_first_checks_witness :
  (exists sets e d s,
      py_item spec_rota "sets" = Ok sets /\
      py_item sets "employees" = Ok (PList e) /\
      py_item sets "days" = Ok (PList d) /\
      py_item sets "shifts" = Ok (PList s) /\
      e <> [] /\ d <> [] /\ s <> [] /\
      NoDup (map hk e) /\ NoDup (map hk d) /\ NoDup (map hk s) /\
      In (PStr "OFF") s)
  /\ (exists spec' parts, prelude spec_rota = Ok (spec', parts))
  /\ (forall cl, py_get spec_rota "constraints" (PList []) = Ok (PList cl) ->
                 check_kinds cl = Ok tt).
Proof.
  eapply (accepted_spec_passes_first_checks spec_rota).
  - vm_compute. reflexivity.
  - reflexivity.
Defined.

(** ** The job table *)

Lemma select_update id st a b c d db :
  db_select id (db_update_status id st a b c d db)
  = option_map (updated st a b c d) (db_select id db).
Proof.
  unfold db_select, db_update_status.
  induction db as [|x db IH]; [reflexivity|]. cbn [map find].
  destruct (String.eqb (j_id x) id) eqn:E.
  - cbn [j_id]. rewrite E. reflexivity.
  - rewrite E. exact IH.
Qed.

Lemma select_insert blank id id' spec params db :
  db_select id' (db_insert_job blank id spec params db)
  = match db_select id' db with
    | Some j => Some j
    | None =>
        if String.eqb id id'
        then Some (Job id "queued" spec params (j_created_at blank)
                       (j_started_at blank) (j_finished_at blank)
                       (j_error blank) (j_result blank))
        else None
    end.
Proof.
  unfold db_select, db_insert_job.
  induction db as [|x db IH]; cbn [app find j_id].
  - destruct (String.eqb id id'); reflexivity.
  - destruct (String.eqb (j_id x) id'); [reflexivity | exact IH].
Qed.

(** What [/jobs/{job_id}/result] answers once [run_job] has returned, for a
    job that has a row: where [/solve] returns a schedule for the same
    spec, the job is [done] and its result is that body; where [/solve]
    returns [no_solution], the job is [failed] with the error
    [No feasible solution]; where [/solve] answers with an HTTP error, the
    job is [failed] with the text of the exception. *)
Theorem job_result_follows_solve
  (solver : cp_model -> Z -> Z -> solver_outcome) (t_start t_end : Z)
  (job_id : string) (spec : pyval) (max_time workers : Z) (db : table)
  (j : job) :
  db_select job_id db = Some j ->
  let answer :=
    get_job_result job_id
      (snd (run_job solver t_start t_end job_id spec max_time workers db)) in
  match snd (solve solver spec max_time workers) with
  | Returns NoSolution =>
      answer = Returns (Pending job_id "failed" (Some NoFeasibleSolution))
  | Returns body => answer = Returns (Done job_id (Some body))
  | HTTPException _ _ =>
      exists e,
        answer = Returns (Pending job_id "failed" (Some (ExceptionText e)))
  end.
Proof.
  intros Hj. unfold solve, run_job, get_job_result, db_get_result.
  destruct (compile_and_solve solver spec max_time workers) as [spec' r].
  cbn [snd].
  destruct r as [[|o s m c]|e].
  - cbn [solve_response]. rewrite !select_update, Hj. reflexivity.
  - cbn [solve_response]. rewrite !select_update, Hj. reflexivity.
  - assert (He : exists c d,
               solve_response (@Raise solve_result e) = HTTPException c d)
      by (destruct e; cbn; eauto).
    destruct He as (c & d & He). rewrite He. exists e.
    rewrite !select_update, Hj. reflexivity.
Qed.

(** [run_job] changes no row of another job, and leaves every row of its
    own job [done] or [failed], started at the first reading of the clock
    and finished at the second, with the spec, the parameters and the
    creation time it had. *)
Theorem run_job_rows
  (solver : cp_model -> Z -> Z -> solver_outcome) (t_start t_end : Z)
  (job_id : string) (spec : pyval) (max_time workers : Z) (db : table) :
  Forall2
    (fun before after =>
       if String.eqb (j_id before) job_id
       then j_id after = job_id /\
            (j_status after = "done" \/ j_status after = "failed") /\
            j_started_at after = Some t_start /\
            j_finished_at after = Some t_end /\
            j_spec after = j_spec before /\
            j_params after = j_params before /\
            j_created_at after = j_created_at before
       else after = before)
    db (snd (run_job solver t_start t_end job_id spec max_time workers db)).
Proof.
  unfold run_job.
  destruct (compile_and_solve solver spec max_time workers) as [spec' r].
  cbn [snd].
  induction db as [|x db IH].
  - destruct r as [[|o s m c]|e]; constructor.
  - assert (Hx : String.eqb (j_id x) job_id = true -> j_id x = job_id)
      by apply String.eqb_eq.
    destruct r as [[|o s m c]|e]; cbn [db_update_status map] in *;
      (constructor; [|exact IH]);
      destruct (String.eqb (j_id x) job_id) eqn:E;
      cbn [j_id]; rewrite ?E; cbn; auto 10.
Qed.

(** A spec that the validator accepts, under an identifier that no row
    has: [create_job] answers [queued] and starts [run_job] on the spec;
    afterwards [/jobs/{job_id}] shows the job as [queued],
    [/jobs/{job_id}/result] shows it as not done, and every other
    identifier is answered as before. *)
Theorem created_job_is_queued
  (blank : job) (job_id : string) (spec : pyval) (max_time workers : Z)
  (db : table) (v : validation) :
  validate_spec spec = Ok v -> v_ok v = true ->
  db_select job_id db = None ->
  exists db',
    create_job blank job_id spec max_time workers db
    = Ok (db', Returns (job_id, "queued"),
          Some (Task job_id spec max_time workers)) /\
    get_job job_id db'
    = Returns (JobView job_id "queued" (j_created_at blank)
                 (j_started_at blank) (j_finished_at blank) (j_error blank)) /\
    get_job_result job_id db'
    = Returns (Pending job_id "queued" (j_error blank)) /\
    (forall other, other <> job_id ->
                   get_job other db' = get_job other db /\
                   get_job_result other db' = get_job_result other db).
Proof.
  intros Hv Hok Hfresh. unfold create_job. rewrite Hv. cbn [bind].
  rewrite Hok. cbn [negb]. eexists. split; [reflexivity|].
  unfold get_job, get_job_result, db_get_job, db_get_result.
  repeat split.
  - rewrite select_insert, Hfresh, String.eqb_refl. reflexivity.
  - rewrite select_insert, Hfresh, String.eqb_refl. reflexivity.
  - rewrite select_insert.
    destruct (db_select other db); [reflexivity|].
    destruct (String.eqb job_id other) eqn:E; [|reflexivity].
    apply String.eqb_eq in E. congruence.
  - rewrite select_insert.
    destruct (db_select other db); [reflexivity|].
    destruct (String.eqb job_id other) eqn:E; [|reflexivity].
    apply String.eqb_eq in E. congruence.
Qed.

Lemma job_result_follows_solve_witness :
  db_select "job-1" [queued_rota] = Some queued_rota /\
  let answer :=
    get_job_result "job-1"
      (snd (run_job solver_two_nights 101 102 "job-1" spec_rota 15 8
              [queued_rota])) in
  match snd (solve solver_two_nights spec_rota 15 8) with
  | Returns NoSolution =>
      answer = Returns (Pending "job-1" "failed" (Some NoFeasibleSolution))
  | Returns body => answer = Returns (Done "job-1" (Some body))
  | HTTPException _ _ =>
      exists e,
        answer = Returns (Pending "job-1" "failed" (Some (ExceptionText e)))
  end.
Proof.
  split; [reflexivity|].
  apply (job_result_follows_solve solver_two_nights 101 102 "job-1" spec_rota
           15 8 [queued_rota] queued_rota).
  reflexivity.
Defined.

Lemma created_job_is_queued_witness :
  exists db',
    create_job blank_row "job-2" spec_rota 15 8 [queued_rota]
    = Ok (db', Returns ("job-2", "queued"),
          Some (Task "job-2" spec_rota 15 8)) /\
    get_job "job-2" db'
    = Returns (JobView "job-2" "queued" (j_created_at blank_row)
                 (j_started_at blank_row) (j_finished_at blank_row)
                 (j_error blank_row)) /\
    get_job_result "job-2" db'
    = Returns (Pending "job-2" "queued" (j_error blank_row)) /\
    (forall other, other <> "job-2" ->
                   get_job other db' = get_job other [queued_rota] /\
                   get_job_result other db'
                   = get_job_result other [queued_rota]).
Proof.
  eapply (created_job_is_queued blank_row "job-2" spec_rota 15 8
            [queued_rota]).
  - vm_compute. reflexivity.
  - reflexivity.
  - reflexivity.
Defined.

(** ** Windows *)

Lemma compile_kind_max_shifts cx ci ctype data w emps :
  compile_kind cx ci (PStr "max_shifts_in_window") ctype data w emps
  = compile_max_shifts cx data emps.
Proof. reflexivity. Qed.

Lemma compile_kind_max_minutes cx ci ctype data w emps :
  compile_kind cx ci (PStr "max_work_minutes_in_window") ctype data w emps
  = compile_max_minutes cx data emps.
Proof. reflexivity. Qed.

Lemma minutes_terms_value cx sm e sl a l terms :
  (forall k z, dict_lookup k sm = Some z -> z = def_minutes cx k) ->
  py_iter (c_sites cx) = Ok sl ->
  map_r (fun ds : nat * pyval =>
           m <- minutes_of sm (snd ds) ;;
           w <- works_shift cx (of_hkey e) (fst ds) (snd ds) ;;
           Ok (LScale m w)) l = Ok terms ->
  zsum (map (eval a) terms)
  = zsum (map (fun ds => def_minutes cx (hk (snd ds))
                         * works_value a sl e (fst ds) (snd ds)) l).
Proof.
  intros Hsm Hsl. revert terms.
  induction l as [|ds l IH]; simpl; intros terms H.
  - injection H as <-. reflexivity.
  - apply bind_ok in H. destruct H as [t [Et H]].
    apply bind_ok in H. destruct H as [ts [Ets H]]. injection H as <-.
    apply bind_ok in Et. destruct Et as [mn [Em Et]].
    apply bind_ok in Et. destruct Et as [w [Ew Et]]. injection Et as <-.
    simpl. unfold zsum in *. simpl. rewrite (IH _ Ets). f_equal.
    unfold minutes_of in Em.
    apply bind_ok in Em. destruct Em as [h [Eh Em]].
    destruct (dict_lookup h sm) as [z|] eqn:Ez; [|discriminate].
    injection Em as <-. rewrite (hk_ok _ _ Eh), (Hsm _ _ Ez).
    f_equal. eapply works_shift_value;
      [eassumption | apply to_hkey_of_hkey | assumption].
Qed.

(** [max_shifts_in_window]: in every solution of the compiled model, for an
    employee that the scope selects and every first day [start] of the
    horizon, the employee's assignments to the counted shifts over the days
    from [start] to [start + window_days - 1], cut at the end of the
    horizon, add up to at most [max]. *)
Theorem window_shifts_bounded
  spec spec' cx m cl c data emps e wv wd mv mx counted start sl a :
  compile_model spec = (spec', Ok (cx, m)) ->
  constraints_of (c_spec cx) = Ok cl -> In c cl ->
  constraint_selects cx c "max_shifts_in_window" data emps ->
  In e emps ->
  py_item data "window_days" = Ok wv -> py_int wv = Ok wd ->
  py_item data "max" = Ok mv -> py_int mv = Ok mx ->
  counted_shifts cx data "shifts" (work_shift_list cx) = Ok counted ->
  (start < n_days cx)%nat ->
  py_iter (c_sites cx) = Ok sl ->
  satisfies a m ->
  window_value a sl e (window_from (n_days cx) wd start) counted <= mx.
Proof.
  intros Hm Hcl Hin Hsel He Hwv Hwd Hmv Hmx Hcnt Hstart Hsl [_ Hrows].
  destruct (constraint_compiled _ _ _ _ _ _ _ _ _ Hm Hcl Hin Hsel)
    as (ci & ctype & weight & em & _ & _ & Hem & Hincl & _).
  rewrite compile_kind_max_shifts in Hem. unfold compile_max_shifts in Hem.
  rewrite Hwv in Hem. cbn [bind] in Hem. rewrite Hwd in Hem.
  cbn [bind] in Hem. rewrite Hmv in Hem. cbn [bind] in Hem.
  rewrite Hmx in Hem. cbn [bind] in Hem. rewrite Hcnt in Hem.
  cbn [bind] in Hem.
  apply bind_ok in Hem. destruct Hem as [mode [_ Hem]].
  destruct (negb (is_str mode "rolling")); [discriminate|].
  eapply for_each_iter in Hem; [| |exact He].
  2:{ intros x a0 a' _ Hx. cbv beta in Hx.
      apply bind_ok in Hx. destruct Hx as [rs [_ Hx]]. injection Hx as <-.
      apply extends_emit_rows. }
  destruct Hem as (a1 & a2 & Hbody & _ & X2). cbv beta in Hbody.
  apply bind_ok in Hbody. destruct Hbody as [rs [Hrs Hbody]].
  injection Hbody as <-. unfold max_shifts_rows in Hrs.
  destruct (map_r_ok_in _ _ _ start Hrs) as (r0 & Hr0 & Hr0in);
    [apply in_seq; lia|].
  cbv beta in Hr0. apply bind_ok in Hr0. destruct Hr0 as [expr [Hexpr Hr0]].
  injection Hr0 as <-.
  assert (Hrow : holds a (RLe expr (LConst mx))).
  { rewrite Forall_forall in Hrows. apply Hrows, Hincl.
    eapply extends_rows; [exact X2|]. simpl. apply in_or_app. now right. }
  simpl in Hrow. now rewrite (window_sum_value _ _ _ _ _ _ a Hexpr Hsl) in Hrow.
Qed.

(** [max_work_minutes_in_window]: in every solution of the compiled model,
    for an employee that the scope selects and every first day [start] of
    the horizon, the minutes of the counted shifts that the employee is
    assigned over the days from [start] to [start + window_days - 1], cut
    at the end of the horizon, add up to at most [max_minutes]; a shift
    counts with its [minutes] field, and with 0 when it has none. *)
Theorem window_minutes_bounded
  spec spec' cx m cl c data emps e wv wd mv mx counted start sl a :
  compile_model spec = (spec', Ok (cx, m)) ->
  constraints_of (c_spec cx) = Ok cl -> In c cl ->
  constraint_selects cx c "max_work_minutes_in_window" data emps ->
  In e emps ->
  py_item data "window_days" = Ok wv -> py_int wv = Ok wd ->
  py_item data "max_minutes" = Ok mv -> py_int mv = Ok mx ->
  counted_shifts cx data "shifts" (work_shift_list cx) = Ok counted ->
  (start < n_days cx)%nat ->
  py_iter (c_sites cx) = Ok sl ->
  satisfies a m ->
  window_minutes a cx sl e (window_from (n_days cx) wd start) counted <= mx.
Proof.
  intros Hm Hcl Hin Hsel He Hwv Hwd Hmv Hmx Hcnt Hstart Hsl [_ Hrows].
  destruct (constraint_compiled _ _ _ _ _ _ _ _ _ Hm Hcl Hin Hsel)
    as (ci & ctype & weight & em & _ & _ & Hem & Hincl & _).
  rewrite compile_kind_max_minutes in Hem. unfold compile_max_minutes in Hem.
  rewrite Hwv in Hem. cbn [bind] in Hem. rewrite Hwd in Hem.
  cbn [bind] in Hem. rewrite Hmv in Hem. cbn [bind] in Hem.
  rewrite Hmx in Hem. cbn [bind] in Hem. rewrite Hcnt in Hem.
  cbn [bind] in Hem.
  apply bind_ok in Hem. destruct Hem as [mode [_ Hem]].
  destruct (negb (is_str mode "rolling")); [discriminate|].
  apply bind_ok in Hem. destruct Hem as [sm [Hsm Hem]].
  pose proof (shift_minutes_spec _ _ Hsm) as Hdef.
  assert (Hday : forall e0 x a0 a',
             (terms <-
                map_r (fun ds : nat * pyval =>
                         m <- minutes_of sm (snd ds) ;;
                         w <- works_shift cx (of_hkey e0) (fst ds) (snd ds) ;;
                         Ok (LScale m w))
                      (list_prod (window_from (n_days cx) wd x) counted) ;;
              Ok (emit_row (RLe (lsum terms) (LConst mx)) a0)) = Ok a' ->
             extends a0 a').
  { intros e0 x a0 a' Hx.
    apply bind_ok in Hx. destruct Hx as [ts [_ Hx]]. injection Hx as <-.
    apply extends_emit_row. }
  eapply for_each_iter in Hem; [| |exact He].
  2:{ intros x a0 a' _ Hx. eapply for_each_extends; [|exact Hx].
      intros y b b' _ Hy. now apply Hday in Hy. }
  destruct Hem as (a1 & a2 & Hbody & _ & X2).
  eapply (for_each_iter _ _ start) in Hbody; [| |apply in_seq; lia].
  2:{ intros y b b' _ Hy. now apply Hday in Hy. }
  destruct Hbody as (b1 & b2 & Hbody & _ & X1).
  apply bind_ok in Hbody. destruct Hbody as [terms [Hterms Hbody]].
  injection Hbody as <-.
  assert (Hrow : holds a (RLe (lsum terms) (LConst mx))).
  { rewrite Forall_forall in Hrows. apply Hrows, Hincl.
    eapply extends_rows; [exact X2|]. eapply extends_rows; [exact X1|].
    simpl. apply in_or_app. right. now left. }
  simpl in Hrow. rewrite eval_lsum in Hrow.
  fold (zsum (map (eval a) terms)) in Hrow.
  unfold window_minutes.
  now rewrite (minutes_terms_value _ _ _ _ a _ _ Hdef Hsl Hterms) in Hrow.
Qed.

Lemma window_shifts_bounded_witness :
  window_value one_morning [PStr "SITE_DEFAULT"] (HStr "P1")
    (window_from (n_days cx_week) 7 1) [PStr "M"] <= 1.
Proof.
  eapply (window_shifts_bounded spec_week _ cx_week _ _ max_one_shift
            (obj [("window_days", PInt 7); ("max", PInt 1)])
            [HStr "P1"] (HStr "P1") (PInt 7) 7 (PInt 1) 1 [PStr "M"] 1%nat).
  - vm_compute. reflexivity.
  - vm_compute. reflexivity.
  - now left.
  - split; [reflexivity|]. exists (PDict []).
    repeat split; vm_compute; reflexivity.
  - now left.
  - reflexivity.
  - reflexivity.
  - reflexivity.
  - reflexivity.
  - vm_compute. reflexivity.
  - vm_compute. lia.
  - reflexivity.
  - apply satisfiesb_satisfies. vm_compute. reflexivity.
Defined.

Lemma window_minutes_bounded_witness :
  window_minutes long_days cx_hours [PStr "SITE_DEFAULT"] (HStr "P1")
    (window_from (n_days cx_hours) 2 0) [PStr "M"; PStr "E"] <= 480.
Proof.
  eapply (window_minutes_bounded spec_hours _ cx_hours _ _
            eight_hours_in_two_days
            (obj [("window_days", PInt 2); ("max_minutes", PInt 480)])
            [HStr "P1"] (HStr "P1") (PInt 2) 2 (PInt 480) 480
            [PStr "M"; PStr "E"] 0%nat).
  - vm_compute. reflexivity.
  - vm_compute. reflexivity.
  - now left.
  - split; [reflexivity|]. exists (PDict []).
    repeat split; vm_compute; reflexivity.
  - now left.
  - reflexivity.
  - reflexivity.
  - reflexivity.
  - reflexivity.
  - vm_compute. reflexivity.
  - vm_compute. lia.
  - reflexivity.
  - apply satisfiesb_satisfies. vm_compute. reflexivity.
Defined.
